(** * OpenFreeMap provisioning scripts: a shallow embedding

    The four scripts under [docker/scripts] are embedded here:
    - [init-download.py]      ([Module InitDownload]),
    - [extract-btrfs.py]      ([Module ExtractBtrfs]),
    - [download-assets.py]    ([Module DownloadAssets]),
    - [generate-nginx-config.py] ([Module NginxConfig]).

    Text is [string]: a sequence of characters with code points below 256;
    the strings inside a JSON document, which an escape can give any code
    point, are lists of code points.  Integers are Python integers, hence
    [Z].  The file system is a finite
    map from absolute paths to nodes.  Calls of external programs and of
    the HTTP client are events of a log; what they answer is read from an
    environment record. *)

From Stdlib Require Import ZArith Lia Bool Ascii DecimalZ DecimalPos DecimalFacts.
From stdpp Require Import gmap strings list sorting fin_maps.

(** ** Python string operations used by the scripts *)
Module PyStr.

(** [str.isspace] on one character (code points below 256). *)
Definition is_space (c : ascii) : bool :=
  let n := nat_of_ascii c in
  (((9 <=? n) && (n <=? 13)) || ((28 <=? n) && (n <=? 32))
  || (n =? 133) || (n =? 160))%nat.

Fixpoint lstrip (s : string) : string :=
  match s with
  | String c s' => if is_space c then lstrip s' else s
  | EmptyString => EmptyString
  end.

Definition rstrip (s : string) : string := String.rev (lstrip (String.rev s)).

(** [s.strip()] *)
Definition strip (s : string) : string := rstrip (lstrip s).

(** [s.split(sep)] for a separator of one character. *)
Fixpoint split (sep : ascii) (s : string) : list string :=
  match s with
  | EmptyString => [EmptyString]
  | String c s' =>
      if Ascii.eqb c sep then EmptyString :: split sep s'
      else match split sep s' with
           | w :: ws => String c w :: ws
           | [] => [String c EmptyString]
           end
  end.

(** [needle in hay] *)
Fixpoint contains (needle hay : string) : bool :=
  String.prefix needle hay
  || match hay with
     | EmptyString => false
     | String _ hay' => contains needle hay'
     end.

(** [s.startswith(p)] and [s.endswith(p)] *)
Definition startswith (s p : string) : bool := String.prefix p s.
Definition endswith (s p : string) : bool :=
  String.prefix (String.rev p) (String.rev s).

(** [sep.join(l)] *)
Fixpoint join (sep : string) (l : list string) : string :=
  match l with
  | [] => EmptyString
  | [x] => x
  | x :: l' => x +:+ sep +:+ join sep l'
  end.

(** [sorted(l)] on strings: ascending by code points. *)
Definition sorted (l : list string) : list string := merge_sort String.le l.

(** [s.replace(old, new)] for a non-empty [old]; [skip] characters of a
    match just replaced are still to be passed over. *)
Fixpoint replace_go (old new : string) (skip : nat) (s : string) : string :=
  match s with
  | EmptyString => EmptyString
  | String c s' =>
      match skip with
      | S k => replace_go old new k s'
      | O =>
          if String.prefix old s
          then new +:+ replace_go old new (String.length old - 1) s'
          else String c (replace_go old new 0 s')
      end
  end.
Definition replace (old new s : string) : string := replace_go old new 0 s.

Definition is_linebreak (c : ascii) : bool :=
  let n := nat_of_ascii c in
  (((10 <=? n) && (n <=? 13)) || ((28 <=? n) && (n <=? 30)) || (n =? 133))%nat.

(** [s.splitlines()]; [cur] is the line being read, reversed. *)
Fixpoint splitlines_go (after_cr : bool) (cur : string) (s : string) : list string :=
  match s with
  | EmptyString =>
      match cur with
      | EmptyString => []
      | _ => [String.rev cur]
      end
  | String c s' =>
      if after_cr && Ascii.eqb c "010"%char then splitlines_go false cur s'
      else if is_linebreak c
           then String.rev cur :: splitlines_go (Ascii.eqb c "013"%char) EmptyString s'
           else splitlines_go false (String c cur) s'
  end.
Definition splitlines (s : string) : list string := splitlines_go false EmptyString s.

Definition slash : ascii := "/"%char.
Definition newline : ascii := "010"%char.

End PyStr.

(** ** The machine the scripts run on: file system, loop devices, log *)
Module Sys.

(** An absolute path is the list of its components; [[]] is the root. *)
Definition path := list string.

Inductive node := Dir | File (content : string).

#[global] Instance node_eq_dec : EqDecision node.
Proof. solve_decision. Defined.

(** pathlib: the components a string contributes to a path (empty
    components and "." are dropped, ".." is kept as a name). *)
Definition parts (s : string) : list string :=
  List.filter (fun c => negb (String.eqb c "") && negb (String.eqb c "."))
              (PyStr.split PyStr.slash s).

(** [Path(s)], [p / s], [p.parent], [p.name], [str(p)].  [Path(s)] is
    meant for an [s] that starts with one slash, as the defaults of the
    scripts do: a relative [s] is read from the root, and the two leading
    slashes that pathlib keeps apart from one are not. *)
Definition Path (s : string) : path := parts s.
Definition pjoin (p : path) (s : string) : path :=
  if PyStr.startswith s "/" then parts s else p ++ parts s.
Definition parent (p : path) : path := removelast p.
Definition name (p : path) : string := List.last p "".
Definition render (p : path) : string := "/" +:+ PyStr.join "/" p.

Infix "/:" := pjoin (at level 40, left associativity).

(** A plain name: one component, as area names and version identifiers
    are; [".."], which the file system would resolve, is not one. *)
Definition is_name (s : string) : bool :=
  negb (String.eqb s "") && negb (String.eqb s ".")
  && negb (String.eqb s "..") && negb (PyStr.contains "/" s).

(** Messages the scripts print, kept structured: a byte count that is
    printed in gigabytes is kept as the count (the division that makes the
    gigabytes can overflow, see [InitDownload.gigabytes]). *)
Inductive msg :=
| MsgFetchingVersions (area : string)
| MsgNoVersions (area : string)
| MsgLatestVersion (area version : string)
| MsgErrorFetchingVersions
| MsgFailedLatest (area : string)
| MsgAlreadyExists (p : path)
| MsgDownloading (what : string)
| MsgWarnUnknownSize
| MsgDiskCheck (free needed : Z)
| MsgNotEnoughSpace (free needed : Z)
| MsgDecompressing
| MsgSuccess (p : path)
| MsgSkipping (what : string)
| MsgExtracting (p : path)
| MsgError (what : string)
| MsgMounting (file mount_point : path)
| MsgUnmounting (mount_point : path)
| MsgUnmountWarning
| MsgNotFound (p : path)
| MsgCopying (src dst : path)
| MsgCopiedMetadata
| MsgInfo (text : string)
| MsgGenerated (what : string) (count : nat).

Inductive event :=
| EvHttpGet (url : string)
| EvHttpHead (url : string)
| EvRun (cmd : list string)
| EvPrint (m : msg).

Record world := World {
  w_fs : gmap path node;
  w_loops : list (string * path);   (* attached loop devices, with backing file *)
  w_mounts : list (path * string);  (* mount points, with the mounted device *)
  w_log : list event;               (* oldest first *)
}.

Inductive http_reply :=
| HttpFailed                                  (* the request raised *)
| HttpReply (status : Z) (text : string).

Inductive content_length := ClAbsent | ClInt (n : Z) | ClGarbage.

Inductive head_reply :=
| HeadFailed
| HeadReply (status : Z) (cl : content_length).

(** What the outside answers. *)
Record env := Env {
  getenv : string -> option string;
  http_get : string -> http_reply;
  http_head : string -> head_reply;
  statvfs : path -> Z * Z;                      (* f_bavail, f_frsize *)
  fetch : string -> option string;              (* aria2c: the bytes at a url *)
  gunzip : string -> option string;             (* unpigz *)
  untar : string -> option (list (path * node));(* tar -xzf: relative entries *)
  loop_devices : list string;                   (* the loop devices there are *)
  loop_attach_ok : bool;
  image : string -> option (list (path * node));(* a btrfs image's tree, if mountable *)
  rsync_ok : bool;
  copy_ok : bool;
  umount_ok : bool;
  detach_ok : bool;
  mkdtemp : path;
  float_repr : string -> string;  (* [repr(float(s))] as JSON text, for a number [s]
                                     written with a fraction or an exponent *)
  max_str_digits : nat;           (* [sys.get_int_max_str_digits()]: 4300 unless
                                     set otherwise, 0 for no limit *)
  load_depth : nat;               (* how many arrays and objects within one another
                                     [json.load] enters before [RecursionError] *)
  dump_depth : nat;               (* how many frames [json.dump] can enter before
                                     [RecursionError] *)
}.

Inductive exn :=
| CalledProcessError (cmd : list string)
| OSError (p : path)
| RequestException (url : string)
| TypeError
| JSONDecodeError
| ValueError
| RecursionError
| OverflowError.

Inductive outcome (A : Type) :=
| Done (a : A)
| Raised (e : exn).
Arguments Done {A} a.
Arguments Raised {A} e.

(** A run: how it ended, the world it left, and every world it passed
    through, one per atomic action, oldest first.  A process killed during
    the run leaves one of the worlds of [hist] (or the initial one). *)
Record run (A : Type) := Run {
  out : outcome A;
  fin : world;
  hist : list world;
}.
Arguments Run {A} out fin hist.
Arguments out {A} r.
Arguments fin {A} r.
Arguments hist {A} r.

Definition M (A : Type) := world -> run A.

Definition ret {A} (a : A) : M A := fun w => Run (Done a) w [].
Definition raise {A} (e : exn) : M A := fun w => Run (Raised e) w [].

Definition bind {A B} (m : M A) (f : A -> M B) : M B := fun w =>
  let r := m w in
  match out r with
  | Done a => let r' := f a (fin r) in Run (out r') (fin r') (hist r ++ hist r')
  | Raised e => Run (Raised e) (fin r) (hist r)
  end.

#[global] Instance M_ret : MRet M := @ret.
#[global] Instance M_bind : MBind M := fun A B f m => bind m f.

(** One atomic action. *)
Definition act {A} (f : world -> outcome A * world) : M A := fun w =>
  let '(o, w') := f w in Run o w' [w'].

(** Reading the world is no action. *)
Definition gets {A} (f : world -> A) : M A := fun w => Run (Done (f w)) w [].

(** [try: m except Exception: h] *)
Definition try_except {A} (m : M A) (h : exn -> M A) : M A := fun w =>
  let r := m w in
  match out r with
  | Done a => r
  | Raised e => let r' := h e (fin r) in Run (out r') (fin r') (hist r ++ hist r')
  end.

(** [try: m finally: c]: [c] runs however [m] ended; what [m] returned or
    raised stands unless [c] raises. *)
Definition try_finally {A} (m : M A) (c : M unit) : M A := fun w =>
  let r := m w in
  let r' := c (fin r) in
  Run (match out r' with Done _ => out r | Raised e => Raised e end)
      (fin r') (hist r ++ hist r').

Definition set_fs (w : world) (m : gmap path node) : world :=
  World m (w_loops w) (w_mounts w) (w_log w).
Definition log (w : world) (e : event) : world :=
  World (w_fs w) (w_loops w) (w_mounts w) (w_log w ++ [e]).

Definition print (m : msg) : M unit := act (fun w => (Done tt, log w (EvPrint m))).

(** *** File system *)
Definition exists_ (m : gmap path node) (p : path) : bool :=
  bool_decide (is_Some (m !! p)).
Definition is_dir (m : gmap path node) (p : path) : bool :=
  bool_decide (m !! p = Some Dir).

(** The prefixes of a path, shortest first: [[]], ..., the path itself. *)
Fixpoint prefixes (p : path) : list path :=
  match p with
  | [] => [[]]
  | c :: p' => [] :: List.map (cons c) (prefixes p')
  end.

Definition mkdir1 (acc : option (gmap path node)) (q : path) : option (gmap path node) :=
  match acc with
  | None => None
  | Some m =>
      match m !! q with
      | Some (File _) => None
      | Some Dir => Some m
      | None => Some (<[q := Dir]> m)
      end
  end.

(** [p.mkdir(parents=True, exist_ok=True)]: [None] when a file is in the way. *)
Definition mkdir_p (m : gmap path node) (p : path) : option (gmap path node) :=
  foldl mkdir1 (Some m) (prefixes p).

Definition is_prefix (p q : path) : bool :=
  bool_decide (p = take (length p) q).

(** [rm -rf p] *)
Definition rm_rf (m : gmap path node) (p : path) : gmap path node :=
  filter (fun kv => is_prefix p kv.1 = false) m.

(** The name of [q] when [q] is an entry of the directory [p]. *)
Definition child_name (p q : path) : option string :=
  match reverse q with
  | n :: r => if decide (reverse r = p) then Some n else None
  | [] => None
  end.

(** [p.iterdir()], as names; the order is the map's. *)
Definition iterdir (m : gmap path node) (p : path) : list string :=
  omap (fun kv => child_name p kv.1) (map_to_list m).

(** The entries strictly below [p], relative to [p]. *)
Definition subtree (m : gmap path node) (p : path) : list (path * node) :=
  omap (fun kv => if is_prefix p kv.1 && negb (bool_decide (kv.1 = p))
                  then Some (drop (length p) kv.1, kv.2) else None)
       (map_to_list m).

(** Put relative entries below [p]. *)
Definition graft (m : gmap path node) (p : path) (es : list (path * node)) : gmap path node :=
  foldr (fun kv acc => <[p ++ kv.1 := kv.2]> acc) m es.

Definition mkdir_parents (p : path) : M unit := act (fun w =>
  match mkdir_p (w_fs w) p with
  | Some m => (Done tt, set_fs w m)
  | None => (Raised (OSError p), w)
  end).

(** [src.rename(dst)] for a file [src]: atomic. *)
Definition rename (src dst : path) : M unit := act (fun w =>
  match w_fs w !! src, w_fs w !! dst, w_fs w !! parent dst with
  | Some (File c), (None | Some (File _)), Some Dir =>
      (Done tt, set_fs w (<[dst := File c]> (delete src (w_fs w))))
  | _, _, _ => (Raised (OSError src), w)
  end).

(** [p.unlink()] *)
Definition unlink (p : path) : M unit := act (fun w =>
  match w_fs w !! p with
  | Some (File _) => (Done tt, set_fs w (delete p (w_fs w)))
  | _ => (Raised (OSError p), w)
  end).

(** [subprocess.run(cmd, check=True)]: the call is logged, then [effect]
    tells what the program did and whether it exited with status 0. *)
Definition subprocess_run (cmd : list string) (effect : world -> bool * world) : M unit :=
  act (fun w =>
    let '(ok, w') := effect (log w (EvRun cmd)) in
    (if ok then Done tt else Raised (CalledProcessError cmd), w')).

(** Every entry's ancestors are directories. *)
Definition fs_wf (m : gmap path node) : bool :=
  forallb (fun kv => forallb (is_dir m) (prefixes (removelast kv.1)))
          (map_to_list m).

(** [open(p, 'r').read()] *)
Definition read_file (p : path) : M string := fun w =>
  match w_fs w !! p with
  | Some (File c) => Run (Done c) w []
  | _ => Run (Raised (OSError p)) w []
  end.

(** [with open(p, 'w') as f: f.write(c)]: opening truncates (or creates)
    the file, then the text is written. *)
Definition write_file (p : path) (c : string) : M unit :=
  act (fun w =>
    match w_fs w !! p, w_fs w !! parent p with
    | (None | Some (File _)), Some Dir => (Done tt, set_fs w (<[p := File ""]> (w_fs w)))
    | _, _ => (Raised (OSError p), w)
    end);;
  act (fun w => (Done tt, set_fs w (<[p := File c]> (w_fs w)))).

(** [p.iterdir()]; raises when [p] is no directory. *)
Definition iterdir_m (p : path) : M (list string) := fun w =>
  if is_dir (w_fs w) p then Run (Done (iterdir (w_fs w) p)) w []
  else Run (Raised (OSError p)) w [].

(** [for x in l: body x], collecting what the bodies append. *)
Fixpoint for_each {A B} (l : list A) (body : A -> M (list B)) : M (list B) :=
  match l with
  | [] => mret []
  | x :: l' => ys ← body x; zs ← for_each l' body; mret (ys ++ zs)
  end.

End Sys.

(** ** init-download.py *)
Module InitDownload.
Import Sys.

Section WithEnv.
Variable e : env.

(** [get_remote_file_size(url)] *)
Definition get_remote_file_size (url : string) : M Z :=
  r ← act (fun w => (Done (http_head e url), log w (EvHttpHead url)));
  match r with
  | HeadFailed => print (MsgError "getting file size");; mret 0%Z
  | HeadReply status cl =>
      if (status =? 200)%Z then
        match cl with
        | ClAbsent => mret 0%Z
        | ClInt n => mret n
        | ClGarbage => print (MsgError "getting file size");; mret 0%Z
        end
      else mret 0%Z
  end.

Definition aria2c_cmd (url : string) (output_path : path) : list string :=
  ["aria2c"; "--max-connection-per-server=16"; "--split=16";
   "--min-split-size=1M"; "--file-allocation=none";
   "--console-log-level=warn"; "--summary-interval=5";
   "--download-result=hide";
   "-d"; render (parent output_path); "-o"; name output_path; url].

(** aria2c writes the file in place: it is there, incomplete, before the
    transfer ends.  A file already at the path is replaced, as when a
    stopped transfer is taken up again; that aria2c may instead give a new
    name to a transfer next to a finished file is not modelled. *)
Definition aria2c (cmd : list string) (url : string) (output_path : path) : M unit :=
  act (fun w =>
    let w1 := log w (EvRun cmd) in
    if is_dir (w_fs w) (parent output_path)
    then (Done tt, set_fs w1 (<[output_path := File ""]> (w_fs w)))
    else (Raised (CalledProcessError cmd), w1));;
  act (fun w =>
    match fetch e url with
    | Some c => (Done tt, set_fs w (<[output_path := File c]> (w_fs w)))
    | None => (Raised (CalledProcessError cmd), w)
    end).

(** [download_file_aria2(url, output_path)] *)
Definition download_file_aria2 (url : string) (output_path : path) : M unit :=
  print (MsgDownloading url);;
  aria2c (aria2c_cmd url output_path) url output_path.

(** The versions the loop of [get_latest_version] collects from the lines. *)
Definition collect_versions (area : string) (lines : list string) : list string :=
  flat_map (fun line =>
    if PyStr.contains ("areas/" +:+ area +:+ "/") line
       && PyStr.contains "tiles.btrfs.gz" line
    then
      let parts := PyStr.split PyStr.slash line in
      if (4 <=? length parts)%nat then [nth 2 parts ""] else []
    else []) lines.

(** [sorted(versions)[-1]] when [versions] is not empty *)
Definition latest_of (versions : list string) : option string :=
  match versions with
  | [] => None
  | _ => last (PyStr.sorted versions)
  end.

Definition listing_lines (text : string) : list string :=
  PyStr.split PyStr.newline (PyStr.strip text).

Definition cdn_url : string :=
  default "https://btrfs.openfreemap.com" (getenv e "BTRFS_CDN_URL").

(** [get_latest_version(area)] *)
Definition get_latest_version (area : string) : M (option string) :=
  let url := cdn_url +:+ "/files.txt" in
  print (MsgFetchingVersions area);;
  try_except
    (r ← act (fun w => (Done (http_get e url), log w (EvHttpGet url)));
     match r with
     | HttpFailed => raise (RequestException url)
     | HttpReply status text =>
         if ((400 <=? status) && (status <? 600))%Z
         then raise (RequestException url)
         else
           let versions := collect_versions area (listing_lines text) in
           match latest_of versions with
           | None => print (MsgNoVersions area);; mret None
           | Some latest => print (MsgLatestVersion area latest);; mret (Some latest)
           end
     end)
    (fun _ => print MsgErrorFetchingVersions;; mret None).

(** unpigz: decompresses [f] next to it, under the name without [.gz],
    and removes [f]; the output is there, incomplete, before it ends.  It
    does not overwrite: with the output already there it fails. *)
Definition drop_gz (s : string) : string :=
  if PyStr.endswith s ".gz"
  then String.rev match String.rev s with
                  | String _ (String _ (String _ r)) => r
                  | r => r
                  end
  else s.

Definition unpigz (f : path) : M unit :=
  let cmd := ["unpigz"; render f] in
  let target := parent f ++ [drop_gz (name f)] in
  act (fun w =>
    let w1 := log w (EvRun cmd) in
    match w_fs w !! f, w_fs w !! target with
    | Some (File c), None =>
        match gunzip e c with
        | Some _ => (Done tt, set_fs w1 (<[target := File ""]> (w_fs w)))
        | None => (Raised (CalledProcessError cmd), w1)
        end
    | _, _ => (Raised (CalledProcessError cmd), w1)
    end);;
  act (fun w =>
    match w_fs w !! f with
    | Some (File c) =>
        match gunzip e c with
        | Some d => (Done tt, set_fs w (<[target := File d]> (delete f (w_fs w))))
        | None => (Raised (CalledProcessError cmd), w)
        end
    | _ => (Raised (CalledProcessError cmd), w)
    end).

(** The paths [download_area] works with. *)
Definition area_version_dir (output_dir : path) (area version : string) : path :=
  output_dir /: area /: version.
Definition btrfs_file (output_dir : path) (area version : string) : path :=
  area_version_dir output_dir area version /: "tiles.btrfs".
Definition temp_dir (output_dir : path) : path := output_dir /: "_tmp".
Definition compressed_file (output_dir : path) : path :=
  temp_dir output_dir /: "tiles.btrfs.gz".
Definition decompressed_file (output_dir : path) : path :=
  temp_dir output_dir /: "tiles.btrfs".
Definition archive_url (area version : string) : string :=
  cdn_url +:+ "/areas/" +:+ area +:+ "/" +:+ version +:+ "/tiles.btrfs.gz".

(** The end of [download_area], from the download on; both branches of
    the disk space check that do not return come here. *)
Definition download_and_place (area version : string) (output_dir : path) : M bool :=
  let area_version_dir := area_version_dir output_dir area version in
  let btrfs_file := btrfs_file output_dir area version in
  let temp_dir := temp_dir output_dir in
  let url := archive_url area version in
  let compressed_file := compressed_file output_dir in
  (* Download the compressed file *)
  download_file_aria2 url compressed_file;;
  (* Decompress *)
  print MsgDecompressing;;
  unpigz compressed_file;;
  (* Move to final location *)
  mkdir_parents area_version_dir;;
  let decompressed_file := decompressed_file output_dir in
  rename decompressed_file btrfs_file;;
  (* Clean up temp *)
  subprocess_run ["rm"; "-rf"; render temp_dir]
    (fun w => (true, set_fs w (rm_rf (w_fs w) temp_dir)));;
  print (MsgSuccess btrfs_file);;
  mret true.

(** [a / (1024**3)], the gigabytes of a count of bytes.  Dividing two
    integers gives the float nearest to the quotient and raises
    [OverflowError] when that is none of the floats, which is from
    2^1024 - 2^970 on, the middle between the greatest float and 2^1024.
    The quotient is only printed, and the messages of the model keep the
    count of bytes. *)
Definition gigabytes_bound : Z := (2 ^ 1054 - 2 ^ 1000)%Z.

Definition gigabytes (a : Z) : M unit :=
  if (gigabytes_bound <=? Z.abs a)%Z then raise OverflowError else mret tt.

(** [download_area(area, version, output_dir)] *)
Definition download_area (area version : string) (output_dir : path) : M bool :=
  mkdir_parents output_dir;;
  (* Get latest version if needed *)
  v ← (if String.eqb version "latest" then
         v ← get_latest_version area;
         match v with
         | None | Some "" => print (MsgFailedLatest area);; mret None
         | Some v => mret (Some v)
         end
       else mret (Some version));
  match v with
  | None => mret false
  | Some version =>
      let btrfs_file := btrfs_file output_dir area version in
      (* Skip if already exists *)
      present ← gets (fun w => exists_ (w_fs w) btrfs_file);
      if present : bool then
        print (MsgAlreadyExists btrfs_file);; mret true
      else
        (* Create temp directory *)
        let temp_dir := temp_dir output_dir in
        mkdir_parents temp_dir;;
        let url := archive_url area version in
        print (MsgDownloading (area +:+ " " +:+ version));;
        print (MsgDownloading url);;
        (* Check available disk space *)
        let stat := statvfs e temp_dir in
        let free_space := (stat.1 * stat.2)%Z in
        file_size ← get_remote_file_size url;
        if (file_size =? 0)%Z then
          print MsgWarnUnknownSize;;
          download_and_place area version output_dir
        else
          (* Need 3x space: compressed + uncompressed + safety margin *)
          let needed_space := (file_size * 3)%Z in
          gigabytes free_space;;    (* free_gb *)
          gigabytes needed_space;;  (* needed_gb *)
          print (MsgDiskCheck free_space needed_space);;
          if (free_space <? needed_space)%Z then
            print (MsgNotEnoughSpace free_space needed_space);;
            mret false
          else download_and_place area version output_dir
  end.

(** The script run as a program; what is returned is the exit status
    ([sys.exit(1)] when the download did not succeed). *)
Definition main : M Z :=
  let area := default "planet" (getenv e "AREA") in
  let version := default "latest" (getenv e "VERSION") in
  let output_dir := default "/data/btrfs" (getenv e "BTRFS_DIR") in
  print (MsgInfo ("Downloading area: " +:+ area +:+ ", version: " +:+ version));;
  success ← download_area area version (Path output_dir);
  if negb success then mret 1%Z else mret 0%Z.

End WithEnv.
End InitDownload.

#[local] Set Warnings "-register-all".

(** ** JSON documents: [json.load] and [json.dump]

    An integer is a [Z].  A string is the list of its code points, so
    that a [\u] escape of any value, and a pair of surrogate escapes, are
    read as the scanner reads them and written as the encoder writes them.
    A float is kept as the text [json.dump] writes for it: what Python
    makes of a number written with a fraction or an exponent is left to a
    function [float_repr], of which the proofs assume that it gives the
    text of a float and gives that text back when applied to it.

    Three limits of the interpreter are parameters: the most digits of an
    integer that is converted from or to text, the number of arrays and
    objects within one another that the scanner enters, and the number of
    frames the encoder can enter.  [load] gives [None] where [json.load]
    raises (a [JSONDecodeError], a [ValueError] for an integer over the
    digit limit, a [RecursionError] past the depth); [dump] gives the text
    written until it ended or was stopped, and the exception that stopped
    it. *)
Module Json.
Import Sys.

(** The code points of a text of the scripts. *)
Definition of_string (s : string) : list N :=
  List.map N_of_ascii (String.list_ascii_of_string s).

Inductive value :=
| Null
| Bool (b : bool)
| Int (n : Z)
| Float (repr : string)   (* a float, by the text [json.dump] writes for it *)
| Str (s : list N)        (* a string, by its code points *)
| Arr (items : list value)
| Obj (members : list (list N * value)).

(** A Python [dict] keeps insertion order and has each key once. *)
Fixpoint dict_get (k : list N) (d : list (list N * value)) : option value :=
  match d with
  | [] => None
  | (k', v) :: d' => if bool_decide (k' = k) then Some v else dict_get k d'
  end.

(** [d[k] = v] *)
Fixpoint dict_set (k : list N) (v : value) (d : list (list N * value))
  : list (list N * value) :=
  match d with
  | [] => [(k, v)]
  | (k', v') :: d' =>
      if bool_decide (k' = k) then (k, v) :: d' else (k', v') :: dict_set k v d'
  end.

Definition dquote : ascii := "034"%char.
Definition backslash : ascii := "\"%char.

(** *** Writing *)
Definition hex_digit (n : N) : ascii :=
  if (n <? 10)%N then ascii_of_N (48 + n) else ascii_of_N (87 + n).

(** ['\\u{0:04x}'.format(n)] *)
Definition u_escape (n : N) : list ascii :=
  [backslash; "u"%char;
   hex_digit (n / 4096 mod 16); hex_digit (n / 256 mod 16);
   hex_digit (n / 16 mod 16); hex_digit (n mod 16)]%N.

(** One character of a string, as [json.dump] writes it ([ensure_ascii]):
    a code point from 0x10000 on is written as its two surrogates. *)
Definition escape_char (n : N) : list ascii :=
  if (n =? 34)%N then [backslash; dquote]
  else if (n =? 92)%N then [backslash; backslash]
  else if (n =? 10)%N then [backslash; "n"%char]
  else if (n =? 13)%N then [backslash; "r"%char]
  else if (n =? 9)%N then [backslash; "t"%char]
  else if (n =? 8)%N then [backslash; "b"%char]
  else if (n =? 12)%N then [backslash; "f"%char]
  else if ((32 <=? n) && (n <=? 126))%N then [ascii_of_N n]
  else if (n <? 65536)%N then u_escape n
  else
    let m := (n - 65536)%N in
    (u_escape (55296 + m / 1024 mod 1024) ++ u_escape (56320 + m mod 1024))%N.

Definition dump_string (s : list N) : list ascii :=
  dquote :: flat_map escape_char s ++ [dquote].

Fixpoint dump_uint (d : Decimal.uint) : list ascii :=
  match d with
  | Decimal.Nil => []
  | Decimal.D0 d => "0"%char :: dump_uint d
  | Decimal.D1 d => "1"%char :: dump_uint d
  | Decimal.D2 d => "2"%char :: dump_uint d
  | Decimal.D3 d => "3"%char :: dump_uint d
  | Decimal.D4 d => "4"%char :: dump_uint d
  | Decimal.D5 d => "5"%char :: dump_uint d
  | Decimal.D6 d => "6"%char :: dump_uint d
  | Decimal.D7 d => "7"%char :: dump_uint d
  | Decimal.D8 d => "8"%char :: dump_uint d
  | Decimal.D9 d => "9"%char :: dump_uint d
  end.

Definition dump_int (n : Z) : list ascii :=
  match Z.to_int n with
  | Decimal.Pos d => dump_uint d
  | Decimal.Neg d => "-"%char :: dump_uint d
  end.

(** [json.dumps(v, separators=(',', ':'))], when nothing stops it. *)
Fixpoint dumps (v : value) : list ascii :=
  match v with
  | Null => String.list_ascii_of_string "null"
  | Bool true => String.list_ascii_of_string "true"
  | Bool false => String.list_ascii_of_string "false"
  | Int n => dump_int n
  | Float repr => String.list_ascii_of_string repr
  | Str s => dump_string s
  | Arr items =>
      "["%char ::
      (fix go (l : list value) : list ascii :=
         match l with
         | [] => []
         | [x] => dumps x
         | x :: l' => dumps x ++ ","%char :: go l'
         end) items ++ ["]"%char]
  | Obj members =>
      "{"%char ::
      (fix go (l : list (list N * value)) : list ascii :=
         match l with
         | [] => []
         | [(k, x)] => dump_string k ++ ":"%char :: dumps x
         | (k, x) :: l' => dump_string k ++ ":"%char :: dumps x ++ ","%char :: go l'
         end) members ++ ["}"%char]
  end.

Fixpoint dump_items (l : list value) : list ascii :=
  match l with
  | [] => []
  | [x] => dumps x
  | x :: l' => dumps x ++ ","%char :: dump_items l'
  end.

Fixpoint dump_members (l : list (list N * value)) : list ascii :=
  match l with
  | [] => []
  | [(k, x)] => dump_string k ++ ":"%char :: dumps x
  | (k, x) :: l' => dump_string k ++ ":"%char :: dumps x ++ ","%char :: dump_members l'
  end.

Definition is_scalar (v : value) : bool :=
  match v with
  | Arr _ | Obj _ => false
  | _ => true
  end.

(** Python looks at the limit for an integer of more than 640 digits
    only, and accepts no limit below 640 but 0. *)
Definition digits_threshold : nat := 640.

Section Limits.
(** [sys.get_int_max_str_digits()]: the most digits of an integer that is
    read from text or written as text, 0 for no limit (4300 unless set). *)
Variable max_str_digits : nat.

Definition digits_ok (d : Decimal.uint) : bool :=
  (Decimal.nb_digits d <=? digits_threshold)%nat
  || (max_str_digits =? 0)%nat
  || (Decimal.nb_digits d <=? max_str_digits)%nat.

Definition int_ok (n : Z) : bool :=
  match Z.to_int n with
  | Decimal.Pos d | Decimal.Neg d => digits_ok d
  end.

(** What [json.dump(v, f, separators=(',', ':'))] has written when it
    ends, and the exception it ends with, if any.  The encoder is the one
    written in Python, a generator per array and object that yields the
    text in pieces: [frames] is the number of frames the interpreter lets
    it enter below the first one.  An array or an object takes a frame for
    as long as it is written, and so does the function that writes a
    float; with none left, [RecursionError] is raised.  An integer of more
    digits than allowed raises [ValueError].  In an array the bracket or
    comma before an element is yielded together with a scalar element, and
    on its own before an array or object; in an object the comma, the key
    and the colon are yielded before the value. *)
Fixpoint dumps_to (frames : nat) (v : value) {struct v} : list ascii * option exn :=
  match v with
  | Null => (String.list_ascii_of_string "null", None)
  | Bool true => (String.list_ascii_of_string "true", None)
  | Bool false => (String.list_ascii_of_string "false", None)
  | Int n => if int_ok n then (dump_int n, None) else ([], Some ValueError)
  | Float repr =>
      match frames with
      | O => ([], Some RecursionError)
      | S _ => (String.list_ascii_of_string repr, None)
      end
  | Str s => (dump_string s, None)
  | Arr items =>
      match frames with
      | O => ([], Some RecursionError)
      | S frames' =>
          match items with
          | [] => (String.list_ascii_of_string "[]", None)
          | _ =>
              (fix go (buf : list ascii) (l : list value) : list ascii * option exn :=
                 match l with
                 | [] => (["]"%char], None)
                 | x :: l' =>
                     match dumps_to frames' x with
                     | (t, None) =>
                         let '(t', stop) := go [","%char] l' in (buf ++ t ++ t', stop)
                     | (t, Some ex) =>
                         (if is_scalar x then [] else buf ++ t, Some ex)
                     end
                 end) ["["%char] items
          end
      end
  | Obj members =>
      match frames with
      | O => ([], Some RecursionError)
      | S frames' =>
          match members with
          | [] => (String.list_ascii_of_string "{}", None)
          | _ =>
              (fix go (buf : list ascii) (l : list (list N * value))
                 : list ascii * option exn :=
                 match l with
                 | [] => (["}"%char], None)
                 | (k, x) :: l' =>
                     let head := buf ++ dump_string k ++ [":"%char] in
                     match dumps_to frames' x with
                     | (t, None) =>
                         let '(t', stop) := go [","%char] l' in (head ++ t ++ t', stop)
                     | (t, Some ex) => (head ++ t, Some ex)
                     end
                 end) ["{"%char] members
          end
      end
  end.

Definition dump (frames : nat) (v : value) : string * option exn :=
  let '(t, stop) := dumps_to frames v in (String.string_of_list_ascii t, stop).

End Limits.

(** *** Reading *)
Definition is_ws (c : ascii) : bool :=
  let n := N_of_ascii c in
  ((n =? 32) || (n =? 9) || (n =? 10) || (n =? 13))%N.

Fixpoint skip_ws (s : list ascii) : list ascii :=
  match s with
  | c :: s' => if is_ws c then skip_ws s' else s
  | [] => []
  end.

Definition hex_value (c : ascii) : option N :=
  let n := N_of_ascii c in
  if ((48 <=? n) && (n <=? 57))%N then Some (n - 48)%N
  else if ((97 <=? n) && (n <=? 102))%N then Some (n - 87)%N
  else if ((65 <=? n) && (n <=? 70))%N then Some (n - 55)%N
  else None.

(** The four hexadecimal digits of an escape. *)
Definition hex4_value (h1 h2 h3 h4 : ascii) : option N :=
  match hex_value h1, hex_value h2, hex_value h3, hex_value h4 with
  | Some a, Some b, Some c, Some d => Some (((a * 16 + b) * 16 + c) * 16 + d)%N
  | _, _, _, _ => None
  end.

Definition is_high (n : N) : bool := ((55296 <=? n) && (n <=? 56319))%N.
Definition is_low (n : N) : bool := ((56320 <=? n) && (n <=? 57343))%N.
Definition join_surrogates (high low : N) : N :=
  (65536 + (high - 55296) * 1024 + (low - 56320))%N.

(** The characters of a string up to its closing quote.  An escape of a
    high surrogate that is followed by an escape of a low one gives the one
    code point of the pair. *)
Fixpoint parse_chars (s : list ascii) : option (list N * list ascii) :=
  match s with
  | [] => None
  | c :: r =>
      if Ascii.eqb c dquote then Some ([], r)
      else if Ascii.eqb c backslash then
        match r with
        | [] => None
        | x :: r1 =>
            let simple (y : N) :=
              match parse_chars r1 with
              | Some (cs, rest) => Some (y :: cs, rest)
              | None => None
              end in
            if Ascii.eqb x dquote then simple 34%N
            else if Ascii.eqb x backslash then simple 92%N
            else if Ascii.eqb x "/"%char then simple 47%N
            else if Ascii.eqb x "b"%char then simple 8%N
            else if Ascii.eqb x "f"%char then simple 12%N
            else if Ascii.eqb x "n"%char then simple 10%N
            else if Ascii.eqb x "r"%char then simple 13%N
            else if Ascii.eqb x "t"%char then simple 9%N
            else if Ascii.eqb x "u"%char then
              match r1 with
              | h1 :: h2 :: h3 :: h4 :: r2 =>
                  match hex4_value h1 h2 h3 h4 with
                  | Some n =>
                      let single :=
                        match parse_chars r2 with
                        | Some (cs, rest) => Some (n :: cs, rest)
                        | None => None
                        end in
                      if is_high n then
                        match r2 with
                        | b :: u :: l1 :: l2 :: l3 :: l4 :: r3 =>
                            if Ascii.eqb b backslash && Ascii.eqb u "u"%char then
                              match hex4_value l1 l2 l3 l4 with
                              | Some m =>
                                  if is_low m then
                                    match parse_chars r3 with
                                    | Some (cs, rest) =>
                                        Some (join_surrogates n m :: cs, rest)
                                    | None => None
                                    end
                                  else single
                              | None => None
                              end
                            else single
                        | _ => single
                        end
                      else single
                  | None => None
                  end
              | _ => None
              end
            else None
        end
      else if (N_of_ascii c <? 32)%N then None
      else
        match parse_chars r with
        | Some (cs, rest) => Some (N_of_ascii c :: cs, rest)
        | None => None
        end
  end.

Definition digit_of (c : ascii) : option (Decimal.uint -> Decimal.uint) :=
  match N_of_ascii c with
  | 48%N => Some Decimal.D0 | 49%N => Some Decimal.D1 | 50%N => Some Decimal.D2
  | 51%N => Some Decimal.D3 | 52%N => Some Decimal.D4 | 53%N => Some Decimal.D5
  | 54%N => Some Decimal.D6 | 55%N => Some Decimal.D7 | 56%N => Some Decimal.D8
  | 57%N => Some Decimal.D9
  | _ => None
  end.


(** The longest run of digits at the head of the input. *)
Fixpoint parse_digits (s : list ascii) : Decimal.uint * list ascii :=
  match s with
  | [] => (Decimal.Nil, [])
  | c :: r =>
      match digit_of c with
      | Some d => let '(ds, rest) := parse_digits r in (d ds, rest)
      | None => (Decimal.Nil, s)
      end
  end.

(** An unsigned JSON integer: ["0"] or a run of digits without a leading
    zero, not followed by a point or an exponent mark (the number is then
    a float, or nothing). *)
Definition parse_uint (s : list ascii) : option (Decimal.uint * list ascii) :=
  let '(ds, rest) := parse_digits s in
  let followed :=
    match rest with
    | c :: _ => Ascii.eqb c "."%char || Ascii.eqb c "e"%char || Ascii.eqb c "E"%char
    | [] => false
    end in
  if followed then None
  else match ds with
       | Decimal.Nil => None
       | Decimal.D0 Decimal.Nil => Some (ds, rest)
       | Decimal.D0 _ => None
       | _ => Some (ds, rest)
       end.

Definition is_digit (c : ascii) : bool :=
  match digit_of c with
  | Some _ => true
  | None => false
  end.

(** The longest run of digits at the head of the input, as characters. *)
Fixpoint span_digits (s : list ascii) : list ascii * list ascii :=
  match s with
  | [] => ([], [])
  | c :: r =>
      if is_digit c then let '(ds, rest) := span_digits r in (c :: ds, rest)
      else ([], s)
  end.

(** The fraction, if there is one: a point and digits, at least one. *)
Definition parse_frac (s : list ascii) : option (list ascii * list ascii) :=
  match s with
  | c :: r =>
      if Ascii.eqb c "."%char then
        match span_digits r with
        | ([], _) => None
        | (ds, rest) => Some (c :: ds, rest)
        end
      else Some ([], s)
  | [] => Some ([], [])
  end.

(** The exponent, if there is one: [e] or [E], a sign or none, and digits,
    at least one. *)
Definition parse_exp (s : list ascii) : option (list ascii * list ascii) :=
  match s with
  | c :: r =>
      if Ascii.eqb c "e"%char || Ascii.eqb c "E"%char then
        let '(sign, r1) :=
          match r with
          | c1 :: r' =>
              if Ascii.eqb c1 "+"%char || Ascii.eqb c1 "-"%char
              then ([c1], r') else ([], r)
          | [] => ([], [])
          end in
        match span_digits r1 with
        | ([], _) => None
        | (ds, rest) => Some (c :: sign ++ ds, rest)
        end
      else Some ([], s)
  | [] => Some ([], [])
  end.

Definition leading_zero (int : list ascii) : bool :=
  match int with
  | c :: _ :: _ => Ascii.eqb c "0"%char
  | _ => false
  end.

(** An unsigned JSON number with a fraction or an exponent, and the
    input after it: the digits of an integer, with no leading zero, then a
    fraction, an exponent, or both. *)
Definition parse_ufloat (s : list ascii) : option (list ascii * list ascii) :=
  let '(int, s1) := span_digits s in
  match int with
  | [] => None
  | _ =>
      if leading_zero int then None
      else
        match parse_frac s1 with
        | None => None
        | Some (frac, s2) =>
            match parse_exp s2 with
            | None => None
            | Some (exp, s3) =>
                match frac ++ exp with
                | [] => None
                | _ => Some (int ++ frac ++ exp, s3)
                end
            end
        end
  end.

Definition parse_float (s : list ascii) : option (list ascii * list ascii) :=
  match s with
  | c :: r =>
      if Ascii.eqb c "-"%char then
        match parse_ufloat r with
        | Some (lit, rest) => Some (c :: lit, rest)
        | None => None
        end
      else parse_ufloat s
  | [] => None
  end.

(** [s] without the prefix [p], when it starts with it. *)
Fixpoint strip_prefix (p s : list ascii) : option (list ascii) :=
  match p, s with
  | [], _ => Some s
  | a :: p', b :: s' => if Ascii.eqb a b then strip_prefix p' s' else None
  | _ :: _, [] => None
  end.

Definition literal (word : string) (v : value) (r : list ascii)
  : option (value * list ascii) :=
  match strip_prefix (String.list_ascii_of_string word) r with
  | Some r' => Some (v, r')
  | None => None
  end.


Section Reading.
(** [repr(float(s))] as JSON text, for the number literal [s]. *)
Variable float_repr : string -> string.
(** [sys.get_int_max_str_digits()] *)
Variable max_str_digits : nat.

Definition float_value (s : list ascii) : option (value * list ascii) :=
  match parse_float s with
  | Some (lit, rest) =>
      Some (Float (float_repr (String.string_of_list_ascii lit)), rest)
  | None => None
  end.

(** [int(s)] of the digits of an integer: refused ([ValueError]) when
    they are more than allowed. *)
Definition int_value (sign : Decimal.uint -> Decimal.signed_int) (d : Decimal.uint)
    (rest : list ascii) : option (value * list ascii) :=
  if digits_ok max_str_digits d then Some (Int (Z.of_int (sign d)), rest) else None.

(** One value.  [depth] is how many arrays and objects, one in the other,
    the scanner still enters: with none left it raises [RecursionError].
    [None] stands for any exception. *)
Fixpoint parse_value (fuel depth : nat) (s : list ascii) : option (value * list ascii) :=
  match fuel with
  | O => None
  | S fuel' =>
      match skip_ws s with
      | [] => None
      | c :: r =>
          if Ascii.eqb c "n"%char then literal "ull" Null r
          else if Ascii.eqb c "t"%char then literal "rue" (Bool true) r
          else if Ascii.eqb c "f"%char then literal "alse" (Bool false) r
          else if Ascii.eqb c "N"%char then literal "aN" (Float "NaN") r
          else if Ascii.eqb c "I"%char then literal "nfinity" (Float "Infinity") r
          else if Ascii.eqb c dquote then
            match parse_chars r with
            | Some (str, r') => Some (Str str, r')
            | None => None
            end
          else if Ascii.eqb c "["%char then
            match depth with
            | O => None
            | S depth' =>
                match skip_ws r with
                | c' :: r' =>
                    if Ascii.eqb c' "]"%char then Some (Arr [], r')
                    else
                      match parse_items fuel' depth' r with
                      | Some (items, r'') => Some (Arr items, r'')
                      | None => None
                      end
                | [] => None
                end
            end
          else if Ascii.eqb c "{"%char then
            match depth with
            | O => None
            | S depth' =>
                match skip_ws r with
                | c' :: r' =>
                    if Ascii.eqb c' "}"%char then Some (Obj [], r')
                    else
                      match parse_members fuel' depth' [] r with
                      | Some (members, r'') => Some (Obj members, r'')
                      | None => None
                      end
                | [] => None
                end
            end
          else if Ascii.eqb c "-"%char then
            match parse_uint r with
            | Some (d, r') => int_value Decimal.Neg d r'
            | None =>
                match r with
                | c' :: r' =>
                    if Ascii.eqb c' "I"%char
                    then literal "nfinity" (Float "-Infinity") r'
                    else float_value (c :: r)
                | [] => None
                end
            end
          else
            match parse_uint (c :: r) with
            | Some (d, r') => int_value Decimal.Pos d r'
            | None => float_value (c :: r)
            end
      end
  end
with parse_items (fuel depth : nat) (s : list ascii) : option (list value * list ascii) :=
  match fuel with
  | O => None
  | S fuel' =>
      match parse_value fuel' depth s with
      | None => None
      | Some (x, r) =>
          match skip_ws r with
          | c :: r' =>
              if Ascii.eqb c "]"%char then Some ([x], r')
              else if Ascii.eqb c ","%char then
                match parse_items fuel' depth r' with
                | Some (xs, r'') => Some (x :: xs, r'')
                | None => None
                end
              else None
          | [] => None
          end
      end
  end
with parse_members (fuel depth : nat) (acc : list (list N * value)) (s : list ascii)
  : option (list (list N * value) * list ascii) :=
  match fuel with
  | O => None
  | S fuel' =>
      match skip_ws s with
      | c :: r =>
          if Ascii.eqb c dquote then
            match parse_chars r with
            | None => None
            | Some (k, r1) =>
                match skip_ws r1 with
                | c1 :: r2 =>
                    if Ascii.eqb c1 ":"%char then
                      match parse_value fuel' depth r2 with
                      | None => None
                      | Some (x, r3) =>
                          let acc' := dict_set k x acc in
                          match skip_ws r3 with
                          | c3 :: r' =>
                              if Ascii.eqb c3 "}"%char then Some (acc', r')
                              else if Ascii.eqb c3 ","%char
                                   then parse_members fuel' depth acc' r'
                                   else None
                          | [] => None
                          end
                      end
                    else None
                | [] => None
                end
            end
          else None
      | [] => None
      end
  end.

(** [json.loads(text)]: one value, blanks around it, nothing else; [None]
    when it raises.  The fuel, one more than the characters of the text,
    is enough for whatever can be read ([JsonFuel.load_fuel]). *)
Definition load (depth : nat) (text : string) : option value :=
  let s := String.list_ascii_of_string text in
  match parse_value (S (length s)) depth s with
  | Some (v, rest) =>
      match skip_ws rest with
      | [] => Some v
      | _ => None
      end
  | None => None
  end.

End Reading.

End Json.

(** ** generate-nginx-config.py *)
Module NginxConfig.
Import Sys.

Definition nl : string := String PyStr.newline EmptyString.
Definition dq : string := String Json.dquote EmptyString.

(** The text of a triple-quoted template, line by line. *)
Definition unlines (l : list string) : string :=
  foldr (fun line acc => line +:+ nl +:+ acc) EmptyString l.

Definition tile_url (domain area version : string) : string :=
  let protocol := if negb (String.eqb domain "localhost") then "https" else "http" in
  protocol +:+ "://" +:+ domain +:+ "/" +:+ area +:+ "/" +:+ version
  +:+ "/{z}/{x}/{y}.pbf".

Section WithEnv.
Variable e : env.

(** The body of the [try] that updates one TileJSON file.  Whatever
    [json.load] raises is caught by the same [except] clause, which does
    not look at the exception: [JSONDecodeError] stands for each of them.
    The file is opened for writing, and so emptied, before [json.dump]
    runs; when [json.dump] is stopped, the file keeps what was written. *)
Definition rewrite_tilejson (tilejson_path : path) (domain area version : string) : M unit :=
  text ← read_file tilejson_path;
  match Json.load (float_repr e) (max_str_digits e) (load_depth e) text with
  | None => raise JSONDecodeError
  | Some tilejson =>
      (* Update tiles URL *)
      match tilejson with
      | Json.Obj d =>
          let tilejson' :=
            Json.Obj (Json.dict_set (Json.of_string "tiles")
                        (Json.Arr [Json.Str (Json.of_string (tile_url domain area version))])
                        d) in
          let '(written, stopped) :=
            Json.dump (max_str_digits e) (dump_depth e) tilejson' in
          write_file tilejson_path written;;
          match stopped with
          | Some ex => raise ex
          | None => mret tt
          end
      | _ => raise TypeError
      end
  end.

(** The [try] statement: [Update TileJSON with correct domain]. *)
Definition update_tilejson (tilejson_path : path) (domain area version : string) : M unit :=
  try_except (rewrite_tilejson tilejson_path domain area version)
             (fun _ => print (MsgError "updating TileJSON")).

Definition version_config (area version : string) (tilejson_path tiles_path : path) : string :=
  unlines [
    "# Specific version: " +:+ area +:+ "/" +:+ version;
    "location = /" +:+ area +:+ "/" +:+ version +:+ " {";
    "    alias " +:+ render tilejson_path +:+ ";";
    "    expires 1w;";
    "    default_type application/json;";
    "    add_header 'Access-Control-Allow-Origin' '*' always;";
    "    add_header Cache-Control public;";
    "    add_header X-Robots-Tag " +:+ dq +:+ "noindex, nofollow" +:+ dq +:+ " always;";
    "    add_header x-ofm-debug 'specific JSON " +:+ area +:+ " " +:+ version +:+ "';";
    "}";
    "";
    "location ^~ /" +:+ area +:+ "/" +:+ version +:+ "/ {";
    "    alias " +:+ render tiles_path +:+ "/;";
    "    try_files $uri @empty_tile;";
    "    add_header Content-Encoding gzip;";
    "    expires 10y;";
    "    ";
    "    types {";
    "        application/vnd.mapbox-vector-tile pbf;";
    "    }";
    "    ";
    "    add_header 'Access-Control-Allow-Origin' '*' always;";
    "    add_header Cache-Control public;";
    "    add_header X-Robots-Tag " +:+ dq +:+ "noindex, nofollow" +:+ dq +:+ " always;";
    "    add_header x-ofm-debug 'specific PBF " +:+ area +:+ " " +:+ version +:+ "';";
    "}" ].

(** [generate_tile_locations(tiles_dir, domain)] *)
Definition generate_tile_locations (tiles_dir : path) (domain : string)
  : M (list (string * string * string)) :=
  there ← gets (fun w => exists_ (w_fs w) tiles_dir);
  if negb there then print (MsgNotFound tiles_dir);; mret []
  else
    (* Find all tile directories *)
    areas ← iterdir_m tiles_dir;
    for_each (PyStr.sorted areas) (fun area =>
      let area_dir := tiles_dir ++ [area] in
      isd ← gets (fun w => is_dir (w_fs w) area_dir);
      if negb isd then mret []
      else
        versions ← iterdir_m area_dir;
        for_each (PyStr.sorted versions) (fun version =>
          let version_dir := area_dir ++ [version] in
          isd ← gets (fun w => is_dir (w_fs w) version_dir);
          if negb isd then mret []
          else
            let tiles_path := version_dir /: "tiles" in
            let metadata_path := version_dir /: "metadata.json" in
            let tilejson_path := version_dir /: "tilejson.json" in
            ready ← gets (fun w => exists_ (w_fs w) tiles_path
                                   && exists_ (w_fs w) metadata_path);
            if negb ready then mret []
            else
              (* Update TileJSON with correct domain *)
              has_tilejson ← gets (fun w => exists_ (w_fs w) tilejson_path);
              (if has_tilejson : bool
               then update_tilejson tilejson_path domain area version
               else mret tt);;
              (* Generate location block for this version *)
              mret [(area, version,
                     version_config area version tilejson_path tiles_path)])).

Definition latest_config (area latest_version : string)
    (latest_path tilejson_path tiles_path : path) : string :=
  unlines [
    "# Latest version redirect: " +:+ area +:+ " -> " +:+ latest_version;
    "location = /" +:+ area +:+ " {";
    "    alias " +:+ render tilejson_path +:+ ";";
    "    expires 1d;";
    "    default_type application/json;";
    "    add_header 'Access-Control-Allow-Origin' '*' always;";
    "    add_header Cache-Control public;";
    "    add_header X-Robots-Tag " +:+ dq +:+ "noindex, nofollow" +:+ dq +:+ " always;";
    "    add_header x-ofm-debug 'latest JSON " +:+ area +:+ "';";
    "}";
    "";
    "# Wildcard version support for " +:+ area;
    "location ~ ^/" +:+ area +:+ "/([^/]+)$ {";
    "    root " +:+ render latest_path +:+ ";";
    "    try_files /tilejson.json =404;";
    "    expires 1w;";
    "    default_type application/json;";
    "    add_header 'Access-Control-Allow-Origin' '*' always;";
    "    add_header Cache-Control public;";
    "    add_header X-Robots-Tag " +:+ dq +:+ "noindex, nofollow" +:+ dq +:+ " always;";
    "    add_header x-ofm-debug 'wildcard JSON " +:+ area +:+ "';";
    "}";
    "";
    "location ~ ^/" +:+ area +:+ "/([^/]+)/(.+)$ {";
    "    root " +:+ render tiles_path +:+ "/;";
    "    try_files /$2 @empty_tile;";
    "    add_header Content-Encoding gzip;";
    "    expires 10y;";
    "    ";
    "    types {";
    "        application/vnd.mapbox-vector-tile pbf;";
    "    }";
    "    ";
    "    add_header 'Access-Control-Allow-Origin' '*' always;";
    "    add_header Cache-Control public;";
    "    add_header X-Robots-Tag " +:+ dq +:+ "noindex, nofollow" +:+ dq +:+ " always;";
    "    add_header x-ofm-debug 'wildcard PBF " +:+ area +:+ "';";
    "}" ].

(** [sorted([v.name for v in area_dir.iterdir() if v.is_dir()])] *)
Definition version_names (m : gmap path node) (area_dir : path) : list string :=
  PyStr.sorted (List.filter (fun v => is_dir m (area_dir ++ [v])) (iterdir m area_dir)).

(** What [generate_latest_redirects] appends for one entry of [tiles_dir]. *)
Definition latest_redirect (m : gmap path node) (tiles_dir : path) (area : string)
  : list (string * string) :=
  let area_dir := tiles_dir ++ [area] in
  if negb (is_dir m area_dir) then []
  else
    (* Find latest version (assuming sorted order) *)
    let versions := version_names m area_dir in
    match last versions with
    | None => []
    | Some latest_version =>
        let latest_path := area_dir /: latest_version in
        let tiles_path := latest_path /: "tiles" in
        let tilejson_path := latest_path /: "tilejson.json" in
        if negb (exists_ m tiles_path) || negb (exists_ m tilejson_path) then []
        else [(area, latest_config area latest_version latest_path
                                   tilejson_path tiles_path)]
    end.

(** [generate_latest_redirects(tiles_dir)] *)
Definition generate_latest_redirects (tiles_dir : path) : M (list (string * string)) :=
  areas ← iterdir_m tiles_dir;
  m ← gets w_fs;
  mret (flat_map (latest_redirect m tiles_dir) (PyStr.sorted areas)).

Definition output_dir : path := Path "/etc/nginx/includes".

(** [main()] *)
Definition main : M unit :=
  let tiles_dir := Path (default "/data/tiles" (getenv e "TILES_DIR")) in
  let domain := default "localhost" (getenv e "NGINX_HOST") in
  mkdir_parents output_dir;;
  print (MsgInfo "Generating nginx configuration...");;
  print (MsgInfo ("  Tiles directory: " +:+ render tiles_dir));;
  print (MsgInfo ("  Domain: " +:+ domain));;
  (* Generate specific version configs *)
  version_configs ← generate_tile_locations tiles_dir domain;
  (match version_configs with
   | [] => mret tt
   | _ =>
       let config_content := PyStr.join nl (List.map snd version_configs) in
       write_file (output_dir /: "tiles-versions.conf") config_content;;
       print (MsgGenerated "version configs" (length version_configs));;
       for_each version_configs (fun '(area, version, _) =>
         print (MsgInfo ("    - " +:+ area +:+ "/" +:+ version));; mret (@nil unit));;
       mret tt
   end);;
  (* Generate latest redirects *)
  latest_configs ← generate_latest_redirects tiles_dir;
  (match latest_configs with
  | [] => mret tt
  | _ =>
      let config_content := PyStr.join nl (List.map snd latest_configs) in
      write_file (output_dir /: "tiles-latest.conf") config_content;;
      print (MsgGenerated "latest configs" (length latest_configs));;
      for_each latest_configs (fun '(area, _) =>
        print (MsgInfo ("    - " +:+ area));; mret (@nil unit));;
      mret tt
  end);;
  print (MsgInfo "Configuration generation complete").

End WithEnv.
End NginxConfig.

(** ** extract-btrfs.py *)
Module ExtractBtrfs.
Import Sys.

Section WithEnv.
Variable e : env.

(** [losetup -f]: the first loop device that is not attached. *)
Definition first_free_loop (w : world) : option string :=
  List.find (fun d => negb (bool_decide (d ∈ (w_loops w).*1))) (loop_devices e).

Definition set_loops (w : world) (l : list (string * path)) : world :=
  World (w_fs w) l (w_mounts w) (w_log w).
Definition set_mounts (w : world) (l : list (path * string)) : world :=
  World (w_fs w) (w_loops w) l (w_log w).

(** [mount_btrfs(btrfs_file, mount_point)] *)
Definition mount_btrfs (btrfs_file mount_point : path) : M (string * path) :=
  mkdir_parents mount_point;;
  print (MsgMounting btrfs_file mount_point);;
  (* Find available loop device *)
  let cmd_f := ["losetup"; "-f"] in
  loop_device ← act (fun w =>
    let w1 := log w (EvRun cmd_f) in
    match first_free_loop w with
    | Some d => (Done (PyStr.strip d), w1)
    | None => (Raised (CalledProcessError cmd_f), w1)
    end);
  (* Setup loop device *)
  subprocess_run ["losetup"; loop_device; render btrfs_file] (fun w =>
    if loop_attach_ok e
       && bool_decide (loop_device ∈ loop_devices e)
       && negb (bool_decide (loop_device ∈ (w_loops w).*1))
       && exists_ (w_fs w) btrfs_file
    then (true, set_loops w (w_loops w ++ [(loop_device, btrfs_file)]))
    else (false, w));;
  (* Mount the filesystem *)
  subprocess_run ["mount"; "-t"; "btrfs"; "-o"; "ro"; loop_device; render mount_point]
    (fun w =>
      match list_find (fun lb => lb.1 = loop_device) (w_loops w) with
      | Some (_, (_, backing)) =>
          match w_fs w !! backing with
          | Some (File c) =>
              match image e c with
              | Some tree =>
                  if is_dir (w_fs w) mount_point
                  then (true, set_mounts (set_fs w (graft (w_fs w) mount_point tree))
                                         (w_mounts w ++ [(mount_point, loop_device)]))
                  else (false, w)
              | None => (false, w)
              end
          | _ => (false, w)
          end
      | None => (false, w)
      end);;
  mret (loop_device, mount_point).

(** [try: m except subprocess.CalledProcessError: h] *)
Definition try_except_called {A} (m : M A) (h : M A) : M A := fun w =>
  let r := m w in
  match out r with
  | Raised (CalledProcessError _) =>
      let r' := h (fin r) in Run (out r') (fin r') (hist r ++ hist r')
  | _ => r
  end.

(** [unmount_btrfs(mount_point, loop_device)] *)
Definition unmount_btrfs (mount_point : path) (loop_device : string) : M unit :=
  print (MsgUnmounting mount_point);;
  try_except_called
    (subprocess_run ["umount"; render mount_point] (fun w =>
       if umount_ok e && bool_decide (mount_point ∈ (w_mounts w).*1)
       then (true, set_mounts
                     (set_fs w (filter (fun kv => is_prefix mount_point kv.1 = false
                                                  ∨ kv.1 = mount_point) (w_fs w)))
                     (List.filter (fun mp => negb (bool_decide (mp.1 = mount_point)))
                                  (w_mounts w)))
       else (false, w));;
     subprocess_run ["losetup"; "-d"; loop_device] (fun w =>
       if detach_ok e && bool_decide (loop_device ∈ (w_loops w).*1)
       then (true, set_loops w
                     (List.filter (fun lb => negb (String.eqb lb.1 loop_device))
                                  (w_loops w)))
       else (false, w)))
    (print MsgUnmountWarning).

(** [with tempfile.TemporaryDirectory() as d: body d]: the directory is
    removed when the block is left, however it is left. *)
Definition with_temporary_directory {A} (body : path -> M A) : M A :=
  let d := mkdtemp e in
  mkdir_parents d;;
  try_finally (body d)
    (act (fun w =>
       if bool_decide (d ∈ (w_mounts w).*1)
       then (Raised (OSError d), w)
       else (Done tt, set_fs w (rm_rf (w_fs w) d)))).

(** [rsync -a src/ dst/]: the destination directory is made, then the
    entries are copied; a failing rsync leaves what it had made. *)
Definition rsync (src dst : path) : M unit :=
  let cmd := ["rsync"; "-a"; "--info=progress2";
              render src +:+ "/"; render dst +:+ "/"] in
  act (fun w =>
    let w1 := log w (EvRun cmd) in
    match w_fs w !! dst, w_fs w !! parent dst with
    | (None | Some Dir), Some Dir => (Done tt, set_fs w1 (<[dst := Dir]> (w_fs w)))
    | _, _ => (Raised (CalledProcessError cmd), w1)
    end);;
  act (fun w =>
    if rsync_ok e
    then (Done tt, set_fs w (graft (w_fs w) dst (subtree (w_fs w) src)))
    else (Raised (CalledProcessError cmd), w)).

(** [shutil.copy2(src, dst)] *)
Definition copy2 (src dst : path) : M unit := act (fun w =>
  match w_fs w !! src, w_fs w !! parent dst with
  | Some (File c), Some Dir =>
      if copy_ok e then (Done tt, set_fs w (<[dst := File c]> (w_fs w)))
      else (Raised (OSError dst), w)
  | _, _ => (Raised (OSError src), w)
  end).

(** [m], with what it raised caught and handed back. *)
Definition attempt {A} (m : M A) : M (A + exn) := fun w =>
  let r := m w in
  Run (Done match out r with Done a => inl a | Raised ex => inr ex end)
      (fin r) (hist r).

(** The [finally] clause of [extract_tiles]. *)
Definition cleanup (temp_mount : path) (loop_device : option string) : M unit :=
  (* Cleanup: unmount and remove loop device *)
  match loop_device with
  | Some d => if String.eqb d "" then mret tt else unmount_btrfs temp_mount d
  | None => mret tt
  end.

(** [extract_tiles(btrfs_file, output_dir, area, version)].

    The variable [loop_device] is [None] until the first statement of the
    [try], the call of [mount_btrfs], has returned; the [try] is split at
    that statement: when the call raises, the handler and the [finally]
    clause run with [loop_device = None]. *)
Definition extract_tiles (btrfs_file output_dir : path) (area version : string) : M bool :=
  there ← gets (fun w => exists_ (w_fs w) btrfs_file);
  if negb there then print (MsgNotFound btrfs_file);; mret false
  else
    (* Create output directory *)
    let tiles_output := output_dir /: area /: version in
    (* Check if already extracted *)
    extracted ← gets (fun w => exists_ (w_fs w) tiles_output
                               && exists_ (w_fs w) (tiles_output /: "tiles"));
    if extracted : bool then print (MsgAlreadyExists tiles_output);; mret true
    else
      print (MsgExtracting tiles_output);;
      (* Create temporary mount point *)
      with_temporary_directory (fun temp_mount =>
        (* Mount the Btrfs image *)
        mounted ← attempt (mount_btrfs btrfs_file temp_mount);
        match mounted with
        | inr _ =>
            try_finally
              (print (MsgError "during extraction");; mret false)
              (cleanup temp_mount None)
        | inl (loop_device, mount_point) =>
            try_finally
              (try_except
                 ((* Check mount was successful *)
                  let tiles_dir := mount_point /: "tiles" in
                  let metadata_file := mount_point /: "metadata.json" in
                  found ← gets (fun w => exists_ (w_fs w) tiles_dir);
                  if negb found then print (MsgNotFound tiles_dir);; mret false
                  else
                    (* Create output directory *)
                    mkdir_parents tiles_output;;
                    (* Copy tiles using rsync for efficiency *)
                    print (MsgCopying tiles_dir (tiles_output /: "tiles"));;
                    rsync tiles_dir (tiles_output /: "tiles");;
                    (* Copy metadata *)
                    has_metadata ← gets (fun w => exists_ (w_fs w) metadata_file);
                    (if has_metadata : bool then
                       copy2 metadata_file (tiles_output /: "metadata.json");;
                       print MsgCopiedMetadata
                     else mret tt);;
                    print (MsgSuccess tiles_output);;
                    mret true)
                 (fun _ => print (MsgError "during extraction");; mret false))
              (cleanup temp_mount (Some loop_device))
        end).

(** ['='*60], the line printed above and below the name of an image. *)
Definition rule : string :=
  "============================================================".

(** One round of the inner loop of [extract_all_areas]. *)
Definition extract_version (tiles_dir area_dir : path) (area version : string)
  : M (list bool) :=
  let version_dir := area_dir ++ [version] in
  isd ← gets (fun w => is_dir (w_fs w) version_dir);
  if negb isd then mret []
  else
    let btrfs_file := version_dir /: "tiles.btrfs" in
    there ← gets (fun w => exists_ (w_fs w) btrfs_file);
    if there : bool then
      print (MsgInfo rule);;
      print (MsgInfo ("Processing " +:+ area +:+ "/" +:+ version));;
      print (MsgInfo rule);;
      ok ← extract_tiles btrfs_file tiles_dir area version; mret [ok]
    else mret [].

(** [extract_all_areas(btrfs_dir, tiles_dir)] *)
Definition extract_all_areas (btrfs_dir tiles_dir : path) : M bool :=
  there ← gets (fun w => exists_ (w_fs w) btrfs_dir);
  if negb there then print (MsgNotFound btrfs_dir);; mret false
  else
    (* Find all Btrfs files *)
    areas ← iterdir_m btrfs_dir;
    results ← for_each areas (fun area =>
      let area_dir := btrfs_dir ++ [area] in
      isd ← gets (fun w => is_dir (w_fs w) area_dir);
      if negb isd || PyStr.startswith area "_" then mret []
      else
        versions ← iterdir_m area_dir;
        for_each versions (extract_version tiles_dir area_dir area));
    mret (forallb id results).

(** The script run as a program by the user [euid]; what is returned is the
    exit status. *)
Definition main (euid : Z) : M Z :=
  (* Check if running as root (needed for loop mount) *)
  if negb (euid =? 0)%Z then
    print (MsgError "This script must be run as root (for loop mounting)");;
    mret 1%Z
  else
    let btrfs_dir := default "/data/btrfs" (getenv e "BTRFS_DIR") in
    let tiles_dir := default "/data/tiles" (getenv e "TILES_DIR") in
    print (MsgInfo "Starting tile extraction...");;
    print (MsgInfo ("Btrfs source: " +:+ btrfs_dir));;
    print (MsgInfo ("Tiles output: " +:+ tiles_dir));;
    success ← extract_all_areas (Path btrfs_dir) (Path tiles_dir);
    if negb success then
      print (MsgInfo "Extraction completed with errors");; mret 1%Z
    else
      print (MsgInfo "Extraction completed successfully");; mret 0%Z.

End WithEnv.
End ExtractBtrfs.

(** ** download-assets.py *)
Module DownloadAssets.
Import Sys.

Section WithEnv.
Variable e : env.

Definition aria2c_cmd (url : string) (output_path : path) : list string :=
  ["aria2c"; "--max-connection-per-server=8"; "--split=8";
   "--min-split-size=1M"; "--file-allocation=none";
   "--console-log-level=warn"; "--summary-interval=5";
   "--download-result=hide";
   "-d"; render (parent output_path); "-o"; name output_path; url].

(** [download_file(url, output_path)] *)
Definition download_file (url : string) (output_path : path) : M unit :=
  print (MsgDownloading url);;
  mkdir_parents (parent output_path);;
  InitDownload.aria2c e (aria2c_cmd url output_path) url output_path.

(** [extract_tar_gz(archive_path, output_dir)] *)
Definition extract_tar_gz (archive_path output_dir : path) : M unit :=
  print (MsgExtracting archive_path);;
  subprocess_run ["tar"; "-xzf"; render archive_path; "-C"; render output_dir]
    (fun w =>
      match w_fs w !! archive_path with
      | Some (File c) =>
          match untar e c with
          | Some entries =>
              if is_dir (w_fs w) output_dir
              then (true, set_fs w (graft (w_fs w) output_dir entries))
              else (false, w)
          | None => (false, w)
          end
      | _ => (false, w)
      end).

(** [p.exists() and any(p.iterdir())] *)
Definition exists_nonempty (p : path) : M bool :=
  there ← gets (fun w => exists_ (w_fs w) p);
  if there : bool then
    entries ← iterdir_m p;
    mret (negb (bool_decide (entries = [])))
  else mret false.

Definition asset_dir (assets_dir : path) (asset_name : string) : path :=
  assets_dir /: asset_name.
Definition archive_path (assets_dir : path) (asset_name : string) : path :=
  asset_dir assets_dir asset_name /: "ofm.tar.gz".

(** [download_asset(asset_name, assets_dir)] *)
Definition download_asset (asset_name : string) (assets_dir : path) : M bool :=
  let asset_dir := asset_dir assets_dir asset_name in
  mkdir_parents asset_dir;;
  (* Check if already downloaded *)
  let ofm_dir := asset_dir /: "ofm" in
  done_already ← exists_nonempty ofm_dir;
  if done_already : bool then
    print (MsgSkipping asset_name);; mret true
  else
    let url := "https://assets.openfreemap.com/" +:+ asset_name +:+ "/ofm.tar.gz" in
    let archive_path := archive_path assets_dir asset_name in
    try_except
      (download_file url archive_path;;
       extract_tar_gz archive_path asset_dir;;
       unlink archive_path;;   (* Clean up archive *)
       print (MsgSuccess asset_dir);;
       mret true)
      (fun _ => print (MsgError ("downloading " +:+ asset_name));; mret false).

Definition cdn_url : string :=
  default "https://assets.openfreemap.com" (getenv e "ASSETS_CDN_URL").

Definition sprites_dir (assets_dir : path) : path := assets_dir /: "sprites".
Definition temp_archive (assets_dir : path) : path :=
  sprites_dir assets_dir /: "temp.tar.gz".

(** [sprite_path.split('/')[1].replace('.tar.gz', '')] *)
Definition sprite_name (sprite_path : string) : string :=
  PyStr.replace ".tar.gz" "" (nth 1 (PyStr.split PyStr.slash sprite_path) "").

(** One round of the loop of [download_sprites]. *)
Definition download_sprite (assets_dir : path) (sprite_path : string) : M (list unit) :=
  let sprites_dir := sprites_dir assets_dir in
  let sprite_name := sprite_name sprite_path in
  let sprite_version_dir := sprites_dir /: sprite_name in
  done_already ← exists_nonempty sprite_version_dir;
  if done_already : bool then
    print (MsgSkipping sprite_name);; mret []
  else
    let url := cdn_url +:+ "/sprites/" +:+ sprite_name +:+ ".tar.gz" in
    let temp_archive := temp_archive assets_dir in
    try_except
      (download_file url temp_archive;;
       extract_tar_gz temp_archive sprites_dir;;
       unlink temp_archive;;
       print (MsgSuccess sprite_version_dir);;
       mret [])
      (fun _ => print (MsgError ("downloading sprite " +:+ sprite_name));; mret []).

(** [download_sprites(assets_dir)] *)
Definition download_sprites (assets_dir : path) : M bool :=
  mkdir_parents (sprites_dir assets_dir);;
  print (MsgInfo "Fetching sprite versions...");;
  let url := cdn_url +:+ "/files.txt" in
  try_except
    (r ← act (fun w => (Done (http_get e url), log w (EvHttpGet url)));
     match r with
     | HttpFailed => raise (RequestException url)
     | HttpReply status text =>
         if ((400 <=? status) && (status <? 600))%Z
         then raise (RequestException url)
         else
           (* Find all sprite archives *)
           let sprites_remote :=
             List.filter (fun line => PyStr.startswith line "sprites/"
                                      && PyStr.endswith line ".tar.gz")
                         (PyStr.splitlines text) in
           for_each sprites_remote (download_sprite assets_dir);;
           mret true
     end)
    (fun _ => print (MsgError "downloading sprites");; mret false).

(** [download_all_assets(assets_dir)] *)
Definition download_all_assets (assets_dir : path) : M bool :=
  print (MsgInfo "Downloading OpenFreeMap assets...");;
  let assets := ["fonts"; "styles"; "natural_earth"] in
  results ← for_each assets (fun asset =>
    ok ← download_asset asset assets_dir; mret [ok]);
  sprites_ok ← download_sprites assets_dir;
  mret (forallb id results && sprites_ok).

(** The script run as a program; what is returned is the exit status. *)
Definition main : M Z :=
  let assets_dir := default "/data/assets" (getenv e "ASSETS_DIR") in
  print (MsgInfo ("Assets directory: " +:+ assets_dir));;
  ok ← download_all_assets (Path assets_dir);
  if negb ok then
    print (MsgInfo "Failed to download all assets");; mret 1%Z
  else
    print (MsgInfo "Successfully downloaded all assets");; mret 0%Z.

End WithEnv.
End DownloadAssets.

(** ** The version resolver in the words of the specification *)
Module Spec.

(** A line matches [areas/<area>/<version>/tiles.btrfs.gz] when it is that
    text for a version without a slash; its version is then extracted. *)
Definition match_line (area line : string) : option string :=
  let prefix := "areas/" +:+ area +:+ "/" in
  if PyStr.startswith line prefix then
    match PyStr.split PyStr.slash
            (String.substring (String.length prefix)
               (String.length line - String.length prefix) line) with
    | [version; "tiles.btrfs.gz"] => Some version
    | _ => None
    end
  else None.

(** The greatest of a list under the lexicographic order; [None] when empty. *)
Definition maximum (l : list string) : option string :=
  foldr (fun x acc =>
           match acc with
           | None => Some x
           | Some y => if String.leb x y then Some y else Some x
           end) None l.

(** [resolve_latest]: the listing filtered to the matching lines, the
    versions extracted, the greatest returned; [None] is [NotFound]. *)
Definition resolve_latest_spec (area : string) (lines : list string) : option string :=
  maximum (omap (match_line area) lines).

End Spec.

(** ** Sample environments and worlds *)
Module Examples.
Import Sys.

Definition GB : Z := 1024 * 1024 * 1024.

(** A float is written as it was read. *)
Definition sample_float_repr (s : string) : string :=
  match Json.parse_float (String.list_ascii_of_string s) with
  | Some (_, []) => s
  | _ => "NaN"
  end.

(** An environment: the listing of the CDN, the size it reports for the
    archive, the free blocks of 4096 bytes, and whether images mount. *)
Definition sample_env (listing : string) (size free_blocks : Z) (mounts : bool) : env :=
  {| getenv := fun _ => None;
     http_get := fun _ => HttpReply 200 listing;
     http_head := fun _ => HeadReply 200 (ClInt size);
     statvfs := fun _ => (free_blocks, 4096%Z);
     fetch := fun _ => Some "compressed image";
     gunzip := fun _ => Some "image";
     untar := fun _ => Some [(["ofm"], Dir); (["ofm"; "data"], File "asset")];
     loop_devices := ["/dev/loop0"; "/dev/loop1"];
     loop_attach_ok := true;
     image := fun _ =>
       if mounts
       then Some [(["tiles"], Dir); (["tiles"; "0"], Dir);
                  (["tiles"; "0"; "0.pbf"], File "tile");
                  (["metadata.json"], File "{}")]
       else None;
     rsync_ok := true;
     copy_ok := true;
     umount_ok := true;
     detach_ok := true;
     mkdtemp := ["tmp"; "tmpofm"];
     float_repr := sample_float_repr;
     max_str_digits := 4300;
     load_depth := 990;
     dump_depth := 990 |}.

Definition nl : string := String PyStr.newline EmptyString.

(** The three versions of the specification's example, one per line. *)
Definition three_versions : string :=
  "areas/planet/20240101_000000/tiles.btrfs.gz" +:+ nl +:+
  "areas/planet/20240102_000000/tiles.btrfs.gz" +:+ nl +:+
  "areas/planet/20240101_120000/tiles.btrfs.gz" +:+ nl.

(** A listing whose paths carry a leading directory. *)
Definition mirror_listing : string :=
  "mirror/areas/planet/20240101_000000/tiles.btrfs.gz" +:+ nl.

Definition world_of (entries : list (path * node)) : world :=
  World (list_to_map (([], Dir) :: entries)) [] [] [].

Definition fresh_world : world := world_of [].

Definition btrfs_dir : path := ["data"; "btrfs"].
Definition tiles_dir : path := ["data"; "tiles"].

(** A downloaded image, not yet extracted. *)
Definition downloaded_world : world :=
  world_of [(["data"], Dir); (["data"; "btrfs"], Dir);
            (["data"; "btrfs"; "planet"], Dir);
            (["data"; "btrfs"; "planet"; "v1"], Dir);
            (["data"; "btrfs"; "planet"; "v1"; "tiles.btrfs"], File "image")].

Definition dq : string := String Json.dquote EmptyString.

(** A small TileJSON document. *)
Definition tilejson_text : string :=
  "{" +:+ dq +:+ "tilejson" +:+ dq +:+ ": " +:+ dq +:+ "3.0.0" +:+ dq +:+ ", "
  +:+ dq +:+ "tiles" +:+ dq +:+ ": [" +:+ dq +:+ "https://old.example/{z}/{x}/{y}.pbf"
  +:+ dq +:+ "], " +:+ dq +:+ "bounds" +:+ dq +:+ ": [-180, -85.05113, 180, 85.05113], "
  +:+ dq +:+ "minzoom" +:+ dq +:+ ": 0, "
  +:+ dq +:+ "maxzoom" +:+ dq +:+ ": 14}".

(** The members of the document, as [json.load] gives them. *)
Definition tilejson_members : list (list N * Json.value) :=
  [(Json.of_string "tilejson", Json.Str (Json.of_string "3.0.0"));
   (Json.of_string "tiles",
    Json.Arr [Json.Str (Json.of_string "https://old.example/{z}/{x}/{y}.pbf")]);
   (Json.of_string "bounds",
    Json.Arr [Json.Int (-180); Json.Float "-85.05113";
              Json.Int 180; Json.Float "85.05113"]);
   (Json.of_string "minzoom", Json.Int 0); (Json.of_string "maxzoom", Json.Int 14)].

(** A version directory with its payload and both manifest documents. *)
Definition full_version (area version : string) : list (path * node) :=
  [(tiles_dir ++ [area; version], Dir);
   (tiles_dir ++ [area; version; "tiles"], Dir);
   (tiles_dir ++ [area; version; "metadata.json"], File "{}");
   (tiles_dir ++ [area; version; "tilejson.json"], File tilejson_text)].

(** The tree of the publish example: alpha with v1 and v2, beta with v1;
    the two generated documents may be there already, with any text. *)
Definition publish_world (old_versions old_latest : string) : world :=
  world_of ([(["data"], Dir); (tiles_dir, Dir);
             (tiles_dir ++ ["alpha"], Dir); (tiles_dir ++ ["beta"], Dir);
             (["etc"], Dir); (["etc"; "nginx"], Dir);
             (["etc"; "nginx"; "includes"], Dir);
             (["etc"; "nginx"; "includes"; "tiles-versions.conf"], File old_versions);
             (["etc"; "nginx"; "includes"; "tiles-latest.conf"], File old_latest)]
            ++ full_version "alpha" "v1" ++ full_version "alpha" "v2"
            ++ full_version "beta" "v1").

(** An area whose newest version directory is still empty. *)
Definition masked_world : world :=
  world_of ([(["data"], Dir); (tiles_dir, Dir); (tiles_dir ++ ["alpha"], Dir);
             (tiles_dir ++ ["alpha"; "v2"], Dir)]
            ++ full_version "alpha" "v1").

(** The environment [e] with a failing rsync or a failing umount. *)
Definition failing (e : env) (rsync umount : bool) : env :=
  {| getenv := getenv e; http_get := http_get e; http_head := http_head e;
     statvfs := statvfs e; fetch := fetch e; gunzip := gunzip e; untar := untar e;
     loop_devices := loop_devices e; loop_attach_ok := loop_attach_ok e;
     image := image e; rsync_ok := rsync; copy_ok := copy_ok e;
     umount_ok := umount; detach_ok := detach_ok e; mkdtemp := mkdtemp e;
     float_repr := float_repr e; max_str_digits := max_str_digits e;
     load_depth := load_depth e; dump_depth := dump_depth e |}.

(** The document of alpha, version v1. *)
Definition alpha_v1_tilejson : path :=
  tiles_dir ++ ["alpha"; "v1"; "tilejson.json"].

End Examples.

(** ** Further scenarios *)
Module Scenarios.
Import Sys.

(** The environment [e] with a CDN that serves no archive, or archives
    that do not unpack. *)
Definition without_archives (e : env) (fetched : option string) : env :=
  {| getenv := getenv e; http_get := http_get e; http_head := http_head e;
     statvfs := statvfs e; fetch := fun _ => fetched;
     gunzip := fun _ => None; untar := fun _ => None;
     loop_devices := loop_devices e; loop_attach_ok := loop_attach_ok e;
     image := image e; rsync_ok := rsync_ok e; copy_ok := copy_ok e;
     umount_ok := umount_ok e; detach_ok := detach_ok e; mkdtemp := mkdtemp e;
     float_repr := float_repr e; max_str_digits := max_str_digits e;
     load_depth := load_depth e; dump_depth := dump_depth e |}.

(** The image of [Examples.downloaded_world] with its tiles extracted. *)
Definition extracted_world : world :=
  Examples.world_of
    [(["data"], Dir); (["data"; "btrfs"], Dir);
     (["data"; "btrfs"; "_tmp"], Dir);
     (["data"; "btrfs"; "planet"], Dir);
     (["data"; "btrfs"; "planet"; "v1"], Dir);
     (["data"; "btrfs"; "planet"; "v1"; "tiles.btrfs"], File "image");
     (["data"; "tiles"], Dir); (["data"; "tiles"; "planet"], Dir);
     (["data"; "tiles"; "planet"; "v1"], Dir);
     (["data"; "tiles"; "planet"; "v1"; "tiles"], Dir)].

Definition assets_dir : path := ["data"; "assets"].

(** A listing of the assets CDN with one sprite version. *)
Definition sprite_listing : string :=
  "fonts/ofm.tar.gz" +:+ Examples.nl +:+
  "sprites/ofm_f384.tar.gz" +:+ Examples.nl.

(** Every asset and the listed sprite version in place. *)
Definition assets_world : world :=
  Examples.world_of
    [(["data"], Dir); (assets_dir, Dir);
     (assets_dir ++ ["fonts"], Dir); (assets_dir ++ ["fonts"; "ofm"], Dir);
     (assets_dir ++ ["fonts"; "ofm"; "fonts.json"], File "[]");
     (assets_dir ++ ["styles"], Dir); (assets_dir ++ ["styles"; "ofm"], Dir);
     (assets_dir ++ ["styles"; "ofm"; "liberty"], File "{}");
     (assets_dir ++ ["natural_earth"], Dir);
     (assets_dir ++ ["natural_earth"; "ofm"], Dir);
     (assets_dir ++ ["natural_earth"; "ofm"; "ne.mbtiles"], File "tiles");
     (assets_dir ++ ["sprites"], Dir);
     (assets_dir ++ ["sprites"; "ofm_f384"], Dir);
     (assets_dir ++ ["sprites"; "ofm_f384"; "ofm.png"], File "png")].

(** A version whose TileJSON document is not JSON. *)
Definition broken_tilejson_world : world :=
  Examples.world_of
    [(["data"], Dir); (Examples.tiles_dir, Dir);
     (Examples.tiles_dir ++ ["alpha"], Dir);
     (Examples.tiles_dir ++ ["alpha"; "v1"], Dir);
     (Examples.tiles_dir ++ ["alpha"; "v1"; "tiles"], Dir);
     (Examples.tiles_dir ++ ["alpha"; "v1"; "metadata.json"], File "{}");
     (Examples.tiles_dir ++ ["alpha"; "v1"; "tilejson.json"], File "not JSON")].

(** The environment [e] with no network: no request is answered and no
    archive can be downloaded. *)
Definition offline (e : env) : env :=
  {| getenv := getenv e; http_get := fun _ => HttpFailed;
     http_head := fun _ => HeadFailed;
     statvfs := statvfs e; fetch := fun _ => None;
     gunzip := gunzip e; untar := untar e;
     loop_devices := loop_devices e; loop_attach_ok := loop_attach_ok e;
     image := image e; rsync_ok := rsync_ok e; copy_ok := copy_ok e;
     umount_ok := umount_ok e; detach_ok := detach_ok e; mkdtemp := mkdtemp e;
     float_repr := float_repr e; max_str_digits := max_str_digits e;
     load_depth := load_depth e; dump_depth := dump_depth e |}.

End Scenarios.

(** * Properties *)

(** ** Strings *)
Module PyStrFacts.
Import PyStr.

Fixpoint has_char (c : ascii) (s : string) : bool :=
  match s with
  | EmptyString => false
  | String a s' => Ascii.eqb a c || has_char c s'
  end.

Lemma prefix_empty (s : string) : String.prefix "" s = true.
Proof. by destruct s. Qed.

Lemma prefix_app (p s : string) : String.prefix p (p +:+ s) = true.
Proof.
  induction p as [|a p IH]; simpl; [apply prefix_empty|].
  destruct (ascii_dec a a); [exact IH|done].
Qed.

Lemma contains_char (c : ascii) (s : string) :
  contains (String c "") s = has_char c s.
Proof.
  induction s as [|a s IH]; [done|].
  cbn [contains has_char String.prefix]. rewrite IH, prefix_empty.
  destruct (ascii_dec c a) as [->|Hne].
  - by rewrite Ascii.eqb_refl.
  - destruct (Ascii.eqb_spec a c); [congruence|done].
Qed.

Lemma contains_prefix (p s : string) : contains p (p +:+ s) = true.
Proof.
  destruct (p +:+ s) eqn:E; cbn [contains];
    rewrite <- E, prefix_app; done.
Qed.

Lemma contains_skip (n a s : string) :
  contains n s = true → contains n (a +:+ s) = true.
Proof.
  intros H. induction a as [|c a IH]; [done|].
  change (String c a +:+ s) with (String c (a +:+ s)).
  cbn [contains]. rewrite IH. apply orb_true_r.
Qed.

Lemma split_no_sep (c : ascii) (s : string) :
  has_char c s = false → split c s = [s].
Proof.
  induction s as [|a s IH]; [done|]. cbn [has_char split].
  intros [Ha Hs]%orb_false_iff. rewrite Ha, (IH Hs). done.
Qed.

Lemma split_app (c : ascii) (a b : string) :
  has_char c a = false → split c (a +:+ String c b) = a :: split c b.
Proof.
  induction a as [|x a IH]; cbn [has_char].
  - intros _. change ("" +:+ String c b) with (String c b).
    cbn [split]. by rewrite Ascii.eqb_refl.
  - intros [Hx Ha]%orb_false_iff.
    change (String x a +:+ String c b) with (String x (a +:+ String c b)).
    cbn [split]. rewrite Hx, (IH Ha). done.
Qed.

Lemma app_assoc (a b c : string) : (a +:+ b) +:+ c = a +:+ (b +:+ c).
Proof.
  induction a as [|x a IH]; [done|].
  change (String x ((a +:+ b) +:+ c) = String x (a +:+ (b +:+ c))).
  by rewrite IH.
Qed.

(** The last element of a sorted list is its greatest. *)
Lemma last_StronglySorted (l : list string) (x : string) :
  StronglySorted String.le l → last l = Some x →
  ∀ y, y ∈ l → String.le y x.
Proof.
  induction 1 as [|a l Hl IH Ha]; [done|].
  intros Hlast y Hy. destruct l as [|b l].
  - simplify_eq/=. apply list_elem_of_singleton in Hy as ->. done.
  - rewrite last_cons_cons in Hlast.
    apply elem_of_cons in Hy as [->|Hy]; [|by apply IH].
    rewrite Forall_forall in Ha. apply Ha.
    by apply last_Some_elem_of.
Qed.

Lemma last_sorted_max (l : list string) (x : string) :
  last (sorted l) = Some x → x ∈ l ∧ ∀ y, y ∈ l → String.le y x.
Proof.
  unfold sorted. intros H. split.
  - apply last_Some_elem_of in H. by rewrite merge_sort_Permutation in H.
  - intros y Hy. eapply last_StronglySorted; [|exact H|].
    + apply StronglySorted_merge_sort; apply _.
    + by rewrite merge_sort_Permutation.
Qed.

Lemma last_sorted_None (l : list string) : last (sorted l) = None → l = [].
Proof.
  unfold sorted. intros H%last_None.
  apply Permutation_nil_r. rewrite <- H. by rewrite merge_sort_Permutation.
Qed.

End PyStrFacts.

(** ** Paths and the file system *)
Module SysFacts.
Import Sys PyStr PyStrFacts.

Lemma is_name_inv (s : string) :
  is_name s = true → s ≠ "" ∧ s ≠ "." ∧ has_char slash s = false.
Proof.
  unfold is_name. rewrite !andb_true_iff, !negb_true_iff.
  intros [[[H1 H2] _] H3]. rewrite contains_char in H3.
  apply String.eqb_neq in H1, H2. done.
Qed.

Lemma parts_name (s : string) : is_name s = true → parts s = [s].
Proof.
  intros Hs. pose proof Hs as (H1 & H2 & H3)%is_name_inv.
  unfold parts. rewrite (split_no_sep _ _ H3). cbn [List.filter].
  apply String.eqb_neq in H1, H2. by rewrite H1, H2.
Qed.

Lemma pjoin_name (p : path) (s : string) : is_name s = true → p /: s = p ++ [s].
Proof.
  intros Hs. unfold pjoin. rewrite (parts_name _ Hs).
  apply is_name_inv in Hs as (_ & _ & H3).
  unfold startswith. destruct s as [|a s]; [done|].
  cbn [has_char] in H3. apply orb_false_iff in H3 as [Ha _].
  cbn [String.prefix]. destruct (ascii_dec "/" a) as [<-|]; [done|done].
Qed.

Lemma prefixes_self (p : path) : p ∈ prefixes p.
Proof.
  induction p as [|c p IH]; cbn [prefixes]; [apply list_elem_of_here|].
  apply elem_of_cons. right. apply list_elem_of_fmap. eauto.
Qed.

Lemma prefixes_app (p q : path) : p ∈ prefixes (p ++ q).
Proof.
  induction p as [|c p IH]; cbn [prefixes app].
  - destruct q; apply list_elem_of_here.
  - apply elem_of_cons. right. apply list_elem_of_fmap. eauto.
Qed.

Lemma prefixes_inv (p q : path) : q ∈ prefixes p → ∃ r, p = q ++ r.
Proof.
  revert q. induction p as [|c p IH]; intros q; cbn [prefixes].
  - intros ->%list_elem_of_singleton. by exists [].
  - intros [->|Hq]%elem_of_cons; [by eexists|].
    apply list_elem_of_fmap in Hq as (q' & -> & Hq').
    destruct (IH _ Hq') as [r ->]. by exists r.
Qed.

Lemma prefixes_trans (p q r : path) :
  r ∈ prefixes q → q ∈ prefixes p → r ∈ prefixes p.
Proof.
  intros [x ->]%prefixes_inv [y ->]%prefixes_inv.
  rewrite <- (assoc_L (++)). apply prefixes_app.
Qed.

Lemma prefixes_length (p q : path) : q ∈ prefixes p → length q ≤ length p.
Proof. intros [r ->]%prefixes_inv. rewrite length_app. lia. Qed.

(** *** [mkdir_p] *)
Lemma foldl_mkdir1_None (qs : list path) : foldl mkdir1 None qs = None.
Proof. by induction qs. Qed.

Lemma foldl_mkdir1_lookup (qs : list path) (m m' : gmap path node) :
  foldl mkdir1 (Some m) qs = Some m' →
  ∀ q, m' !! q = m !! q ∨ (m !! q = None ∧ m' !! q = Some Dir ∧ q ∈ qs).
Proof.
  revert m. induction qs as [|a qs IH]; intros m H q.
  - simplify_eq/=. by left.
  - cbn [foldl mkdir1] in H. destruct (m !! a) as [[|c]|] eqn:Ha.
    + destruct (IH _ H q) as [->|(?&?&?)]; [by left|].
      right. split_and!; [done..|]. by apply elem_of_cons; right.
    + by rewrite foldl_mkdir1_None in H.
    + destruct (IH _ H q) as [Hq|(Hq&?&?)].
      * rewrite Hq. destruct (decide (a = q)) as [->|Hne].
        -- rewrite lookup_insert_eq. right.
           split_and!; [done|done|apply list_elem_of_here].
        -- left. by rewrite lookup_insert_ne.
      * destruct (decide (a = q)) as [->|Hne].
        -- by rewrite lookup_insert_eq in Hq.
        -- rewrite lookup_insert_ne in Hq by done. right.
           split_and!; [done..|]. by apply elem_of_cons; right.
Qed.

Lemma foldl_mkdir1_dir (qs : list path) (m m' : gmap path node) :
  foldl mkdir1 (Some m) qs = Some m' → ∀ q, q ∈ qs → m' !! q = Some Dir.
Proof.
  revert m. induction qs as [|a qs IH]; intros m H q Hq; [by inversion Hq|].
  cbn [foldl mkdir1] in H.
  assert (∀ m1, m1 !! a = Some Dir → foldl mkdir1 (Some m1) qs = Some m' →
                m' !! q = Some Dir) as Hgo.
  { intros m1 Ha H1. apply elem_of_cons in Hq as [->|Hq]; [|by eapply IH].
    destruct (foldl_mkdir1_lookup _ _ _ H1 a) as [->|(Hn&_&_)]; [done|].
    congruence. }
  destruct (m !! a) as [[|c]|] eqn:Ha.
  - by eapply Hgo.
  - by rewrite foldl_mkdir1_None in H.
  - eapply Hgo; [|done]. apply lookup_insert_eq.
Qed.

Lemma foldl_mkdir1_id (qs : list path) (m : gmap path node) :
  (∀ q, q ∈ qs → m !! q = Some Dir) → foldl mkdir1 (Some m) qs = Some m.
Proof.
  induction qs as [|a qs IH]; intros H; [done|].
  cbn [foldl mkdir1]. rewrite (H a) by apply list_elem_of_here.
  apply IH. intros q Hq. apply H. by apply elem_of_cons; right.
Qed.

(** What [mkdir_p] changes: it adds directories at prefixes of the path,
    where there was nothing. *)
Lemma mkdir_p_lookup (m m' : gmap path node) (p : path) :
  mkdir_p m p = Some m' →
  ∀ q, m' !! q = m !! q ∨ (m !! q = None ∧ m' !! q = Some Dir ∧ q ∈ prefixes p).
Proof. apply foldl_mkdir1_lookup. Qed.

Lemma mkdir_p_other (m m' : gmap path node) (p q : path) :
  mkdir_p m p = Some m' → q ∉ prefixes p → m' !! q = m !! q.
Proof. intros H Hq. destruct (mkdir_p_lookup _ _ _ H q) as [|(?&?&?)]; done. Qed.

Lemma mkdir_p_keeps (m m' : gmap path node) (p q : path) (n : node) :
  mkdir_p m p = Some m' → m !! q = Some n → m' !! q = Some n.
Proof.
  intros H Hq. destruct (mkdir_p_lookup _ _ _ H q) as [->|(?&?&?)]; congruence.
Qed.

Lemma mkdir_p_dir (m m' : gmap path node) (p : path) :
  mkdir_p m p = Some m' → m' !! p = Some Dir.
Proof. intros H. eapply foldl_mkdir1_dir; [exact H|apply prefixes_self]. Qed.

Lemma mkdir_p_id (m : gmap path node) (p : path) :
  (∀ q, q ∈ prefixes p → m !! q = Some Dir) → mkdir_p m p = Some m.
Proof. apply foldl_mkdir1_id. Qed.

(** *** Well-formed file systems *)
Lemma is_dir_true (m : gmap path node) (p : path) :
  is_dir m p = true ↔ m !! p = Some Dir.
Proof. unfold is_dir. by rewrite bool_decide_eq_true. Qed.

Lemma exists_true (m : gmap path node) (p : path) :
  exists_ m p = true ↔ is_Some (m !! p).
Proof. unfold exists_. by rewrite bool_decide_eq_true. Qed.

Lemma exists_false (m : gmap path node) (p : path) :
  exists_ m p = false ↔ m !! p = None.
Proof.
  unfold exists_. rewrite bool_decide_eq_false. by rewrite eq_None_not_Some.
Qed.

Lemma removelast_snoc (p : path) (c : string) : removelast (p ++ [c]) = p.
Proof. apply removelast_last. Qed.

Lemma fs_wf_ancestors (m : gmap path node) (p q : path) (c : string) :
  fs_wf m = true → is_Some (m !! (p ++ [c])) → q ∈ prefixes p →
  m !! q = Some Dir.
Proof.
  unfold fs_wf. rewrite forallb_forall. intros Hwf [n Hn] Hq.
  apply elem_of_map_to_list in Hn.
  specialize (Hwf (p ++ [c], n)). cbn [fst] in Hwf.
  rewrite removelast_snoc, forallb_forall in Hwf.
  apply is_dir_true. apply Hwf; [by apply list_elem_of_In|].
  by apply list_elem_of_In.
Qed.

Lemma fs_wf_dir_chain (m : gmap path node) (p q : path) :
  fs_wf m = true → is_Some (m !! p) → q ∈ prefixes p → q ≠ p →
  m !! q = Some Dir.
Proof.
  intros Hwf Hp Hq Hne.
  destruct (prefixes_inv _ _ Hq) as [r Hr].
  destruct r as [|x r _] using rev_ind.
  { rewrite app_nil_r in Hr. congruence. }
  rewrite (assoc_L (++)) in Hr. subst p.
  eapply fs_wf_ancestors; [done..|]. apply prefixes_app.
Qed.

End SysFacts.

(** ** Runs: a weakest-precondition reading *)
Module RunFacts.
Import Sys.

(** [wp m w Q I]: the run of [m] from [w] passes only through worlds that
    satisfy [I], and ends with an outcome and a world that satisfy [Q]. *)
Definition wp {A} (m : M A) (w : world) (Q : outcome A → world → Prop)
    (I : world → Prop) : Prop :=
  Forall I (hist (m w)) ∧ Q (out (m w)) (fin (m w)).

Lemma wp_ret {A} (a : A) w Q I : Q (Done a) w → wp (mret a) w Q I.
Proof. intros H. split; [constructor|exact H]. Qed.

Lemma wp_raise {A} (ex : exn) w (Q : outcome A → world → Prop) I :
  Q (Raised ex) w → wp (raise ex) w Q I.
Proof. intros H. split; [constructor|exact H]. Qed.

Lemma wp_gets {A} (f : world → A) w Q I : Q (Done (f w)) w → wp (gets f) w Q I.
Proof. intros H. split; [constructor|exact H]. Qed.

Lemma wp_bind {A B} (m : M A) (f : A → M B) w Q I :
  wp m w (fun o w' => match o with
                      | Done a => wp (f a) w' Q I
                      | Raised ex => Q (Raised ex) w'
                      end) I →
  wp (m ≫= f) w Q I.
Proof.
  unfold wp, mbind, M_bind, bind. intros [Hh Hk].
  destruct (out (m w)) as [a|ex]; cbn [out fin hist].
  - destruct Hk as [Hh' Hq]. split; [by apply Forall_app|done].
  - done.
Qed.

Lemma wp_act {A} (f : world → outcome A * world) w Q I :
  I (f w).2 ∧ Q (f w).1 (f w).2 → wp (act f) w Q I.
Proof.
  unfold wp, act. destruct (f w) as [o w']. cbn. intros [? ?].
  split; [by repeat constructor|done].
Qed.

Lemma wp_try_except {A} (m : M A) (h : exn → M A) w Q I :
  wp m w (fun o w' => match o with
                      | Done a => Q (Done a) w'
                      | Raised ex => wp (h ex) w' Q I
                      end) I →
  wp (try_except m h) w Q I.
Proof.
  unfold wp, try_except. intros [Hh Hk].
  destruct (out (m w)) as [a|ex] eqn:E; cbn [out fin hist].
  - by rewrite E.
  - destruct Hk as [Hh' Hq]. split; [by apply Forall_app|done].
Qed.

Lemma wp_try_finally {A} (m : M A) (c : M unit) w Q I :
  wp m w (fun o w' =>
            wp c w' (fun o' w'' => Q (match o' with
                                      | Done _ => o
                                      | Raised ex => Raised ex
                                      end) w'') I) I →
  wp (try_finally m c) w Q I.
Proof.
  unfold wp, try_finally. intros [Hh [Hh' Hq]]. cbn [out fin hist].
  split; [by apply Forall_app|done].
Qed.

Lemma wp_mono {A} (m : M A) w (Q Q' : outcome A → world → Prop) (I I' : world → Prop) :
  wp m w Q I → (∀ o w', Q o w' → Q' o w') → (∀ w', I w' → I' w') → wp m w Q' I'.
Proof.
  intros [Hh Hq] HQ HI. split; [|by apply HQ].
  eapply Forall_impl; [exact Hh|exact HI].
Qed.

Lemma wp_print (m : msg) w Q I :
  I (log w (EvPrint m)) → Q (Done tt) (log w (EvPrint m)) → wp (print m) w Q I.
Proof. intros. by apply wp_act. Qed.

Lemma wp_mkdir_parents (p : path) w Q I :
  (∀ m', mkdir_p (w_fs w) p = Some m' →
         I (set_fs w m') ∧ Q (Done tt) (set_fs w m')) →
  (mkdir_p (w_fs w) p = None → I w ∧ Q (Raised (OSError p)) w) →
  wp (mkdir_parents p) w Q I.
Proof.
  intros H1 H2. apply wp_act. destruct (mkdir_p (w_fs w) p); cbn; auto.
Qed.

Lemma set_fs_id w : set_fs w (w_fs w) = w.
Proof. by destruct w. Qed.

End RunFacts.

(** ** init-download.py: runs of [download_area] *)
Module InitDownloadFacts.
Import Sys InitDownload SysFacts RunFacts.

Lemma wp_act' {A} (f : world → outcome A * world) w Q I :
  (∀ o w', f w = (o, w') → I w' ∧ Q o w') → wp (act f) w Q I.
Proof. intros H. apply wp_act. apply H. by destruct (f w). Qed.

Lemma wp_subprocess_run (cmd : list string) (effect : world → bool * world) w Q I :
  (∀ w', effect (log w (EvRun cmd)) = (true, w') → I w' ∧ Q (Done tt) w') →
  (∀ w', effect (log w (EvRun cmd)) = (false, w') →
         I w' ∧ Q (Raised (CalledProcessError cmd)) w') →
  wp (subprocess_run cmd effect) w Q I.
Proof.
  intros H1 H2. apply wp_act'. intros o w' Hf. cbv beta in Hf.
  destruct (effect (log w (EvRun cmd))) as [[] w'']; simplify_eq; auto.
Qed.

Lemma wp_rename (src dst : path) w Q I :
  (∀ c, w_fs w !! src = Some (File c) → w_fs w !! parent dst = Some Dir →
        (∀ n, w_fs w !! dst = Some n → n ≠ Dir) →
        let w' := set_fs w (<[dst := File c]> (delete src (w_fs w))) in
        I w' ∧ Q (Done tt) w') →
  (I w ∧ Q (Raised (OSError src)) w) →
  wp (rename src dst) w Q I.
Proof.
  intros H1 H2. apply wp_act'. intros o w' Hf. cbv beta in Hf.
  repeat case_match; simplify_eq; try exact H2; apply H1; try done; congruence.
Qed.

Section WithEnv.
Variable e : env.

Lemma wp_aria2c (cmd : list string) (url : string) (p : path) w Q I :
  (let w1 := log w (EvRun cmd) in
   I w1 ∧ Q (Raised (CalledProcessError cmd)) w1) →
  (w_fs w !! parent p = Some Dir →
   let w1 := set_fs (log w (EvRun cmd)) (<[p := File ""]> (w_fs w)) in
   I w1 ∧ Q (Raised (CalledProcessError cmd)) w1
   ∧ ∀ c, fetch e url = Some c →
          let w2 := set_fs w1 (<[p := File c]> (w_fs w)) in
          I w2 ∧ Q (Done tt) w2) →
  wp (aria2c e cmd url p) w Q I.
Proof.
  intros H1 H2. unfold aria2c. apply wp_bind, wp_act'. intros o w' Hf.
  cbv beta zeta in Hf. case_match eqn:Hd; simplify_eq; [|exact H1].
  apply is_dir_true in Hd. destruct (H2 Hd) as (HI & HQ & Hc).
  split; [done|]. apply wp_act'. intros o w' Hf.
  cbn [w_fs set_fs log] in Hf. case_match eqn:Hc'; simplify_eq; [|done].
  rewrite insert_insert_eq. by apply Hc.
Qed.

(** The file [unpigz f] writes. *)
Definition unpigz_target (f : path) : path := parent f ++ [drop_gz (name f)].

Lemma wp_unpigz (f : path) w Q I :
  f ≠ unpigz_target f →
  (let w1 := log w (EvRun ["unpigz"; render f]) in
   I w1 ∧ Q (Raised (CalledProcessError ["unpigz"; render f])) w1) →
  (∀ c d, w_fs w !! f = Some (File c) → w_fs w !! unpigz_target f = None →
          gunzip e c = Some d →
          let w1 := set_fs (log w (EvRun ["unpigz"; render f]))
                           (<[unpigz_target f := File ""]> (w_fs w)) in
          let w2 := set_fs w1 (<[unpigz_target f := File d]> (delete f (w_fs w))) in
          I w1 ∧ I w2 ∧ Q (Done tt) w2) →
  wp (unpigz e f) w Q I.
Proof.
  intros Hne H1 H2. unfold unpigz. fold (unpigz_target f).
  apply wp_bind, wp_act'. intros o w' Hf. cbv beta zeta in Hf.
  repeat case_match; simplify_eq; try exact H1.
  match goal with
  | Hs : _ !! f = Some (File ?c), Ht : _ !! unpigz_target f = None,
    Hg : gunzip e ?c = Some ?d |- _ =>
      destruct (H2 c d eq_refl Ht Hg) as (I1 & I2 & HQ);
      split; [done|]; apply wp_act'; intros o w' Hf;
      cbn [w_fs set_fs log] in Hf; rewrite lookup_insert_ne in Hf by done;
      unfold path in *; rewrite Hs, Hg in Hf
  end.
  simplify_eq.
  rewrite delete_insert_ne, insert_insert_eq by done. done.
Qed.

Lemma wp_gigabytes (a : Z) w (Q : outcome unit → world → Prop) I :
  ((gigabytes_bound <= Z.abs a)%Z → Q (Raised OverflowError) w) →
  ((Z.abs a < gigabytes_bound)%Z → Q (Done tt) w) →
  wp (gigabytes a) w Q I.
Proof.
  intros H1 H2. unfold gigabytes.
  destruct (Z.leb_spec gigabytes_bound (Z.abs a)); [by apply wp_raise, H1|].
  by apply wp_ret, H2.
Qed.

(** What [get_remote_file_size] makes of the answer to its request. *)
Definition size_of_reply (r : head_reply) : Z :=
  match r with
  | HeadReply 200 (ClInt n) => n
  | _ => 0%Z
  end.

Lemma wp_get_remote_file_size (url : string) w Q I :
  let w1 := log w (EvHttpHead url) in
  let size := size_of_reply (http_head e url) in
  I w1 →
  (∀ w', w' = w1 ∨ (w' = log w1 (EvPrint (MsgError "getting file size"))
                    ∧ size = 0%Z) →
         I w' ∧ Q (Done size) w') →
  wp (get_remote_file_size e url) w Q I.
Proof.
  intros w1 size H1 H2. unfold get_remote_file_size.
  apply wp_bind, wp_act'. intros o w' Hf. simplify_eq. split; [done|].
  fold w1. subst size.
  assert (size_of_reply (http_head e url) = 0%Z →
          wp (print (MsgError "getting file size");; mret 0%Z) w1 Q I) as Hprint.
  { intros Hz. destruct (H2 (log w1 (EvPrint (MsgError "getting file size"))))
      as [HI HQ]; [by right|].
    apply wp_bind, wp_print; [done|]. apply wp_ret. by rewrite Hz in HQ. }
  assert (∀ n, size_of_reply (http_head e url) = n → wp (mret n) w1 Q I) as Hret.
  { intros n <-. apply wp_ret. apply H2. by left. }
  destruct (http_head e url) as [|status cl] eqn:Hr; [by apply Hprint|].
  destruct (Z.eqb_spec status 200) as [->|Hne].
  - destruct cl; [by apply Hret|by apply Hret|by apply Hprint].
  - apply Hret. unfold size_of_reply. destruct status as [|p|p]; try done.
    do 8 (destruct p; try done).
Qed.


(** *** The paths of a pair of plain names *)
Section Pair.
Variables (area version : string) (od : path).
Hypothesis Ha : is_name area = true.
Hypothesis Hv : is_name version = true.

Definition marker : path := od ++ [area; version; "tiles.btrfs"].
Definition temp : path := od ++ ["_tmp"].

Lemma btrfs_file_name : btrfs_file od area version = marker.
Proof.
  unfold btrfs_file, area_version_dir, marker.
  rewrite !pjoin_name by done. by rewrite <- !(assoc_L (++)).
Qed.

Lemma area_version_dir_name : area_version_dir od area version = od ++ [area; version].
Proof.
  unfold area_version_dir.
  rewrite !pjoin_name by done. by rewrite <- !(assoc_L (++)).
Qed.

Lemma temp_dir_name : temp_dir od = temp.
Proof. unfold temp_dir. by rewrite pjoin_name. Qed.

Lemma compressed_file_name : compressed_file od = temp ++ ["tiles.btrfs.gz"].
Proof. unfold compressed_file. by rewrite temp_dir_name, pjoin_name. Qed.

Lemma decompressed_file_name : decompressed_file od = temp ++ ["tiles.btrfs"].
Proof. unfold decompressed_file. by rewrite temp_dir_name, pjoin_name. Qed.

Lemma parent_snoc (p : path) (c : string) : parent (p ++ [c]) = p.
Proof. apply removelast_last. Qed.

Lemma name_snoc (p : path) (c : string) : name (p ++ [c]) = c.
Proof. apply last_last. Qed.

Lemma unpigz_target_compressed :
  unpigz_target (temp ++ ["tiles.btrfs.gz"]) = temp ++ ["tiles.btrfs"].
Proof. unfold unpigz_target. by rewrite parent_snoc, name_snoc. Qed.

Lemma parent_marker : parent marker = od ++ [area; version].
Proof.
  unfold marker. change [area; version; "tiles.btrfs"] with ([area; version] ++ ["tiles.btrfs"]).
  rewrite (assoc_L (++)). apply parent_snoc.
Qed.

Lemma is_prefix_true (p q : path) : is_prefix p q = true ↔ ∃ r, q = p ++ r.
Proof.
  unfold is_prefix. rewrite bool_decide_eq_true. split.
  - intros H. exists (drop (length p) q). rewrite H at 1. by rewrite take_drop.
  - intros [r ->]. by rewrite take_app_length.
Qed.

Lemma is_prefix_app (p r : path) : is_prefix p (p ++ r) = true.
Proof. apply is_prefix_true. by eexists. Qed.

Lemma marker_not_staged : area ≠ "_tmp" → is_prefix temp marker = false.
Proof.
  intros Hne. apply not_true_iff_false. intros [r Hr]%is_prefix_true.
  unfold marker, temp in Hr. rewrite <- (assoc_L (++)) in Hr.
  apply app_inv_head in Hr. cbn in Hr. congruence.
Qed.

Lemma marker_length : length marker = length od + 3.
Proof. unfold marker. by rewrite length_app. Qed.

Lemma marker_not_prefix (p : path) :
  length p < length od + 3 → marker ∉ prefixes p.
Proof. intros Hl Hin%prefixes_length. rewrite marker_length in Hin. lia. Qed.

Lemma marker_neq_staged (c : string) : marker ≠ temp ++ [c].
Proof.
  intros H%(f_equal length). rewrite marker_length in H.
  unfold temp in H. rewrite !length_app in H. cbn in H. lia.
Qed.

Lemma od_prefix_marker : od ∈ prefixes marker.
Proof. apply prefixes_app. Qed.

Lemma avd_prefix_marker : od ++ [area; version] ∈ prefixes marker.
Proof. rewrite <- parent_marker. unfold marker.
  change [area; version; "tiles.btrfs"] with ([area; version] ++ ["tiles.btrfs"]).
  rewrite (assoc_L (++)), parent_snoc. apply prefixes_app.
Qed.

(** What a run for the pair may touch: the staging directory and what is
    below it, and the final path with the directories leading to it. *)
Definition allowed (q : path) : Prop := is_prefix temp q = true ∨ q ∈ prefixes marker.

Definition touched (m0 m : gmap path node) : Prop :=
  ∀ q, is_prefix temp q = false → q ∉ prefixes marker → m !! q = m0 !! q.

Lemma touched_refl m : touched m m.
Proof. by intros q. Qed.

Lemma touched_insert m0 m q n : touched m0 m → allowed q → touched m0 (<[q := n]> m).
Proof.
  intros H Hq q' H1 H2. rewrite lookup_insert_ne; [by apply H|].
  intros ->. destruct Hq; congruence.
Qed.

Lemma touched_delete m0 m q : touched m0 m → allowed q → touched m0 (delete q m).
Proof.
  intros H Hq q' H1 H2. rewrite lookup_delete_ne; [by apply H|].
  intros ->. destruct Hq; congruence.
Qed.

Lemma touched_mkdir m0 m m' p :
  touched m0 m → mkdir_p m p = Some m' → (∀ q, q ∈ prefixes p → allowed q) →
  touched m0 m'.
Proof.
  intros H Hmk Hp q H1 H2.
  destruct (mkdir_p_lookup _ _ _ Hmk q) as [->|(_ & _ & Hq)]; [by apply H|].
  destruct (Hp _ Hq); congruence.
Qed.

Lemma rm_rf_lookup (m : gmap path node) (p q : path) :
  rm_rf m p !! q = if is_prefix p q then None else m !! q.
Proof.
  unfold rm_rf. destruct (is_prefix p q) eqn:E.
  - apply map_lookup_filter_None. right. intros n _. cbn. congruence.
  - destruct (m !! q) as [n|] eqn:Hq.
    + apply map_lookup_filter_Some. done.
    + apply map_lookup_filter_None. by left.
Qed.

Lemma touched_rm_rf m0 m : touched m0 m → touched m0 (rm_rf m temp).
Proof. intros H q H1 H2. rewrite rm_rf_lookup, H1. by apply H. Qed.

Lemma allowed_staged (r : path) : allowed (temp ++ r).
Proof. left. apply is_prefix_app. Qed.

Lemma allowed_prefix_od q : q ∈ prefixes od → allowed q.
Proof. intros H. right. eapply prefixes_trans; [done|apply od_prefix_marker]. Qed.

Lemma allowed_prefix_avd q : q ∈ prefixes (od ++ [area; version]) → allowed q.
Proof. intros H. right. eapply prefixes_trans; [done|apply avd_prefix_marker]. Qed.

Lemma prefixes_snoc (p : path) (c : string) q :
  q ∈ prefixes (p ++ [c]) → q ∈ prefixes p ∨ q = p ++ [c].
Proof.
  revert q. induction p as [|x p IH]; intros q; cbn.
  - intros H. apply elem_of_cons in H as [->|H]; [left; apply list_elem_of_here|].
    apply list_elem_of_singleton in H as ->. by right.
  - intros [->|H]%elem_of_cons; [left; apply list_elem_of_here|].
    apply list_elem_of_fmap in H as (q' & -> & Hq').
    destruct (IH _ Hq') as [? | ->]; [|by right].
    left. apply elem_of_cons. right. apply list_elem_of_fmap. eauto.
Qed.

Lemma allowed_prefix_temp q : q ∈ prefixes temp → allowed q.
Proof.
  intros [H| ->]%prefixes_snoc; [by apply allowed_prefix_od|].
  rewrite <- (app_nil_r (od ++ _)). apply allowed_staged.
Qed.


Definition placed (m : gmap path node) : Prop :=
  ∃ c d, fetch e (archive_url e area version) = Some c ∧ gunzip e c = Some d
         ∧ m !! marker = Some (File d).

Definition marker_ok (m : gmap path node) : Prop :=
  m !! marker = None ∨ placed m.

Definition inv (m0 : gmap path node) (w : world) : Prop :=
  marker_ok (w_fs w) ∧ touched m0 (w_fs w).

Lemma inv_log m0 w ev : inv m0 w → inv m0 (log w ev).
Proof. done. Qed.

Ltac in_list :=
  solve [repeat first [apply list_elem_of_here | apply list_elem_of_further]].

(** The log of a world reached from [w], as [w_log w] and what was added. *)
Ltac log_ext :=
  cbn [w_log log set_fs]; rewrite <- ?(assoc_L (++)); cbn [app];
  eexists; split; [reflexivity|in_list].

Lemma staged_neq_marker (c : string) : temp ++ [c] ≠ marker.
Proof. intros H. symmetry in H. by apply marker_neq_staged in H. Qed.

Lemma marker_not_prefix_avd : marker ∉ prefixes (od ++ [area; version]).
Proof. apply marker_not_prefix. rewrite length_app. cbn. lia. Qed.

Lemma download_and_place_wp (m0 : gmap path node) (w : world) :
  w_fs w !! marker = None → touched m0 (w_fs w) → w_fs w !! temp = Some Dir →
  wp (download_and_place e area version od) w
     (fun o w' => inv m0 w'
                  ∧ (o = Done true → area ≠ "_tmp" → placed (w_fs w'))
                  ∧ ∃ l, w_log w' = w_log w ++ l
                         ∧ EvRun (aria2c_cmd (archive_url e area version)
                                             (temp ++ ["tiles.btrfs.gz"])) ∈ l)
     (inv m0).
Proof.
  intros Hm Ht Hd. unfold download_and_place. cbv zeta.
  rewrite btrfs_file_name, area_version_dir_name, temp_dir_name,
    compressed_file_name, decompressed_file_name.
  set (url := archive_url e area version).
  set (cmd := aria2c_cmd url (temp ++ ["tiles.btrfs.gz"])).
  unfold download_file_aria2. fold cmd.
  assert (∀ m, m !! marker = None → touched m0 m →
               ∀ w', w_fs w' = m → inv m0 w') as Hinv.
  { intros m H1 H2 w' <-. by split; [left|]. }
  apply wp_bind, wp_bind, wp_print; [by eapply Hinv|].
  apply wp_aria2c.
  { cbn [w_fs log set_fs]. split; [by eapply Hinv|].
    split; [by eapply Hinv|]. split; [done|]. log_ext. }
  rewrite parent_snoc. intros _. cbn [w_fs log set_fs].
  pose proof (touched_insert _ _ _ (File "") Ht (allowed_staged ["tiles.btrfs.gz"])) as Ht1.
  assert (<[temp ++ ["tiles.btrfs.gz"]:=File ""]> (w_fs w) !! marker = None) as Hm1
    by (by rewrite lookup_insert_ne by apply staged_neq_marker).
  split; [by eapply Hinv|].
  split; [split; [by eapply Hinv|split; [done|log_ext]]|].
  intros c Hc.
  pose proof (touched_insert _ _ _ (File c) Ht (allowed_staged ["tiles.btrfs.gz"])) as Ht2.
  assert (<[temp ++ ["tiles.btrfs.gz"]:=File c]> (w_fs w) !! marker = None) as Hm2
    by (by rewrite lookup_insert_ne by apply staged_neq_marker).
  split; [by eapply Hinv|].
  apply wp_bind, wp_print; [by eapply Hinv|].
  apply wp_bind, wp_unpigz.
  { rewrite unpigz_target_compressed. intros H%app_inv_head. done. }
  { cbn [w_fs log set_fs]. split; [by eapply Hinv|].
    split; [by eapply Hinv|]. split; [done|]. log_ext. }
  rewrite unpigz_target_compressed. cbn [w_fs log set_fs].
  intros c' d Hc' Hdf Hg. rewrite lookup_insert_eq in Hc'. injection Hc' as <-.
  set (m3 := <[temp ++ ["tiles.btrfs"]:=File d]>
               (delete (temp ++ ["tiles.btrfs.gz"])
                  (<[temp ++ ["tiles.btrfs.gz"]:=File c]> (w_fs w)))).
  assert (touched m0 m3) as Ht3.
  { apply touched_insert; [|apply allowed_staged].
    apply touched_delete; [done|apply allowed_staged]. }
  assert (m3 !! marker = None) as Hm3.
  { unfold m3. rewrite lookup_insert_ne by apply staged_neq_marker.
    by rewrite lookup_delete_ne by apply staged_neq_marker. }
  split; [eapply Hinv; [|eapply touched_insert; [exact Ht2|apply allowed_staged]|done];
          by rewrite lookup_insert_ne by apply staged_neq_marker|].
  split; [by eapply Hinv|].
  apply wp_bind, wp_mkdir_parents; cbn [w_fs log set_fs];
    [|intros _; split; [by eapply Hinv|split; [by eapply Hinv|split; [done|log_ext]]]].
  intros m4 Hm4.
  assert (touched m0 m4) as Ht4.
  { eapply touched_mkdir; [exact Ht3|exact Hm4|apply allowed_prefix_avd]. }
  assert (m4 !! marker = None) as Hmk4.
  { rewrite (mkdir_p_other _ _ _ _ Hm4); [done|apply marker_not_prefix_avd]. }
  split; [by eapply Hinv|].
  apply wp_bind, wp_rename; cbn [w_fs log set_fs];
    [|split; [by eapply Hinv|split; [by eapply Hinv|split; [done|log_ext]]]].
  intros d' Hd' _ _.
  assert (d' = d) as ->.
  { erewrite mkdir_p_keeps in Hd'; [|exact Hm4|apply lookup_insert_eq]. congruence. }
  set (m5 := <[marker:=File d]> (delete (temp ++ ["tiles.btrfs"]) m4)).
  assert (touched m0 m5) as Ht5.
  { apply touched_insert; [|right; apply prefixes_self].
    apply touched_delete; [done|apply allowed_staged]. }
  assert (placed m5) as Hp5.
  { exists c, d. split_and!; [done..|]. apply lookup_insert_eq. }
  split; [by split; [right|]|].
  apply wp_bind, wp_subprocess_run; [|intros w' [=]].
  intros w' [= <-]. cbn [w_fs log set_fs].
  assert (marker_ok (rm_rf m5 temp)) as Hok.
  { destruct (is_prefix temp marker) eqn:E.
    - left. by rewrite rm_rf_lookup, E.
    - right. exists c, d. split_and!; [done..|].
      rewrite rm_rf_lookup, E. apply lookup_insert_eq. }
  split; [by split; [|apply touched_rm_rf]|].
  apply wp_bind, wp_print; [by split; [|apply touched_rm_rf]|].
  apply wp_ret. cbn [w_fs log set_fs].
  split; [by split; [|apply touched_rm_rf]|]. split; [|log_ext].
  intros _ Hne. exists c, d. split_and!; [done..|].
  rewrite rm_rf_lookup, marker_not_staged by done. apply lookup_insert_eq.
Qed.

Lemma marker_not_prefix_od : marker ∉ prefixes od.
Proof. apply marker_not_prefix. lia. Qed.

Lemma marker_not_prefix_temp : marker ∉ prefixes temp.
Proof. apply marker_not_prefix. unfold temp. rewrite length_app. cbn. lia. Qed.

(** A run started without the marker: every world it passes through has
    the marker absent or complete and differs from the first only where
    the pair may write; when it returns [True] the marker is complete. *)
Lemma download_area_wp (w : world) :
  String.eqb version "latest" = false → w_fs w !! marker = None →
  wp (download_area e area version od) w
     (fun o w' => inv (w_fs w) w'
                  ∧ (o = Done true → area ≠ "_tmp" → placed (w_fs w')))
     (inv (w_fs w)).
Proof.
  intros Hl Hm. unfold download_area. rewrite Hl.
  assert (∀ m, m !! marker = None → touched (w_fs w) m →
               ∀ w', w_fs w' = m → inv (w_fs w) w') as Hinv.
  { intros m H1 H2 w' <-. by split; [left|]. }
  apply wp_bind, wp_mkdir_parents;
    [|intros _; split; [|split; [|done]]; (eapply Hinv; [done|apply touched_refl|done])].
  intros m1 Hm1. cbn [w_fs set_fs log].
  assert (touched (w_fs w) m1) as Ht1.
  { eapply touched_mkdir; [apply touched_refl|exact Hm1|apply allowed_prefix_od]. }
  assert (m1 !! marker = None) as Hk1.
  { by rewrite (mkdir_p_other _ _ _ _ Hm1) by apply marker_not_prefix_od. }
  split; [by eapply Hinv|].
  apply wp_bind, wp_ret. cbv beta iota zeta.
  rewrite btrfs_file_name, temp_dir_name.
  apply wp_bind, wp_gets. cbn [w_fs set_fs log].
  replace (exists_ m1 marker) with false by (symmetry; by apply exists_false).
  apply wp_bind, wp_mkdir_parents; cbn [w_fs set_fs log];
    [|intros _; split; [by eapply Hinv|split; [by eapply Hinv|done]]].
  intros m2 Hm2.
  assert (touched (w_fs w) m2) as Ht2.
  { eapply touched_mkdir; [exact Ht1|exact Hm2|apply allowed_prefix_temp]. }
  assert (m2 !! marker = None) as Hk2.
  { by rewrite (mkdir_p_other _ _ _ _ Hm2) by apply marker_not_prefix_temp. }
  pose proof (mkdir_p_dir _ _ _ Hm2) as Hd2.
  split; [by eapply Hinv|].
  apply wp_bind, wp_print; [by eapply Hinv|].
  apply wp_bind, wp_print; [by eapply Hinv|].
  apply wp_bind, wp_get_remote_file_size; [by eapply Hinv|].
  intros w' Hw'.
  assert (w_fs w' = m2) as Hfs by (by destruct Hw' as [->|[-> _]]).
  split; [by eapply Hinv|].
  assert (∀ w'', w_fs w'' = m2 →
            wp (download_and_place e area version od) w''
               (fun o w3 => inv (w_fs w) w3
                            ∧ (o = Done true → area ≠ "_tmp" → placed (w_fs w3)))
               (inv (w_fs w))) as Hplace.
  { intros w'' Hw''. eapply wp_mono.
    - apply (download_and_place_wp (w_fs w)); by rewrite Hw''.
    - by intros o w3 (H1 & H2 & _).
    - done. }
  case_match.
  - apply wp_bind, wp_print; [by eapply Hinv|]. by apply Hplace.
  - apply wp_bind, wp_gigabytes; [intros _; split; [by eapply Hinv|done]|intros _].
    apply wp_bind, wp_gigabytes; [intros _; split; [by eapply Hinv|done]|intros _].
    apply wp_bind, wp_print; [by eapply Hinv|].
    case_match.
    + apply wp_bind, wp_print; [by eapply Hinv|].
      apply wp_ret. split; [by eapply Hinv|done].
    + by apply Hplace.
Qed.

(** A run that finds the marker: nothing but a message. *)
Lemma download_area_skip (w : world) :
  String.eqb version "latest" = false → fs_wf (w_fs w) = true →
  is_Some (w_fs w !! marker) →
  wp (download_area e area version od) w
     (fun o w' => o = Done true ∧ w' = log w (EvPrint (MsgAlreadyExists marker)))
     (fun w' => w' = w ∨ w' = log w (EvPrint (MsgAlreadyExists marker))).
Proof.
  intros Hl Hwf Hex.
  assert (mkdir_p (w_fs w) od = Some (w_fs w)) as Hmk.
  { apply mkdir_p_id. intros q Hq. unfold marker in Hex.
    change [area; version; "tiles.btrfs"]
      with ([area; version] ++ ["tiles.btrfs"]) in Hex.
    rewrite (assoc_L (++)) in Hex.
    eapply fs_wf_ancestors; [done..|].
    eapply prefixes_trans; [done|]. apply prefixes_app. }
  unfold download_area. rewrite Hl.
  apply wp_bind, wp_mkdir_parents; [|congruence].
  intros m' Hm'. assert (m' = w_fs w) as -> by congruence.
  rewrite set_fs_id. split; [by left|].
  apply wp_bind, wp_ret. cbv beta iota zeta. rewrite btrfs_file_name.
  apply wp_bind, wp_gets.
  replace (exists_ (w_fs w) marker) with true by (symmetry; by apply exists_true).
  apply wp_bind, wp_print; [by right|]. by apply wp_ret.
Qed.

(** What a run touches, whether it finds the marker or not. *)
Lemma download_area_frame (w : world) :
  String.eqb version "latest" = false →
  wp (download_area e area version od) w
     (fun _ w' => touched (w_fs w) (w_fs w'))
     (fun w' => touched (w_fs w) (w_fs w')).
Proof.
  intros Hl. destruct (w_fs w !! marker) as [n|] eqn:Hm.
  - unfold download_area. rewrite Hl.
    apply wp_bind, wp_mkdir_parents; [|intros _; split; apply touched_refl].
    intros m1 Hm1. cbn [w_fs set_fs log].
    assert (touched (w_fs w) m1) as Ht1.
    { eapply touched_mkdir; [apply touched_refl|exact Hm1|apply allowed_prefix_od]. }
    split; [done|]. apply wp_bind, wp_ret. cbv beta iota zeta.
    rewrite btrfs_file_name. apply wp_bind, wp_gets. cbn [w_fs set_fs log].
    replace (exists_ m1 marker) with true.
    + apply wp_bind, wp_print; [done|]. by apply wp_ret.
    + symmetry. apply exists_true. rewrite (mkdir_p_keeps _ _ _ _ _ Hm1 Hm). done.
  - eapply wp_mono; [by apply download_area_wp| |]; cbv beta.
    + by intros o w' [[_ H] _].
    + by intros w' [_ H].
Qed.

(** The disk space check of a run that gets as far. *)
Lemma download_area_preflight (w : world) (m1 m2 : gmap path node) :
  String.eqb version "latest" = false →
  mkdir_p (w_fs w) od = Some m1 → m1 !! marker = None →
  mkdir_p m1 temp = Some m2 →
  let url := archive_url e area version in
  let size := size_of_reply (http_head e url) in
  let free := ((statvfs e temp).1 * (statvfs e temp).2)%Z in
  let started (l : list event) :=
    EvRun (aria2c_cmd url (temp ++ ["tiles.btrfs.gz"])) ∈ l in
  let fits (a : Z) := (Z.abs a < gigabytes_bound)%Z in
  wp (download_area e area version od) w
     (fun o w' =>
        (size ≠ 0%Z → fits free → fits (size * 3)%Z → (free < size * 3)%Z →
           o = Done false ∧ w_fs w' = m2
           ∧ w_log w' = w_log w ++
               [EvPrint (MsgDownloading (area +:+ " " +:+ version));
                EvPrint (MsgDownloading url); EvHttpHead url;
                EvPrint (MsgDiskCheck free (size * 3));
                EvPrint (MsgNotEnoughSpace free (size * 3))])
        ∧ (size ≠ 0%Z → fits free → fits (size * 3)%Z → (size * 3 <= free)%Z →
             ∃ l, w_log w' = w_log w ++ l ∧ started l
                  ∧ EvPrint (MsgDiskCheck free (size * 3)) ∈ l)
        ∧ (size = 0%Z →
             ∃ l, w_log w' = w_log w ++ l ∧ started l
                  ∧ EvPrint MsgWarnUnknownSize ∈ l)
        ∧ (size ≠ 0%Z → ¬ (fits free ∧ fits (size * 3)%Z) →
           o = Raised OverflowError ∧ w_fs w' = m2
           ∧ w_log w' = w_log w ++
               [EvPrint (MsgDownloading (area +:+ " " +:+ version));
                EvPrint (MsgDownloading url); EvHttpHead url]))
     (fun _ => True).
Proof.
  intros Hl Hm1 Hk1 Hm2 url size free started fits.
  unfold download_area. rewrite Hl.
  apply wp_bind, wp_mkdir_parents; [|congruence].
  intros m' Hm'. assert (m' = m1) as -> by congruence.
  cbn [w_fs set_fs log]. split; [done|].
  apply wp_bind, wp_ret. cbv beta iota zeta.
  rewrite btrfs_file_name, temp_dir_name.
  apply wp_bind, wp_gets. cbn [w_fs set_fs log].
  replace (exists_ m1 marker) with false by (symmetry; by apply exists_false).
  apply wp_bind, wp_mkdir_parents; cbn [w_fs set_fs log]; [|congruence].
  intros m'' Hm''. assert (m'' = m2) as -> by congruence.
  split; [done|].
  assert (m2 !! marker = None) as Hk2.
  { by rewrite (mkdir_p_other _ _ _ _ Hm2) by apply marker_not_prefix_temp. }
  pose proof (mkdir_p_dir _ _ _ Hm2) as Hd2.
  apply wp_bind, wp_print; [done|].
  apply wp_bind, wp_print; [done|].
  apply wp_bind, wp_get_remote_file_size; [done|].
  fold url size free. intros w' Hw'. split; [done|].
  assert (∃ pre, w_log w' = w_log w ++ pre ∧ w_fs w' = m2
                 ∧ (size ≠ 0%Z →
                    pre = [EvPrint (MsgDownloading (area +:+ " " +:+ version));
                           EvPrint (MsgDownloading url); EvHttpHead url]))
    as (pre & Hpre & Hfs & Hknown).
  { destruct Hw' as [->|[-> Hz]]; cbn [w_log w_fs log set_fs];
      rewrite <- ?(assoc_L (++)); cbn [app]; eexists; split_and!; done. }
  clear Hw'.
  assert (∀ w'' extra (x : event),
            w_fs w'' = m2 → w_log w'' = w_log w ++ pre ++ extra → x ∈ extra →
            wp (download_and_place e area version od) w''
               (fun o w3 => ∃ l, w_log w3 = w_log w ++ l ∧ started l ∧ x ∈ l)
               (fun _ => True)) as Hplace.
  { intros w'' extra x Hw'' Hlog Hx. eapply wp_mono.
    - apply (download_and_place_wp m2); rewrite Hw''; [done|apply touched_refl|done].
    - cbv beta. intros o w3 (_ & _ & l & Hl3 & Hin).
      exists (pre ++ extra ++ l). rewrite Hl3, Hlog, <- !(assoc_L (++)).
      split; [done|]. unfold started. rewrite !elem_of_app. auto.
    - done. }
  destruct (Z.eqb_spec size 0) as [Hz|Hnz].
  - apply wp_bind, wp_print; [done|].
    eapply wp_mono; [eapply (Hplace _ [EvPrint MsgWarnUnknownSize])| |done].
    + done.
    + cbn [w_log log]. by rewrite Hpre, <- (assoc_L (++)).
    + apply list_elem_of_here.
    + cbv beta. intros o w3 Hq. split_and!; [done|done|by intros _|done].
  - assert (w_log w' = w_log w ++
              [EvPrint (MsgDownloading (area +:+ " " +:+ version));
               EvPrint (MsgDownloading url); EvHttpHead url]) as Hlog3
      by (by rewrite Hpre, (Hknown Hnz)).
    apply wp_bind, wp_gigabytes.
    { intros Hover. split_and!; [| |done|done]; intros _ Hf; unfold fits in Hf; lia. }
    intros Hfree.
    apply wp_bind, wp_gigabytes.
    { intros Hover. split_and!; [| |done|done]; intros _ _ Hf; unfold fits in Hf; lia. }
    intros Hneeded.
    apply wp_bind, wp_print; [done|].
    destruct (Z.ltb_spec free (size * 3)) as [Hlt|Hge].
    + apply wp_bind, wp_print; [done|]. apply wp_ret.
      split_and!; [|lia|done|by intros _ []]. intros _ _ _ _. cbn [w_fs w_log log].
      rewrite Hlog3, <- !(assoc_L (++)). done.
    + eapply wp_mono;
        [eapply (Hplace _ [EvPrint (MsgDiskCheck free (size * 3))])| |done].
      * done.
      * cbn [w_log log]. by rewrite Hpre, <- (assoc_L (++)).
      * apply list_elem_of_here.
      * cbv beta. intros o w3 Hq.
        split_and!; [lia|by intros _ _ _ _|done|by intros _ []].
Qed.

End Pair.

End WithEnv.
End InitDownloadFacts.

(** ** JSON: reading back what was written *)
Module JsonStrings.
Import Json.

(** Induction on documents, with the hypothesis for every element and member. *)
Lemma value_induction (P : value → Prop) :
  P Null → (∀ b, P (Bool b)) → (∀ n, P (Int n)) → (∀ r, P (Float r)) →
  (∀ s, P (Str s)) →
  (∀ l, Forall P l → P (Arr l)) →
  (∀ d, Forall (fun kv => P kv.2) d → P (Obj d)) →
  ∀ v, P v.
Proof.
  intros Hnull Hbool Hint Hfloat Hstr Harr Hobj.
  fix IH 1. intros [| b | n | r | s | l | d].
  - exact Hnull.
  - apply Hbool.
  - apply Hint.
  - apply Hfloat.
  - apply Hstr.
  - apply Harr. induction l as [|x l IHl]; constructor; [apply IH|exact IHl].
  - apply Hobj. induction d as [|[k x] d IHd]; constructor; [apply IH|exact IHd].
Qed.

(** *** Strings *)
Lemma hex_value_digit (d : N) : (d < 16)%N → hex_value (hex_digit d) = Some d.
Proof.
  intros H. destruct d as [|p]; [reflexivity|].
  do 4 (destruct p as [p|p|]; try reflexivity); exfalso; lia.
Qed.

Lemma hex_value_lt (c : ascii) (d : N) : hex_value c = Some d → (d < 16)%N.
Proof.
  unfold hex_value. set (n := N_of_ascii c).
  destruct ((48 <=? n) && (n <=? 57))%N eqn:E1;
    [apply andb_true_iff in E1 as [?%N.leb_le ?%N.leb_le]; intros [= <-]; lia|].
  destruct ((97 <=? n) && (n <=? 102))%N eqn:E2;
    [apply andb_true_iff in E2 as [?%N.leb_le ?%N.leb_le]; intros [= <-]; lia|].
  destruct ((65 <=? n) && (n <=? 70))%N eqn:E3;
    [apply andb_true_iff in E3 as [?%N.leb_le ?%N.leb_le]; intros [= <-]; lia|].
  done.
Qed.

Lemma hex4_value_lt (h1 h2 h3 h4 : ascii) (n : N) :
  hex4_value h1 h2 h3 h4 = Some n → (n < 65536)%N.
Proof.
  unfold hex4_value.
  destruct (hex_value h1) as [a|] eqn:E1; [|done].
  destruct (hex_value h2) as [b|] eqn:E2; [|done].
  destruct (hex_value h3) as [c|] eqn:E3; [|done].
  destruct (hex_value h4) as [d|] eqn:E4; [|done].
  apply hex_value_lt in E1, E2, E3, E4. intros [= <-]. lia.
Qed.

Lemma u_escape_value (n : N) :
  (n < 65536)%N →
  ∃ h1 h2 h3 h4, u_escape n = [backslash; "u"%char; h1; h2; h3; h4]
                 ∧ hex4_value h1 h2 h3 h4 = Some n.
Proof.
  intros Hn. unfold u_escape. do 4 eexists. split; [reflexivity|].
  unfold hex4_value.
  rewrite !hex_value_digit by (apply N.mod_lt; lia).
  f_equal. zify. Z.to_euclidean_division_equations. lia.
Qed.


(** The code points of a string as [json.load] builds it: none is beyond
    the last code point, and no high surrogate is followed by a low one
    (read from two escapes, they give one code point). *)
Fixpoint no_pair (cs : list N) : Prop :=
  match cs with
  | a :: (b :: _) as tl => ¬ (is_high a = true ∧ is_low b = true) ∧ no_pair tl
  | _ => True
  end.

Definition wf_chars (cs : list N) : Prop :=
  Forall (fun n => (n < 1114112)%N) cs ∧ no_pair cs.

(** The input does not go on with the escape of a low surrogate. *)
Definition not_low_escape (tl : list ascii) : Prop :=
  ∀ l1 l2 l3 l4 r3,
    tl = backslash :: "u"%char :: l1 :: l2 :: l3 :: l4 :: r3 →
    ∃ m, hex4_value l1 l2 l3 l4 = Some m ∧ is_low m = false.

Definition cons_char (n : N) (r : option (list N * list ascii))
  : option (list N * list ascii) :=
  match r with
  | Some (cs, rest) => Some (n :: cs, rest)
  | None => None
  end.

Lemma parse_chars_u (n : N) (h1 h2 h3 h4 : ascii) (tl : list ascii) :
  hex4_value h1 h2 h3 h4 = Some n →
  (is_high n = true → not_low_escape tl) →
  parse_chars (backslash :: "u"%char :: h1 :: h2 :: h3 :: h4 :: tl)
  = cons_char n (parse_chars tl).
Proof.
  intros Hn Hnl.
  change (parse_chars (backslash :: "u"%char :: h1 :: h2 :: h3 :: h4 :: tl))
    with (match hex4_value h1 h2 h3 h4 with
          | Some n =>
              let single := cons_char n (parse_chars tl) in
              if is_high n then
                match tl with
                | b :: u :: l1 :: l2 :: l3 :: l4 :: r3 =>
                    if Ascii.eqb b backslash && Ascii.eqb u "u"%char then
                      match hex4_value l1 l2 l3 l4 with
                      | Some m =>
                          if is_low m
                          then cons_char (join_surrogates n m) (parse_chars r3)
                          else single
                      | None => None
                      end
                    else single
                | _ => single
                end
              else single
          | None => None
          end).
  rewrite Hn. cbv zeta. destruct (is_high n); [|done].
  destruct tl as [|b [|u [|l1 [|l2 [|l3 [|l4 r3]]]]]]; try done.
  destruct (Ascii.eqb_spec b backslash) as [->|]; [|done].
  destruct (Ascii.eqb_spec u "u"%char) as [->|]; [|done]. cbn [andb].
  destruct (Hnl eq_refl _ _ _ _ _ eq_refl) as (m & -> & ->). done.
Qed.

Lemma parse_chars_pair (hi lo : N) (h1 h2 h3 h4 l1 l2 l3 l4 : ascii) (tl : list ascii) :
  hex4_value h1 h2 h3 h4 = Some hi → hex4_value l1 l2 l3 l4 = Some lo →
  is_high hi = true → is_low lo = true →
  parse_chars (backslash :: "u"%char :: h1 :: h2 :: h3 :: h4
               :: backslash :: "u"%char :: l1 :: l2 :: l3 :: l4 :: tl)
  = cons_char (join_surrogates hi lo) (parse_chars tl).
Proof.
  intros Hh Hl Hhi Hlo.
  change (parse_chars (backslash :: "u"%char :: h1 :: h2 :: h3 :: h4
               :: backslash :: "u"%char :: l1 :: l2 :: l3 :: l4 :: tl))
    with (match hex4_value h1 h2 h3 h4 with
          | Some n =>
              let single :=
                cons_char n (parse_chars (backslash :: "u"%char :: l1 :: l2 :: l3
                                          :: l4 :: tl)) in
              if is_high n then
                match hex4_value l1 l2 l3 l4 with
                | Some m =>
                    if is_low m
                    then cons_char (join_surrogates n m) (parse_chars tl)
                    else single
                | None => None
                end
              else single
          | None => None
          end).
  by rewrite Hh, Hhi, Hl, Hlo.
Qed.

Lemma ascii_N (n : N) : (n < 256)%N → N_of_ascii (ascii_of_N n) = n.
Proof. apply N_ascii_embedding. Qed.

Lemma parse_chars_plain (n : N) (tl : list ascii) :
  (32 <= n)%N → (n < 256)%N → n ≠ 34%N → n ≠ 92%N →
  parse_chars (ascii_of_N n :: tl) = cons_char n (parse_chars tl).
Proof.
  intros H32 H256 H34 H92. cbn [parse_chars].
  destruct (Ascii.eqb_spec (ascii_of_N n) dquote) as [E|_].
  { apply (f_equal N_of_ascii) in E. rewrite ascii_N in E by done. done. }
  destruct (Ascii.eqb_spec (ascii_of_N n) backslash) as [E|_].
  { apply (f_equal N_of_ascii) in E. rewrite ascii_N in E by done. done. }
  rewrite ascii_N by done.
  destruct (N.ltb_spec n 32); [lia|]. done.
Qed.

Lemma surrogates_of (n : N) :
  (65536 <= n)%N → (n < 1114112)%N →
  let m := (n - 65536)%N in
  let hi := (55296 + m / 1024 mod 1024)%N in
  let lo := (56320 + m mod 1024)%N in
  is_high hi = true ∧ is_low lo = true ∧ join_surrogates hi lo = n
  ∧ (hi < 65536)%N ∧ (lo < 65536)%N.
Proof.
  intros H1 H2. cbv zeta. set (m := (n - 65536)%N).
  assert (m < 1048576)%N as Hm by (subst m; lia).
  assert (n = m + 65536)%N as Hn by (subst m; lia). clearbody m. clear H1 H2.
  assert (m / 1024 < 1024)%N as Hq by (apply N.Div0.div_lt_upper_bound; lia).
  rewrite (N.mod_small (m / 1024)) by done.
  pose proof (N.mod_lt m 1024 ltac:(lia)) as Hr.
  pose proof (N.div_mod m 1024 ltac:(lia)) as Hd.
  revert Hq Hr Hd. generalize (m / 1024)%N (m mod 1024)%N. intros q r Hq Hr Hd.
  unfold is_high, is_low, join_surrogates. split_and!.
  - apply andb_true_iff. split; apply N.leb_le; lia.
  - apply andb_true_iff. split; apply N.leb_le; lia.
  - lia.
  - lia.
  - lia.
Qed.

Lemma parse_chars_escape (n : N) (tl : list ascii) :
  (n < 1114112)%N → (is_high n = true → not_low_escape tl) →
  parse_chars (escape_char n ++ tl) = cons_char n (parse_chars tl).
Proof.
  intros Hn Hnl. unfold escape_char.
  destruct (N.eqb_spec n 34) as [->|H34]; [reflexivity|].
  destruct (N.eqb_spec n 92) as [->|H92]; [reflexivity|].
  destruct (N.eqb_spec n 10) as [->|H10]; [reflexivity|].
  destruct (N.eqb_spec n 13) as [->|H13]; [reflexivity|].
  destruct (N.eqb_spec n 9) as [->|H9]; [reflexivity|].
  destruct (N.eqb_spec n 8) as [->|H8]; [reflexivity|].
  destruct (N.eqb_spec n 12) as [->|H12]; [reflexivity|].
  destruct (N.leb_spec 32 n) as [H32|H32]; cbn [andb].
  - destruct (N.leb_spec n 126) as [H126|H126].
    + cbn [app]. apply parse_chars_plain; lia.
    + destruct (N.ltb_spec n 65536) as [Hlt|Hge].
      * destruct (u_escape_value n Hlt) as (h1 & h2 & h3 & h4 & -> & Hv).
        by apply parse_chars_u.
      * cbv zeta.
        destruct (surrogates_of n Hge Hn) as (Hhi & Hlo & Hj & Hh & Hl).
        cbv zeta in Hhi, Hlo, Hj, Hh, Hl.
        destruct (u_escape_value _ Hh) as (h1 & h2 & h3 & h4 & -> & Hv).
        destruct (u_escape_value _ Hl) as (l1 & l2 & l3 & l4 & -> & Hw).
        cbn [app]. rewrite (parse_chars_pair _ _ _ _ _ _ _ _ _ _ _ Hv Hw Hhi Hlo).
        by rewrite Hj.
  - destruct (N.ltb_spec n 65536) as [Hlt|Hge]; [|lia].
    destruct (u_escape_value n Hlt) as (h1 & h2 & h3 & h4 & -> & Hv).
    by apply parse_chars_u.
Qed.

(** What the text of a string goes on with after one of its characters. *)
Lemma escapes_not_low (cs : list N) (rest : list ascii) :
  Forall (fun n => (n < 1114112)%N) cs →
  match cs with
  | c :: _ => is_low c = false
  | [] => True
  end →
  not_low_escape (flat_map escape_char cs ++ dquote :: rest).
Proof.
  intros Hcs Hhead l1 l2 l3 l4 r3 E.
  destruct cs as [|c cs]; [discriminate E|].
  apply Forall_cons_1 in Hcs as [Hc _].
  cbn [flat_map] in E. rewrite <- (assoc_L (++)) in E. revert E.
  unfold escape_char.
  destruct (N.eqb_spec c 34) as [->|H34]; [discriminate|].
  destruct (N.eqb_spec c 92) as [->|H92]; [discriminate|].
  destruct (N.eqb_spec c 10) as [->|H10]; [discriminate|].
  destruct (N.eqb_spec c 13) as [->|H13]; [discriminate|].
  destruct (N.eqb_spec c 9) as [->|H9]; [discriminate|].
  destruct (N.eqb_spec c 8) as [->|H8]; [discriminate|].
  destruct (N.eqb_spec c 12) as [->|H12]; [discriminate|].
  assert (∀ n tl, (n < 65536)%N → is_low n = false →
            u_escape n ++ tl = backslash :: "u"%char :: l1 :: l2 :: l3 :: l4 :: r3 →
            ∃ m, hex4_value l1 l2 l3 l4 = Some m ∧ is_low m = false) as Hu.
  { intros n tl Hn Hlow E.
    destruct (u_escape_value n Hn) as (h1 & h2 & h3 & h4 & Hesc & Hv).
    rewrite Hesc in E. injection E as <- <- <- <- _. eauto. }
  destruct (N.leb_spec 32 c) as [H32|H32]; cbn [andb].
  - destruct (N.leb_spec c 126) as [H126|H126].
    + cbn [app]. intros [= E _]. apply (f_equal N_of_ascii) in E.
      rewrite ascii_N in E by lia. done.
    + destruct (N.ltb_spec c 65536) as [Hlt|Hge]; [by apply Hu|].
      cbv zeta. rewrite <- (assoc_L (++)).
      destruct (surrogates_of c Hge Hc) as (Hhi & Hlo & Hj & Hh & Hl).
      cbv zeta in Hhi, Hlo, Hj, Hh, Hl. apply Hu; [done|].
      unfold is_high, is_low in *.
      apply andb_true_iff in Hhi as [_ ?%N.leb_le].
      apply andb_false_iff. left. apply N.leb_gt. lia.
  - destruct (N.ltb_spec c 65536) as [Hlt|Hge]; [by apply Hu|lia].
Qed.

Lemma parse_chars_dump (cs : list N) (rest : list ascii) :
  wf_chars cs →
  parse_chars (flat_map escape_char cs ++ dquote :: rest) = Some (cs, rest).
Proof.
  intros [Hlt Hnp]. induction cs as [|c cs IH]; [done|].
  apply Forall_cons_1 in Hlt as [Hc Hlt].
  cbn [flat_map]. rewrite <- (assoc_L (++)), parse_chars_escape; [|done|].
  - rewrite IH; [done|done|]. destruct cs as [|c' cs]; [done|]. by destruct Hnp.
  - intros Hhi. apply escapes_not_low; [done|].
    destruct cs as [|c' cs]; [done|]. destruct Hnp as [Hp _].
    destruct (is_low c'); [|done]. by destruct Hp.
Qed.

Lemma dump_string_parse (s : list N) (rest : list ascii) :
  wf_chars s →
  ∃ tl, dump_string s = dquote :: tl ∧ parse_chars (tl ++ rest) = Some (s, rest).
Proof.
  intros Hs. unfold dump_string. eexists. split; [reflexivity|].
  rewrite <- (assoc_L (++)). cbn [app]. by apply parse_chars_dump.
Qed.

Lemma wf_chars_of_string (s : string) : wf_chars (of_string s).
Proof.
  unfold of_string.
  assert (Forall (fun n => (n < 256)%N)
            (List.map N_of_ascii (String.list_ascii_of_string s))) as H.
  { apply Forall_forall. intros n [c [<- _]]%list_elem_of_In%in_map_iff.
    apply N_ascii_bounded. }
  split.
  - eapply Forall_impl; [exact H|]. cbv beta. lia.
  - induction H as [|a l Ha Hl IH]; [done|].
    destruct l as [|b l]; [done|]. split; [|exact IH].
    intros [Hhi _]. unfold is_high in Hhi.
    apply andb_true_iff in Hhi as [?%N.leb_le _]. lia.
Qed.

Definition no_low_escape (sfx : list ascii) : Prop :=
  ∀ l1 l2 l3 l4 r3 m,
    sfx = backslash :: "u"%char :: l1 :: l2 :: l3 :: l4 :: r3 →
    hex4_value l1 l2 l3 l4 = Some m → is_low m = false.

Lemma cons_char_Some n r cs rest :
  cons_char n r = Some (cs, rest) → ∃ cs0, r = Some (cs0, rest) ∧ cs = n :: cs0.
Proof. destruct r as [[cs0 rest0]|]; [|done]. intros [= <- <-]. eauto. Qed.

Lemma parse_chars_unfold (c : ascii) (r : list ascii) :
  parse_chars (c :: r) =
  if Ascii.eqb c dquote then Some ([], r)
  else if Ascii.eqb c backslash then
    match r with
    | [] => None
    | x :: r1 =>
        if Ascii.eqb x dquote then cons_char 34%N (parse_chars r1)
        else if Ascii.eqb x backslash then cons_char 92%N (parse_chars r1)
        else if Ascii.eqb x "/"%char then cons_char 47%N (parse_chars r1)
        else if Ascii.eqb x "b"%char then cons_char 8%N (parse_chars r1)
        else if Ascii.eqb x "f"%char then cons_char 12%N (parse_chars r1)
        else if Ascii.eqb x "n"%char then cons_char 10%N (parse_chars r1)
        else if Ascii.eqb x "r"%char then cons_char 13%N (parse_chars r1)
        else if Ascii.eqb x "t"%char then cons_char 9%N (parse_chars r1)
        else if Ascii.eqb x "u"%char then
          match r1 with
          | h1 :: h2 :: h3 :: h4 :: r2 =>
              match hex4_value h1 h2 h3 h4 with
              | Some n =>
                  if is_high n then
                    match r2 with
                    | b :: u :: l1 :: l2 :: l3 :: l4 :: r3 =>
                        if Ascii.eqb b backslash && Ascii.eqb u "u"%char then
                          match hex4_value l1 l2 l3 l4 with
                          | Some m =>
                              if is_low m
                              then cons_char (join_surrogates n m) (parse_chars r3)
                              else cons_char n (parse_chars r2)
                          | None => None
                          end
                        else cons_char n (parse_chars r2)
                    | _ => cons_char n (parse_chars r2)
                    end
                  else cons_char n (parse_chars r2)
              | None => None
              end
          | _ => None
          end
        else None
    end
  else if (N_of_ascii c <? 32)%N then None
  else cons_char (N_of_ascii c) (parse_chars r).
Proof.
  destruct r as [|x [|h1 [|h2 [|h3 [|h4 r2]]]]]; reflexivity.
Qed.


Lemma join_not_surrogate (hi lo : N) :
  is_high hi = true → is_low lo = true →
  (join_surrogates hi lo < 1114112)%N
  ∧ is_low (join_surrogates hi lo) = false
  ∧ is_high (join_surrogates hi lo) = false.
Proof.
  unfold is_high, is_low, join_surrogates.
  intros [?%N.leb_le ?%N.leb_le]%andb_true_iff [?%N.leb_le ?%N.leb_le]%andb_true_iff.
  split_and!; [lia| |]; apply andb_false_iff; right; apply N.leb_gt; lia.
Qed.

Lemma small_not_surrogate (n : N) :
  (n < 256)%N → is_low n = false ∧ is_high n = false.
Proof.
  intros H. unfold is_low, is_high.
  split; apply andb_false_iff; left; apply N.leb_gt; lia.
Qed.

Lemma high_not_low (n : N) : is_high n = true → is_low n = false.
Proof.
  unfold is_high, is_low. intros [_ ?%N.leb_le]%andb_true_iff.
  apply andb_false_iff; left; apply N.leb_gt; lia.
Qed.

(** One step of [parse_chars]: the end of the string, or one code point
    and the rest. *)
Lemma parse_chars_inv (s : list ascii) (cs : list N) (rest : list ascii) :
  parse_chars s = Some (cs, rest) →
  (cs = [] ∧ s = dquote :: rest)
  ∨ ∃ n0 sfx cs0,
      cs = n0 :: cs0 ∧ parse_chars sfx = Some (cs0, rest)
      ∧ length sfx < length s ∧ (n0 < 1114112)%N
      ∧ (is_low n0 = true →
         ∃ l1 l2 l3 l4, s = backslash :: "u"%char :: l1 :: l2 :: l3 :: l4 :: sfx
                        ∧ hex4_value l1 l2 l3 l4 = Some n0)
      ∧ (is_high n0 = true → no_low_escape sfx).
Proof.
  destruct s as [|c r]; [done|]. rewrite parse_chars_unfold.
  assert (∀ n0 sfx,
            (n0 < 256)%N → length sfx < length (c :: r) →
            cons_char n0 (parse_chars sfx) = Some (cs, rest) →
            ∃ n0 sfx cs0,
              cs = n0 :: cs0 ∧ parse_chars sfx = Some (cs0, rest)
              ∧ length sfx < length (c :: r) ∧ (n0 < 1114112)%N
              ∧ (is_low n0 = true →
                 ∃ l1 l2 l3 l4,
                   c :: r = backslash :: "u"%char :: l1 :: l2 :: l3 :: l4 :: sfx
                   ∧ hex4_value l1 l2 l3 l4 = Some n0)
              ∧ (is_high n0 = true → no_low_escape sfx)) as Hsmall.
  { intros n0 sfx Hn Hlen (cs0 & Hp & ->)%cons_char_Some.
    destruct (small_not_surrogate n0 Hn) as [Hl Hh].
    exists n0, sfx, cs0. rewrite Hl, Hh. split_and!; [done|done|done|lia|done|done]. }
  destruct (Ascii.eqb_spec c dquote) as [->|_]; [intros [= <- <-]; by left|].
  right. revert H. destruct (Ascii.eqb_spec c backslash) as [->|_].
  2:{ destruct (N.ltb_spec (N_of_ascii c) 32); [done|].
      apply Hsmall; [apply N_ascii_bounded|cbn; lia]. }
  destruct r as [|x r1]; [done|].
  destruct (Ascii.eqb x dquote); [apply Hsmall; [lia|cbn; lia]|].
  destruct (Ascii.eqb x backslash); [apply Hsmall; [lia|cbn; lia]|].
  destruct (Ascii.eqb x "/"); [apply Hsmall; [lia|cbn; lia]|].
  destruct (Ascii.eqb x "b"); [apply Hsmall; [lia|cbn; lia]|].
  destruct (Ascii.eqb x "f"); [apply Hsmall; [lia|cbn; lia]|].
  destruct (Ascii.eqb x "n"); [apply Hsmall; [lia|cbn; lia]|].
  destruct (Ascii.eqb x "r"); [apply Hsmall; [lia|cbn; lia]|].
  destruct (Ascii.eqb x "t"); [apply Hsmall; [lia|cbn; lia]|].
  destruct (Ascii.eqb_spec x "u") as [->|_]; [|done].
  destruct r1 as [|h1 [|h2 [|h3 [|h4 r2]]]]; try done.
  destruct (hex4_value h1 h2 h3 h4) as [n|] eqn:Hn; [|done].
  pose proof (hex4_value_lt _ _ _ _ _ Hn) as Hlt.
  assert (cons_char n (parse_chars r2) = Some (cs, rest) →
          (is_high n = true → no_low_escape r2) →
          ∃ n0 sfx cs0,
            cs = n0 :: cs0 ∧ parse_chars sfx = Some (cs0, rest)
            ∧ length sfx < length (backslash :: "u"%char :: h1 :: h2 :: h3 :: h4 :: r2)
            ∧ (n0 < 1114112)%N
            ∧ (is_low n0 = true →
               ∃ l1 l2 l3 l4,
                 backslash :: "u"%char :: h1 :: h2 :: h3 :: h4 :: r2
                 = backslash :: "u"%char :: l1 :: l2 :: l3 :: l4 :: sfx
                 ∧ hex4_value l1 l2 l3 l4 = Some n0)
            ∧ (is_high n0 = true → no_low_escape sfx)) as Hsingle.
  { intros (cs0 & Hp & ->)%cons_char_Some Hnl. exists n, r2, cs0.
    split_and!; [done|done|cbn; lia|lia| |done].
    intros _. by exists h1, h2, h3, h4. }
  destruct (is_high n) eqn:Hhi.
  2:{ intros H. by apply Hsingle. }
  destruct r2 as [|b [|u [|l1 [|l2 [|l3 [|l4 r3]]]]]];
    try (intros H; apply Hsingle; [done|]; intros _ ? ? ? ? ? ? [=]).
  destruct (Ascii.eqb_spec b backslash) as [->|Hb]; cbn [andb].
  2:{ intros H; apply Hsingle; [done|]. intros _ ? ? ? ? ? ? [=]. done. }
  destruct (Ascii.eqb_spec u "u") as [->|Hu].
  2:{ intros H; apply Hsingle; [done|]. intros _ ? ? ? ? ? ? [=]. done. }
  destruct (hex4_value l1 l2 l3 l4) as [m|] eqn:Hm; [|done].
  destruct (is_low m) eqn:Hlo.
  - intros (cs0 & Hp & ->)%cons_char_Some.
    destruct (join_not_surrogate n m Hhi Hlo) as (Hj & Hjl & Hjh).
    exists (join_surrogates n m), r3, cs0. rewrite Hjl, Hjh.
    split_and!; [done|done|cbn; lia|done|done|done].
  - intros H. apply Hsingle; [done|].
    intros _ ? ? ? ? ? m' [= <- <- <- <- <-] Hm'. congruence.
Qed.

Lemma parse_chars_wf (s : list ascii) (cs : list N) (rest : list ascii) :
  parse_chars s = Some (cs, rest) → wf_chars cs.
Proof.
  remember (length s) as k eqn:Hk. revert s cs rest Hk.
  induction k as [k IH] using lt_wf_ind. intros s cs rest -> H.
  destruct (parse_chars_inv _ _ _ H)
    as [[-> _]|(n0 & sfx & cs0 & -> & Hp & Hlen & Hn & Hlow & Hhigh)].
  { split; [constructor|done]. }
  destruct (IH _ Hlen sfx cs0 rest eq_refl Hp) as [Hf Hnp].
  split; [by constructor|].
  destruct cs0 as [|c1 cs1]; [done|]. split; [|done].
  intros [Hhi Hlo].
  destruct (parse_chars_inv _ _ _ Hp)
    as [[[=] _]|(n1 & sfx1 & cs2 & [= <- <-] & _ & _ & _ & Hlow1 & _)].
  destruct (Hlow1 Hlo) as (l1 & l2 & l3 & l4 & -> & Hv).
  pose proof (Hhigh Hhi _ _ _ _ _ _ eq_refl Hv). congruence.
Qed.

End JsonStrings.

Module JsonNumbers.
Import Sys Json JsonStrings.

(** *** Integers *)
Definition no_digit (rest : list ascii) : Prop :=
  match rest with
  | [] => True
  | c :: _ => digit_of c = None
  end.

(** What may follow a value written by [dumps]. *)
Definition delimited (rest : list ascii) : Prop :=
  match rest with
  | [] => True
  | c :: _ => c = ","%char ∨ c = "]"%char ∨ c = "}"%char
  end.

Lemma delimited_no_digit rest : delimited rest → no_digit rest.
Proof. destruct rest as [|c rest]; [done|]. by intros [->|[->| ->]]. Qed.

Lemma parse_digits_dump (d : Decimal.uint) (rest : list ascii) :
  no_digit rest → parse_digits (dump_uint d ++ rest) = (d, rest).
Proof.
  intros Hr. induction d; cbn [dump_uint app parse_digits];
    try (change (digit_of _) with (Some Decimal.D0) || idtac);
    try (cbn [digit_of N_of_ascii]; rewrite IHd; reflexivity).
  destruct rest as [|c rest]; [done|]. cbn in Hr. cbn [parse_digits]. by rewrite Hr.
Qed.

Lemma to_uint_head (p : positive) :
  match Pos.to_uint p with
  | Decimal.Nil | Decimal.D0 _ => False
  | _ => True
  end.
Proof.
  pose proof (Unsigned.to_uint_nonnil p) as Hnil.
  pose proof (Unsigned.to_uint_nonzero p) as Hnz.
  assert (Decimal.unorm (Pos.to_uint p) = Pos.to_uint p) as Hnorm.
  { rewrite <- (Unsigned.to_of (Pos.to_uint p)), Unsigned.of_to. done. }
  destruct (Pos.to_uint p) as [|d| | | | | | | | |] eqn:E; try done.
  rewrite unorm_D0 in Hnorm. unfold Decimal.unorm in Hnorm.
  destruct (Decimal.nzhead d) eqn:En; try discriminate Hnorm.
  - injection Hnorm as <-. done.
  - by apply nzhead_nonzero in En.
Qed.

Lemma parse_uint_dump_pos (p : positive) (rest : list ascii) :
  delimited rest →
  parse_uint (dump_uint (Pos.to_uint p) ++ rest) = Some (Pos.to_uint p, rest).
Proof.
  intros Hr. unfold parse_uint.
  rewrite parse_digits_dump by by apply delimited_no_digit.
  assert (match rest with
          | c :: _ => Ascii.eqb c "." || Ascii.eqb c "e" || Ascii.eqb c "E"
          | [] => false
          end = false) as ->.
  { destruct rest as [|c rest]; [done|]. by destruct Hr as [->|[->| ->]]. }
  pose proof (to_uint_head p). by destruct (Pos.to_uint p).
Qed.

Lemma parse_uint_dump_zero (rest : list ascii) :
  delimited rest → parse_uint ("0"%char :: rest) = Some (Decimal.zero, rest).
Proof.
  intros Hr. unfold parse_uint. cbn [parse_digits digit_of N_of_ascii].
  change (digit_of "0") with (Some Decimal.D0). cbv iota beta.
  destruct rest as [|c rest]; [done|].
  destruct Hr as [->|[->| ->]]; reflexivity.
Qed.

(** *** Floats *)

(** What may follow a number without being read as a part of it. *)
Definition ends_number (rest : list ascii) : Prop :=
  match rest with
  | [] => True
  | c :: _ =>
      is_digit c = false ∧ Ascii.eqb c "." = false
      ∧ Ascii.eqb c "e" = false ∧ Ascii.eqb c "E" = false
      ∧ Ascii.eqb c "+" = false ∧ Ascii.eqb c "-" = false
  end.

Lemma delimited_ends_number rest : delimited rest → ends_number rest.
Proof. destruct rest as [|c rest]; [done|]. by intros [->|[->| ->]]. Qed.

Lemma span_digits_app (s rest : list ascii) :
  ends_number rest →
  span_digits (s ++ rest) = ((span_digits s).1, (span_digits s).2 ++ rest).
Proof.
  intros Hr. induction s as [|c s IH]; cbn [app span_digits].
  - destruct rest as [|c rest]; [done|]. cbn [span_digits].
    destruct Hr as [-> _]. done.
  - destruct (is_digit c); [|done]. rewrite IH. by destruct (span_digits s).
Qed.

Lemma parse_frac_app (s rest l r : list ascii) :
  ends_number rest → parse_frac s = Some (l, r) →
  parse_frac (s ++ rest) = Some (l, r ++ rest).
Proof.
  intros Hr. destruct s as [|c s]; cbn [app parse_frac].
  - intros [= <- <-]. destruct rest as [|c rest]; [done|]. cbn [parse_frac].
    destruct Hr as (_ & -> & _). done.
  - destruct (Ascii.eqb c "."); [|by intros [= <- <-]].
    rewrite span_digits_app by done.
    destruct (span_digits s) as [[|d ds] r1]; [done|]. cbn [fst snd].
    by intros [= <- <-].
Qed.

Lemma parse_exp_app (s rest l r : list ascii) :
  ends_number rest → parse_exp s = Some (l, r) →
  parse_exp (s ++ rest) = Some (l, r ++ rest).
Proof.
  intros Hr. destruct s as [|c s]; cbn [app parse_exp].
  - intros [= <- <-]. destruct rest as [|c rest]; [done|]. cbn [parse_exp].
    destruct Hr as (_ & _ & -> & -> & _). done.
  - destruct (Ascii.eqb c "e" || Ascii.eqb c "E"); [|by intros [= <- <-]].
    destruct s as [|c1 s]; [done|]. cbn [app].
    destruct (Ascii.eqb c1 "+" || Ascii.eqb c1 "-").
    + rewrite span_digits_app by done.
      destruct (span_digits s) as [[|d ds] r1]; [done|]. cbn [fst snd].
      by intros [= <- <-].
    + change (c1 :: s ++ rest) with ((c1 :: s) ++ rest).
      rewrite span_digits_app by done.
      destruct (span_digits (c1 :: s)) as [[|d ds] r1]; [done|]. cbn [fst snd].
      by intros [= <- <-].
Qed.

Lemma parse_ufloat_app (s rest l r : list ascii) :
  ends_number rest → parse_ufloat s = Some (l, r) →
  parse_ufloat (s ++ rest) = Some (l, r ++ rest).
Proof.
  intros Hr. unfold parse_ufloat. rewrite span_digits_app by done.
  destruct (span_digits s) as [int s1]. cbn [fst snd].
  destruct int as [|c int]; [done|].
  destruct (leading_zero (c :: int)); [done|].
  destruct (parse_frac s1) as [[frac s2]|] eqn:Ef; [|done].
  rewrite (parse_frac_app _ _ _ _ Hr Ef).
  destruct (parse_exp s2) as [[exp s3]|] eqn:Ee; [|done].
  rewrite (parse_exp_app _ _ _ _ Hr Ee).
  destruct (frac ++ exp); [done|]. by intros [= <- <-].
Qed.

Lemma parse_float_app (s rest l r : list ascii) :
  ends_number rest → parse_float s = Some (l, r) →
  parse_float (s ++ rest) = Some (l, r ++ rest).
Proof.
  intros Hr. destruct s as [|c s]; [done|]. cbn [app parse_float].
  destruct (Ascii.eqb c "-").
  - destruct (parse_ufloat s) as [[lit r0]|] eqn:E; [|done].
    rewrite (parse_ufloat_app _ _ _ _ Hr E). by intros [= <- <-].
  - apply (parse_ufloat_app (c :: s)). done.
Qed.

Lemma parse_digits_rest (s : list ascii) : (parse_digits s).2 = (span_digits s).2.
Proof.
  induction s as [|c s IH]; [done|]. cbn [parse_digits span_digits].
  unfold is_digit. destruct (digit_of c); [|done].
  destruct (parse_digits s), (span_digits s). done.
Qed.

(** A number with a fraction or an exponent starts with a digit, which it
    keeps, and is no integer. *)
Lemma parse_ufloat_head (s l r : list ascii) :
  parse_ufloat s = Some (l, r) →
  ∃ c tl tl', s = c :: tl ∧ l = c :: tl' ∧ is_digit c = true.
Proof.
  unfold parse_ufloat. destruct s as [|c s]; [done|]. cbn [span_digits].
  destruct (is_digit c) eqn:Ec; [|done].
  destruct (span_digits s) as [ds s1].
  destruct (leading_zero (c :: ds)); [done|].
  destruct (parse_frac s1) as [[frac s2]|]; [|done].
  destruct (parse_exp s2) as [[exp s3]|]; [|done].
  destruct (frac ++ exp) eqn:E; [done|]. intros [= <- <-]. by do 3 eexists.
Qed.

Lemma parse_uint_ufloat (s l r : list ascii) :
  parse_ufloat s = Some (l, r) → parse_uint s = None.
Proof.
  unfold parse_ufloat, parse_uint. pose proof (parse_digits_rest s) as Hrest.
  destruct (parse_digits s) as [ds rest], (span_digits s) as [int s1].
  cbn [fst snd] in Hrest. subst rest.
  destruct int as [|c int]; [done|].
  destruct (leading_zero (c :: int)); [done|].
  destruct s1 as [|c1 s1]; [done|]. cbn [parse_frac].
  destruct (Ascii.eqb c1 "."); [done|]. cbn [parse_exp orb].
  destruct (Ascii.eqb c1 "e"); [done|]. by destruct (Ascii.eqb c1 "E").
Qed.

Lemma digit_not_minus (c : ascii) : is_digit c = true → Ascii.eqb c "-" = false.
Proof. by destruct c as [[] [] [] [] [] [] [] []]. Qed.

Lemma digit_not_I (c : ascii) : is_digit c = true → Ascii.eqb c "I" = false.
Proof. by destruct c as [[] [] [] [] [] [] [] []]. Qed.

Lemma is_digit_Some (c : ascii) : is_digit c = true → is_Some (digit_of c).
Proof. unfold is_digit. by destruct (digit_of c). Qed.

(** What a number is read from is the number and the input after it. *)
Lemma span_digits_split (s : list ascii) :
  s = (span_digits s).1 ++ (span_digits s).2.
Proof.
  induction s as [|c s IH]; [done|]. cbn [span_digits].
  destruct (is_digit c); [|done]. destruct (span_digits s). cbn in *. congruence.
Qed.

Lemma parse_frac_split (s l r : list ascii) : parse_frac s = Some (l, r) → s = l ++ r.
Proof.
  destruct s as [|c s]; cbn [parse_frac]; [by intros [= <- <-]|].
  destruct (Ascii.eqb c "."); [|by intros [= <- <-]].
  pose proof (span_digits_split s) as Hs.
  destruct (span_digits s) as [[|d ds] r1]; [done|]. cbn [fst snd] in Hs.
  intros [= <- <-]. by rewrite Hs.
Qed.

Lemma parse_exp_split (s l r : list ascii) : parse_exp s = Some (l, r) → s = l ++ r.
Proof.
  destruct s as [|c s]; cbn [parse_exp]; [by intros [= <- <-]|].
  destruct (Ascii.eqb c "e" || Ascii.eqb c "E"); [|by intros [= <- <-]].
  destruct s as [|c1 s]; [done|].
  destruct (Ascii.eqb c1 "+" || Ascii.eqb c1 "-").
  - pose proof (span_digits_split s) as Hs.
    destruct (span_digits s) as [[|d ds] r1]; [done|]. cbn [fst snd] in Hs.
    intros [= <- <-]. by rewrite Hs.
  - pose proof (span_digits_split (c1 :: s)) as Hs.
    destruct (span_digits (c1 :: s)) as [[|d ds] r1]; [done|]. cbn [fst snd] in Hs.
    intros [= <- <-]. by rewrite Hs.
Qed.

Lemma parse_ufloat_split (s l r : list ascii) :
  parse_ufloat s = Some (l, r) → s = l ++ r.
Proof.
  unfold parse_ufloat. pose proof (span_digits_split s) as Hs.
  destruct (span_digits s) as [int s1]. cbn [fst snd] in Hs.
  destruct int as [|c int]; [done|].
  destruct (leading_zero (c :: int)); [done|].
  destruct (parse_frac s1) as [[frac s2]|] eqn:Ef; [|done].
  destruct (parse_exp s2) as [[exp s3]|] eqn:Ee; [|done].
  apply parse_frac_split in Ef. apply parse_exp_split in Ee.
  destruct (frac ++ exp) eqn:E; [done|]. intros [= <- <-].
  rewrite Hs, Ef, Ee, <- E. cbn [app]. f_equal. by rewrite <- !(assoc_L (++)).
Qed.

Lemma parse_float_split (s l r : list ascii) :
  parse_float s = Some (l, r) → s = l ++ r.
Proof.
  destruct s as [|c s]; [done|]. cbn [parse_float].
  destruct (Ascii.eqb c "-").
  - destruct (parse_ufloat s) as [[lit r0]|] eqn:E; [|done].
    apply parse_ufloat_split in E. intros [= <- <-]. by rewrite E.
  - apply parse_ufloat_split.
Qed.

End JsonNumbers.

Module JsonFacts.
Import Sys Json JsonStrings JsonNumbers.

(** *** Dictionaries *)
Lemma dict_get_set_eq k v d : dict_get k (dict_set k v d) = Some v.
Proof.
  induction d as [|[k' v'] d IH]; cbn.
  - by rewrite bool_decide_eq_true_2.
  - case_bool_decide as E; cbn; [by rewrite bool_decide_eq_true_2|].
    by rewrite bool_decide_eq_false_2.
Qed.

Lemma dict_get_set_ne k k' v d : k ≠ k' → dict_get k' (dict_set k v d) = dict_get k' d.
Proof.
  intros Hne. induction d as [|[k0 v0] d IH]; cbn.
  - by rewrite bool_decide_eq_false_2.
  - case_bool_decide as E; cbn.
    + subst k0. by rewrite !bool_decide_eq_false_2.
    + by rewrite IH.
Qed.

Lemma dict_set_keys_in k v d : k ∈ d.*1 → (dict_set k v d).*1 = d.*1.
Proof.
  induction d as [|[k0 v0] d IH]; cbn; [by intros ?%elem_of_nil|].
  case_bool_decide as E; [by subst|].
  intros [?|Hin]%elem_of_cons; [congruence|]. cbn. by rewrite IH.
Qed.

Lemma dict_set_keys_notin k v d : k ∉ d.*1 → dict_set k v d = d ++ [(k, v)].
Proof.
  induction d as [|[k0 v0] d IH]; cbn; [done|].
  intros Hnin. apply not_elem_of_cons in Hnin as [Hne Hnin].
  rewrite bool_decide_eq_false_2 by done. by rewrite IH.
Qed.

Lemma dict_set_NoDup k v d : NoDup d.*1 → NoDup (dict_set k v d).*1.
Proof.
  intros Hd. destruct (decide (k ∈ d.*1)) as [Hin|Hnin].
  - by rewrite dict_set_keys_in.
  - rewrite dict_set_keys_notin by done. rewrite fmap_app. cbn.
    apply NoDup_app. split_and!; [done| |apply NoDup_singleton].
    intros x Hx ->%list_elem_of_singleton. done.
Qed.

Lemma dict_set_Forall (P : list N * value → Prop) k v d :
  P (k, v) → Forall P d → Forall P (dict_set k v d).
Proof.
  intros Hv. induction 1 as [|[k0 v0] d H0 Hd IH]; cbn.
  - by repeat constructor.
  - case_bool_decide; by constructor.
Qed.

Lemma dict_set_idemp k v d : dict_set k v (dict_set k v d) = dict_set k v d.
Proof.
  induction d as [|[k0 v0] d IH]; cbn.
  - by rewrite bool_decide_eq_true_2.
  - case_bool_decide as E; cbn.
    + by rewrite bool_decide_eq_true_2.
    + rewrite bool_decide_eq_false_2 by done. by rewrite IH.
Qed.

Section WithLimits.
(** [repr(float(s))] as JSON text, and [sys.get_int_max_str_digits()] *)
Variable fr : string → string.
Variable maxd : nat.

(** The text of a float as [json.dump] writes it: one of the three names,
    or a number with a fraction or an exponent that [fr] gives back. *)
Definition canonical (r : string) : Prop :=
  r = "NaN" ∨ r = "Infinity" ∨ r = "-Infinity"
  ∨ (parse_float (String.list_ascii_of_string r)
     = Some (String.list_ascii_of_string r, [])
     ∧ fr r = r).

(** What is assumed of [fr]: of a number read by [parse_float] it makes the
    text of a float. *)
Definition float_repr_ok : Prop :=
  ∀ s lit rest,
    parse_float s = Some (lit, rest) →
    canonical (fr (String.string_of_list_ascii lit)).

(** A document as [json.load] builds it: every object has each key once,
    every float is held by its text, every integer has no more digits than
    allowed, and every string is one that can be read. *)
Inductive wf : value → Prop :=
| wf_null : wf Null
| wf_bool b : wf (Bool b)
| wf_int n : int_ok maxd n = true → wf (Int n)
| wf_float r : canonical r → wf (Float r)
| wf_str s : wf_chars s → wf (Str s)
| wf_arr l : Forall wf l → wf (Arr l)
| wf_obj d : NoDup d.*1 → Forall (fun kv => wf_chars kv.1 ∧ wf kv.2) d → wf (Obj d).

Lemma wf_dict_set k v d :
  wf_chars k → wf v → wf (Obj d) → wf (Obj (dict_set k v d)).
Proof.
  intros Hk Hv Hd. inversion_clear Hd as [| | | | | |? Hn Hf].
  constructor; [by apply dict_set_NoDup|by apply dict_set_Forall].
Qed.

(** *** Integers within the limit *)
Lemma digits_ok_le (d d' : Decimal.uint) :
  Decimal.nb_digits d' ≤ Decimal.nb_digits d →
  digits_ok maxd d = true → digits_ok maxd d' = true.
Proof.
  unfold digits_ok. rewrite !orb_true_iff, !Nat.leb_le, !Nat.eqb_eq. lia.
Qed.

Lemma int_ok_of_int (sign : Decimal.uint → Decimal.signed_int) (d : Decimal.uint) :
  sign = Decimal.Pos ∨ sign = Decimal.Neg →
  d ≠ Decimal.Nil → digits_ok maxd d = true → int_ok maxd (Z.of_int (sign d)) = true.
Proof.
  intros Hs Hd Hok. unfold int_ok. rewrite DecimalZ.to_of.
  destruct Hs as [-> | ->]; cbn [Decimal.norm].
  - eapply digits_ok_le; [|exact Hok]. by apply DecimalFacts.nb_digits_unorm.
  - pose proof (DecimalFacts.nb_digits_nzhead d) as Hle.
    destruct (Decimal.nzhead d) eqn:E;
      try (eapply digits_ok_le; [|exact Hok]; exact Hle).
    eapply digits_ok_le; [|exact Hok]. cbn.
    destruct d; [done|cbn; lia..].
Qed.

Lemma parse_uint_nonnil (s : list ascii) d r :
  parse_uint s = Some (d, r) → d ≠ Decimal.Nil.
Proof.
  unfold parse_uint. destruct (parse_digits s) as [ds rest].
  repeat case_match; intros [= <- <-]; done.
Qed.

(** *** Documents *)
Fixpoint size (v : value) : nat :=
  match v with
  | Arr l =>
      S ((fix go (l : list value) : nat :=
            match l with
            | [] => 0
            | x :: l' => S (size x + go l')
            end) l)
  | Obj d =>
      S ((fix go (d : list (list N * value)) : nat :=
            match d with
            | [] => 0
            | (_, x) :: d' => S (size x + go d')
            end) d)
  | _ => 1
  end.

Fixpoint items_size (l : list value) : nat :=
  match l with
  | [] => 0
  | x :: l' => S (size x + items_size l')
  end.

Fixpoint members_size (d : list (list N * value)) : nat :=
  match d with
  | [] => 0
  | (_, x) :: d' => S (size x + members_size d')
  end.

Lemma size_arr l : size (Arr l) = S (items_size l).
Proof. reflexivity. Qed.

Lemma size_obj d : size (Obj d) = S (members_size d).
Proof. reflexivity. Qed.

Lemma size_pos v : 1 ≤ size v.
Proof. destruct v; cbn; lia. Qed.

(** How deep arrays and objects are one in the other. *)
Fixpoint depth_of (v : value) : nat :=
  match v with
  | Arr l =>
      S ((fix go (l : list value) : nat :=
            match l with
            | [] => 0
            | x :: l' => Nat.max (depth_of x) (go l')
            end) l)
  | Obj d =>
      S ((fix go (d : list (list N * value)) : nat :=
            match d with
            | [] => 0
            | (_, x) :: d' => Nat.max (depth_of x) (go d')
            end) d)
  | _ => 0
  end.

Fixpoint items_depth (l : list value) : nat :=
  match l with
  | [] => 0
  | x :: l' => Nat.max (depth_of x) (items_depth l')
  end.

Fixpoint members_depth (d : list (list N * value)) : nat :=
  match d with
  | [] => 0
  | (_, x) :: d' => Nat.max (depth_of x) (members_depth d')
  end.

Lemma depth_arr l : depth_of (Arr l) = S (items_depth l).
Proof. reflexivity. Qed.

Lemma depth_obj d : depth_of (Obj d) = S (members_depth d).
Proof. reflexivity. Qed.

Lemma members_depth_set k v d :
  members_depth (dict_set k v d) ≤ Nat.max (depth_of v) (members_depth d).
Proof.
  induction d as [|[k0 v0] d IH]; cbn [dict_set members_depth]; [lia|].
  case_bool_decide; cbn [members_depth]; lia.
Qed.

Lemma dumps_arr l : dumps (Arr l) = "["%char :: dump_items l ++ ["]"%char].
Proof. reflexivity. Qed.

Lemma dumps_obj d : dumps (Obj d) = "{"%char :: dump_members d ++ ["}"%char].
Proof. reflexivity. Qed.

(** The first character of a written value: no blank, no closing bracket. *)
Definition starts_value (s : list ascii) : Prop :=
  match s with
  | c :: _ => is_ws c = false ∧ Ascii.eqb c "]" = false ∧ Ascii.eqb c "}" = false
  | [] => False
  end.

Lemma dump_uint_head (d : Decimal.uint) (rest : list ascii) :
  d ≠ Decimal.Nil →
  ∃ c tl, dump_uint d ++ rest = c :: tl ∧ is_Some (digit_of c).
Proof. destruct d; [done|..]; intros _; do 2 eexists; split; done. Qed.

Lemma digit_starts (c : ascii) (r : list ascii) :
  is_Some (digit_of c) → starts_value (c :: r).
Proof.
  destruct c as [[] [] [] [] [] [] [] []]; cbn; intros [? H]; try done.
Qed.

Lemma dump_int_nonnil n : ∃ c tl, dump_int n = c :: tl.
Proof.
  unfold dump_int. destruct n as [|p|p]; cbn [Z.to_int].
  - by do 2 eexists.
  - destruct (dump_uint_head (Pos.to_uint p) [] (Unsigned.to_uint_nonnil p))
      as (c & tl & H & _). rewrite app_nil_r in H. eauto.
  - by do 2 eexists.
Qed.

Lemma canonical_head (r : string) :
  canonical r →
  ∃ c tl, String.list_ascii_of_string r = c :: tl
          ∧ (c = "N"%char ∨ c = "I"%char ∨ c = "-"%char ∨ is_digit c = true).
Proof.
  intros [->|[->|[->|[H _]]]]; [do 2 eexists; split; [done|]; auto..|].
  destruct (String.list_ascii_of_string r) as [|c tl]; [done|].
  exists c, tl. split; [done|]. cbn [parse_float] in H.
  destruct (Ascii.eqb_spec c "-") as [->|_]; [auto|].
  apply parse_ufloat_head in H as (? & ? & ? & [= <- <-] & _ & ?). auto.
Qed.

Lemma dumps_starts (v : value) (rest : list ascii) :
  wf v → starts_value (dumps v ++ rest).
Proof.
  intros Hwf. destruct v as [|[]|n|r|s|l|d]; try done.
  - cbn [dumps]. unfold dump_int. destruct n as [|p|p]; cbn [Z.to_int]; [done| |done].
    destruct (dump_uint_head (Pos.to_uint p) rest (Unsigned.to_uint_nonnil p))
      as (c & tl & -> & Hc). by apply digit_starts.
  - inversion_clear Hwf as [| | |? Hc| | |]. cbn [dumps].
    destruct (canonical_head r Hc) as (c & tl & -> & [->|[->|[->|Hd]]]); try done.
    by apply digit_starts, is_digit_Some.
Qed.

Lemma skip_ws_starts (s : list ascii) : starts_value s → skip_ws s = s.
Proof. destruct s as [|c s]; [done|]. cbn. by intros [-> _]. Qed.

Lemma parse_value_digit (fuel depth : nat) (c : ascii) (r : list ascii) :
  is_Some (digit_of c) →
  parse_value fr maxd (S fuel) depth (c :: r)
  = match parse_uint (c :: r) with
    | Some (d, r') => int_value maxd Decimal.Pos d r'
    | None => float_value fr (c :: r)
    end.
Proof.
  destruct c as [[] [] [] [] [] [] [] []]; cbn [digit_of N_of_ascii];
    intros [? H]; try discriminate H; reflexivity.
Qed.

Lemma parse_value_int (fuel depth : nat) (n : Z) (rest : list ascii) :
  int_ok maxd n = true → delimited rest →
  parse_value fr maxd (S fuel) depth (dump_int n ++ rest) = Some (Int n, rest).
Proof.
  intros Hok Hr. unfold int_ok in Hok. unfold dump_int.
  destruct n as [|p|p]; cbn [Z.to_int] in *.
  - change (dump_uint Decimal.zero ++ rest) with ("0"%char :: rest).
    rewrite (parse_value_digit _ _ "0"%char) by done.
    rewrite parse_uint_dump_zero by done. unfold int_value. by rewrite Hok.
  - destruct (dump_uint_head (Pos.to_uint p) rest (Unsigned.to_uint_nonnil p))
      as (c & tl & E & Hc).
    rewrite E, parse_value_digit by done. rewrite <- E, parse_uint_dump_pos by done.
    unfold int_value. rewrite Hok.
    do 3 f_equal. apply (DecimalZ.of_to (Z.pos p)).
  - change (parse_value fr maxd (S fuel) depth
              (("-"%char :: dump_uint (Pos.to_uint p)) ++ rest))
      with (match parse_uint (dump_uint (Pos.to_uint p) ++ rest) with
            | Some (d, r') => int_value maxd Decimal.Neg d r'
            | None =>
                match dump_uint (Pos.to_uint p) ++ rest with
                | c' :: r' =>
                    if Ascii.eqb c' "I"%char
                    then literal "nfinity" (Float "-Infinity") r'
                    else float_value fr ("-"%char :: dump_uint (Pos.to_uint p) ++ rest)
                | [] => None
                end
            end).
    rewrite parse_uint_dump_pos by done. unfold int_value. rewrite Hok.
    do 3 f_equal. apply (DecimalZ.of_to (Z.neg p)).
Qed.

Lemma parse_value_float (fuel depth : nat) (r : string) (rest : list ascii) :
  canonical r → delimited rest →
  parse_value fr maxd (S fuel) depth (String.list_ascii_of_string r ++ rest)
  = Some (Float r, rest).
Proof.
  intros [->|[->|[->|[Hlit Hfr]]]] Hr; [reflexivity..|].
  apply delimited_ends_number in Hr.
  pose proof (parse_float_app _ _ _ _ Hr Hlit) as Hp. cbn [app] in Hp.
  assert (float_value fr (String.list_ascii_of_string r ++ rest)
          = Some (Float r, rest)) as Hv.
  { unfold float_value. rewrite Hp.
    by rewrite String.string_of_list_ascii_of_string, Hfr. }
  destruct (String.list_ascii_of_string r) as [|c tl] eqn:El; [done|].
  cbn [parse_float] in Hlit. destruct (Ascii.eqb_spec c "-") as [->|Hc].
  - destruct (parse_ufloat tl) as [[lit r0]|] eqn:Eu; [|done].
    injection Hlit as -> ->.
    pose proof (parse_ufloat_app _ _ _ _ Hr Eu) as Eu'.
    destruct (parse_ufloat_head _ _ _ Eu) as (c' & tl' & ? & -> & _ & Hd).
    change (parse_value fr maxd (S fuel) depth (("-"%char :: c' :: tl') ++ rest))
      with (match parse_uint ((c' :: tl') ++ rest) with
            | Some (d, r') => int_value maxd Decimal.Neg d r'
            | None =>
                if Ascii.eqb c' "I"%char
                then literal "nfinity" (Float "-Infinity") (tl' ++ rest)
                else float_value fr (("-"%char :: c' :: tl') ++ rest)
            end).
    by rewrite (parse_uint_ufloat _ _ _ Eu'), (digit_not_I _ Hd).
  - destruct (parse_ufloat_head _ _ _ Hlit) as (c' & tl' & ? & [= <- <-] & _ & Hd).
    cbn [app]. rewrite parse_value_digit by by apply is_digit_Some.
    change (c :: tl ++ rest) with ((c :: tl) ++ rest).
    by rewrite (parse_uint_ufloat _ _ _ (parse_ufloat_app _ _ _ _ Hr Hlit)).
Qed.

Lemma parse_value_string (fuel depth : nat) (r : list ascii) :
  parse_value fr maxd (S fuel) depth (dquote :: r)
  = match parse_chars r with
    | Some (str, r') => Some (Str str, r')
    | None => None
    end.
Proof. reflexivity. Qed.

Lemma parse_value_arr (fuel depth : nat) (r : list ascii) :
  parse_value fr maxd (S fuel) (S depth) ("["%char :: r)
  = match skip_ws r with
    | c' :: r' =>
        if Ascii.eqb c' "]"%char then Some (Arr [], r')
        else match parse_items fr maxd fuel depth r with
             | Some (items, r'') => Some (Arr items, r'')
             | None => None
             end
    | [] => None
    end.
Proof. reflexivity. Qed.

Lemma parse_value_obj (fuel depth : nat) (r : list ascii) :
  parse_value fr maxd (S fuel) (S depth) ("{"%char :: r)
  = match skip_ws r with
    | c' :: r' =>
        if Ascii.eqb c' "}"%char then Some (Obj [], r')
        else match parse_members fr maxd fuel depth [] r with
             | Some (members, r'') => Some (Obj members, r'')
             | None => None
             end
    | [] => None
    end.
Proof. reflexivity. Qed.

(** The statement of the round trip for one value, as an induction hypothesis. *)
Definition reads_back (v : value) : Prop :=
  wf v → ∀ fuel depth rest, size v ≤ fuel → depth_of v ≤ depth → delimited rest →
  parse_value fr maxd fuel depth (dumps v ++ rest) = Some (v, rest).

Lemma parse_items_dump (l : list value) :
  l ≠ [] → Forall reads_back l → Forall wf l →
  ∀ fuel depth rest, items_size l ≤ fuel → items_depth l ≤ depth →
  parse_items fr maxd fuel depth (dump_items l ++ "]"%char :: rest) = Some (l, rest).
Proof.
  intros Hne IH Hwf. induction l as [|x l IHl]; [done|]. clear Hne.
  apply Forall_cons_1 in IH as [IHx IH]. apply Forall_cons_1 in Hwf as [Hx Hwf].
  intros [|fuel] depth rest Hsz Hdp; cbn [items_size items_depth] in Hsz, Hdp; [lia|].
  destruct l as [|y l].
  - cbn [dump_items parse_items].
    rewrite (IHx Hx) by (cbn; auto with lia). reflexivity.
  - change (dump_items (x :: y :: l)) with (dumps x ++ ","%char :: dump_items (y :: l)).
    rewrite <- (assoc_L (++)). cbn [app parse_items].
    rewrite (IHx Hx) by (cbn; auto with lia).
    change (skip_ws (","%char :: ?r)) with (","%char :: r). cbv iota beta.
    change (Ascii.eqb "," "]") with false. change (Ascii.eqb "," ",") with true.
    cbv iota. rewrite IHl; [done|done|done|done|lia|lia].
Qed.

Lemma foldl_dict_set_app (acc d : list (list N * value)) :
  NoDup (acc.*1 ++ d.*1) →
  foldl (fun a kv => dict_set kv.1 kv.2 a) acc d = acc ++ d.
Proof.
  revert acc. induction d as [|[k x] d IH]; intros acc Hnd; cbn [foldl].
  - by rewrite app_nil_r.
  - cbn in Hnd. rewrite dict_set_keys_notin.
    + rewrite IH; [by rewrite <- (assoc_L (++))|].
      rewrite fmap_app, <- (assoc_L (++)). done.
    + apply NoDup_app in Hnd as (_ & Hd & _). intros Hin.
      apply (Hd k Hin). apply list_elem_of_here.
Qed.

Lemma parse_members_dump (d : list (list N * value)) :
  d ≠ [] → Forall (fun kv => reads_back kv.2) d →
  Forall (fun kv => wf_chars kv.1 ∧ wf kv.2) d →
  ∀ fuel depth acc rest, members_size d ≤ fuel → members_depth d ≤ depth →
  parse_members fr maxd fuel depth acc (dump_members d ++ "}"%char :: rest)
  = Some (foldl (fun a kv => dict_set kv.1 kv.2 a) acc d, rest).
Proof.
  intros Hne IH Hwf. induction d as [|[k x] d IHd]; [done|]. clear Hne.
  apply Forall_cons_1 in IH as [IHx IH]. apply Forall_cons_1 in Hwf as [[Hk Hx] Hwf].
  cbn [fst snd] in IHx, Hx, Hk.
  intros [|fuel] depth acc rest Hsz Hdp;
    cbn [members_size members_depth] in Hsz, Hdp; [lia|].
  destruct (dump_string_parse k (":"%char :: dumps x ++
              match d with
              | [] => "}"%char :: rest
              | _ => ","%char :: dump_members d ++ "}"%char :: rest
              end) Hk) as (tl & Ek & Hkp).
  assert (dump_members ((k, x) :: d) ++ "}"%char :: rest
          = dquote :: tl ++ ":"%char :: dumps x ++
              match d with
              | [] => "}"%char :: rest
              | _ => ","%char :: dump_members d ++ "}"%char :: rest
              end) as ->.
  { destruct d as [|[k' y] d]; cbn [dump_members]; rewrite Ek;
      rewrite <- ?(assoc_L (++)); cbn [app]; rewrite <- ?(assoc_L (++)); done. }
  cbn [parse_members].
  change (skip_ws (dquote :: ?r)) with (dquote :: r). cbv iota beta.
  change (Ascii.eqb dquote dquote) with true. cbv iota.
  rewrite Hkp. change (skip_ws (":"%char :: ?r)) with (":"%char :: r). cbv iota beta.
  change (Ascii.eqb ":" ":") with true. cbv iota.
  destruct d as [|[k' y] d].
  - rewrite (IHx Hx) by (cbn; auto with lia). reflexivity.
  - rewrite (IHx Hx) by (cbn; auto with lia).
    change (skip_ws (","%char :: ?r)) with (","%char :: r). cbv iota beta zeta.
    change (Ascii.eqb "," "}") with false. change (Ascii.eqb "," ",") with true.
    cbv iota. rewrite IHd; [done|done|done|done|lia|lia].
Qed.

Lemma skip_ws_dumps (v : value) (rest : list ascii) :
  wf v →
  ∃ c tl, dumps v ++ rest = c :: tl ∧ skip_ws (dumps v ++ rest) = c :: tl
          ∧ Ascii.eqb c "]" = false ∧ Ascii.eqb c "}" = false.
Proof.
  intros Hwf.
  pose proof (dumps_starts v rest Hwf) as H. pose proof (skip_ws_starts _ H) as Hs.
  destruct (dumps v ++ rest) as [|c tl]; [done|].
  destruct H as (_ & ? & ?). eauto 6.
Qed.

(** Reading back what was written gives the document. *)
Lemma parse_value_dumps (v : value) : reads_back v.
Proof.
  induction v as [|b|n|r|s|l IH|d IH] using value_induction;
    intros Hwf [|fuel] depth rest Hsz Hdp Hr;
    try (pose proof (size_pos Null); cbn in Hsz; lia).
  - reflexivity.
  - destruct b; reflexivity.
  - inversion_clear Hwf as [| |? Hok| | | |]. by apply parse_value_int.
  - inversion_clear Hwf as [| | |? Hc| | |]. by apply parse_value_float.
  - inversion_clear Hwf as [| | | |? Hs| |].
    destruct (dump_string_parse s rest Hs) as (tl & E & H).
    cbn [dumps]. rewrite E. cbn [app]. by rewrite parse_value_string, H.
  - inversion_clear Hwf as [| | | | |? Hl|].
    rewrite size_arr in Hsz. rewrite depth_arr in Hdp.
    destruct depth as [|depth]; [lia|].
    rewrite dumps_arr. cbn [app].
    rewrite <- (assoc_L (++)). cbn [app]. rewrite parse_value_arr.
    destruct l as [|x l]; [reflexivity|].
    assert (∃ c tl, skip_ws (dump_items (x :: l) ++ "]"%char :: rest) = c :: tl
                    ∧ Ascii.eqb c "]" = false) as (c & tl & -> & ->).
    { destruct (skip_ws_dumps x (match l with
                                 | [] => "]"%char :: rest
                                 | _ => ","%char :: dump_items l ++ "]"%char :: rest
                                 end)) as (c & tl & E1 & E2 & E3 & _);
        [by eapply Forall_inv|].
      exists c, tl. split; [|done]. rewrite <- E2. f_equal.
      destruct l; cbn [dump_items]; rewrite <- ?(assoc_L (++)); done. }
    rewrite parse_items_dump; [done|done|done|done|lia|lia].
  - inversion_clear Hwf as [| | | | | |? Hn Hd].
    rewrite size_obj in Hsz. rewrite depth_obj in Hdp.
    destruct depth as [|depth]; [lia|].
    rewrite dumps_obj. cbn [app].
    rewrite <- (assoc_L (++)). cbn [app]. rewrite parse_value_obj.
    destruct d as [|[k x] d]; [reflexivity|].
    assert (∃ tl', dump_members ((k, x) :: d) ++ "}"%char :: rest = dquote :: tl')
      as [tl' E].
    { destruct d as [|[k' y] d]; cbn [dump_members]; unfold dump_string; by eexists. }
    rewrite E. change (skip_ws (dquote :: tl')) with (dquote :: tl').
    change (Ascii.eqb dquote "}") with false. cbv iota. rewrite <- E.
    rewrite parse_members_dump; [|done|done|done|lia|lia].
    rewrite foldl_dict_set_app; [done|]. done.
Qed.

End WithLimits.

(** The sample of the examples, which writes a float as it was read, is
    as assumed. *)
Lemma sample_float_repr_ok : float_repr_ok Examples.sample_float_repr.
Proof.
  intros s lit rest _. unfold Examples.sample_float_repr.
  rewrite String.list_ascii_of_string_of_list_ascii.
  destruct (parse_float lit) as [[l [|c r]]|] eqn:E; try by left.
  pose proof (parse_float_split _ _ _ E) as Hl. rewrite app_nil_r in Hl. subst l.
  right. right. right.
  by rewrite String.list_ascii_of_string_of_list_ascii, E.
Qed.

End JsonFacts.

Module JsonReadBack.
Import Sys Json JsonStrings JsonNumbers JsonFacts.

Section WithLimits.
Variable fr : string → string.
Variable maxd : nat.

#[local] Abbreviation wf := (wf fr maxd).
#[local] Abbreviation parse_value := (parse_value fr maxd).
#[local] Abbreviation parse_items := (parse_items fr maxd).
#[local] Abbreviation parse_members := (parse_members fr maxd).

(** The three functions of the parser, one step unfolded. *)
Lemma parse_value_S (fuel depth : nat) (s : list ascii) :
  parse_value (S fuel) depth s =
  match skip_ws s with
  | [] => None
  | c :: r =>
      if Ascii.eqb c "n"%char then literal "ull" Null r
      else if Ascii.eqb c "t"%char then literal "rue" (Bool true) r
      else if Ascii.eqb c "f"%char then literal "alse" (Bool false) r
      else if Ascii.eqb c "N"%char then literal "aN" (Float "NaN") r
      else if Ascii.eqb c "I"%char then literal "nfinity" (Float "Infinity") r
      else if Ascii.eqb c dquote then
        match parse_chars r with
        | Some (str, r') => Some (Str str, r')
        | None => None
        end
      else if Ascii.eqb c "["%char then
        match depth with
        | O => None
        | S depth' =>
            match skip_ws r with
            | c' :: r' =>
                if Ascii.eqb c' "]"%char then Some (Arr [], r')
                else
                  match parse_items fuel depth' r with
                  | Some (items, r'') => Some (Arr items, r'')
                  | None => None
                  end
            | [] => None
            end
        end
      else if Ascii.eqb c "{"%char then
        match depth with
        | O => None
        | S depth' =>
            match skip_ws r with
            | c' :: r' =>
                if Ascii.eqb c' "}"%char then Some (Obj [], r')
                else
                  match parse_members fuel depth' [] r with
                  | Some (members, r'') => Some (Obj members, r'')
                  | None => None
                  end
            | [] => None
            end
        end
      else if Ascii.eqb c "-"%char then
        match parse_uint r with
        | Some (d, r') => int_value maxd Decimal.Neg d r'
        | None =>
            match r with
            | c' :: r' =>
                if Ascii.eqb c' "I"%char
                then literal "nfinity" (Float "-Infinity") r'
                else float_value fr (c :: r)
            | [] => None
            end
        end
      else
        match parse_uint (c :: r) with
        | Some (d, r') => int_value maxd Decimal.Pos d r'
        | None => float_value fr (c :: r)
        end
  end.
Proof. reflexivity. Qed.

Lemma parse_items_S (fuel depth : nat) (s : list ascii) :
  parse_items (S fuel) depth s =
  match parse_value fuel depth s with
  | None => None
  | Some (x, r) =>
      match skip_ws r with
      | c :: r' =>
          if Ascii.eqb c "]"%char then Some ([x], r')
          else if Ascii.eqb c ","%char then
            match parse_items fuel depth r' with
            | Some (xs, r'') => Some (x :: xs, r'')
            | None => None
            end
          else None
      | [] => None
      end
  end.
Proof. reflexivity. Qed.

Lemma parse_members_S (fuel depth : nat) (acc : list (list N * value)) (s : list ascii) :
  parse_members (S fuel) depth acc s =
  match skip_ws s with
  | c :: r =>
      if Ascii.eqb c dquote then
        match parse_chars r with
        | None => None
        | Some (k, r1) =>
            match skip_ws r1 with
            | c1 :: r2 =>
                if Ascii.eqb c1 ":"%char then
                  match parse_value fuel depth r2 with
                  | None => None
                  | Some (x, r3) =>
                      match skip_ws r3 with
                      | c3 :: r' =>
                          if Ascii.eqb c3 "}"%char then Some (dict_set k x acc, r')
                          else if Ascii.eqb c3 ","%char
                               then parse_members fuel depth (dict_set k x acc) r'
                               else None
                      | [] => None
                      end
                  end
                else None
            | [] => None
            end
        end
      else None
  | [] => None
  end.
Proof. reflexivity. Qed.

Lemma parse_value_nil (fuel depth : nat) : parse_value fuel depth [] = None.
Proof. by destruct fuel. Qed.

(** More fuel and more depth do not change what is read. *)
Lemma parse_mono (fuel : nat) :
  (∀ d s r fuel' d', parse_value fuel d s = Some r → fuel ≤ fuel' → d ≤ d' →
                     parse_value fuel' d' s = Some r)
  ∧ (∀ d s r fuel' d', parse_items fuel d s = Some r → fuel ≤ fuel' → d ≤ d' →
                       parse_items fuel' d' s = Some r)
  ∧ (∀ d acc s r fuel' d', parse_members fuel d acc s = Some r → fuel ≤ fuel' → d ≤ d' →
                           parse_members fuel' d' acc s = Some r).
Proof.
  induction fuel as [|fuel (IHv & IHi & IHm)]; [done|]. split_and!.
  - intros d s r [|fuel'] d' H Hf Hd; [lia|]. rewrite parse_value_S in H |- *.
    destruct (skip_ws s) as [|c r0]; [done|].
    repeat match goal with
           | |- context [if ?b then _ else _] => destruct b; [exact H|]
           end.
    destruct (Ascii.eqb c "[").
    { destruct d as [|d]; [done|]. destruct d' as [|d']; [lia|].
      destruct (skip_ws r0) as [|c' r']; [done|].
      destruct (Ascii.eqb c' "]"); [done|].
      destruct (Json.parse_items fr maxd fuel d r0) as [[items r'']|] eqn:E; [|done].
      rewrite (IHi _ _ _ fuel' d' E) by lia. done. }
    destruct (Ascii.eqb c "{").
    { destruct d as [|d]; [done|]. destruct d' as [|d']; [lia|].
      destruct (skip_ws r0) as [|c' r']; [done|].
      destruct (Ascii.eqb c' "}"); [done|].
      destruct (Json.parse_members fr maxd fuel d [] r0) as [[ms r'']|] eqn:E; [|done].
      rewrite (IHm _ _ _ _ fuel' d' E) by lia. done. }
    exact H.
  - intros d s r [|fuel'] d' H Hf Hd; [lia|]. rewrite parse_items_S in H |- *.
    destruct (Json.parse_value fr maxd fuel d s) as [[x r0]|] eqn:E; [|done].
    rewrite (IHv _ _ _ fuel' d' E) by lia.
    destruct (skip_ws r0) as [|c r']; [done|].
    destruct (Ascii.eqb c "]"); [done|]. destruct (Ascii.eqb c ","); [|done].
    destruct (Json.parse_items fr maxd fuel d r') as [[xs r'']|] eqn:E'; [|done].
    rewrite (IHi _ _ _ fuel' d' E') by lia. done.
  - intros d acc s r [|fuel'] d' H Hf Hd; [lia|]. rewrite parse_members_S in H |- *.
    destruct (skip_ws s) as [|c r0]; [done|].
    destruct (Ascii.eqb c dquote); [|done].
    destruct (parse_chars r0) as [[k r1]|]; [|done].
    destruct (skip_ws r1) as [|c1 r2]; [done|].
    destruct (Ascii.eqb c1 ":"); [|done].
    destruct (Json.parse_value fr maxd fuel d r2) as [[x r3]|] eqn:E; [|done].
    rewrite (IHv _ _ _ fuel' d' E) by lia.
    destruct (skip_ws r3) as [|c3 r']; [done|].
    destruct (Ascii.eqb c3 "}"); [done|]. destruct (Ascii.eqb c3 ","); [|done].
    apply (IHm _ _ _ _ fuel' d' H); lia.
Qed.

(** Whatever the fuel and the depth: what was written is read back, or
    nothing is. *)
Lemma parse_dumps_cases (v : value) (fuel depth : nat) (rest : list ascii) :
  wf v → delimited rest →
  parse_value fuel depth (dumps v ++ rest) = None
  ∨ parse_value fuel depth (dumps v ++ rest) = Some (v, rest).
Proof.
  intros Hwf Hr.
  destruct (parse_value fuel depth (dumps v ++ rest)) as [r|] eqn:E; [|by left].
  right.
  pose proof (proj1 (parse_mono fuel) _ _ _ (Nat.max fuel (size v))
                (Nat.max depth (depth_of v)) E ltac:(lia) ltac:(lia)) as E'.
  rewrite (parse_value_dumps fr maxd v Hwf) in E' by (done || lia). done.
Qed.

Lemma dump_items_length (l : list value) :
  Forall (fun x => size x ≤ length (dumps x)) l →
  items_size l ≤ length (dump_items l) + 1.
Proof.
  induction 1 as [|x l Hx Hl IH]; [cbn; lia|].
  destruct l as [|y l]; cbn [items_size dump_items] in *; [lia|].
  rewrite length_app. cbn [length]. lia.
Qed.

Lemma dump_string_length (s : list N) : 2 ≤ length (dump_string s).
Proof. unfold dump_string. cbn [length]. rewrite length_app. cbn. lia. Qed.

Lemma dump_members_length (d : list (list N * value)) :
  Forall (fun kv => size kv.2 ≤ length (dumps kv.2)) d →
  members_size d ≤ length (dump_members d) + 1.
Proof.
  induction 1 as [|[k x] d Hx Hd IH]; [cbn; lia|]. cbn [snd] in Hx.
  pose proof (dump_string_length k).
  destruct d as [|[k' y] d]; cbn [members_size dump_members] in *;
    repeat (rewrite length_app; cbn [length]); lia.
Qed.

Lemma size_le_length (v : value) : wf v → size v ≤ length (dumps v).
Proof.
  induction v as [|b|n|r|s|l IH|d IH] using value_induction; intros Hwf.
  - cbn. lia.
  - destruct b; cbn; lia.
  - cbn [size dumps]. destruct (dump_int_nonnil n) as (c & tl & ->). cbn. lia.
  - inversion_clear Hwf as [| | |? Hc| | |]. cbn [size dumps].
    destruct (canonical_head fr r Hc) as (c & tl & -> & _). cbn. lia.
  - cbn [size dumps]. pose proof (dump_string_length s). lia.
  - inversion_clear Hwf as [| | | | |? Hl|].
    rewrite size_arr, dumps_arr. cbn [length]. rewrite length_app. cbn [length].
    assert (Forall (fun x => size x ≤ length (dumps x)) l) as Hs.
    { apply Forall_forall. intros x Hx.
      apply (proj1 (Forall_forall _ _) IH x Hx), (proj1 (Forall_forall _ _) Hl x Hx). }
    pose proof (dump_items_length l Hs). lia.
  - inversion_clear Hwf as [| | | | | |? Hn Hd].
    rewrite size_obj, dumps_obj. cbn [length]. rewrite length_app. cbn [length].
    assert (Forall (fun kv => size kv.2 ≤ length (dumps kv.2)) d) as Hs.
    { apply Forall_forall. intros x Hx.
      apply (proj1 (Forall_forall _ _) IH x Hx).
      apply (proj1 (Forall_forall _ _) Hd x Hx). }
    pose proof (dump_members_length d Hs). lia.
Qed.

(** [json.load] of the whole text of a document gives the document back
    when it is no deeper than the scanner goes, and nothing else ever. *)
Lemma load_dumps (v : value) (depth : nat) :
  wf v → depth_of v ≤ depth →
  load fr maxd depth (String.string_of_list_ascii (dumps v)) = Some v.
Proof.
  intros Hwf Hd. unfold load. rewrite String.list_ascii_of_string_of_list_ascii.
  rewrite <- (app_nil_r (dumps v)) at 2.
  rewrite (parse_value_dumps fr maxd v Hwf); [done| |done|done].
  pose proof (size_le_length v Hwf). lia.
Qed.

Lemma load_dumps_cases (v : value) (depth : nat) :
  wf v →
  load fr maxd depth (String.string_of_list_ascii (dumps v)) = None
  ∨ load fr maxd depth (String.string_of_list_ascii (dumps v)) = Some v.
Proof.
  intros Hwf. unfold load. rewrite String.list_ascii_of_string_of_list_ascii.
  rewrite <- (app_nil_r (dumps v)) at 2 4.
  destruct (parse_dumps_cases v (S (length (dumps v))) depth [] Hwf I) as [->| ->];
    [by left|by right].
Qed.

(** What the parser builds is well formed, and no deeper than allowed. *)
Hypothesis fr_ok : float_repr_ok fr.

Lemma float_value_wf (s : list ascii) (v : value) (r : list ascii) :
  float_value fr s = Some (v, r) → wf v ∧ depth_of v = 0.
Proof.
  unfold float_value. destruct (parse_float s) as [[lit rest]|] eqn:E; [|done].
  intros [= <- <-]. split; [|done]. constructor. by eapply fr_ok.
Qed.

Lemma int_value_wf sign d rest v r :
  sign = Decimal.Pos ∨ sign = Decimal.Neg → d ≠ Decimal.Nil →
  int_value maxd sign d rest = Some (v, r) → wf v ∧ depth_of v = 0.
Proof.
  intros Hs Hd. unfold int_value. destruct (digits_ok maxd d) eqn:E; [|done].
  intros [= <- <-]. split; [|done]. constructor. by apply int_ok_of_int.
Qed.

Lemma literal_inv word v0 r v r' :
  literal word v0 r = Some (v, r') → v = v0.
Proof. unfold literal. case_match; [|done]. by intros [= <- <-]. Qed.

Lemma parse_wf (fuel : nat) :
  (∀ d s v r, parse_value fuel d s = Some (v, r) → wf v ∧ depth_of v ≤ d)
  ∧ (∀ d s l r, parse_items fuel d s = Some (l, r) → Forall wf l ∧ items_depth l ≤ d)
  ∧ (∀ d acc s m r, wf (Obj acc) → members_depth acc ≤ d →
                    parse_members fuel d acc s = Some (m, r) →
                    wf (Obj m) ∧ members_depth m ≤ d).
Proof.
  induction fuel as [|fuel (IHv & IHi & IHm)]; [done|]. split_and!.
  - intros d s v r H. rewrite parse_value_S in H.
    destruct (skip_ws s) as [|c r0]; [done|].
    assert (∀ word v0 rr, literal word v0 rr = Some (v, r) → wf v0 → depth_of v0 = 0 →
                          wf v ∧ depth_of v ≤ d) as Hlit.
    { intros word v0 rr ->%literal_inv Hw Hz. split; [done|lia]. }
    assert (canonical fr "NaN" ∧ canonical fr "Infinity" ∧ canonical fr "-Infinity")
      as (Hnan & Hinf & Hminf) by (unfold canonical; auto 6).
    destruct (Ascii.eqb c "n"); [by eapply Hlit; [|constructor|]|].
    destruct (Ascii.eqb c "t"); [by eapply Hlit; [|constructor|]|].
    destruct (Ascii.eqb c "f"); [by eapply Hlit; [|constructor|]|].
    destruct (Ascii.eqb c "N"); [by eapply Hlit; [|constructor|]|].
    destruct (Ascii.eqb c "I"); [by eapply Hlit; [|constructor|]|].
    destruct (Ascii.eqb c dquote).
    { destruct (parse_chars r0) as [[str r']|] eqn:E; [|done].
      injection H as <- <-. split; [|cbn; lia].
      constructor. by eapply parse_chars_wf. }
    destruct (Ascii.eqb c "[").
    { destruct d as [|d]; [done|].
      destruct (skip_ws r0) as [|c' r']; [done|].
      destruct (Ascii.eqb c' "]").
      { injection H as <- <-. split; [by repeat constructor|cbn; lia]. }
      destruct (Json.parse_items fr maxd fuel d r0) as [[items r'']|] eqn:E; [|done].
      injection H as <- <-. destruct (IHi _ _ _ _ E) as [Hw Hd].
      split; [by constructor|rewrite depth_arr; lia]. }
    destruct (Ascii.eqb c "{").
    { destruct d as [|d]; [done|].
      destruct (skip_ws r0) as [|c' r']; [done|].
      destruct (Ascii.eqb c' "}").
      { injection H as <- <-. split; [by repeat constructor|cbn; lia]. }
      destruct (Json.parse_members fr maxd fuel d [] r0) as [[ms r'']|] eqn:E; [|done].
      injection H as <- <-.
      destruct (IHm d [] _ _ _ ltac:(by repeat constructor) ltac:(cbn; lia) E)
        as [Hw Hd].
      split; [done|rewrite depth_obj; lia]. }
    destruct (Ascii.eqb c "-").
    { destruct (parse_uint r0) as [[dg r']|] eqn:E.
      - destruct (int_value_wf Decimal.Neg dg r' v r) as [Hw Hz];
          [by right|by eapply parse_uint_nonnil|done|]. split; [done|lia].
      - destruct r0 as [|c' r']; [done|].
        destruct (Ascii.eqb c' "I"); [by eapply Hlit; [|constructor|]|].
        destruct (float_value_wf _ _ _ H) as [Hw Hz]. split; [done|lia]. }
    destruct (parse_uint (c :: r0)) as [[dg r']|] eqn:E.
    + destruct (int_value_wf Decimal.Pos dg r' v r) as [Hw Hz];
        [by left|by eapply parse_uint_nonnil|done|]. split; [done|lia].
    + destruct (float_value_wf _ _ _ H) as [Hw Hz]. split; [done|lia].
  - intros d s l r H. rewrite parse_items_S in H.
    destruct (Json.parse_value fr maxd fuel d s) as [[x r0]|] eqn:E; [|done].
    destruct (IHv _ _ _ _ E) as [Hx Hdx].
    destruct (skip_ws r0) as [|c r']; [done|].
    destruct (Ascii.eqb c "]").
    { injection H as <- <-. split; [by repeat constructor|cbn; lia]. }
    destruct (Ascii.eqb c ","); [|done].
    destruct (Json.parse_items fr maxd fuel d r') as [[xs r'']|] eqn:E'; [|done].
    injection H as <- <-. destruct (IHi _ _ _ _ E') as [Hxs Hdxs].
    split; [by constructor|cbn; lia].
  - intros d acc s m r Hacc Hdacc H. rewrite parse_members_S in H.
    destruct (skip_ws s) as [|c r0]; [done|].
    destruct (Ascii.eqb c dquote); [|done].
    destruct (parse_chars r0) as [[k r1]|] eqn:Ek; [|done].
    destruct (skip_ws r1) as [|c1 r2]; [done|].
    destruct (Ascii.eqb c1 ":"); [|done].
    destruct (Json.parse_value fr maxd fuel d r2) as [[x r3]|] eqn:E; [|done].
    destruct (IHv _ _ _ _ E) as [Hx Hdx].
    assert (wf (Obj (dict_set k x acc)) ∧ members_depth (dict_set k x acc) ≤ d)
      as [Hw' Hd'].
    { split; [apply wf_dict_set; [by eapply parse_chars_wf|done|done]|].
      pose proof (members_depth_set k x acc). lia. }
    destruct (skip_ws r3) as [|c3 r']; [done|].
    destruct (Ascii.eqb c3 "}"); [by injection H as <- <-|].
    destruct (Ascii.eqb c3 ","); [|done].
    by eapply IHm.
Qed.

Lemma load_wf (depth : nat) (text : string) (v : value) :
  load fr maxd depth text = Some v → wf v ∧ depth_of v ≤ depth.
Proof.
  unfold load. intros H. repeat case_match; simplify_eq.
  by eapply (proj1 (parse_wf _)).
Qed.

End WithLimits.

End JsonReadBack.

Module JsonFuel.
Import Sys Json JsonStrings JsonNumbers JsonFacts JsonReadBack.

(** *** The fuel of the reader is no limit

    What is read takes at least one character, and is read with any fuel
    that is at least the number of characters it takes: [load], which
    gives one more than the length of the text, reads whatever can be
    read. *)
Lemma skip_ws_length (s : list ascii) : length (skip_ws s) ≤ length s.
Proof.
  induction s as [|c s IH]; [done|]. cbn [skip_ws].
  destruct (is_ws c); cbn [length]; lia.
Qed.

Lemma parse_chars_length (s : list ascii) (cs : list N) (r : list ascii) :
  parse_chars s = Some (cs, r) → length r < length s.
Proof.
  remember (length s) as k eqn:Hk. revert s cs r Hk.
  induction k as [k IH] using lt_wf_ind. intros s cs r -> H.
  destruct (parse_chars_inv _ _ _ H)
    as [[_ ->]|(n0 & sfx & cs0 & _ & Hp & Hlen & _)]; [cbn; lia|].
  pose proof (IH _ Hlen sfx cs0 r eq_refl Hp). lia.
Qed.

Lemma strip_prefix_length (p s r : list ascii) :
  strip_prefix p s = Some r → length r ≤ length s.
Proof.
  revert s. induction p as [|a p IH]; intros [|b s]; cbn [strip_prefix];
    try done; try (by intros [= <-]).
  destruct (Ascii.eqb a b); [|done]. intros H%IH. cbn [length]. lia.
Qed.

Lemma literal_length word v0 (r : list ascii) v r' :
  literal word v0 r = Some (v, r') → length r' ≤ length r.
Proof.
  unfold literal. destruct (strip_prefix _ r) as [r0|] eqn:E; [|done].
  intros [= _ <-]. by eapply strip_prefix_length.
Qed.

Lemma parse_digits_length (s : list ascii) : length (parse_digits s).2 ≤ length s.
Proof.
  induction s as [|c s IH]; [done|]. cbn [parse_digits].
  destruct (digit_of c); [|done]. destruct (parse_digits s). cbn in *. lia.
Qed.

Lemma parse_uint_length (s : list ascii) d r :
  parse_uint s = Some (d, r) → length r < length s.
Proof.
  destruct s as [|c s]; [done|]. unfold parse_uint. cbn [parse_digits].
  destruct (digit_of c) as [dc|].
  - pose proof (parse_digits_length s) as Hs.
    destruct (parse_digits s) as [ds rest]. cbn [snd] in Hs.
    repeat case_match; intros [= <- <-]; cbn [length] in *; lia.
  - repeat case_match; done.
Qed.

Lemma parse_float_length (s lit r : list ascii) :
  parse_float s = Some (lit, r) → length r < length s.
Proof.
  intros H. pose proof (parse_float_split _ _ _ H) as Hs.
  enough (lit ≠ []) by (rewrite Hs, length_app; destruct lit; [done|cbn; lia]).
  clear Hs. revert H.
  assert (∀ s' l' r', parse_ufloat s' = Some (l', r') → l' ≠ []) as Hu.
  { intros s' l' r'. unfold parse_ufloat. destruct (span_digits s') as [[|i int] s1]; [done|].
    repeat case_match; try done. by intros [= <- <-]. }
  destruct s as [|c s]; [done|]. cbn [parse_float].
  destruct (Ascii.eqb c "-").
  - destruct (parse_ufloat s) as [[l0 r0]|]; [|done]. by intros [= <- _].
  - apply Hu.
Qed.

Section WithLimits.
Variable fr : string → string.
Variable maxd : nat.

#[local] Abbreviation parse_value := (parse_value fr maxd).
#[local] Abbreviation parse_items := (parse_items fr maxd).
#[local] Abbreviation parse_members := (parse_members fr maxd).

Lemma float_value_length (s : list ascii) v r :
  float_value fr s = Some (v, r) → length r < length s.
Proof.
  unfold float_value. destruct (parse_float s) as [[lit rest]|] eqn:E; [|done].
  intros [= _ <-]. by eapply parse_float_length.
Qed.

Lemma int_value_rest sign d (r : list ascii) v r' :
  int_value maxd sign d r = Some (v, r') → r' = r.
Proof. unfold int_value. destruct (digits_ok maxd d); [|done]. by intros [= _ <-]. Qed.

(** What is read takes at least one character. *)
Lemma parse_length (fuel : nat) :
  (∀ d s v r, parse_value fuel d s = Some (v, r) → length r < length s)
  ∧ (∀ d s l r, parse_items fuel d s = Some (l, r) → length r < length s)
  ∧ (∀ d acc s m r, parse_members fuel d acc s = Some (m, r) → length r < length s).
Proof.
  induction fuel as [|fuel (IHv & IHi & IHm)]; [done|]. split_and!.
  - intros d s v r H. rewrite parse_value_S in H.
    pose proof (skip_ws_length s) as Hws.
    destruct (skip_ws s) as [|c r0]; [done|]. cbn [length] in Hws.
    destruct (Ascii.eqb c "n"); [apply literal_length in H; lia|].
    destruct (Ascii.eqb c "t"); [apply literal_length in H; lia|].
    destruct (Ascii.eqb c "f"); [apply literal_length in H; lia|].
    destruct (Ascii.eqb c "N"); [apply literal_length in H; lia|].
    destruct (Ascii.eqb c "I"); [apply literal_length in H; lia|].
    destruct (Ascii.eqb c dquote).
    { destruct (parse_chars r0) as [[str r']|] eqn:E; [|done].
      injection H as <- <-. apply parse_chars_length in E. lia. }
    destruct (Ascii.eqb c "[").
    { destruct d as [|d]; [done|]. pose proof (skip_ws_length r0) as Hws'.
      destruct (skip_ws r0) as [|c' r']; [done|]. cbn [length] in Hws'.
      destruct (Ascii.eqb c' "]"); [injection H as <- <-; lia|].
      destruct (Json.parse_items fr maxd fuel d r0) as [[items r'']|] eqn:E; [|done].
      injection H as <- <-. apply IHi in E. lia. }
    destruct (Ascii.eqb c "{").
    { destruct d as [|d]; [done|]. pose proof (skip_ws_length r0) as Hws'.
      destruct (skip_ws r0) as [|c' r']; [done|]. cbn [length] in Hws'.
      destruct (Ascii.eqb c' "}"); [injection H as <- <-; lia|].
      destruct (Json.parse_members fr maxd fuel d [] r0) as [[ms r'']|] eqn:E; [|done].
      injection H as <- <-. apply IHm in E. lia. }
    destruct (Ascii.eqb c "-").
    { destruct (parse_uint r0) as [[dd r']|] eqn:E.
      { apply int_value_rest in H as ->. apply parse_uint_length in E. lia. }
      destruct r0 as [|c' r']; [done|]. cbn [length] in *.
      destruct (Ascii.eqb c' "I"); [apply literal_length in H; lia|].
      apply float_value_length in H. cbn [length] in H. lia. }
    destruct (parse_uint (c :: r0)) as [[dd r']|] eqn:E.
    { apply int_value_rest in H as ->. apply parse_uint_length in E.
      cbn [length] in E. lia. }
    apply float_value_length in H. cbn [length] in H. lia.
  - intros d s l r H. rewrite parse_items_S in H.
    destruct (Json.parse_value fr maxd fuel d s) as [[x r0]|] eqn:E; [|done].
    apply IHv in E. pose proof (skip_ws_length r0) as Hws.
    destruct (skip_ws r0) as [|c r']; [done|]. cbn [length] in Hws.
    destruct (Ascii.eqb c "]"); [injection H as <- <-; lia|].
    destruct (Ascii.eqb c ","); [|done].
    destruct (Json.parse_items fr maxd fuel d r') as [[xs r'']|] eqn:E'; [|done].
    injection H as <- <-. apply IHi in E'. lia.
  - intros d acc s m r H. rewrite parse_members_S in H.
    pose proof (skip_ws_length s) as Hws.
    destruct (skip_ws s) as [|c r0]; [done|]. cbn [length] in Hws.
    destruct (Ascii.eqb c dquote); [|done].
    destruct (parse_chars r0) as [[k r1]|] eqn:Ek; [|done].
    apply parse_chars_length in Ek. pose proof (skip_ws_length r1) as Hws1.
    destruct (skip_ws r1) as [|c1 r2]; [done|]. cbn [length] in Hws1.
    destruct (Ascii.eqb c1 ":"); [|done].
    destruct (Json.parse_value fr maxd fuel d r2) as [[x r3]|] eqn:E; [|done].
    apply IHv in E. pose proof (skip_ws_length r3) as Hws3.
    destruct (skip_ws r3) as [|c3 r']; [done|]. cbn [length] in Hws3.
    destruct (Ascii.eqb c3 "}"); [injection H as <- <-; lia|].
    destruct (Ascii.eqb c3 ","); [|done]. apply IHm in H. lia.
Qed.

(** What is read with some fuel is read with any fuel that is at least
    the number of characters it takes. *)
Lemma parse_refuel (fuel : nat) :
  (∀ d s v r fuel', parse_value fuel d s = Some (v, r) →
                    length s - length r ≤ fuel' →
                    parse_value fuel' d s = Some (v, r))
  ∧ (∀ d s l r fuel', parse_items fuel d s = Some (l, r) →
                      length s - length r ≤ fuel' →
                      parse_items fuel' d s = Some (l, r))
  ∧ (∀ d acc s m r fuel', parse_members fuel d acc s = Some (m, r) →
                          length s - length r ≤ fuel' →
                          parse_members fuel' d acc s = Some (m, r)).
Proof.
  induction fuel as [|fuel (IHv & IHi & IHm)]; [done|]. split_and!.
  - intros d s v r fuel' H Hf.
    pose proof (proj1 (parse_length (S fuel)) _ _ _ _ H) as Hlen.
    destruct fuel' as [|fuel']; [lia|]. rewrite parse_value_S in H |- *.
    pose proof (skip_ws_length s) as Hws.
    destruct (skip_ws s) as [|c r0]; [done|]. cbn [length] in Hws.
    repeat match goal with
           | |- context [if ?b then _ else _] => destruct b; [exact H|]
           end.
    destruct (Ascii.eqb c "[").
    { destruct d as [|d]; [done|].
      destruct (skip_ws r0) as [|c' r']; [done|].
      destruct (Ascii.eqb c' "]"); [done|].
      destruct (Json.parse_items fr maxd fuel d r0) as [[items r'']|] eqn:E; [|done].
      injection H as <- <-. rewrite (IHi _ _ _ _ fuel' E) by lia. done. }
    destruct (Ascii.eqb c "{").
    { destruct d as [|d]; [done|].
      destruct (skip_ws r0) as [|c' r']; [done|].
      destruct (Ascii.eqb c' "}"); [done|].
      destruct (Json.parse_members fr maxd fuel d [] r0) as [[ms r'']|] eqn:E; [|done].
      injection H as <- <-. rewrite (IHm _ _ _ _ _ fuel' E) by lia. done. }
    exact H.
  - intros d s l r fuel' H Hf.
    pose proof (proj1 (proj2 (parse_length (S fuel))) _ _ _ _ H) as Hlen.
    destruct fuel' as [|fuel']; [lia|]. rewrite parse_items_S in H |- *.
    destruct (Json.parse_value fr maxd fuel d s) as [[x r0]|] eqn:E; [|done].
    pose proof (proj1 (parse_length fuel) _ _ _ _ E) as Hx.
    pose proof (skip_ws_length r0) as Hws.
    destruct (skip_ws r0) as [|c r'] eqn:Es; [done|]. cbn [length] in Hws.
    destruct (Ascii.eqb c "]") eqn:Ec.
    { injection H as <- <-. rewrite (IHv _ _ _ _ fuel' E) by lia.
      by rewrite Es, Ec. }
    destruct (Ascii.eqb c ",") eqn:Ec'; [|done].
    destruct (Json.parse_items fr maxd fuel d r') as [[xs r'']|] eqn:E'; [|done].
    injection H as <- <-.
    pose proof (proj1 (proj2 (parse_length fuel)) _ _ _ _ E') as Hxs.
    rewrite (IHv _ _ _ _ fuel' E) by lia. rewrite Es, Ec, Ec'.
    rewrite (IHi _ _ _ _ fuel' E') by lia. done.
  - intros d acc s m r fuel' H Hf.
    pose proof (proj2 (proj2 (parse_length (S fuel))) _ _ _ _ _ H) as Hlen.
    destruct fuel' as [|fuel']; [lia|]. rewrite parse_members_S in H |- *.
    pose proof (skip_ws_length s) as Hws.
    destruct (skip_ws s) as [|c r0]; [done|]. cbn [length] in Hws.
    destruct (Ascii.eqb c dquote); [|done].
    destruct (parse_chars r0) as [[k r1]|] eqn:Ek; [|done].
    apply parse_chars_length in Ek. pose proof (skip_ws_length r1) as Hws1.
    destruct (skip_ws r1) as [|c1 r2]; [done|]. cbn [length] in Hws1.
    destruct (Ascii.eqb c1 ":"); [|done].
    destruct (Json.parse_value fr maxd fuel d r2) as [[x r3]|] eqn:E; [|done].
    pose proof (proj1 (parse_length fuel) _ _ _ _ E) as Hx.
    pose proof (skip_ws_length r3) as Hws3.
    destruct (skip_ws r3) as [|c3 r'] eqn:Es3; [done|]. cbn [length] in Hws3.
    destruct (Ascii.eqb c3 "}") eqn:Ec.
    { injection H as <- <-. rewrite (IHv _ _ _ _ fuel' E) by lia.
      by rewrite Es3, Ec. }
    destruct (Ascii.eqb c3 ",") eqn:Ec'; [|done].
    pose proof (proj2 (proj2 (parse_length fuel)) _ _ _ _ _ H) as Hm.
    rewrite (IHv _ _ _ _ fuel' E) by lia. rewrite Es3, Ec, Ec'.
    apply (IHm _ _ _ _ _ fuel' H). lia.
Qed.

(** [load] reads whatever the reader reads with any fuel at all. *)
Lemma load_fuel (fuel depth : nat) (text : string) (v : value) (rest : list ascii) :
  parse_value fuel depth (String.list_ascii_of_string text) = Some (v, rest) →
  skip_ws rest = [] →
  load fr maxd depth text = Some v.
Proof.
  intros H Hr. unfold load.
  rewrite (proj1 (parse_refuel fuel) _ _ _ _
             (S (length (String.list_ascii_of_string text))) H) by lia.
  by rewrite Hr.
Qed.

End WithLimits.
End JsonFuel.

Module JsonCutShort.
Import Sys Json JsonStrings JsonNumbers JsonFacts JsonReadBack.

Section WithLimits.
Variable fr : string → string.
Variable maxd : nat.

#[local] Abbreviation wf := (wf fr maxd).
#[local] Abbreviation parse_value := (parse_value fr maxd).
#[local] Abbreviation parse_items := (parse_items fr maxd).
#[local] Abbreviation parse_members := (parse_members fr maxd).
#[local] Abbreviation dumps_to := (dumps_to maxd).

(** *** A dump that is cut short *)

(** The elements of an array and the members of an object, as
    [dumps_to] writes them. *)
Definition dump_items_to (frames : nat)
  : list ascii → list value → list ascii * option exn :=
  fix go (buf : list ascii) (l : list value) : list ascii * option exn :=
    match l with
    | [] => (["]"%char], None)
    | x :: l' =>
        match dumps_to frames x with
        | (t, None) =>
            let '(t', stop) := go [","%char] l' in (buf ++ t ++ t', stop)
        | (t, Some ex) => (if is_scalar x then [] else buf ++ t, Some ex)
        end
    end.

Definition dump_members_to (frames : nat)
  : list ascii → list (list N * value) → list ascii * option exn :=
  fix go (buf : list ascii) (l : list (list N * value)) : list ascii * option exn :=
    match l with
    | [] => (["}"%char], None)
    | (k, x) :: l' =>
        let head := buf ++ dump_string k ++ [":"%char] in
        match dumps_to frames x with
        | (t, None) =>
            let '(t', stop) := go [","%char] l' in (head ++ t ++ t', stop)
        | (t, Some ex) => (head ++ t, Some ex)
        end
    end.

Lemma dump_items_to_cons (frames : nat) (buf : list ascii) (x : value) (l : list value) :
  dump_items_to frames buf (x :: l)
  = match dumps_to frames x with
    | (t, None) =>
        let '(t', stop) := dump_items_to frames [","%char] l in (buf ++ t ++ t', stop)
    | (t, Some ex) => (if is_scalar x then [] else buf ++ t, Some ex)
    end.
Proof. reflexivity. Qed.

Lemma dump_members_to_cons (frames : nat) (buf : list ascii) (k : list N) (x : value)
    (d : list (list N * value)) :
  dump_members_to frames buf ((k, x) :: d)
  = match dumps_to frames x with
    | (t, None) =>
        let '(t', stop) := dump_members_to frames [","%char] d in
        ((buf ++ dump_string k ++ [":"%char]) ++ t ++ t', stop)
    | (t, Some ex) => ((buf ++ dump_string k ++ [":"%char]) ++ t, Some ex)
    end.
Proof. reflexivity. Qed.

Lemma dumps_to_arr (frames : nat) (x : value) (l : list value) :
  dumps_to (S frames) (Arr (x :: l)) = dump_items_to frames ["["%char] (x :: l).
Proof. reflexivity. Qed.

Lemma dumps_to_obj (frames : nat) (kx : list N * value) (d : list (list N * value)) :
  dumps_to (S frames) (Obj (kx :: d)) = dump_members_to frames ["{"%char] (kx :: d).
Proof. reflexivity. Qed.

(** A dump that ends without an exception has written the whole text. *)
Definition whole (v : value) : Prop :=
  ∀ frames t, dumps_to frames v = (t, None) → t = dumps v.

Lemma dump_items_whole (frames : nat) (l : list value) :
  Forall whole l → l ≠ [] →
  ∀ buf t, dump_items_to frames buf l = (t, None) → t = buf ++ dump_items l ++ ["]"%char].
Proof.
  intros IH. induction IH as [|x l Hx Hl IHl]; [done|]. intros _ buf t.
  rewrite dump_items_to_cons.
  destruct (dumps_to frames x) as [tx [ex|]] eqn:Ex; [done|].
  apply Hx in Ex as ->.
  destruct (dump_items_to frames [","%char] l) as [t' stop] eqn:El.
  intros [= <- ->]. destruct l as [|y l].
  - cbv [dump_items_to] in El. injection El as <-. done.
  - rewrite (IHl ltac:(done) _ _ El). cbn [dump_items].
    by rewrite <- !(assoc_L (++)).
Qed.

Lemma dump_members_whole (frames : nat) (d : list (list N * value)) :
  Forall (fun kv => whole kv.2) d → d ≠ [] →
  ∀ buf t, dump_members_to frames buf d = (t, None) →
           t = buf ++ dump_members d ++ ["}"%char].
Proof.
  intros IH. induction IH as [|[k x] d Hx Hd IHd]; [done|]. intros _ buf t.
  rewrite dump_members_to_cons. cbn [snd] in Hx.
  destruct (dumps_to frames x) as [tx [ex|]] eqn:Ex; [done|].
  apply Hx in Ex as ->.
  destruct (dump_members_to frames [","%char] d) as [t' stop] eqn:Ed.
  intros [= <- ->]. destruct d as [|[k' y] d].
  - cbv [dump_members_to] in Ed. injection Ed as <-. cbn [dump_members].
    unfold dump_string; repeat (progress (rewrite <- ?(assoc_L (++)); cbn [app])); done.
  - rewrite (IHd ltac:(done) _ _ Ed).
    change (dump_members ((k, x) :: (k', y) :: d))
      with (dump_string k ++ ":"%char :: dumps x ++ ","%char :: dump_members ((k', y) :: d)).
    unfold dump_string; repeat (progress (rewrite <- ?(assoc_L (++)); cbn [app])); done.
Qed.

Lemma dumps_to_whole (v : value) : whole v.
Proof.
  induction v as [|b|n|r|s|l IH|d IH] using value_induction; intros frames t.
  - cbn. by intros [= <-].
  - destruct b; cbn; by intros [= <-].
  - cbn. destruct (int_ok maxd n); by intros [= <-].
  - cbn. destruct frames; by intros [= <-].
  - cbn. by intros [= <-].
  - destruct frames as [|frames]; [done|].
    destruct l as [|x l]; [cbn; by intros [= <-]|].
    rewrite dumps_to_arr, dumps_arr. intros H.
    by rewrite (dump_items_whole _ _ IH ltac:(done) _ _ H).
  - destruct frames as [|frames]; [done|].
    destruct d as [|kx d]; [cbn; by intros [= <-]|].
    rewrite dumps_to_obj, dumps_obj. intros H.
    by rewrite (dump_members_whole _ _ IH ltac:(done) _ _ H).
Qed.

(** What a dump that is cut short has written is no document: nothing
    is read from it. *)
Definition broken (v : value) : Prop :=
  ∀ frames t ex, wf v → dumps_to frames v = (t, Some ex) →
    (t = [] ∨ starts_value t) ∧ ∀ fuel depth, parse_value fuel depth t = None.

Lemma parse_items_nil (fuel depth : nat) : parse_items fuel depth [] = None.
Proof.
  destruct fuel as [|fuel]; [done|].
  by rewrite (parse_items_S fr maxd), (parse_value_nil fr maxd).
Qed.

Lemma dump_items_broken (frames : nat) (l : list value) :
  Forall broken l → Forall wf l →
  ∀ buf t ex, dump_items_to frames buf l = (t, Some ex) →
    t = [] ∨ ∃ t', t = buf ++ t' ∧ (t' = [] ∨ starts_value t')
                   ∧ ∀ fuel depth, parse_items fuel depth t' = None.
Proof.
  intros IH Hwf. induction IH as [|x l Hx Hl IHl]; [done|]. intros buf t ex.
  apply Forall_cons_1 in Hwf as [Hwx Hwl].
  rewrite dump_items_to_cons.
  destruct (dumps_to frames x) as [tx [ex'|]] eqn:Ex.
  - intros [= <- <-]. destruct (is_scalar x); [by left|]. right.
    destruct (Hx _ _ _ Hwx Ex) as [Hs Hp]. exists tx. split_and!; [done|done|].
    intros [|fuel] depth; [done|]. by rewrite (parse_items_S fr maxd), Hp.
  - apply dumps_to_whole in Ex as ->.
    destruct (dump_items_to frames [","%char] l) as [t' stop] eqn:El.
    intros [= <- ->]. right. exists (dumps x ++ t'). split; [done|]. split.
    { right. by apply (dumps_starts fr maxd). }
    intros [|fuel] depth; [done|]. rewrite (parse_items_S fr maxd).
    destruct (IHl Hwl _ _ _ El) as [->|(t'' & -> & _ & Hp)].
    + destruct (parse_dumps_cases fr maxd x fuel depth [] Hwx I) as [->| ->]; done.
    + change ([","%char] ++ t'') with (","%char :: t'').
      destruct (parse_dumps_cases fr maxd x fuel depth (","%char :: t'') Hwx)
        as [->| ->]; [by left|done|].
      change (skip_ws (","%char :: t'')) with (","%char :: t'').
      cbv iota beta. change (Ascii.eqb "," "]") with false.
      change (Ascii.eqb "," ",") with true. cbv iota. by rewrite Hp.
Qed.

Lemma dump_members_broken (frames : nat) (d : list (list N * value)) :
  Forall (fun kv => broken kv.2) d → Forall (fun kv => wf_chars kv.1 ∧ wf kv.2) d →
  ∀ buf t ex, dump_members_to frames buf d = (t, Some ex) →
    ∃ t', t = buf ++ dquote :: t'
          ∧ ∀ fuel depth acc, parse_members fuel depth acc (dquote :: t') = None.
Proof.
  intros IH Hwf. induction IH as [|[k x] d Hx Hd IHd]; [done|]. intros buf t ex.
  apply Forall_cons_1 in Hwf as [[Hk Hwx] Hwd]. cbn [fst snd] in Hk, Hwx, Hx.
  rewrite dump_members_to_cons.
  destruct (dumps_to frames x) as [tx [ex'|]] eqn:Ex.
  - intros [= <- <-]. destruct (Hx _ _ _ Hwx Ex) as [Hs Hp].
    destruct (dump_string_parse k (":"%char :: tx) Hk) as (tl & Ek & Hkp).
    exists (tl ++ ":"%char :: tx). split.
    { unfold dump_string in Ek. injection Ek as <-.
      repeat (progress (rewrite <- ?(assoc_L (++)); cbn [app])); done. }
    intros [|fuel] depth acc; [done|]. rewrite (parse_members_S fr maxd).
    change (skip_ws (dquote :: ?r)) with (dquote :: r). cbv iota beta.
    change (Ascii.eqb dquote dquote) with true. cbv iota. rewrite Hkp.
    change (skip_ws (":"%char :: ?r)) with (":"%char :: r). cbv iota beta.
    change (Ascii.eqb ":" ":") with true. cbv iota. by rewrite Hp.
  - apply dumps_to_whole in Ex as ->.
    destruct (dump_members_to frames [","%char] d) as [t' stop] eqn:Ed.
    intros [= <- ->]. destruct (IHd Hwd _ _ _ Ed) as (t'' & -> & Hp).
    destruct (dump_string_parse k (":"%char :: dumps x ++ ","%char :: dquote :: t'') Hk)
      as (tl & Ek & Hkp).
    exists (tl ++ ":"%char :: dumps x ++ ","%char :: dquote :: t''). split.
    { unfold dump_string in Ek. injection Ek as <-.
      repeat (progress (rewrite <- ?(assoc_L (++)); cbn [app])); done. }
    intros [|fuel] depth acc; [done|]. rewrite (parse_members_S fr maxd).
    change (skip_ws (dquote :: ?r)) with (dquote :: r). cbv iota beta.
    change (Ascii.eqb dquote dquote) with true. cbv iota. rewrite Hkp.
    change (skip_ws (":"%char :: ?r)) with (":"%char :: r). cbv iota beta.
    change (Ascii.eqb ":" ":") with true. cbv iota.
    destruct (parse_dumps_cases fr maxd x fuel depth (","%char :: dquote :: t'') Hwx)
      as [->| ->]; [by left|done|].
    change (skip_ws (","%char :: ?r)) with (","%char :: r). cbv iota beta.
    change (Ascii.eqb "," "}") with false. change (Ascii.eqb "," ",") with true.
    cbv iota. apply Hp.
Qed.

Lemma dumps_to_broken (v : value) : broken v.
Proof.
  induction v as [|b|n|r|s|l IH|d IH] using value_induction; intros frames t ex Hwf.
  - done.
  - by destruct b.
  - cbn. destruct (int_ok maxd n); [done|]. intros [= <- _].
    split; [by left|apply (parse_value_nil fr maxd)].
  - cbn. destruct frames; [|done]. intros [= <- _].
    split; [by left|apply (parse_value_nil fr maxd)].
  - done.
  - inversion_clear Hwf as [| | | | |? Hl|].
    destruct frames as [|frames].
    { intros [= <- _]. split; [by left|apply (parse_value_nil fr maxd)]. }
    destruct l as [|x l]; [done|]. rewrite dumps_to_arr. intros H.
    destruct (dump_items_broken _ _ IH Hl _ _ _ H) as [->|(t' & -> & Hs & Hp)].
    { split; [by left|apply (parse_value_nil fr maxd)]. }
    split; [by right|]. intros [|fuel] [|depth]; try done.
    cbn [app]. rewrite (parse_value_arr fr maxd).
    destruct Hs as [->|Hs]; [done|].
    rewrite (skip_ws_starts _ Hs). destruct t' as [|c' r']; [done|].
    destruct Hs as (_ & -> & _). by rewrite Hp.
  - inversion_clear Hwf as [| | | | | |? Hn Hd].
    destruct frames as [|frames].
    { intros [= <- _]. split; [by left|apply (parse_value_nil fr maxd)]. }
    destruct d as [|kx d]; [done|]. rewrite dumps_to_obj. intros H.
    destruct (dump_members_broken _ _ IH Hd _ _ _ H) as (t' & -> & Hp).
    split; [by right|]. intros [|fuel] [|depth]; try done.
    cbn [app]. rewrite (parse_value_obj fr maxd).
    change (skip_ws (dquote :: t')) with (dquote :: t').
    change (Ascii.eqb dquote "}") with false. cbv iota. by rewrite Hp.
Qed.

(** [json.load] of what [json.dump] wrote: the document when the dump
    was whole and the document is no deeper than the scanner goes, nothing
    when the dump was cut short, and never another document. *)
Lemma load_dump_whole (frames depth : nat) (v : value) (text : string) :
  wf v → dump maxd frames v = (text, None) → depth_of v ≤ depth →
  load fr maxd depth text = Some v.
Proof.
  unfold dump. intros Hwf H Hd.
  destruct (dumps_to frames v) as [t stop] eqn:E. injection H as <- ->.
  apply dumps_to_whole in E as ->. by apply load_dumps.
Qed.

Lemma load_dump_cases (frames depth : nat) (v : value) :
  wf v →
  load fr maxd depth (dump maxd frames v).1 = None
  ∨ (dump maxd frames v).2 = None
    ∧ load fr maxd depth (dump maxd frames v).1 = Some v.
Proof.
  unfold dump. intros Hwf.
  destruct (dumps_to frames v) as [t [ex|]] eqn:E; cbn [fst snd].
  - left. destruct (dumps_to_broken v _ _ _ Hwf E) as [_ Hp].
    unfold load. rewrite String.list_ascii_of_string_of_list_ascii.
    by rewrite Hp.
  - apply dumps_to_whole in E as ->.
    destruct (load_dumps_cases fr maxd v depth Hwf) as [->| ->]; [by left|by right].
Qed.

End WithLimits.

End JsonCutShort.

Module JsonFrames.
Import Sys Json JsonStrings JsonNumbers JsonFacts JsonReadBack JsonCutShort.

(** *** The frames [json.dump] needs

    The frames a document asks of the encoder below its first one: one for
    each array and object around a value, and one more around a float. *)
Fixpoint frames_of (v : value) : nat :=
  match v with
  | Float _ => 1
  | Arr l =>
      S ((fix go (l : list value) : nat :=
            match l with
            | [] => 0
            | x :: l' => Nat.max (frames_of x) (go l')
            end) l)
  | Obj d =>
      S ((fix go (d : list (list N * value)) : nat :=
            match d with
            | [] => 0
            | (_, x) :: d' => Nat.max (frames_of x) (go d')
            end) d)
  | _ => 0
  end.

Fixpoint items_frames (l : list value) : nat :=
  match l with
  | [] => 0
  | x :: l' => Nat.max (frames_of x) (items_frames l')
  end.

Fixpoint members_frames (d : list (list N * value)) : nat :=
  match d with
  | [] => 0
  | (_, x) :: d' => Nat.max (frames_of x) (members_frames d')
  end.

Lemma frames_arr l : frames_of (Arr l) = S (items_frames l).
Proof. reflexivity. Qed.

Lemma frames_obj d : frames_of (Obj d) = S (members_frames d).
Proof. reflexivity. Qed.

Lemma members_frames_set k v d :
  members_frames (dict_set k v d) ≤ Nat.max (frames_of v) (members_frames d).
Proof.
  induction d as [|[k0 v0] d IH]; cbn [dict_set members_frames]; [lia|].
  case_bool_decide; cbn [members_frames]; lia.
Qed.

(** A document needs at most one frame more than it is deep. *)
Lemma frames_le_depth (v : value) : frames_of v ≤ S (depth_of v).
Proof.
  induction v as [|b|n|r|s|l IH|d IH] using value_induction; cbn [frames_of depth_of];
    try lia.
  - change (S (items_frames l) ≤ S (S (items_depth l))).
    enough (items_frames l ≤ S (items_depth l)) by lia.
    induction IH as [|x l Hx _ IHl]; cbn [items_frames items_depth]; lia.
  - change (S (members_frames d) ≤ S (S (members_depth d))).
    enough (members_frames d ≤ S (members_depth d)) by lia.
    induction IH as [|[k x] d Hx _ IHd]; cbn [members_frames members_depth snd] in *; lia.
Qed.

Section WithLimits.
Variable fr : string → string.
Variable maxd : nat.

#[local] Abbreviation wf := (wf fr maxd).
#[local] Abbreviation dumps_to := (dumps_to maxd).

(** With the frames it needs, a document as [json.load] builds it is
    written to its end. *)
Definition written_out (v : value) : Prop :=
  wf v → ∀ frames, frames_of v ≤ frames → (dumps_to frames v).2 = None.

Lemma dump_items_written_out (frames : nat) (l : list value) :
  Forall written_out l → Forall wf l → items_frames l ≤ frames →
  ∀ buf, (dump_items_to maxd frames buf l).2 = None.
Proof.
  intros IH Hwf. induction IH as [|x l Hx _ IHl]; [done|]. intros Hf buf.
  apply Forall_cons_1 in Hwf as [Hwx Hwl]. cbn [items_frames] in Hf.
  rewrite dump_items_to_cons.
  specialize (Hx Hwx frames ltac:(lia)).
  destruct (dumps_to frames x) as [t stop]. cbn [snd] in Hx. subst stop.
  specialize (IHl Hwl ltac:(lia) [","%char]).
  by destruct (dump_items_to maxd frames [","%char] l) as [t' stop].
Qed.

Lemma dump_members_written_out (frames : nat) (d : list (list N * value)) :
  Forall (fun kv => written_out kv.2) d →
  Forall (fun kv => wf_chars kv.1 ∧ wf kv.2) d → members_frames d ≤ frames →
  ∀ buf, (dump_members_to maxd frames buf d).2 = None.
Proof.
  intros IH Hwf. induction IH as [|[k x] d Hx _ IHd]; [done|]. intros Hf buf.
  apply Forall_cons_1 in Hwf as [[_ Hwx] Hwd]. cbn [fst snd] in Hwx, Hx.
  cbn [members_frames] in Hf. rewrite dump_members_to_cons.
  specialize (Hx Hwx frames ltac:(lia)).
  destruct (dumps_to frames x) as [t stop]. cbn [snd] in Hx. subst stop.
  specialize (IHd Hwd ltac:(lia) [","%char]).
  by destruct (dump_members_to maxd frames [","%char] d) as [t' stop].
Qed.

Lemma dumps_to_written_out (v : value) : written_out v.
Proof.
  induction v as [|b|n|r|s|l IH|d IH] using value_induction; intros Hwf frames Hf.
  - done.
  - by destruct b.
  - inversion_clear Hwf as [| |? Hn| | | |]. cbn. by rewrite Hn.
  - cbn in Hf. destruct frames; [lia|done].
  - done.
  - inversion_clear Hwf as [| | | | |? Hl|]. rewrite frames_arr in Hf.
    destruct frames as [|frames]; [lia|]. destruct l as [|x l]; [done|].
    rewrite dumps_to_arr. apply dump_items_written_out; [done|done|lia].
  - inversion_clear Hwf as [| | | | | |? Hn Hd]. rewrite frames_obj in Hf.
    destruct frames as [|frames]; [lia|]. destruct d as [|kx d]; [done|].
    rewrite dumps_to_obj. apply dump_members_written_out; [done|done|lia].
Qed.

(** [json.dump] with the frames the document needs: the whole text and no
    exception. *)
Lemma dump_written_out (frames : nat) (v : value) :
  wf v → frames_of v ≤ frames →
  dump maxd frames v = (String.string_of_list_ascii (dumps v), None).
Proof.
  intros Hwf Hf. unfold dump.
  pose proof (dumps_to_written_out v Hwf frames Hf) as H.
  destruct (dumps_to frames v) as [t stop] eqn:E. cbn [snd] in H. subst stop.
  by rewrite (dumps_to_whole maxd v _ _ E).
Qed.

End WithLimits.
End JsonFrames.

(** ** init-download.py: version resolution *)
Module ResolveFacts.
Import Sys InitDownload SysFacts RunFacts PyStr PyStrFacts InitDownloadFacts.
Section WithEnv.
Variable e : env.

(** What [get_latest_version] returns, read off the answer to its request. *)
Definition listed_latest (area : string) : option string :=
  match http_get e (cdn_url e +:+ "/files.txt") with
  | HttpFailed => None
  | HttpReply status text =>
      if ((400 <=? status) && (status <? 600))%Z then None
      else latest_of (collect_versions area (listing_lines text))
  end.

Lemma get_latest_version_wp (area : string) (w : world) :
  wp (get_latest_version e area) w
     (fun o w' => o = Done (listed_latest area) ∧ w_fs w' = w_fs w)
     (fun w' => w_fs w' = w_fs w).
Proof.
  unfold get_latest_version, listed_latest. cbv zeta.
  apply wp_bind, wp_print; [done|].
  apply wp_try_except, wp_bind, wp_act'. intros o w' [= <- <-].
  split; [done|].
  destruct (http_get e _) as [|status text].
  - apply wp_raise. apply wp_bind, wp_print; [done|]. by apply wp_ret.
  - case_match.
    + apply wp_raise. apply wp_bind, wp_print; [done|]. by apply wp_ret.
    + destruct (latest_of _).
      * apply wp_bind, wp_print; [done|]. by apply wp_ret.
      * apply wp_bind, wp_print; [done|]. by apply wp_ret.
Qed.

End WithEnv.

Lemma latest_of_max (versions : list string) :
  match latest_of versions with
  | None => versions = []
  | Some v => v ∈ versions ∧ ∀ u, u ∈ versions → String.le u v
  end.
Proof.
  unfold latest_of. destruct versions as [|x l]; [done|].
  destruct (last (sorted (x :: l))) as [v|] eqn:E.
  - by apply last_sorted_max.
  - by apply last_sorted_None in E.
Qed.

(** A line of the shape [areas/<area>/<version>/tiles.btrfs.gz]. *)
Definition archive_line (area version : string) : string :=
  "areas/" +:+ area +:+ "/" +:+ version +:+ "/tiles.btrfs.gz".

Lemma collect_versions_archive_line (area version : string) :
  has_char slash area = false → has_char slash version = false →
  collect_versions area [archive_line area version] = [version].
Proof.
  intros Ha Hv. unfold collect_versions, archive_line. cbn [flat_map].
  rewrite app_nil_r.
  set (line := "areas/" +:+ area +:+ "/" +:+ version +:+ "/tiles.btrfs.gz").
  assert (contains ("areas/" +:+ area +:+ "/") line = true) as ->.
  { replace line with (("areas/" +:+ area +:+ "/") +:+ version +:+ "/tiles.btrfs.gz").
    - apply contains_prefix.
    - unfold line. by rewrite !PyStrFacts.app_assoc. }
  assert (contains "tiles.btrfs.gz" line = true) as ->.
  { replace line
      with (("areas/" +:+ area +:+ "/" +:+ version +:+ "/") +:+ "tiles.btrfs.gz").
    - apply contains_skip. reflexivity.
    - unfold line. by rewrite !PyStrFacts.app_assoc. }
  cbn [andb].
  change line
    with ("areas" +:+ String slash (area +:+ String slash
            (version +:+ String slash "tiles.btrfs.gz"))).
  rewrite !split_app by done. done.
Qed.
(** The versions collected from the archive lines of slash-free names are
    these names, in the order of the lines. *)
Lemma collect_versions_archive_lines (area : string) (versions : list string) :
  has_char slash area = false →
  Forall (fun v => has_char slash v = false) versions →
  collect_versions area (archive_line area <$> versions)
  = versions.
Proof.
  intros Ha.
  assert (∀ l ls, collect_versions area (l :: ls)
                  = collect_versions area [l]
                    ++ collect_versions area ls) as Hc.
  { intros l ls. unfold collect_versions. cbn [flat_map].
    by rewrite app_nil_r. }
  induction 1 as [|v vs Hv _ IH]; [done|].
  by rewrite fmap_cons, Hc, collect_versions_archive_line, IH.
Qed.

End ResolveFacts.

(** ** generate-nginx-config.py *)
Module NginxFacts.
Import Sys NginxConfig SysFacts RunFacts PyStr PyStrFacts InitDownloadFacts.
Import JsonStrings JsonFacts JsonReadBack JsonCutShort.

Lemma wp_read_file (p : path) w Q I :
  (∀ c, w_fs w !! p = Some (File c) → Q (Done c) w) →
  ((∀ c, w_fs w !! p ≠ Some (File c)) → Q (Raised (OSError p)) w) →
  wp (read_file p) w Q I.
Proof.
  intros H1 H2. unfold wp, read_file.
  destruct (w_fs w !! p) as [[|c]|]; cbn; split; auto.
Qed.

Lemma wp_write_file (p : path) (c : string) w Q I :
  (w_fs w !! parent p = Some Dir → (∀ n, w_fs w !! p = Some n → n ≠ Dir) →
   I (set_fs w (<[p := File ""]> (w_fs w)))
   ∧ I (set_fs w (<[p := File c]> (w_fs w)))
   ∧ Q (Done tt) (set_fs w (<[p := File c]> (w_fs w)))) →
  (w_fs w !! parent p ≠ Some Dir ∨ w_fs w !! p = Some Dir →
   I w ∧ Q (Raised (OSError p)) w) →
  wp (write_file p c) w Q I.
Proof.
  intros H1 H2. unfold write_file. apply wp_bind, wp_act'. intros o w' Hf.
  cbv beta in Hf.
  repeat case_match; simplify_eq;
    try (apply H2; first [by right | by left]).
  all: destruct H1 as (I1 & I2 & HQ); [done|congruence|].
  all: split; [done|]; apply wp_act'; intros o w' [= <- <-].
  all: cbn [w_fs set_fs]; rewrite insert_insert_eq; by destruct w.
Qed.

(** The tile address [update_tilejson] writes. *)
Definition tiles_value (domain area version : string) : Json.value :=
  Json.Arr [Json.Str (Json.of_string (tile_url domain area version))].

Section WithEnv.
Variable e : env.

(** The document [update_tilejson] writes for the object [d]. *)
Definition updated_document (domain area version : string)
    (d : list (list N * Json.value)) : Json.value :=
  Json.Obj (Json.dict_set (Json.of_string "tiles") (tiles_value domain area version) d).

(** The file system [update_tilejson] leaves: what [json.dump] wrote,
    whether it came to its end or not. *)
Definition updated_fs (p : path) (domain area version : string)
    (m : gmap path node) : gmap path node :=
  match m !! p, m !! parent p with
  | Some (File text), Some Dir =>
      match Json.load (float_repr e) (max_str_digits e) (load_depth e) text with
      | Some (Json.Obj d) =>
          <[p := File (Json.dump (max_str_digits e) (dump_depth e)
                         (updated_document domain area version d)).1]> m
      | _ => m
      end
  | _, _ => m
  end.

Lemma update_tilejson_fs (p : path) (domain area version : string) (w : world) :
  w_fs (fin (update_tilejson e p domain area version w))
  = updated_fs p domain area version (w_fs w).
Proof.
  enough (wp (update_tilejson e p domain area version) w
             (fun _ w' => w_fs w' = updated_fs p domain area version (w_fs w))
             (fun _ => True)) as [_ H] by exact H.
  unfold update_tilejson, rewrite_tilejson, updated_fs.
  apply wp_try_except, wp_bind, wp_read_file.
  - intros text Ht. rewrite Ht.
    destruct (Json.load (float_repr e) (max_str_digits e) (load_depth e) text)
      as [[| | | | | |d]|];
      try (apply wp_raise, wp_print; [done|]; cbn [w_fs log]; by repeat case_match).
    fold (tiles_value domain area version).
    fold (updated_document domain area version d).
    destruct (Json.dump (max_str_digits e) (dump_depth e)
                (updated_document domain area version d)) as [written stopped].
    cbn [fst]. apply wp_bind, wp_write_file.
    + intros Hp _. rewrite Hp. split_and!; [done|done|].
      destruct stopped as [ex|]; [apply wp_raise, wp_print; done|by apply wp_ret].
    + intros [Hp|Hp]; [|congruence]. split; [done|].
      apply wp_print; [done|]. cbn [w_fs log]. repeat case_match; congruence.
  - intros Hp. apply wp_print; [done|]. cbn [w_fs log].
    repeat case_match; simplify_eq; try done. by destruct (Hp _ eq_refl).
Qed.

Lemma tiles_value_wf domain area version :
  wf (float_repr e) (max_str_digits e) (tiles_value domain area version).
Proof.
  constructor. constructor; [|done]. constructor. apply wf_chars_of_string.
Qed.

Lemma updated_document_wf domain area version d :
  wf (float_repr e) (max_str_digits e) (Json.Obj d) →
  wf (float_repr e) (max_str_digits e) (updated_document domain area version d).
Proof.
  intros Hd. apply wf_dict_set; [apply wf_chars_of_string|apply tiles_value_wf|done].
Qed.

(** Updating twice leaves what updating once left: what the first update
    wrote is read as the document it was written from, or is not read. *)
Lemma updated_fs_idemp (p : path) (domain area version : string) (m : gmap path node) :
  float_repr_ok (float_repr e) →
  updated_fs p domain area version (updated_fs p domain area version m)
  = updated_fs p domain area version m.
Proof.
  intros Hfr. unfold updated_fs at 2.
  destruct (m !! p) as [[|text]|] eqn:Hp; try (unfold updated_fs; by rewrite Hp).
  destruct (m !! parent p) as [[|?]|] eqn:Hd;
    try (unfold updated_fs; by rewrite Hp, Hd).
  destruct (Json.load (float_repr e) (max_str_digits e) (load_depth e) text)
    as [[| | | | | |d]|] eqn:Hl;
    try (unfold updated_fs; by rewrite Hp, Hd, Hl).
  assert (parent p ≠ p) as Hne by (intros E; rewrite E in Hd; congruence).
  unfold updated_fs. rewrite lookup_insert_eq, lookup_insert_ne, Hd by done.
  rewrite Hp, Hl.
  apply (load_wf _ _ Hfr) in Hl as [Hwf _].
  destruct (load_dump_cases (float_repr e) (max_str_digits e) (dump_depth e)
              (load_depth e) _ (updated_document_wf domain area version d Hwf))
    as [-> | [_ ->]]; [done|].
  unfold updated_document. cbv beta iota.
  by rewrite dict_set_idemp, insert_insert_eq.
Qed.

End WithEnv.


(** [v] is the greatest of [l] in the order of [sorted]. *)
Definition greatest (v : string) (l : list string) : Prop :=
  v ∈ l ∧ ∀ u, u ∈ l → String.le u v.

Lemma greatest_unique (v v' : string) (l : list string) :
  greatest v l → greatest v' l → v = v'.
Proof.
  intros [Hv Hmax] [Hv' Hmax'].
  apply (anti_symm String.le); [by apply Hmax'|by apply Hmax].
Qed.

Lemma last_sorted_greatest (l : list string) (v : string) :
  greatest v l → last (sorted l) = Some v.
Proof.
  intros Hg. destruct (last (sorted l)) as [v'|] eqn:E.
  - f_equal. eapply greatest_unique; [|done]. by apply last_sorted_max.
  - apply last_sorted_None in E. destruct Hg as [Hv _]. subst l.
    by apply elem_of_nil in Hv.
Qed.

(** The version directories of an area, complete or not. *)
Definition version_dirs (m : gmap path node) (area_dir : path) : list string :=
  List.filter (fun v => is_dir m (area_dir ++ [v])) (iterdir m area_dir).

Lemma latest_redirect_greatest (m : gmap path node) (tiles_dir : path)
    (area v : string) :
  is_dir m (tiles_dir ++ [area]) = true → is_name v = true →
  greatest v (version_dirs m (tiles_dir ++ [area])) →
  latest_redirect m tiles_dir area
  = if exists_ m (tiles_dir ++ [area; v; "tiles"])
       && exists_ m (tiles_dir ++ [area; v; "tilejson.json"])
    then [(area, latest_config area v (tiles_dir ++ [area; v])
                   (tiles_dir ++ [area; v; "tilejson.json"])
                   (tiles_dir ++ [area; v; "tiles"]))]
    else [].
Proof.
  intros Hd Hv Hg. unfold latest_redirect. rewrite Hd. cbn [negb].
  unfold version_names. fold (version_dirs m (tiles_dir ++ [area])).
  rewrite (last_sorted_greatest _ _ Hg).
  rewrite (pjoin_name _ v Hv), !pjoin_name by done.
  rewrite <- !(assoc_L (++)). cbn [app].
  by destruct (exists_ m _), (exists_ m _).
Qed.

Lemma latest_redirect_none (m : gmap path node) (tiles_dir : path) (area : string) :
  is_dir m (tiles_dir ++ [area]) = false ∨ version_dirs m (tiles_dir ++ [area]) = [] →
  latest_redirect m tiles_dir area = [].
Proof.
  unfold latest_redirect. intros [->|H]; [done|].
  destruct (is_dir m _); [|done]. cbn [negb].
  unfold version_names. fold (version_dirs m (tiles_dir ++ [area])). by rewrite H.
Qed.

Lemma generate_latest_redirects_run (tiles_dir : path) (w : world) :
  is_dir (w_fs w) tiles_dir = true →
  generate_latest_redirects tiles_dir w
  = Run (Done (flat_map (latest_redirect (w_fs w) tiles_dir)
                        (sorted (iterdir (w_fs w) tiles_dir)))) w [].
Proof.
  intros Hd. unfold generate_latest_redirects, mbind, M_bind, bind, iterdir_m.
  by rewrite Hd.
Qed.

End NginxFacts.


Module DownloadAssetsFacts.
Import Sys DownloadAssets SysFacts RunFacts InitDownloadFacts.

Lemma wp_iterdir_m (p : path) w Q I :
  (w_fs w !! p = Some Dir → Q (Done (iterdir (w_fs w) p)) w) →
  (w_fs w !! p ≠ Some Dir → Q (Raised (OSError p)) w) →
  wp (iterdir_m p) w Q I.
Proof.
  intros H1 H2. unfold wp, iterdir_m.
  destruct (is_dir (w_fs w) p) eqn:E; cbn; split; try constructor.
  - apply H1. by apply is_dir_true.
  - apply H2. intros H%is_dir_true. congruence.
Qed.

(** An asset whose [ofm] directory has entries: nothing but a message. *)
Lemma download_asset_skip (e : env) (asset_name : string) (assets_dir : path) (w : world) :
  is_name asset_name = true → fs_wf (w_fs w) = true →
  w_fs w !! (assets_dir ++ [asset_name; "ofm"]) = Some Dir →
  iterdir (w_fs w) (assets_dir ++ [asset_name; "ofm"]) ≠ [] →
  wp (download_asset e asset_name assets_dir) w
     (fun o w' => o = Done true ∧ w' = log w (EvPrint (MsgSkipping asset_name)))
     (fun w' => w' = w ∨ w' = log w (EvPrint (MsgSkipping asset_name))).
Proof.
  intros Hn Hwf Hofm Hne.
  assert (asset_dir assets_dir asset_name = assets_dir ++ [asset_name]) as Ead.
  { unfold asset_dir. by rewrite pjoin_name. }
  assert (mkdir_p (w_fs w) (assets_dir ++ [asset_name]) = Some (w_fs w)) as Hmk.
  { apply mkdir_p_id. intros q Hq.
    change [asset_name; "ofm"] with ([asset_name] ++ ["ofm"]) in Hofm.
    rewrite (assoc_L (++)) in Hofm. by eapply fs_wf_ancestors. }
  unfold download_asset. cbv zeta. rewrite Ead, pjoin_name by done.
  rewrite <- (assoc_L (++)). cbn [app].
  apply wp_bind, wp_mkdir_parents; [|congruence].
  intros m' Hm'. assert (m' = w_fs w) as -> by congruence.
  rewrite set_fs_id. split; [by left|].
  unfold exists_nonempty.
  apply wp_bind, wp_bind, wp_gets.
  replace (exists_ (w_fs w) _) with true by (symmetry; by apply exists_true).
  apply wp_bind, wp_iterdir_m; [|done]. intros _.
  apply wp_ret. rewrite bool_decide_eq_false_2 by done. cbn [negb].
  apply wp_bind, wp_print; [by right|]. by apply wp_ret.
Qed.

End DownloadAssetsFacts.

Module LatestFacts.
Import Sys InitDownload SysFacts RunFacts InitDownloadFacts.

Lemma hist_bind_head {A B} (m : M A) (f : A → M B) (w x : world) :
  x ∈ hist (m w) → x ∈ hist ((m ≫= f : M B) w).
Proof.
  unfold mbind, M_bind, bind. destruct (out (m w)); cbn [hist]; [|done].
  intros H. apply elem_of_app. by left.
Qed.

Lemma hist_bind_tail {A B} (m : M A) (f : A → M B) (w x : world) (a : A) :
  out (m w) = Done a → x ∈ hist (f a (fin (m w))) → x ∈ hist ((m ≫= f : M B) w).
Proof.
  unfold mbind, M_bind, bind. intros -> H. cbn [hist]. apply elem_of_app. by right.
Qed.

(** With ["latest"] the listing is requested right after the output
    directory is made: before the marker of any version is looked at. *)
Lemma download_area_latest_requests (e : env) (area : string) (od : path)
    (w : world) (m1 : gmap path node) :
  mkdir_p (w_fs w) od = Some m1 →
  log (log (set_fs w m1) (EvPrint (MsgFetchingVersions area)))
      (EvHttpGet (cdn_url e +:+ "/files.txt"))
  ∈ hist (download_area e area "latest" od w).
Proof.
  intros Hmk. unfold download_area. cbn [String.eqb Ascii.eqb Bool.eqb].
  eapply (hist_bind_tail _ _ _ _ tt).
  { unfold mkdir_parents, act. by rewrite Hmk. }
  assert (fin (mkdir_parents od w) = set_fs w m1) as ->.
  { unfold mkdir_parents, act. by rewrite Hmk. }
  apply hist_bind_head, hist_bind_head. unfold get_latest_version. cbv zeta.
  eapply (hist_bind_tail _ _ _ _ tt); [done|].
  cbn [print act fin]. unfold try_except.
  match goal with |- _ ∈ hist (match out ?x with _ => _ end) => set (r := x) end.
  assert (log (log (set_fs w m1) (EvPrint (MsgFetchingVersions area)))
            (EvHttpGet (cdn_url e +:+ "/files.txt")) ∈ hist r) as Hr.
  { apply hist_bind_head. cbn [act hist]. apply list_elem_of_here. }
  destruct (out r); cbn [hist]; [done|]. apply elem_of_app. by left.
Qed.

End LatestFacts.


(** ** Runs: what a run returns and leaves *)
Module RunMore.
Import Sys RunFacts.

Lemma out_bind_done {A B} (m : M A) (f : A → M B) (w : world) (a : A) :
  out (m w) = Done a →
  out ((m ≫= f) w) = out (f a (fin (m w)))
  ∧ fin ((m ≫= f) w) = fin (f a (fin (m w))).
Proof. unfold mbind, M_bind, bind. by intros ->. Qed.

Lemma out_bind_raised {A B} (m : M A) (f : A → M B) (w : world) (ex : exn) :
  out (m w) = Raised ex →
  out ((m ≫= f) w) = Raised ex ∧ fin ((m ≫= f) w) = fin (m w).
Proof. unfold mbind, M_bind, bind. by intros ->. Qed.

(** [wp] with nothing asked of the worlds passed through. *)
Lemma wp_post {A} (m : M A) (w : world) (Q : outcome A → world → Prop) :
  wp m w Q (fun _ => True) → Q (out (m w)) (fin (m w)).
Proof. by intros [_ H]. Qed.

Lemma wp_for_each {A B} (l : list A) (body : A → M (list B)) (g : A → list B)
    (Inv : world → Prop) (w : world) :
  (∀ x w', x ∈ l → Inv w' →
           wp (body x) w' (fun o w'' => o = Done (g x) ∧ Inv w'') (fun _ => True)) →
  Inv w →
  wp (for_each l body) w
     (fun o w' => o = Done (flat_map g l) ∧ Inv w') (fun _ => True).
Proof.
  revert w. induction l as [|x l IH]; intros w Hb Hw; cbn [for_each flat_map].
  - by apply wp_ret.
  - apply wp_bind. eapply wp_mono; [apply Hb; [apply list_elem_of_here|done]| |done].
    intros o w' [-> Hw'].
    apply wp_bind. eapply wp_mono; [apply IH; [|done]| |done].
    + intros y w'' Hy. apply Hb. by apply list_elem_of_further.
    + intros o w'' [-> Hw'']. by apply wp_ret.
Qed.

(** A loop whose rounds keep [Inv], whatever they return or raise. *)
Lemma wp_for_each_inv {A B} (l : list A) (body : A → M (list B))
    (Inv : world → Prop) (w : world) :
  (∀ x w', x ∈ l → Inv w' → wp (body x) w' (fun _ w'' => Inv w'') Inv) →
  Inv w →
  wp (for_each l body) w (fun _ w' => Inv w') Inv.
Proof.
  revert w. induction l as [|x l IH]; intros w Hb Hw; cbn [for_each].
  - by apply wp_ret.
  - apply wp_bind. eapply wp_mono; [apply Hb; [apply list_elem_of_here|done]| |done].
    intros [ys|ex] w' Hw'; [|done].
    apply wp_bind. eapply wp_mono; [apply IH; [|done]| |done].
    + intros y w'' Hy. apply Hb. by apply list_elem_of_further.
    + intros [zs|ex] w'' Hw''; [|done]. by apply wp_ret.
Qed.

Lemma wp_print' (m : msg) w (Q : outcome unit → world → Prop) :
  Q (Done tt) (log w (EvPrint m)) → wp (print m) w Q (fun _ => True).
Proof. intros H. by apply wp_print. Qed.

Lemma wp_attempt {A} (m : M A) w (Q : outcome (A + exn) → world → Prop) I :
  wp m w (fun o w' => Q (Done match o with
                              | Done a => inl a
                              | Raised ex => inr ex
                              end) w') I →
  wp (ExtractBtrfs.attempt m) w Q I.
Proof. by intros [Hh Hq]. Qed.

Lemma wp_try_except_called {A} (m h : M A) w Q I :
  wp m w (fun o w' => match o with
                      | Raised (CalledProcessError _) => wp h w' Q I
                      | _ => Q o w'
                      end) I →
  wp (ExtractBtrfs.try_except_called m h) w Q I.
Proof.
  unfold wp, ExtractBtrfs.try_except_called. intros [Hh Hk].
  destruct (out (m w)) as [a|[]] eqn:E; cbn [out fin hist]; rewrite ?E; try done.
  destruct Hk as [Hh' Hq]. split; [by apply Forall_app|done].
Qed.

(** [w'] is [w] with events logged, each of them satisfying [P], and
    nothing else. *)
Definition logged (P : event → Prop) (w w' : world) : Prop :=
  w_fs w' = w_fs w ∧ w_loops w' = w_loops w ∧ w_mounts w' = w_mounts w
  ∧ ∃ l, w_log w' = w_log w ++ l ∧ Forall P l.

Lemma logged_refl P w : logged P w w.
Proof. split_and!; [done..|]. exists []. by rewrite app_nil_r. Qed.

Lemma logged_log (P : event → Prop) w w' ev :
  P ev → logged P w w' → logged P w (log w' ev).
Proof.
  intros Hev (H1 & H2 & H3 & l & H4 & H5). split_and!; [done..|].
  exists (l ++ [ev]). cbn [w_log log].
  rewrite H4, (assoc_L (++)). split; [done|].
  apply Forall_app. split; [done|]. by repeat constructor.
Qed.

Definition is_print (ev : event) : Prop := ∃ m, ev = EvPrint m.

Lemma is_print_print m : is_print (EvPrint m).
Proof. by eexists. Qed.

(** A loop whose rounds return, what each returns being told by [R]. *)
Lemma wp_for_each_rel {A B} (l : list A) (body : A → M (list B))
    (R : A → list B → Prop) (Inv : world → Prop) (w : world) :
  (∀ x w', x ∈ l → Inv w' →
           wp (body x) w' (fun o w'' => (∃ ys, o = Done ys ∧ R x ys) ∧ Inv w'')
              (fun _ => True)) →
  Inv w →
  wp (for_each l body) w
     (fun o w' => (∃ yss, o = Done (concat yss) ∧ Forall2 R l yss) ∧ Inv w')
     (fun _ => True).
Proof.
  revert w. induction l as [|x l IH]; intros w Hb Hw; cbn [for_each].
  - apply wp_ret. split; [|done]. exists []. by split; [|constructor].
  - apply wp_bind. eapply wp_mono; [apply Hb; [apply list_elem_of_here|done]| |done].
    intros o w' [(ys & -> & Hys) Hw'].
    apply wp_bind. eapply wp_mono; [apply IH; [|done]| |done].
    + intros y w'' Hy. apply Hb. by apply list_elem_of_further.
    + intros o w'' [(yss & -> & Hyss) Hw'']. apply wp_ret.
      split; [|done]. exists (ys :: yss). split; [done|by constructor].
Qed.

Lemma elem_of_concat_Forall2 {A B} (P : A → B → Prop) (l : list A)
    (yss : list (list B)) (z : B) :
  Forall2 (fun x ys => ∀ z, z ∈ ys ↔ P x z) l yss →
  z ∈ concat yss ↔ ∃ x, x ∈ l ∧ P x z.
Proof.
  induction 1 as [|x ys l yss Hx _ IH]; cbn [concat].
  - split; [by intros ?%elem_of_nil|]. by intros (? & ?%elem_of_nil & _).
  - rewrite elem_of_app, IH, Hx. split.
    + intros [Hz|(x' & Hx' & Hz)].
      * exists x. split; [apply list_elem_of_here|done].
      * exists x'. split; [by apply list_elem_of_further|done].
    + intros (x' & Hx' & Hz).
      apply elem_of_cons in Hx' as [->|Hx']; [by left|].
      right. by exists x'.
Qed.

End RunMore.


(** ** More on the file system: [mkdir_p], prefixes, grafting *)
Module SysMore.
Import Sys SysFacts.

Lemma foldl_mkdir1_is_Some (qs : list path) (m : gmap path node) :
  is_Some (foldl mkdir1 (Some m) qs) ↔ ∀ q c, q ∈ qs → m !! q ≠ Some (File c).
Proof.
  revert m. induction qs as [|a qs IH]; intros m; cbn [foldl mkdir1].
  - split; [by intros _ q c ?%elem_of_nil|by eexists].
  - destruct (m !! a) as [[|c]|] eqn:Ha.
    + rewrite IH. split.
      * intros H q c [->|Hq]%elem_of_cons; [congruence|by apply H].
      * intros H q c Hq. apply H. by apply elem_of_cons; right.
    + rewrite foldl_mkdir1_None. split; [by intros [? ?]|].
      intros H. destruct (H a c); [apply list_elem_of_here|done].
    + rewrite IH. split.
      * intros H q c [->|Hq]%elem_of_cons; [congruence|].
        specialize (H q c Hq). destruct (decide (a = q)) as [->|Hne]; [congruence|].
        by rewrite lookup_insert_ne in H.
      * intros H q c Hq. destruct (decide (a = q)) as [->|Hne].
        -- by rewrite lookup_insert_eq.
        -- rewrite lookup_insert_ne by done. apply H. by apply elem_of_cons; right.
Qed.

(** A directory can be made, with its parents, when no file is in the way. *)
Lemma mkdir_p_is_Some (m : gmap path node) (p : path) :
  is_Some (mkdir_p m p) ↔ ∀ q c, q ∈ prefixes p → m !! q ≠ Some (File c).
Proof. apply foldl_mkdir1_is_Some. Qed.

Lemma mkdir_p_prefix_dir (m m' : gmap path node) (p q : path) :
  mkdir_p m p = Some m' → q ∈ prefixes p → m' !! q = Some Dir.
Proof. intros H Hq. by eapply foldl_mkdir1_dir. Qed.

(** Making a directory that was just made changes nothing. *)
Lemma mkdir_p_idem (m m' : gmap path node) (p : path) :
  mkdir_p m p = Some m' → mkdir_p m' p = Some m'.
Proof. intros H. apply mkdir_p_id. intros q Hq. by eapply mkdir_p_prefix_dir. Qed.

(** What [mkdir_p] leaves at a path. *)
Lemma mkdir_p_at (m m' : gmap path node) (p q : path) :
  mkdir_p m p = Some m' →
  m' !! q = if bool_decide (q ∈ prefixes p) then Some Dir else m !! q.
Proof.
  intros H. case_bool_decide as Hq.
  - by eapply mkdir_p_prefix_dir.
  - by eapply mkdir_p_other.
Qed.

(** [mkdir_p] told by what it needs and what it leaves. *)
Lemma mkdir_p_Some_at (m m' : gmap path node) (p : path) :
  mkdir_p m p = Some m'
  ↔ (∀ q c, q ∈ prefixes p → m !! q ≠ Some (File c))
    ∧ ∀ q, m' !! q = if bool_decide (q ∈ prefixes p) then Some Dir else m !! q.
Proof.
  split.
  - intros H. split.
    + apply mkdir_p_is_Some. by eexists.
    + intros q. by apply mkdir_p_at.
  - intros [H1 H2]. apply mkdir_p_is_Some in H1 as [m'' Hm''].
    rewrite Hm''. f_equal. apply map_eq. intros q.
    by rewrite H2, (mkdir_p_at _ _ _ q Hm'').
Qed.

Lemma prefixes_app_l (p r q : path) : q ∈ prefixes p → q ∈ prefixes (p ++ r).
Proof. intros H. eapply prefixes_trans; [exact H|apply prefixes_app]. Qed.

Lemma prefixes_iff (p q : path) : q ∈ prefixes p ↔ ∃ r, p = q ++ r.
Proof.
  split; [apply prefixes_inv|]. intros [r ->]. apply prefixes_app.
Qed.

(** Making a directory goes through making each directory above it. *)
Lemma mkdir_p_split (m m' : gmap path node) (p r : path) :
  mkdir_p m (p ++ r) = Some m' →
  ∃ m1, mkdir_p m p = Some m1 ∧ mkdir_p m1 (p ++ r) = Some m'.
Proof.
  intros [H1 H2]%mkdir_p_Some_at.
  assert (is_Some (mkdir_p m p)) as [m1 Hm1].
  { apply mkdir_p_is_Some. intros q c Hq. by apply H1, prefixes_app_l. }
  exists m1. split; [done|]. apply mkdir_p_Some_at. split.
  - intros q c Hq. rewrite (mkdir_p_at _ _ _ q Hm1). case_bool_decide; [done|].
    by apply H1.
  - intros q. rewrite H2, (mkdir_p_at _ _ _ q Hm1).
    case_bool_decide as Hq; [done|]. case_bool_decide as Hq'; [|done].
    by apply (prefixes_app_l _ r) in Hq'.
Qed.

Lemma child_name_Some (p q : path) (n : string) :
  child_name p q = Some n ↔ q = p ++ [n].
Proof.
  unfold child_name. destruct (reverse q) as [|x r] eqn:E.
  - split; [done|]. intros ->. rewrite reverse_app in E. done.
  - assert (q = reverse r ++ [x]) as ->.
    { rewrite <- (reverse_involutive q), E. by rewrite reverse_cons. }
    case_decide as Hr.
    + subst p. split; [by intros [= ->]|]. by intros [_ [= ->]]%app_inj_tail.
    + split; [done|]. by intros [? _]%app_inj_tail.
Qed.

(** The entries of a directory are the names under it. *)
Lemma elem_of_iterdir (m : gmap path node) (p : path) (n : string) :
  n ∈ iterdir m p ↔ is_Some (m !! (p ++ [n])).
Proof.
  unfold iterdir. rewrite list_elem_of_omap. split.
  - intros ([q x] & Hin & Hq). cbn [fst] in Hq. apply child_name_Some in Hq as ->.
    apply elem_of_map_to_list in Hin. by eexists.
  - intros [x Hx]. exists (p ++ [n], x). split.
    + by apply elem_of_map_to_list.
    + by apply child_name_Some.
Qed.

Lemma elem_of_sorted (l : list string) (x : string) : x ∈ PyStr.sorted l ↔ x ∈ l.
Proof. unfold PyStr.sorted. by rewrite merge_sort_Permutation. Qed.

Lemma is_prefix_refl (p : path) : is_prefix p p = true.
Proof. apply InitDownloadFacts.is_prefix_true. exists []. by rewrite app_nil_r. Qed.

Lemma is_prefix_false (p q : path) : is_prefix p q = false ↔ ∀ r, q ≠ p ++ r.
Proof.
  rewrite <- not_true_iff_false, InitDownloadFacts.is_prefix_true. split.
  - intros H r Hr. apply H. by exists r.
  - intros H [r Hr]. by apply (H r).
Qed.

(** A prefix of [q ++ [x]] is a prefix of [q], or all of it. *)
Lemma is_prefix_snoc (p q : path) (x : string) :
  is_prefix p (q ++ [x]) = true → is_prefix p q = true ∨ p = q ++ [x].
Proof.
  rewrite !InitDownloadFacts.is_prefix_true. intros [r Hr].
  destruct r as [|y r _] using rev_ind.
  - right. by rewrite app_nil_r in Hr.
  - left. exists r. rewrite (assoc_L (++)) in Hr. by apply app_inj_tail in Hr as [? _].
Qed.

Lemma is_prefix_app_l (p q r : path) :
  is_prefix (p ++ r) q = true → is_prefix p q = true.
Proof.
  rewrite !InitDownloadFacts.is_prefix_true. intros [r' ->].
  exists (r ++ r'). by rewrite (assoc_L (++)).
Qed.

Lemma prefixes_is_prefix (p q : path) : q ∈ prefixes p ↔ is_prefix q p = true.
Proof. by rewrite prefixes_iff, InitDownloadFacts.is_prefix_true. Qed.

(** *** Grafting *)
Lemma graft_lookup_ne (m : gmap path node) (p q : path) (es : list (path * node)) :
  (∀ kv, kv ∈ es → p ++ kv.1 ≠ q) → graft m p es !! q = m !! q.
Proof.
  induction es as [|kv es IH]; intros H; [done|]. cbn [graft foldr].
  rewrite lookup_insert_ne by apply H, list_elem_of_here.
  apply IH. intros kv' Hkv'. by apply H, list_elem_of_further.
Qed.

Lemma graft_lookup_outside (m : gmap path node) (p q : path) (es : list (path * node)) :
  is_prefix p q = false → graft m p es !! q = m !! q.
Proof.
  intros H. apply graft_lookup_ne. intros kv _ Hq.
  by apply (proj1 (is_prefix_false _ _) H kv.1).
Qed.

Lemma graft_is_Some (m : gmap path node) (p q : path) (es : list (path * node)) :
  is_Some (m !! q) → is_Some (graft m p es !! q).
Proof.
  intros H. induction es as [|kv es IH]; [done|]. cbn [graft foldr].
  destruct (decide (p ++ kv.1 = q)) as [<-|Hne].
  - rewrite lookup_insert_eq. by eexists.
  - by rewrite lookup_insert_ne.
Qed.

Lemma graft_elem (m : gmap path node) (p k : path) (n : node) (es : list (path * node)) :
  (k, n) ∈ es → is_Some (graft m p es !! (p ++ k)).
Proof.
  induction es as [|[k' n'] es IH]; [by intros ?%elem_of_nil|].
  intros [[= <- <-]|Hin]%elem_of_cons; cbn [graft foldr fst snd].
  - rewrite lookup_insert_eq. by eexists.
  - destruct (decide (k' = k)) as [->|Hne].
    + rewrite lookup_insert_eq. by eexists.
    + rewrite lookup_insert_ne by (by intros ?%app_inv_head). by apply IH.
Qed.

(** What is grafted at a path is an entry, or what was there. *)
Lemma graft_lookup_Some (m : gmap path node) (p k : path) (n : node)
    (es : list (path * node)) :
  graft m p es !! (p ++ k) = Some n → (k, n) ∈ es ∨ m !! (p ++ k) = Some n.
Proof.
  induction es as [|[k' n'] es IH]; [by right|]. cbn [graft foldr fst snd].
  destruct (decide (p ++ k' = p ++ k)) as [Heq|Hne].
  - rewrite Heq, lookup_insert_eq. intros [= ->]. apply app_inv_head in Heq as ->.
    left. apply list_elem_of_here.
  - rewrite lookup_insert_ne by done. intros [H|H]%IH; [left|by right].
    by apply list_elem_of_further.
Qed.

End SysMore.


(** ** init-download.py: requests and the version ["latest"] *)
Module InitDownloadMore.
Import Sys InitDownload SysFacts SysMore RunFacts RunMore InitDownloadFacts ResolveFacts.

Section WithEnv.
Variable e : env.

(** [get_remote_file_size], run: one request, at most a message, and the
    length only when it is announced with status 200. *)
Lemma get_remote_file_size_run (url : string) (w : world) :
  let r := get_remote_file_size e url w in
  out r = Done (size_of_reply (http_head e url))
  ∧ w_fs (fin r) = w_fs w
  ∧ (w_log (fin r) = w_log w ++ [EvHttpHead url]
     ∨ w_log (fin r)
       = w_log w ++ [EvHttpHead url; EvPrint (MsgError "getting file size")]).
Proof.
  cbv zeta.
  apply (wp_post _ _ (fun o w' =>
           o = Done (size_of_reply (http_head e url)) ∧ w_fs w' = w_fs w
           ∧ (w_log w' = w_log w ++ [EvHttpHead url]
              ∨ w_log w'
                = w_log w ++ [EvHttpHead url; EvPrint (MsgError "getting file size")]))).
  apply wp_get_remote_file_size; [done|].
  intros w' [->|[-> _]]; (split; [done|]); split_and!; try done.
  - by left.
  - right. cbn [w_log log]. by rewrite <- (assoc_L (++)).
Qed.

(** [get_latest_version], run: a message, the request, a message. *)
Lemma get_latest_version_run (area : string) (w : world) :
  let r := get_latest_version e area w in
  out r = Done (listed_latest e area)
  ∧ w_fs (fin r) = w_fs w
  ∧ ∃ m, w_log (fin r)
         = w_log w ++ [EvPrint (MsgFetchingVersions area);
                       EvHttpGet (cdn_url e +:+ "/files.txt"); EvPrint m].
Proof.
  cbv zeta. unfold get_latest_version, listed_latest. cbv zeta.
  unfold mbind, M_bind, bind, try_except, print, act, raise, mret, M_ret, ret.
  cbn [out fin hist].
  destruct (http_get e (cdn_url e +:+ "/files.txt")) as [|status text];
    cbn [out fin hist w_fs w_log log].
  { split_and!; [done..|]. eexists. by rewrite <- !(assoc_L (++)). }
  destruct ((400 <=? status)%Z && (status <? 600)%Z); cbn [out fin hist w_fs w_log log].
  { split_and!; [done..|]. eexists. by rewrite <- !(assoc_L (++)). }
  destruct (latest_of _) as [v|]; cbn [out fin hist w_fs w_log log];
    (split_and!; [done..|]); eexists; by rewrite <- !(assoc_L (++)).
Qed.

Lemma mkdir_parents_run (p : path) (w : world) (m : gmap path node) :
  mkdir_p (w_fs w) p = Some m →
  out (mkdir_parents p w) = Done tt ∧ fin (mkdir_parents p w) = set_fs w m.
Proof. intros H. unfold mkdir_parents, act. by rewrite H. Qed.

(** What the resolution gives [download_area] to go on with. *)
Definition resolve (area : string) : M (option string) :=
  v ← get_latest_version e area;
  match v with
  | None | Some "" => print (MsgFailedLatest area);; mret None
  | Some v => mret (Some v)
  end.

Lemma resolve_run_some (area v : string) (w : world) :
  listed_latest e area = Some v → v ≠ "" →
  out (resolve area w) = Done (Some v)
  ∧ fin (resolve area w) = fin (get_latest_version e area w).
Proof.
  intros Hl Hv. destruct (get_latest_version_run area w) as (Ho & _ & _).
  rewrite Hl in Ho. unfold resolve.
  destruct (out_bind_done _
              (fun v : option string =>
                 match v with
                 | None | Some "" => print (MsgFailedLatest area);; mret None
                 | Some v => mret (Some v)
                 end) _ _ Ho) as [-> ->].
  by destruct v.
Qed.

Lemma resolve_run_none (area : string) (w : world) :
  listed_latest e area = None ∨ listed_latest e area = Some "" →
  out (resolve area w) = Done None
  ∧ fin (resolve area w)
    = log (fin (get_latest_version e area w)) (EvPrint (MsgFailedLatest area)).
Proof.
  intros Hl. destruct (get_latest_version_run area w) as (Ho & _ & _).
  unfold resolve.
  destruct Hl as [Hl|Hl]; rewrite Hl in Ho;
    by destruct (out_bind_done _
              (fun v : option string =>
                 match v with
                 | None | Some "" => print (MsgFailedLatest area);; mret None
                 | Some v => mret (Some v)
                 end) _ _ Ho) as [-> ->].
Qed.

(** With ["latest"], [download_area] is the resolution and then what it is
    for the version resolved. *)
Lemma download_area_latest_run (area : string) (od : path) (w : world)
    (m1 : gmap path node) (v : option string) (w1 : world) :
  mkdir_p (w_fs w) od = Some m1 →
  out (resolve area (set_fs w m1)) = Done v →
  fin (resolve area (set_fs w m1)) = w1 →
  match v with
  | None =>
      out (download_area e area "latest" od w) = Done false
      ∧ fin (download_area e area "latest" od w) = w1
  | Some v =>
      v ≠ "latest" →
      out (download_area e area "latest" od w) = out (download_area e area v od w1)
      ∧ fin (download_area e area "latest" od w) = fin (download_area e area v od w1)
  end.
Proof.
  intros Hmk Ho Hf.
  destruct (mkdir_parents_run od w m1 Hmk) as [Hmo Hmf].
  assert (w_fs w1 = m1) as Hfs.
  { subst w1. unfold resolve.
    destruct (get_latest_version_run area (set_fs w m1)) as (Hg & Hgf & _).
    destruct (out_bind_done _
                (fun v : option string =>
                   match v with
                   | None | Some "" => print (MsgFailedLatest area);; mret None
                   | Some v => mret (Some v)
                   end) _ _ Hg) as [_ ->].
    destruct (listed_latest e area) as [[|c s]|]; exact Hgf. }
  assert (∀ k : option string → M bool,
            out ((mkdir_parents od ≫= λ _ : (), resolve area ≫= k : M bool) w)
            = out (k v w1)
            ∧ fin ((mkdir_parents od ≫= λ _ : (), resolve area ≫= k : M bool) w)
              = fin (k v w1)) as Hrun.
  { intros k.
    destruct (out_bind_done (mkdir_parents od)
                (λ _ : (), resolve area ≫= k) w tt Hmo) as [-> ->].
    rewrite Hmf.
    destruct (out_bind_done (resolve area) k (set_fs w m1) v Ho) as [-> ->].
    by rewrite Hf. }
  destruct v as [v|].
  - intros Hne%String.eqb_neq.
    unfold download_area at 1 3.
    change (String.eqb "latest" "latest") with true. cbv iota. fold (resolve area).
    match goal with
    | |- context [out ((mkdir_parents od ≫= λ _, resolve area ≫= ?k) w)] =>
        destruct (Hrun k) as [-> ->]
    end.
    unfold download_area. rewrite Hne.
    assert (mkdir_p (w_fs w1) od = Some (w_fs w1)) as Hmk1.
    { rewrite Hfs. by eapply mkdir_p_idem. }
    destruct (mkdir_parents_run od w1 _ Hmk1) as [Hmo1 Hmf1].
    rewrite set_fs_id in Hmf1.
    match goal with
    | |- context [out ((mkdir_parents od ≫= ?f) w1)] =>
        destruct (out_bind_done (mkdir_parents od) f w1 tt Hmo1) as [-> ->]
    end.
    rewrite Hmf1.
    match goal with
    | |- context [out ((mret (Some v) ≫= ?k) w1)] =>
        assert (out ((mret (Some v) : M (option string)) w1) = Done (Some v))
          as Hr by done;
        destruct (out_bind_done (mret (Some v)) k w1 (Some v) Hr) as [-> ->]
    end.
    done.
  - unfold download_area.
    change (String.eqb "latest" "latest") with true. cbv iota. fold (resolve area).
    match goal with
    | |- context [out ((mkdir_parents od ≫= λ _, resolve area ≫= ?k) w)] =>
        destruct (Hrun k) as [-> ->]
    end.
    done.
Qed.

Section Pair.
Variables (area version : string) (od : path).
Hypothesis Ha : is_name area = true.
Hypothesis Hv : is_name version = true.

Abbreviation marker := (marker area version od).
Abbreviation temp := (temp od).
Abbreviation avd := (od ++ [area; version]).
Abbreviation url := (archive_url e area version).
Abbreviation compressed := (temp ++ ["tiles.btrfs.gz"]).
Abbreviation staged := (temp ++ ["tiles.btrfs"]).

Lemma staged_not_prefix_avd (q : path) :
  area ≠ "_tmp" → is_prefix temp q = true → q ∉ prefixes avd.
Proof.
  intros Hne [r ->]%is_prefix_true [r' Hr']%prefixes_inv.
  unfold InitDownloadFacts.temp in Hr'. rewrite <- !(assoc_L (++)) in Hr'.
  apply app_inv_head in Hr'. cbn in Hr'. congruence.
Qed.

Lemma prefixes_od_avd (q : path) : q ∈ prefixes od → q ∈ prefixes avd.
Proof. apply prefixes_app_l. Qed.

Lemma prefixes_temp_inv (q : path) :
  q ∈ prefixes temp → q ∈ prefixes od ∨ q = temp.
Proof. apply prefixes_snoc. Qed.

(** The staging directory is there and holds no decompressed image, the
    image is absent, the final directory can be made: the download, when
    both tools succeed, leaves the image and nothing of the staging. *)
Lemma download_and_place_run (w : world) (c d : string) (m' : gmap path node) :
  area ≠ "_tmp" →
  w_fs w !! temp = Some Dir →
  w_fs w !! staged = None →
  w_fs w !! marker = None →
  mkdir_p (w_fs w) avd = Some m' →
  fetch e url = Some c → gunzip e c = Some d →
  wp (download_and_place e area version od) w
     (fun o w' => o = Done true
                  ∧ w_fs w' = rm_rf (<[marker := File d]> m') temp)
     (fun _ => True).
Proof.
  intros Hne Ht Hs Hm Hmk Hc Hd. unfold download_and_place. cbv zeta.
  rewrite (btrfs_file_name _ _ _ Ha Hv), (area_version_dir_name _ _ _ Ha Hv),
    temp_dir_name, compressed_file_name, decompressed_file_name.
  unfold download_file_aria2, aria2c.
  apply wp_bind, wp_bind, wp_print'.
  apply wp_bind, wp_act'. rewrite parent_snoc. cbn [w_fs log set_fs].
  rewrite (proj2 (is_dir_true _ _) Ht). intros o w1 [= <- <-]. split; [done|].
  apply wp_act'. rewrite Hc. cbn [w_fs log set_fs]. intros o w1 [= <- <-].
  split; [done|].
  apply wp_bind, wp_print'. unfold unpigz. cbv zeta.
  rewrite parent_snoc, name_snoc.
  change (drop_gz "tiles.btrfs.gz") with "tiles.btrfs".
  apply wp_bind, wp_bind, wp_act'. cbn [w_fs log set_fs].
  rewrite insert_insert_eq, lookup_insert_eq.
  rewrite lookup_insert_ne by (intros H%app_inv_head; done).
  rewrite Hs, Hd. intros o w1 [= <- <-]. split; [done|].
  apply wp_act'. cbn [w_fs log set_fs].
  rewrite lookup_insert_ne by (intros H%app_inv_head; done).
  rewrite lookup_insert_eq, Hd. intros o w1 [= <- <-]. split; [done|].
  match goal with |- context [set_fs _ ?m] => set (m3 := m) end.
  assert (∀ q, is_prefix temp q = false → m3 !! q = w_fs w !! q) as Hm3.
  { intros q Hq. unfold m3.
    assert (∀ x, q ≠ temp ++ [x]) as Hx.
    { intros x ->. by rewrite is_prefix_app in Hq. }
    rewrite lookup_insert_ne by (apply not_eq_sym, Hx).
    rewrite lookup_delete_ne by (apply not_eq_sym, Hx).
    rewrite lookup_insert_ne by (apply not_eq_sym, Hx).
    by rewrite lookup_insert_ne by (apply not_eq_sym, Hx). }
  assert (∀ q, q ∈ prefixes avd → is_prefix temp q = false) as Hpre.
  { intros q Hq. destruct (is_prefix temp q) eqn:E; [|done].
    by apply staged_not_prefix_avd in E. }
  apply mkdir_p_Some_at in Hmk as [Hmk1 Hmk2].
  assert (∃ m4, mkdir_p m3 avd = Some m4) as [m4 Hm4].
  { apply mkdir_p_is_Some. intros q x Hq. rewrite Hm3 by auto. by apply Hmk1. }
  apply wp_bind, wp_act'. cbn [w_fs log set_fs]. rewrite Hm4.
  intros o w1 [= <- <-]. split; [done|]. cbn [w_fs log set_fs].
  pose proof (mkdir_p_at _ _ _ marker Hm4) as Hk4.
  rewrite bool_decide_eq_false_2 in Hk4 by apply marker_not_prefix_avd.
  rewrite Hm3, Hm in Hk4 by (by apply marker_not_staged).
  apply wp_bind, wp_act'. cbn [w_fs log set_fs].
  rewrite (mkdir_p_keeps _ _ _ staged (File d) Hm4) by apply lookup_insert_eq.
  rewrite Hk4, (parent_marker _ _ _), (mkdir_p_dir _ _ _ Hm4).
  intros o w1 [= <- <-]. split; [done|].
  apply wp_bind. unfold subprocess_run. apply wp_act'. cbn [w_fs log set_fs].
  intros o w1 [= <- <-]. split; [done|].
  apply wp_bind, wp_print'. apply wp_ret. cbn [w_fs log set_fs].
  split; [done|]. apply map_eq. intros q. rewrite !rm_rf_lookup.
  destruct (is_prefix temp q) eqn:E; [done|].
  destruct (decide (q = marker)) as [->|Hq]; [by rewrite !lookup_insert_eq|].
  rewrite !lookup_insert_ne by done.
  rewrite lookup_delete_ne by (intros <-; by rewrite is_prefix_app in E).
  rewrite Hmk2, (mkdir_p_at _ _ _ q Hm4). case_bool_decide; [done|]. by apply Hm3.
Qed.



(** A call for a version given by name, with the image absent: how it gets
    to the download. *)
Lemma download_area_to_download (w : world) (m2 : gmap path node)
    (Q : outcome bool → world → Prop) :
  String.eqb version "latest" = false →
  w_fs w !! marker = None →
  mkdir_p (w_fs w) temp = Some m2 →
  (size_of_reply (http_head e url) = 0
   ∨ Z.abs ((statvfs e temp).1 * (statvfs e temp).2) < gigabytes_bound
     ∧ Z.abs (size_of_reply (http_head e url) * 3) < gigabytes_bound
     ∧ size_of_reply (http_head e url) * 3
       ≤ (statvfs e temp).1 * (statvfs e temp).2)%Z →
  (∀ w', w_fs w' = m2 → wp (download_and_place e area version od) w' Q (fun _ => True)) →
  wp (download_area e area version od) w Q (fun _ => True).
Proof.
  intros Hl Hm Hmk Hsize Hplace. unfold download_area. rewrite Hl.
  destruct (mkdir_p_split _ _ _ _ Hmk) as (m1 & Hm1 & Hm2).
  change (mkdir_p m1 temp = Some m2) in Hm2.
  apply wp_bind, wp_act'. rewrite Hm1. intros o w1 [= <- <-]. split; [done|].
  apply wp_bind, wp_ret. cbv beta iota zeta.
  rewrite (btrfs_file_name _ _ _ Ha Hv), temp_dir_name.
  apply wp_bind, wp_gets. cbn [w_fs set_fs log].
  replace (exists_ m1 marker) with false.
  2:{ symmetry. apply exists_false.
      by rewrite (mkdir_p_other _ _ _ _ Hm1) by apply marker_not_prefix_od. }
  apply wp_bind, wp_act'. cbn [w_fs set_fs log]. rewrite Hm2.
  intros o w1 [= <- <-]. split; [done|].
  apply wp_bind, wp_print'. apply wp_bind, wp_print'.
  apply wp_bind, wp_get_remote_file_size; [done|].
  intros w' Hw'. split; [done|].
  assert (w_fs w' = m2) as Hfs by (by destruct Hw' as [->|[-> _]]).
  destruct (Z.eqb_spec (size_of_reply (http_head e url)) 0) as [Hz|Hnz].
  - apply wp_bind, wp_print'. by apply Hplace.
  - destruct Hsize as [?|(Hfree & Hneeded & Hfit)]; [done|].
    apply wp_bind, wp_gigabytes; [lia|intros _].
    apply wp_bind, wp_gigabytes; [lia|intros _].
    apply wp_bind, wp_print'.
    destruct (Z.ltb_spec ((statvfs e temp).1 * (statvfs e temp).2)
                (size_of_reply (http_head e url) * 3)) as [Hlt|Hge]; [lia|].
    by apply Hplace.
Qed.

Lemma download_area_places (w : world) (m4 : gmap path node) (c d : string) :
  String.eqb version "latest" = false → area ≠ "_tmp" →
  w_fs w !! marker = None →
  (∀ q, is_prefix temp q = true → w_fs w !! q = None) →
  mkdir_p (w_fs w) avd = Some m4 →
  (size_of_reply (http_head e url) = 0
   ∨ Z.abs ((statvfs e temp).1 * (statvfs e temp).2) < gigabytes_bound
     ∧ Z.abs (size_of_reply (http_head e url) * 3) < gigabytes_bound
     ∧ size_of_reply (http_head e url) * 3
       ≤ (statvfs e temp).1 * (statvfs e temp).2)%Z →
  fetch e url = Some c → gunzip e c = Some d →
  wp (download_area e area version od) w
     (fun o w' => o = Done true ∧ w_fs w' = <[marker := File d]> m4)
     (fun _ => True).
Proof.
  intros Hl Hne Hm Hst Hmk Hsize Hc Hd.
  pose proof Hmk as [Hmk1 Hmk2]%mkdir_p_Some_at.
  assert (is_Some (mkdir_p (w_fs w) temp)) as [m2 Hm2].
  { apply mkdir_p_is_Some. intros q x [Hq| ->]%prefixes_temp_inv.
    - by apply Hmk1, prefixes_od_avd.
    - by rewrite Hst by apply is_prefix_refl. }
  pose proof Hm2 as [_ Hm2at]%mkdir_p_Some_at.
  assert (∀ q, q ∈ prefixes avd → is_prefix temp q = false) as Hpre.
  { intros q Hq. destruct (is_prefix temp q) eqn:E; [|done].
    by apply staged_not_prefix_avd in E. }
  assert (is_Some (mkdir_p m2 avd)) as [m' Hm'].
  { apply mkdir_p_is_Some. intros q x Hq. rewrite Hm2at.
    case_bool_decide; [done|]. by apply Hmk1. }
  pose proof Hm' as [_ Hm'at]%mkdir_p_Some_at.
  apply (download_area_to_download w m2); [done..|].
  intros w' Hw'. eapply wp_mono;
    [apply (download_and_place_run w' c d m'); rewrite ?Hw'; try done| |done].
  - by apply (mkdir_p_dir _ _ _ Hm2).
  - rewrite Hm2at, bool_decide_eq_false_2; [apply Hst, is_prefix_app|].
    intros [H| H]%prefixes_temp_inv.
    + apply prefixes_length in H. unfold InitDownloadFacts.temp in H.
      rewrite !length_app in H. cbn in H. lia.
    + apply (f_equal length) in H. unfold InitDownloadFacts.temp in H.
      rewrite !length_app in H. cbn in H. lia.
  - rewrite Hm2at, bool_decide_eq_false_2; [done|apply marker_not_prefix_temp].
  - cbv beta. intros o w'' [-> ->]. split; [done|].
    apply map_eq. intros q. rewrite rm_rf_lookup.
    destruct (is_prefix temp q) eqn:E.
    + rewrite lookup_insert_ne
        by (intros <-; by rewrite marker_not_staged in E).
      rewrite Hmk2, bool_decide_eq_false_2; [by rewrite Hst|].
      intros Hq. apply Hpre in Hq. congruence.
    + destruct (decide (q = marker)) as [->|Hq]; [by rewrite !lookup_insert_eq|].
      rewrite !lookup_insert_ne by done. rewrite Hm'at, Hmk2.
      case_bool_decide as Hq1; [done|]. rewrite Hm2at.
      rewrite bool_decide_eq_false_2; [done|].
      intros [H| ->]%prefixes_temp_inv.
      * by apply Hq1, prefixes_od_avd.
      * by rewrite is_prefix_refl in E.
Qed.


End Pair.

End WithEnv.
End InitDownloadMore.

(** ** extract-btrfs.py: mounting, copying, releasing *)
Module ExtractMore.
Import Sys ExtractBtrfs SysFacts SysMore RunFacts RunMore.
Import DownloadAssetsFacts (wp_iterdir_m).
Import InitDownloadFacts (wp_act').

Section WithEnv.
Variable e : env.

(** The copying part of [extract_tiles], between mount and cleanup. *)
Definition copy_out (mount_point tiles_output : path) : M bool :=
  let tiles_dir := mount_point /: "tiles" in
  let metadata_file := mount_point /: "metadata.json" in
  found ← gets (fun w => exists_ (w_fs w) tiles_dir);
  if negb found then print (MsgNotFound tiles_dir);; mret false
  else
    mkdir_parents tiles_output;;
    print (MsgCopying tiles_dir (tiles_output /: "tiles"));;
    rsync e tiles_dir (tiles_output /: "tiles");;
    has_metadata ← gets (fun w => exists_ (w_fs w) metadata_file);
    (if has_metadata : bool then
       copy2 e metadata_file (tiles_output /: "metadata.json");;
       print MsgCopiedMetadata
     else mret tt);;
    print (MsgSuccess tiles_output);;
    mret true.

(** Devices and mounts are what they were. *)
Definition same_devices (w w' : world) : Prop :=
  w_loops w' = w_loops w ∧ w_mounts w' = w_mounts w.

Lemma same_devices_refl w : same_devices w w.
Proof. done. Qed.

Lemma same_devices_log w w' ev : same_devices w w' → same_devices w (log w' ev).
Proof. done. Qed.

Lemma same_devices_set_fs w w' m : same_devices w w' → same_devices w (set_fs w' m).
Proof. done. Qed.

#[local] Hint Resolve same_devices_refl same_devices_log same_devices_set_fs : core.

(** Copying attaches, detaches, mounts and unmounts nothing, however it ends. *)
Lemma copy_out_devices (mount_point tiles_output : path) (w0 w : world) :
  same_devices w0 w →
  wp (copy_out mount_point tiles_output) w
     (fun _ w' => same_devices w0 w') (fun _ => True).
Proof.
  intros Hw. unfold copy_out. cbv zeta.
  apply wp_bind, wp_gets. destruct (negb _).
  { apply wp_bind, wp_print'. apply wp_ret. auto. }
  apply wp_bind, wp_mkdir_parents; [|auto]. intros m' _. split; [done|].
  apply wp_bind, wp_print'. unfold rsync.
  apply wp_bind, wp_bind, wp_act'. intros o w' Hf. split; [done|].
  assert (same_devices w0 w') as Hw'.
  { cbv beta zeta in Hf. repeat case_match; simplify_eq; auto. }
  destruct o as [[]|ex]; [|done].
  apply wp_act'. intros o w'' Hf'. split; [done|].
  assert (same_devices w0 w'') as Hw''.
  { cbv beta zeta in Hf'. repeat case_match; simplify_eq; auto. }
  destruct o as [[]|ex]; [|done].
  apply wp_bind, wp_gets.
  assert (∀ w3, same_devices w0 w3 →
            wp (print (MsgSuccess tiles_output) ≫= λ _ : (), mret true) w3
              (λ (_ : outcome bool) (w' : world), same_devices w0 w')
              (λ _ : world, True)) as Hend.
  { intros w3 H3. apply wp_bind, wp_print'. apply wp_ret. auto. }
  destruct (exists_ _ _).
  - apply wp_bind, wp_bind. unfold copy2. apply wp_act'. intros o w3 Hf3.
    split; [done|].
    assert (same_devices w0 w3) as Hw3.
    { cbv beta zeta in Hf3. repeat case_match; simplify_eq; auto. }
    destruct o as [[]|ex]; [|done].
    apply wp_print'. apply Hend. auto.
  - apply wp_bind, wp_ret. by apply Hend.
Qed.

Lemma filter_mounts_added (M : list (path * string)) (mp : path) (d : string) :
  mp ∉ M.*1 →
  List.filter (fun x : path * string => negb (bool_decide (x.1 = mp)))
              (M ++ [(mp, d)]) = M.
Proof.
  intros H. rewrite List.filter_app. cbn. rewrite bool_decide_eq_true_2 by done.
  cbn. rewrite app_nil_r. induction M as [|[p x] M IH]; [done|].
  cbn in *. apply not_elem_of_cons in H as [H1 H2].
  rewrite bool_decide_eq_false_2 by done. cbn. by rewrite IH.
Qed.

Lemma filter_loops_added (L : list (string * path)) (d : string) (f : path) :
  d ∉ L.*1 →
  List.filter (fun x : string * path => negb (String.eqb x.1 d))
              (L ++ [(d, f)]) = L.
Proof.
  intros H. rewrite List.filter_app. cbn. rewrite String.eqb_refl.
  cbn. rewrite app_nil_r. induction L as [|[x p] L IH]; [done|].
  cbn in *. apply not_elem_of_cons in H as [H1 H2].
  rewrite (proj2 (String.eqb_neq _ _)) by done. cbn. by rewrite IH.
Qed.

Lemma first_free_loop_spec (w : world) (d : string) :
  first_free_loop e w = Some d → d ∈ loop_devices e ∧ d ∉ (w_loops w).*1.
Proof.
  unfold first_free_loop. intros [H1 H2]%List.find_some. split.
  - by apply list_elem_of_In.
  - apply negb_true_iff in H2. by apply bool_decide_eq_false_1 in H2.
Qed.

Lemma list_find_added (L : list (string * path)) (d : string) (f : path) :
  d ∉ L.*1 →
  ∃ i, list_find (fun lb : string * path => lb.1 = d) (L ++ [(d, f)]) = Some (i, (d, f)).
Proof.
  intros H.
  destruct (list_find (fun lb : string * path => lb.1 = d) (L ++ [(d, f)]))
    as [[i [d' f']]|] eqn:E.
  - apply list_find_Some in E as (Hi & Hd & _). cbn in Hd. subst d'.
    apply list_elem_of_lookup_2 in Hi. apply elem_of_app in Hi as [Hi|Hi].
    + destruct H. apply list_elem_of_fmap. by exists (d, f').
    + apply list_elem_of_singleton in Hi. injection Hi as ->. by exists i.
  - apply list_find_None in E. rewrite Forall_app in E. destruct E as [_ E].
    apply Forall_inv in E. by destruct E.
Qed.

(** [mount_btrfs] when every step of it succeeds. *)
Lemma mount_btrfs_run (btrfs_file mp : path) (w : world) (d c : string)
    (tree : list (path * node)) (m1 : gmap path node) :
  mkdir_p (w_fs w) mp = Some m1 →
  first_free_loop e w = Some d → PyStr.strip d = d →
  loop_attach_ok e = true →
  w_fs w !! btrfs_file = Some (File c) → image e c = Some tree →
  wp (mount_btrfs e btrfs_file mp) w
     (fun o w' => o = Done (d, mp)
                  ∧ w_loops w' = w_loops w ++ [(d, btrfs_file)]
                  ∧ w_mounts w' = w_mounts w ++ [(mp, d)]
                  ∧ w_fs w' = graft m1 mp tree)
     (fun _ => True).
Proof.
  intros Hmk Hfree Hstrip Hattach Hfile Himage.
  destruct (first_free_loop_spec _ _ Hfree) as [Hdev Hnot].
  unfold mount_btrfs. cbv zeta.
  apply wp_bind, wp_act'. rewrite Hmk. intros o w1 [= <- <-]. split; [done|].
  apply wp_bind, wp_print'.
  apply wp_bind, wp_act'. cbv beta zeta.
  replace (first_free_loop e _) with (Some d) by (by rewrite <- Hfree).
  rewrite Hstrip. intros o w1 [= <- <-]. split; [done|].
  pose proof (mkdir_p_keeps _ _ _ _ _ Hmk Hfile) as Hfile1.
  apply wp_bind. unfold subprocess_run. apply wp_act'.
  cbn [w_fs w_loops w_mounts log set_fs]. rewrite Hattach.
  rewrite (bool_decide_eq_true_2 _ Hdev), (bool_decide_eq_false_2 _ Hnot).
  rewrite (proj2 (exists_true _ _)) by by eexists. cbn [andb negb].
  intros o w1 [= <- <-]. split; [done|].
  apply wp_bind, wp_act'. cbn [w_fs w_loops w_mounts log set_fs set_loops].
  destruct (list_find_added (w_loops w) d btrfs_file Hnot) as [i ->].
  rewrite Hfile1, Himage, (proj2 (is_dir_true _ _) (mkdir_p_dir _ _ _ Hmk)).
  intros o w1 [= <- <-]. split; [done|]. by apply wp_ret.
Qed.

(** [unmount_btrfs] with working [umount] and [losetup -d], for the device
    and the mount point added last. *)
Lemma unmount_btrfs_run (mp : path) (d : string) (f : path) (w0 w : world) :
  umount_ok e = true → detach_ok e = true →
  mp ∉ (w_mounts w0).*1 → d ∉ (w_loops w0).*1 →
  w_loops w = w_loops w0 ++ [(d, f)] →
  w_mounts w = w_mounts w0 ++ [(mp, d)] →
  wp (unmount_btrfs e mp d) w
     (fun o w' => o = Done tt ∧ same_devices w0 w'
                  ∧ ∀ q, is_prefix mp q = false → w_fs w' !! q = w_fs w !! q)
     (fun _ => True).
Proof.
  intros Hu Hd Hmp Hdev HL HM. unfold unmount_btrfs.
  apply wp_bind, wp_print'. apply wp_try_except_called.
  apply wp_bind. unfold subprocess_run. apply wp_act'.
  cbn [w_fs w_loops w_mounts log set_fs]. rewrite Hu, HM.
  rewrite bool_decide_eq_true_2
    by (rewrite fmap_app; apply elem_of_app; right; apply list_elem_of_here).
  cbn [andb]. intros o w1 [= <- <-]. split; [done|].
  apply wp_act'. cbn [w_fs w_loops w_mounts log set_fs set_mounts]. rewrite Hd, HL.
  rewrite bool_decide_eq_true_2
    by (rewrite fmap_app; apply elem_of_app; right; apply list_elem_of_here).
  cbn [andb]. intros o w1 [= <- <-]. split; [done|]. split; [done|].
  split; [split|]; cbn [w_fs w_loops w_mounts log set_fs set_mounts set_loops].
  - by apply filter_loops_added.
  - by apply filter_mounts_added.
  - intros q Hq. destruct (w_fs w !! q) as [n|] eqn:E.
    + apply map_lookup_filter_Some. split; [done|]. by left.
    + apply map_lookup_filter_None. by left.
Qed.

(** A run of [extract_tiles] that mounts the image: it returns, with the
    device detached, the image unmounted and the mount point removed,
    whatever the copying did. *)
Lemma extract_tiles_releases (btrfs_file output_dir : path) (area version : string)
    (w : world) (d c : string) (tree : list (path * node)) (m1 : gmap path node) :
  w_fs w !! btrfs_file = Some (File c) →
  exists_ (w_fs w) (output_dir /: area /: version)
  && exists_ (w_fs w) (output_dir /: area /: version /: "tiles") = false →
  mkdir_p (w_fs w) (mkdtemp e) = Some m1 →
  first_free_loop e w = Some d → PyStr.strip d = d → d ≠ "" →
  loop_attach_ok e = true → image e c = Some tree →
  mkdtemp e ∉ (w_mounts w).*1 →
  umount_ok e = true → detach_ok e = true →
  wp (extract_tiles e btrfs_file output_dir area version) w
     (fun o w' => (∃ b, o = Done b) ∧ same_devices w w'
                  ∧ w_fs w' !! mkdtemp e = None)
     (fun _ => True).
Proof.
  intros Hfile Hnew Hmk Hfree Hstrip Hd Hattach Himage Hmp Hu Hdet.
  destruct (first_free_loop_spec _ _ Hfree) as [Hdev Hnot].
  unfold extract_tiles. cbv zeta.
  apply wp_bind, wp_gets. rewrite (proj2 (exists_true _ _)) by by eexists.
  cbn [negb]. apply wp_bind, wp_gets. rewrite Hnew.
  apply wp_bind, wp_print'. unfold with_temporary_directory. cbv zeta.
  apply wp_bind, wp_act'. cbn [w_fs log]. rewrite Hmk.
  intros o w1 [= <- <-]. split; [done|].
  apply wp_try_finally, wp_bind, wp_attempt.
  eapply wp_mono;
    [apply (mount_btrfs_run btrfs_file (mkdtemp e) _ d c tree m1);
     first [done | by eapply mkdir_p_idem | by eapply mkdir_p_keeps]| |done].
  cbv beta. cbn [w_loops w_mounts log set_fs]. intros o w2 (-> & HL & HM & _).
  apply wp_try_finally, wp_try_except.
  assert (∀ (b : outcome bool) w3, (∃ x, b = Done x) → same_devices w2 w3 →
            wp (cleanup e (mkdtemp e) (Some d)) w3
              (λ (o' : outcome ()) (w'' : world),
                 wp (act (λ w0 : world,
                       if bool_decide (mkdtemp e ∈ (w_mounts w0).*1)
                       then (Raised (OSError (mkdtemp e)), w0)
                       else (Done (), set_fs w0 (rm_rf (w_fs w0) (mkdtemp e)))))
                    w''
                   (λ (o'0 : outcome ()) (w''0 : world),
                      (∃ b0 : bool,
                         match o'0 with
                         | Done _ => match o' with
                                     | Done _ => b
                                     | Raised ex => Raised ex
                                     end
                         | Raised ex => Raised ex
                         end = Done b0)
                      ∧ same_devices w w''0 ∧ w_fs w''0 !! mkdtemp e = None)
                   (λ _ : world, True)) (λ _ : world, True)) as Hclean.
  { intros b w3 [x ->] [HL3 HM3]. unfold cleanup.
    rewrite (proj2 (String.eqb_neq _ _)) by done.
    eapply wp_mono;
      [apply (unmount_btrfs_run (mkdtemp e) d btrfs_file w w3); try done;
       congruence| |done].
    cbv beta. intros o w4 (-> & [HL4 HM4] & _).
    apply wp_act'. rewrite HM4, (bool_decide_eq_false_2 _ Hmp).
    intros o w5 [= <- <-]. split; [done|]. split; [by eexists|].
    split; [done|]. cbn [w_fs set_fs]. by rewrite InitDownloadFacts.rm_rf_lookup, is_prefix_refl. }
  eapply wp_mono;
    [apply (copy_out_devices (mkdtemp e) (output_dir /: area /: version) w2 w2);
     done| |done].
  cbv beta. intros [b|ex] w3 Hw3.
  - apply Hclean; [by eexists|done].
  - apply wp_bind, wp_print'. apply wp_ret. apply Hclean; [by eexists|done].
Qed.


(** Lookups at a key written as a list are lookups at a path. *)
Ltac keys := change (@lookup path) with (@lookup (list string)) in *.

Section Extraction.
Variables (btrfs_file to : path).
Hypothesis HA : is_prefix (mkdtemp e) to = false.
Hypothesis HB : is_prefix to (mkdtemp e) = false.

Abbreviation mp := (mkdtemp e).

Lemma mount_entry_not_above (x : string) : mp ++ [x] ∉ prefixes to.
Proof.
  intros H%prefixes_is_prefix%is_prefix_app_l. congruence.
Qed.

Lemma mount_not_above_entry (x : string) : is_prefix mp (to ++ [x]) = false.
Proof.
  destruct (is_prefix mp (to ++ [x])) eqn:E; [|done].
  apply is_prefix_snoc in E as [E|E]; [congruence|].
  rewrite E, InitDownloadFacts.is_prefix_app in HB. done.
Qed.

Lemma entry_not_above_mount (x y : string) :
  x ≠ y → is_prefix (to ++ [x]) (mp ++ [y]) = false.
Proof.
  intros Hne. destruct (is_prefix (to ++ [x]) (mp ++ [y])) eqn:E; [|done].
  apply is_prefix_snoc in E as [E%is_prefix_app_l|E]; [congruence|].
  by apply app_inj_tail in E as [_ ?].
Qed.

Lemma entry_not_prefix (x : string) : to ++ [x] ∉ prefixes to.
Proof. intros H%prefixes_length. rewrite length_app in H. cbn in H. lia. Qed.

(** The copying, from a mounted image with [tiles], to an output
    directory that is not there yet. *)
Lemma copy_out_run (w : world) :
  is_Some (w_fs w !! (mp ++ ["tiles"])) →
  (∀ q x, q ∈ prefixes to → w_fs w !! q ≠ Some (File x)) →
  w_fs w !! (to ++ ["tiles"]) = None →
  (∀ n, w_fs w !! (mp ++ ["metadata.json"]) = Some n → ∃ x, n = File x) →
  rsync_ok e = true → copy_ok e = true →
  wp (copy_out mp to) w
     (fun o w' => o = Done true ∧ same_devices w w'
                  ∧ w_fs w' !! to = Some Dir
                  ∧ is_Some (w_fs w' !! (to ++ ["tiles"])))
     (fun _ => True).
Proof.
  intros Htiles Hto Hdst Hmeta Hrsync Hcopy. unfold copy_out. cbv zeta.
  rewrite !pjoin_name by done.
  apply wp_bind, wp_gets. rewrite (proj2 (exists_true _ _) Htiles). cbn [negb].
  destruct (proj2 (mkdir_p_is_Some _ _) Hto) as [m3 Hm3].
  pose proof (mkdir_p_dir _ _ _ Hm3) as Hm3to.
  apply wp_bind, wp_act'. rewrite Hm3. intros o w1 [= <- <-]. split; [done|].
  apply wp_bind, wp_print'. unfold rsync. cbv zeta.
  apply wp_bind, wp_bind, wp_act'. cbn [w_fs set_fs log].
  assert (m3 !! (to ++ ["tiles"]) = None) as Hm3dst.
  { etrans; [apply (mkdir_p_other _ _ _ _ Hm3), entry_not_prefix|exact Hdst]. }
  keys. rewrite InitDownloadFacts.parent_snoc, Hm3to, Hm3dst.
  intros o w1 [= <- <-]. split; [done|].
  apply wp_act'. rewrite Hrsync. cbn [w_fs set_fs log].
  intros o w1 [= <- <-]. split; [done|].
  match goal with |- context [set_fs _ ?m] => set (m5 := m) end.
  assert (m5 !! to = Some Dir) as H5to.
  { unfold m5. rewrite graft_lookup_outside.
    - rewrite lookup_insert_ne; [done|]. intros H. by apply (entry_not_prefix "tiles"), prefixes_iff; exists []; rewrite app_nil_r.
    - destruct (is_prefix (to ++ ["tiles"]) to) eqn:E; [|done].
      by apply prefixes_is_prefix, entry_not_prefix in E. }
  assert (is_Some (m5 !! (to ++ ["tiles"]))) as H5dst.
  { unfold m5. apply graft_is_Some. rewrite lookup_insert_eq. by eexists. }
  assert (m5 !! (mp ++ ["metadata.json"]) = w_fs w !! (mp ++ ["metadata.json"])) as H5meta.
  { unfold m5. rewrite graft_lookup_outside by (by apply entry_not_above_mount).
    rewrite lookup_insert_ne.
    - apply (mkdir_p_other _ _ _ _ Hm3), mount_entry_not_above.
    - intros H. by apply app_inj_tail in H as [_ ?]. }
  apply wp_bind, wp_gets. cbn [w_fs set_fs log].
  assert (∀ w3, same_devices w w3 → w_fs w3 !! to = Some Dir →
            is_Some (w_fs w3 !! (to ++ ["tiles"])) →
            wp (print (MsgSuccess to) ≫= λ _ : (), mret true) w3
              (λ (o : outcome bool) (w' : world),
                 o = Done true ∧ same_devices w w'
                 ∧ w_fs w' !! to = Some Dir ∧ is_Some (w_fs w' !! (to ++ ["tiles"])))
              (λ _ : world, True)) as Hend.
  { intros w3 H1 H2 H3. apply wp_bind, wp_print'. by apply wp_ret. }
  destruct (exists_ m5 (mp ++ ["metadata.json"])) eqn:Hx.
  - apply exists_true in Hx as [n Hn]. keys. rewrite H5meta in Hn.
    destruct (Hmeta n Hn) as [x ->]. rewrite <- H5meta in Hn.
    apply wp_bind, wp_bind. unfold copy2. apply wp_act'. cbn [w_fs set_fs log].
    keys. rewrite Hn, InitDownloadFacts.parent_snoc, H5to, Hcopy.
    intros o w1 [= <- <-]. split; [done|].
    apply wp_print'. apply Hend; cbn [w_fs set_fs log]; [done|..].
    + rewrite lookup_insert_ne; [done|].
      intros H. by apply (entry_not_prefix "metadata.json"), prefixes_iff; exists []; rewrite app_nil_r.
    + rewrite lookup_insert_ne; [done|]. intros H. by apply app_inj_tail in H as [_ ?].
  - apply wp_bind, wp_ret. by apply Hend.
Qed.

(** A whole extraction: the image mounts and holds [tiles], the copy
    works, and the image is released. *)
Lemma extract_tiles_extracts (output_dir : path) (area version : string) (w : world)
    (d c : string) (tree : list (path * node)) (m1 : gmap path node) :
  output_dir /: area /: version = to →
  w_fs w !! btrfs_file = Some (File c) →
  w_fs w !! (to ++ ["tiles"]) = None →
  (∀ q x, q ∈ prefixes to → w_fs w !! q ≠ Some (File x)) →
  (∀ q, is_prefix mp q = true → w_fs w !! q = None) →
  mkdir_p (w_fs w) mp = Some m1 →
  mp ∉ (w_mounts w).*1 →
  first_free_loop e w = Some d → PyStr.strip d = d → d ≠ "" →
  loop_attach_ok e = true → image e c = Some tree →
  (∃ n, (["tiles"], n) ∈ tree) →
  (∀ n, (["metadata.json"], n) ∈ tree → ∃ x, n = File x) →
  rsync_ok e = true → copy_ok e = true →
  umount_ok e = true → detach_ok e = true →
  wp (extract_tiles e btrfs_file output_dir area version) w
     (fun o w' => o = Done true ∧ same_devices w w'
                  ∧ w_fs w' !! to = Some Dir
                  ∧ is_Some (w_fs w' !! (to ++ ["tiles"]))
                  ∧ w_fs w' !! mp = None)
     (fun _ => True).
Proof.
  intros Hto Hfile Hdst Hmkto Hfresh Hmk Hmp Hfree Hstrip Hd Hattach Himage
    [nt Htiles] Hmeta Hrsync Hcopy Hu Hdet.
  destruct (first_free_loop_spec _ _ Hfree) as [Hdev Hnot].
  pose proof (λ q, mkdir_p_at _ _ _ q Hmk) as Hm1.
  unfold extract_tiles. cbv zeta. rewrite Hto, !pjoin_name by done.
  apply wp_bind, wp_gets. rewrite (proj2 (exists_true _ _)) by by eexists.
  cbn [negb]. apply wp_bind, wp_gets.
  rewrite (proj2 (exists_false _ (to ++ ["tiles"])) Hdst), andb_false_r.
  apply wp_bind, wp_print'. unfold with_temporary_directory. cbv zeta.
  apply wp_bind, wp_act'. cbn [w_fs log]. rewrite Hmk.
  intros o w1 [= <- <-]. split; [done|].
  apply wp_try_finally, wp_bind, wp_attempt.
  eapply wp_mono;
    [apply (mount_btrfs_run btrfs_file mp _ d c tree m1);
     first [done | by eapply mkdir_p_idem | by eapply mkdir_p_keeps]| |done].
  cbv beta. cbn [w_loops w_mounts log set_fs]. intros o w2 (-> & HL & HM & Hfs2).
  apply wp_try_finally, wp_try_except.
  assert (∀ q, is_prefix mp q = false → w_fs w2 !! q
               = if bool_decide (q ∈ prefixes mp) then Some Dir else w_fs w !! q) as H2.
  { intros q Hq. rewrite Hfs2, graft_lookup_outside by done. apply Hm1. }
  eapply wp_mono; [apply (copy_out_run w2)| |done]; try done.
  - rewrite Hfs2. by eapply graft_elem.
  - intros q x Hq. rewrite H2.
    + case_bool_decide; [done|]. by apply Hmkto.
    + destruct (is_prefix mp q) eqn:E; [|done].
      apply InitDownloadFacts.is_prefix_true in E as [r ->].
      apply prefixes_inv in Hq as [r' Hq]. rewrite <- (assoc_L (++)) in Hq.
      rewrite Hq, InitDownloadFacts.is_prefix_app in HA. done.
  - rewrite H2 by apply mount_not_above_entry.
    rewrite bool_decide_eq_false_2; [done|].
    intros H%prefixes_is_prefix%is_prefix_app_l. congruence.
  - intros n Hn. rewrite Hfs2 in Hn. apply graft_lookup_Some in Hn as [Hn|Hn].
    + by apply Hmeta.
    + rewrite Hm1, bool_decide_eq_false_2, Hfresh in Hn; [done| |].
      * apply InitDownloadFacts.is_prefix_app.
      * intros H%prefixes_length. rewrite length_app in H. cbn in H. lia.
  - cbv beta. intros o w3 (-> & [HL3 HM3] & Hto3 & Hdst3).
    unfold cleanup. rewrite (proj2 (String.eqb_neq _ _)) by done.
    eapply wp_mono;
      [apply (unmount_btrfs_run mp d btrfs_file w w3); try done; congruence| |done].
    cbv beta. intros o w4 (-> & [HL4 HM4] & Hfs4).
    apply wp_act'. rewrite HM4, (bool_decide_eq_false_2 _ Hmp).
    intros o w5 [= <- <-]. split; [done|]. cbn [w_fs set_fs].
    rewrite !InitDownloadFacts.rm_rf_lookup, HA, mount_not_above_entry, is_prefix_refl.
    rewrite !Hfs4 by (done || apply mount_not_above_entry). by split_and!.
Qed.

End Extraction.

Abbreviation printed := (logged is_print).

Lemma printed_refl w : printed w w.
Proof. apply logged_refl. Qed.

Lemma printed_log w w' m : printed w w' → printed w (log w' (EvPrint m)).
Proof. apply logged_log, is_print_print. Qed.

(** An image whose tiles are in place already. *)
Definition extracted (m : gmap path node) (tiles_dir : path) (area version : string) : bool :=
  exists_ m (tiles_dir /: area /: version)
  && exists_ m (tiles_dir /: area /: version /: "tiles").

(** Every image that [extract_all_areas] finds under [btrfs_dir] is
    extracted under [tiles_dir]. *)
Definition all_extracted (m : gmap path node) (btrfs_dir tiles_dir : path) : bool :=
  forallb (fun area =>
    negb (is_dir m (btrfs_dir ++ [area])) || PyStr.startswith area "_"
    || forallb (fun version =>
         negb (is_dir m (btrfs_dir ++ [area] ++ [version]))
         || negb (exists_ m ((btrfs_dir ++ [area] ++ [version]) /: "tiles.btrfs"))
         || extracted m tiles_dir area version)
       (iterdir m (btrfs_dir ++ [area])))
    (iterdir m btrfs_dir).

Lemma extract_tiles_extracted (btrfs_file tiles_dir : path) (area version : string)
    (w0 w : world) :
  exists_ (w_fs w0) btrfs_file = true →
  extracted (w_fs w0) tiles_dir area version = true →
  printed w0 w →
  wp (extract_tiles e btrfs_file tiles_dir area version) w
     (fun o w' => o = Done true ∧ printed w0 w') (fun _ => True).
Proof.
  intros Hf Hx Hw. pose proof Hw as [Hfs _]. unfold extract_tiles. cbv zeta.
  apply wp_bind, wp_gets. rewrite Hfs, Hf. cbn [negb].
  apply wp_bind, wp_gets. rewrite Hfs. unfold extracted in Hx. rewrite Hx.
  apply wp_bind, wp_print'. apply wp_ret. split; [done|]. by apply printed_log.
Qed.

Lemma extract_all_areas_extracted (btrfs_dir tiles_dir : path) (w0 w : world) :
  is_dir (w_fs w0) btrfs_dir = true →
  all_extracted (w_fs w0) btrfs_dir tiles_dir = true →
  printed w0 w →
  wp (extract_all_areas e btrfs_dir tiles_dir) w
     (fun o w' => o = Done true ∧ printed w0 w') (fun _ => True).
Proof.
  intros Hd Hall Hw. pose proof Hw as [Hfs _]. unfold extract_all_areas.
  apply wp_bind, wp_gets. rewrite Hfs.
  rewrite (proj2 (exists_true _ _))
    by (apply is_dir_true in Hd; by eexists).
  cbn [negb]. apply wp_bind, wp_iterdir_m;
    [intros _|intros H; apply is_dir_true in Hd; congruence].
  rewrite Hfs. apply wp_bind.
  unfold all_extracted in Hall. rewrite forallb_forall in Hall.
  set (gv := fun (area version : string) =>
    if negb (is_dir (w_fs w0) (btrfs_dir ++ [area] ++ [version])) then []
    else if exists_ (w_fs w0) ((btrfs_dir ++ [area] ++ [version]) /: "tiles.btrfs")
         then [true] else []).
  set (g := fun area : string =>
    if negb (is_dir (w_fs w0) (btrfs_dir ++ [area])) || PyStr.startswith area "_"
    then [] else flat_map (gv area) (iterdir (w_fs w0) (btrfs_dir ++ [area]))).
  eapply wp_mono;
    [apply (wp_for_each _ _ g (printed w0)); [|done]| |done].
  - intros area w1 Harea Hw1. pose proof Hw1 as [Hfs1 _].
    apply list_elem_of_In, Hall in Harea. cbv beta in Harea.
    apply wp_bind, wp_gets. rewrite Hfs1. unfold g.
    destruct (negb (is_dir (w_fs w0) (btrfs_dir ++ [area]))
              || PyStr.startswith area "_") eqn:Hskip; [by apply wp_ret|].
    cbn [orb] in Harea. rewrite forallb_forall in Harea.
    apply orb_false_iff in Hskip as [Hisd%negb_false_iff _].
    apply wp_bind, wp_iterdir_m;
      [intros _|intros H; apply is_dir_true in Hisd; congruence].
    rewrite Hfs1.
    apply (wp_for_each _ _ (gv area) (printed w0)); [|done].
    intros version w2 Hversion Hw2. pose proof Hw2 as [Hfs2 _].
    apply list_elem_of_In, Harea in Hversion. cbv beta in Hversion.
    unfold extract_version. cbv zeta. rewrite <- (assoc_L (++)).
    apply wp_bind, wp_gets. rewrite Hfs2. unfold gv.
    destruct (negb (is_dir (w_fs w0) (btrfs_dir ++ [area] ++ [version])));
      [by apply wp_ret|].
    apply wp_bind, wp_gets. rewrite Hfs2.
    destruct (exists_ (w_fs w0) _) eqn:Hthere; [|by apply wp_ret].
    cbn [negb orb] in Hversion.
    apply wp_bind, wp_print'. apply wp_bind, wp_print'.
    apply wp_bind, wp_print'. apply wp_bind.
    eapply wp_mono;
      [apply (extract_tiles_extracted _ _ _ _ w0);
       [done|done|by do 3 apply printed_log]
      | |done].
    cbv beta. intros o w3 [-> Hw3]. by apply wp_ret.
  - cbv beta. intros o w1 [-> Hw1]. apply wp_ret. split; [|done]. f_equal.
    apply forallb_forall. intros b Hb. apply in_flat_map in Hb as (area & _ & Hb).
    unfold g in Hb. destruct (_ || _); [done|].
    apply in_flat_map in Hb as (version & _ & Hb). unfold gv in Hb.
    repeat case_match; try done. by destruct Hb as [<-|[]].
Qed.

End WithEnv.
End ExtractMore.

(** ** download-assets.py: assets and sprites *)
Module AssetsMore.
Import Sys DownloadAssets SysFacts SysMore RunFacts RunMore.
Import DownloadAssetsFacts (wp_iterdir_m).
Import InitDownloadFacts (wp_act').


Lemma rev_app_acc (s acc : string) :
  String.rev_app s acc = String.rev_app s "" +:+ acc.
Proof.
  revert acc. induction s as [|a s IH]; intros acc; [done|].
  cbn [String.rev_app]. rewrite (IH (String a acc)), (IH (String a "")).
  by rewrite PyStrFacts.app_assoc.
Qed.

Lemma rev_app_app (a b acc : string) :
  String.rev_app (a +:+ b) acc = String.rev_app b (String.rev_app a acc).
Proof.
  revert acc. induction a as [|x a IH]; intros acc; [done|].
  change (String x a +:+ b) with (String x (a +:+ b)). cbn [String.rev_app].
  apply IH.
Qed.

Lemma rev_app_distr (a b : string) :
  String.rev (a +:+ b) = String.rev b +:+ String.rev a.
Proof. unfold String.rev. by rewrite rev_app_app, rev_app_acc. Qed.

Lemma endswith_app (a b : string) : PyStr.endswith (a +:+ b) b = true.
Proof. unfold PyStr.endswith. rewrite rev_app_distr. apply PyStrFacts.prefix_app. Qed.

Lemma has_char_app (c : ascii) (a b : string) :
  PyStrFacts.has_char c (a +:+ b)
  = PyStrFacts.has_char c a || PyStrFacts.has_char c b.
Proof.
  induction a as [|x a IH]; [done|].
  change (String x a +:+ b) with (String x (a +:+ b)).
  cbn [PyStrFacts.has_char]. by rewrite IH, orb_assoc.
Qed.

Lemma replace_tar_gz (n : string) :
  PyStrFacts.has_char "." n = false →
  PyStr.replace ".tar.gz" "" (n +:+ ".tar.gz") = n.
Proof.
  unfold PyStr.replace. induction n as [|c n IH]; [done|].
  cbn [PyStrFacts.has_char]. intros [Hc Hn]%orb_false_iff.
  change (String c n +:+ ".tar.gz") with (String c (n +:+ ".tar.gz")).
  cbn [PyStr.replace_go String.prefix].
  destruct (ascii_dec "." c) as [<-|_]; [done|]. by rewrite IH.
Qed.

(** A line of the listing that names a sprite archive is kept, and the
    name taken from it is the archive's. *)
Lemma sprite_name_of_line (n : string) :
  PyStr.contains "/" n = false → PyStr.contains "." n = false →
  let line := "sprites/" +:+ n +:+ ".tar.gz" in
  PyStr.startswith line "sprites/" && PyStr.endswith line ".tar.gz" = true
  ∧ sprite_name line = n.
Proof.
  rewrite !PyStrFacts.contains_char. intros Hslash Hdot line. split.
  - apply andb_true_iff. split; [apply PyStrFacts.prefix_app|].
    unfold line. rewrite <- PyStrFacts.app_assoc. apply endswith_app.
  - unfold sprite_name, line.
    change ("sprites/" +:+ n +:+ ".tar.gz")
      with ("sprites" +:+ String PyStr.slash (n +:+ ".tar.gz")).
    rewrite PyStrFacts.split_app by done.
    rewrite PyStrFacts.split_no_sep.
    + cbn [nth]. by apply replace_tar_gz.
    + unfold PyStr.slash. by rewrite has_char_app, Hslash.
Qed.

Section WithEnv.
Variable e : env.

Section Asset.
Variables (asset_name : string) (assets_dir : path).
Hypothesis Hname : is_name asset_name = true.

Abbreviation dir := (assets_dir ++ [asset_name]).
Abbreviation ofm := (assets_dir ++ [asset_name; "ofm"]).
Abbreviation archive := (assets_dir ++ [asset_name; "ofm.tar.gz"]).
Abbreviation url := ("https://assets.openfreemap.com/" +:+ asset_name +:+ "/ofm.tar.gz").

Lemma asset_dir_name : asset_dir assets_dir asset_name = dir.
Proof. unfold asset_dir. by rewrite pjoin_name. Qed.

Lemma archive_path_name : archive_path assets_dir asset_name = archive.
Proof.
  unfold archive_path. rewrite asset_dir_name, pjoin_name by done.
  by rewrite <- (assoc_L (++)).
Qed.

Lemma parent_archive : parent archive = dir.
Proof.
  change [asset_name; "ofm.tar.gz"] with ([asset_name] ++ ["ofm.tar.gz"]).
  rewrite (assoc_L (++)). apply InitDownloadFacts.parent_snoc.
Qed.



End Asset.
(** The lines of the listing [download_sprites] keeps. *)
Definition sprites_remote (text : string) : list string :=
  List.filter (fun line => PyStr.startswith line "sprites/"
                           && PyStr.endswith line ".tar.gz")
              (PyStr.splitlines text).

Abbreviation listing_url := (cdn_url e +:+ "/files.txt").

Lemma sprites_dir_name (assets_dir : path) :
  sprites_dir assets_dir = assets_dir ++ ["sprites"].
Proof. unfold sprites_dir. by rewrite pjoin_name. Qed.

Lemma temp_archive_name (assets_dir : path) :
  temp_archive assets_dir = sprites_dir assets_dir ++ ["temp.tar.gz"].
Proof. unfold temp_archive. by rewrite pjoin_name. Qed.

(** The listing cannot be had: [False], and nothing is downloaded. *)
Lemma download_sprites_no_listing (assets_dir : path) (w : world)
    (m1 : gmap path node) :
  mkdir_p (w_fs w) (sprites_dir assets_dir) = Some m1 →
  match http_get e listing_url with
  | HttpFailed => True
  | HttpReply status _ => (400 <= status < 600)%Z
  end →
  wp (download_sprites e assets_dir) w
     (fun o w' => o = Done false ∧ w_fs w' = m1
                  ∧ w_log w' = w_log w ++
                      [EvPrint (MsgInfo "Fetching sprite versions...");
                       EvHttpGet listing_url;
                       EvPrint (MsgError "downloading sprites")])
     (fun _ => True).
Proof.
  intros Hmk Hget. unfold download_sprites. cbv zeta.
  apply wp_bind, wp_act'. rewrite Hmk. intros o w1 [= <- <-]. split; [done|].
  apply wp_bind, wp_print'. apply wp_try_except, wp_bind, wp_act'.
  intros o w1 [= <- <-]. split; [done|].
  destruct (http_get e listing_url) as [|status text];
    [|replace ((400 <=? status)%Z && (status <? 600)%Z) with true
        by (symmetry; apply andb_true_iff; split;
            [apply Z.leb_le|apply Z.ltb_lt]; lia)];
    apply wp_raise, wp_bind, wp_print'; apply wp_ret; (split_and!; [done..|]);
    cbn [w_log log set_fs]; by rewrite <- !(assoc_L (++)).
Qed.

(** [exists_nonempty] at a path that is no file. *)
Lemma exists_nonempty_run (p : path) (w : world) :
  (∀ c, w_fs w !! p ≠ Some (File c)) →
  wp (exists_nonempty p) w (fun o w' => (∃ b, o = Done b) ∧ w' = w) (fun _ => True).
Proof.
  intros Hp. unfold exists_nonempty. apply wp_bind, wp_gets.
  destruct (exists_ (w_fs w) p) eqn:E; [|apply wp_ret; split; [by eexists|done]].
  apply wp_bind, wp_iterdir_m.
  - intros _. apply wp_ret. split; [by eexists|done].
  - intros Hd. apply exists_true in E as [[|c] E]; [done|by destruct (Hp c)].
Qed.

(** The listing is had and no archive can be: [True] all the same. *)
Lemma download_sprites_no_archive (assets_dir : path) (w : world)
    (m1 : gmap path node) (status : Z) (text : string) :
  mkdir_p (w_fs w) (sprites_dir assets_dir) = Some m1 →
  http_get e listing_url = HttpReply status text →
  ¬ (400 <= status < 600)%Z →
  (∀ u, fetch e u = None) →
  (∀ line, line ∈ sprites_remote text →
     sprites_dir assets_dir /: sprite_name line ≠ temp_archive assets_dir
     ∧ ∀ c, m1 !! (sprites_dir assets_dir /: sprite_name line) ≠ Some (File c)) →
  wp (download_sprites e assets_dir) w
     (fun o w' => o = Done true
                  ∧ ∀ q, q ≠ temp_archive assets_dir → w_fs w' !! q = m1 !! q)
     (fun _ => True).
Proof.
  intros Hmk Hget Hstatus Hfetch Hlines. unfold download_sprites. cbv zeta.
  apply wp_bind, wp_act'. rewrite Hmk. intros o w1 [= <- <-]. split; [done|].
  apply wp_bind, wp_print'. apply wp_try_except, wp_bind, wp_act'.
  intros o w1 [= <- <-]. split; [done|]. rewrite Hget.
  replace ((400 <=? status)%Z && (status <? 600)%Z) with false.
  2:{ symmetry. apply andb_false_iff.
      destruct (Z.leb_spec 400 status); [right; apply Z.ltb_ge; lia|by left]. }
  fold (sprites_remote text).
  set (Inv := fun w' : world =>
    ∀ q, q ≠ temp_archive assets_dir → w_fs w' !! q = m1 !! q).
  apply wp_bind. eapply wp_mono;
    [apply (wp_for_each _ _ (fun _ => []) Inv)| |done].
  - intros line w' Hline Hw'. destruct (Hlines line Hline) as [Hne Hnf].
    unfold download_sprite. cbv zeta. apply wp_bind.
    eapply wp_mono; [apply exists_nonempty_run| |done].
    { intros c. rewrite Hw' by done. apply Hnf. }
    cbv beta. intros o w'' [[[] ->] ->].
    { apply wp_bind, wp_print'. by apply wp_ret. }
    assert (∀ w3, Inv w3 →
      wp (print (MsgError ("downloading sprite " +:+ sprite_name line))
          ≫= λ _ : (), mret ([] : list unit)) w3
         (λ o w4, o = Done [] ∧ Inv w4) (λ _, True)) as Hh.
    { intros w3 H3. apply wp_bind, wp_print'. by apply wp_ret. }
    apply wp_try_except. unfold download_file.
    apply wp_bind, wp_bind, wp_print'.
    apply wp_bind, wp_mkdir_parents; [|intros _; split; [done|apply Hh; exact Hw']].
    intros m' Hm'. split; [done|].
    rewrite temp_archive_name, InitDownloadFacts.parent_snoc in Hm'.
    assert (Inv (set_fs (log w' (EvPrint (MsgDownloading
              (cdn_url e +:+ "/sprites/" +:+ sprite_name line +:+ ".tar.gz")))) m'))
      as Hinv'.
    { intros q Hq. cbn [w_fs set_fs log] in *.
      rewrite (mkdir_p_at _ _ _ q Hm'). case_bool_decide as Hp.
      - symmetry. by eapply mkdir_p_prefix_dir.
      - by apply Hw'. }
    unfold InitDownload.aria2c. apply wp_bind, wp_act'. intros o w3 Hf.
    split; [done|]. cbv beta zeta in Hf.
    destruct (is_dir _ _); injection Hf as <- <-; [|apply Hh; exact Hinv'].
    apply wp_act'. rewrite Hfetch. intros o w4 [= <- <-]. split; [done|].
    apply Hh. intros q Hq. cbn [w_fs set_fs log].
    rewrite lookup_insert_ne by done. by apply Hinv'.
  - done.
  - cbv beta. intros o w' [-> Hw']. by apply wp_ret.
Qed.

(** A directory with an entry. *)
Definition nonempty_dir (m : gmap path node) (p : path) : bool :=
  is_dir m p && negb (bool_decide (iterdir m p = [])).

Definition no_command (ev : event) : Prop := ∀ cmd, ev ≠ EvRun cmd.

Lemma exists_nonempty_true (p : path) (w : world) :
  nonempty_dir (w_fs w) p = true →
  wp (exists_nonempty p) w (fun o w' => o = Done true ∧ w' = w) (fun _ => True).
Proof.
  intros [Hd Hne]%andb_true_iff. apply is_dir_true in Hd.
  unfold exists_nonempty. apply wp_bind, wp_gets.
  rewrite (proj2 (exists_true _ _)) by by eexists.
  apply wp_bind, wp_iterdir_m; [|done]. intros _. apply wp_ret. by rewrite Hne.
Qed.

(** Every asset and every listed sprite version is there. *)
Lemma download_all_assets_present (assets_dir : path) (w0 w : world)
    (status : Z) (text : string) :
  fs_wf (w_fs w0) = true →
  (∀ a, a ∈ ["fonts"; "styles"; "natural_earth"] →
        nonempty_dir (w_fs w0) (assets_dir ++ [a; "ofm"]) = true) →
  w_fs w0 !! sprites_dir assets_dir = Some Dir →
  http_get e listing_url = HttpReply status text →
  ¬ (400 <= status < 600)%Z →
  (∀ line, line ∈ sprites_remote text →
     nonempty_dir (w_fs w0) (sprites_dir assets_dir /: sprite_name line) = true) →
  logged no_command w0 w →
  wp (download_all_assets e assets_dir) w
     (fun o w' => o = Done true ∧ logged no_command w0 w'
                  ∧ EvHttpGet listing_url ∈ w_log w')
     (fun _ => True).
Proof.
  intros Hwf Hassets Hsd Hget Hstatus Hsprites Hw.
  assert (∀ w1 w' m, logged no_command w1 w' →
            logged no_command w1 (log w' (EvPrint m))) as Hlog.
  { intros w1 w' m. by apply logged_log. }
  unfold download_all_assets. cbv zeta.
  apply wp_bind, wp_print'. apply wp_bind.
  eapply wp_mono;
    [apply (wp_for_each _ _ (fun _ => [true]) (logged no_command w0))| |done].
  - intros a w1 Ha Hw1. pose proof Hw1 as [Hfs1 _].
    apply Hassets in Ha as Hp. apply andb_true_iff in Hp as [Hd Hne].
    apply is_dir_true in Hd. apply negb_true_iff, bool_decide_eq_false_1 in Hne.
    apply wp_bind. eapply wp_mono;
      [apply (DownloadAssetsFacts.download_asset_skip e a assets_dir w1);
       rewrite ?Hfs1; try done| |done].
    + by repeat (apply elem_of_cons in Ha as [->|Ha]; [done|]);
        apply elem_of_nil in Ha.
    + cbv beta. intros o w2 [-> ->]. apply wp_ret. split; [done|]. by apply Hlog.
  - by apply Hlog.
  - cbv beta. intros o w1 [-> Hw1]. pose proof Hw1 as [Hfs1 _].
    apply wp_bind. unfold download_sprites. cbv zeta.
    assert (mkdir_p (w_fs w1) (sprites_dir assets_dir) = Some (w_fs w1)) as Hmk.
    { rewrite Hfs1. apply mkdir_p_id. intros q Hq.
      destruct (decide (q = sprites_dir assets_dir)) as [->|Hne]; [done|].
      by eapply fs_wf_dir_chain. }
    apply wp_bind, wp_act'. rewrite Hmk. intros o w2 [= <- <-]. split; [done|].
    rewrite set_fs_id. apply wp_bind, wp_print'.
    apply wp_try_except, wp_bind, wp_act'. intros o w2 [= <- <-]. split; [done|].
    rewrite Hget.
    replace ((400 <=? status)%Z && (status <? 600)%Z) with false.
    2:{ symmetry. apply andb_false_iff.
        destruct (Z.leb_spec 400 status); [right; apply Z.ltb_ge; lia|by left]. }
    fold (sprites_remote text). apply wp_bind.
    set (Inv := fun w' : world =>
      logged no_command w0 w' ∧ EvHttpGet listing_url ∈ w_log w').
    assert (∀ w' m, Inv w' → Inv (log w' (EvPrint m))) as Hinv.
    { intros w' m [H1 H2]. split; [by apply Hlog|].
      cbn [w_log log]. apply elem_of_app. by left. }
    eapply wp_mono; [apply (wp_for_each _ _ (fun _ => []) Inv)| |done].
    + intros line w3 Hline Hw3. pose proof Hw3 as [[Hfs3 _] _].
      unfold download_sprite. cbv zeta. apply wp_bind.
      eapply wp_mono; [apply exists_nonempty_true| |done].
      { rewrite Hfs3. by apply Hsprites. }
      cbv beta. intros o w4 [-> ->]. apply wp_bind, wp_print'.
      apply wp_ret. split; [done|]. by apply Hinv.
    + split.
      * apply logged_log; [done|]. by apply Hlog.
      * cbn [w_log log]. apply elem_of_app. right. apply list_elem_of_here.
    + cbv beta. intros o w3 [-> [Hw3 Hin]]. apply wp_ret. by apply wp_ret.
Qed.

(** *** Nothing to be had from the network *)
Section Offline.
Variable assets_dir : path.

(** The assets directory can be made, and nothing is at or under the
    entries [names] of it. *)
Definition vacant (names : list string) (w : world) : Prop :=
  (∀ q x, q ∈ prefixes assets_dir → w_fs w !! q ≠ Some (File x))
  ∧ ∀ a q, a ∈ names → is_prefix (assets_dir ++ [a]) q = true → w_fs w !! q = None.

Definition asset_url (a : string) : string :=
  "https://assets.openfreemap.com/" +:+ a +:+ "/ofm.tar.gz".

(** An asset that cannot be downloaded: [False], and the other entries
    are as vacant as before. *)
Lemma download_asset_offline (a : string) (rest : list string) (w : world) :
  is_name a = true → a ∉ rest →
  fetch e (asset_url a) = None →
  vacant (a :: rest) w →
  wp (download_asset e a assets_dir) w
     (fun o w' =>
        o = Done false ∧ vacant rest w'
        ∧ w_log w' = w_log w ++
            [EvPrint (MsgDownloading (asset_url a));
             EvRun (aria2c_cmd (asset_url a) (assets_dir ++ [a; "ofm.tar.gz"]));
             EvPrint (MsgError ("downloading " +:+ a))])
     (fun _ => True).
Proof.
  intros Hn Ha Hfetch [Hdir Hvac].
  assert (is_Some (mkdir_p (w_fs w) (assets_dir ++ [a]))) as [m1 Hmk].
  { apply mkdir_p_is_Some. intros q x [Hq| ->]%InitDownloadFacts.prefixes_snoc.
    - by apply Hdir.
    - rewrite (Hvac a); [done|apply list_elem_of_here|apply is_prefix_refl]. }
  pose proof (λ q, mkdir_p_at _ _ _ q Hmk) as Hm1.
  pose proof (mkdir_p_dir _ _ _ Hmk) as Hd1.
  unfold download_asset. cbv zeta.
  rewrite (asset_dir_name a assets_dir Hn), (archive_path_name a assets_dir Hn).
  rewrite pjoin_name by done. rewrite <- (assoc_L (++)). cbn [app].
  fold (asset_url a).
  apply wp_bind, wp_act'. rewrite Hmk. intros o w1 [= <- <-]. split; [done|].
  unfold exists_nonempty. apply wp_bind, wp_bind, wp_gets. cbn [w_fs set_fs].
  rewrite (proj2 (exists_false m1 (assets_dir ++ [a; "ofm"]))).
  2:{ rewrite Hm1, bool_decide_eq_false_2.
      - apply (Hvac a); [apply list_elem_of_here|].
        apply (InitDownloadFacts.is_prefix_app _ ["ofm"]) || idtac.
        change [a; "ofm"] with ([a] ++ ["ofm"]). rewrite (assoc_L (++)).
        apply InitDownloadFacts.is_prefix_app.
      - intros H%prefixes_length. rewrite !length_app in H. cbn in H. lia. }
  apply wp_ret. apply wp_try_except. unfold download_file.
  apply wp_bind, wp_bind, wp_print'. rewrite (parent_archive a assets_dir).
  apply wp_bind, wp_act'. cbn [w_fs set_fs log].
  rewrite (mkdir_p_idem _ _ _ Hmk). intros o w1 [= <- <-]. split; [done|].
  unfold InitDownload.aria2c. rewrite (parent_archive a assets_dir).
  apply wp_bind, wp_act'. cbn [w_fs set_fs log].
  rewrite (proj2 (is_dir_true _ _) Hd1). intros o w1 [= <- <-]. split; [done|].
  apply wp_act'. rewrite Hfetch. intros o w1 [= <- <-]. split; [done|].
  apply wp_bind, wp_print'. apply wp_ret. split_and!; [done| |].
  - unfold vacant. cbn [w_fs set_fs log]. split.
    + intros q x Hq. rewrite lookup_insert_ne.
      * rewrite Hm1. case_bool_decide; [done|]. by apply Hdir.
      * intros <-. apply prefixes_length in Hq. rewrite !length_app in Hq. cbn in Hq. lia.
    + intros a' q Ha' Hq.
      assert (a' ≠ a) as Hne by (intros ->; done).
      apply InitDownloadFacts.is_prefix_true in Hq as [r ->].
      rewrite lookup_insert_ne.
      * rewrite Hm1, bool_decide_eq_false_2.
        -- apply (Hvac a'); [by apply list_elem_of_further|].
           apply InitDownloadFacts.is_prefix_app.
        -- intros [r' Hr']%prefixes_inv. rewrite <- !(assoc_L (++)) in Hr'.
           apply app_inv_head in Hr'. cbn in Hr'. congruence.
      * intros H. rewrite <- !(assoc_L (++)) in H. apply app_inv_head in H.
        cbn in H. congruence.
  - cbn [w_log set_fs log]. by rewrite <- !(assoc_L (++)).
Qed.

(** What one asset that cannot be downloaded leaves in the log. *)
Definition failed_asset (a : string) : list event :=
  [EvPrint (MsgDownloading (asset_url a));
   EvRun (aria2c_cmd (asset_url a) (assets_dir ++ [a; "ofm.tar.gz"]));
   EvPrint (MsgError ("downloading " +:+ a))].

(** Nothing can be had from the network: every asset is tried, then the
    listing, and the answer is [False]. *)
Lemma download_all_assets_offline (w : world) :
  (∀ u, fetch e u = None) →
  match http_get e listing_url with
  | HttpFailed => True
  | HttpReply status _ => (400 <= status < 600)%Z
  end →
  vacant ["fonts"; "styles"; "natural_earth"; "sprites"] w →
  wp (download_all_assets e assets_dir) w
     (fun o w' =>
        o = Done false
        ∧ w_log w' = w_log w ++
            [EvPrint (MsgInfo "Downloading OpenFreeMap assets...")]
            ++ flat_map failed_asset ["fonts"; "styles"; "natural_earth"]
            ++ [EvPrint (MsgInfo "Fetching sprite versions...");
                EvHttpGet listing_url;
                EvPrint (MsgError "downloading sprites")])
     (fun _ => True).
Proof.
  intros Hfetch Hget Hvac. unfold download_all_assets. cbv zeta.
  apply wp_bind, wp_print'. apply wp_bind. cbn [for_each].
  assert (∀ names w' m, vacant names w' → vacant names (log w' (EvPrint m)))
    as Hlog by done.
  apply Hlog with (m := MsgInfo "Downloading OpenFreeMap assets...") in Hvac.
  set (w0 := log w (EvPrint (MsgInfo "Downloading OpenFreeMap assets..."))) in *.
  assert (w_log w0 = w_log w
            ++ [EvPrint (MsgInfo "Downloading OpenFreeMap assets...")]) as Hl0 by done.
  clearbody w0.
  apply wp_bind, wp_bind. eapply wp_mono;
    [apply (download_asset_offline "fonts" ["styles"; "natural_earth"; "sprites"] w0); [done| |done|exact Hvac]| |done].
  { by apply (bool_decide_unpack _). }
  cbv beta. intros o w1 (-> & Hv1 & Hl1). apply wp_ret.
  apply wp_bind, wp_bind, wp_bind. eapply wp_mono;
    [apply (download_asset_offline "styles" ["natural_earth"; "sprites"] w1); [done| |done|exact Hv1]| |done].
  { by apply (bool_decide_unpack _). }
  cbv beta. intros o w2 (-> & Hv2 & Hl2). apply wp_ret.
  apply wp_bind, wp_bind, wp_bind. eapply wp_mono;
    [apply (download_asset_offline "natural_earth" ["sprites"] w2); [done| |done|exact Hv2]| |done].
  { by apply (bool_decide_unpack _). }
  cbv beta. intros o w3 (-> & Hv3 & Hl3). apply wp_ret. apply wp_ret, wp_ret, wp_ret.
  destruct Hv3 as [Hdir Hsp].
  assert (is_Some (mkdir_p (w_fs w3) (sprites_dir assets_dir))) as [m1 Hmk].
  { rewrite sprites_dir_name. apply mkdir_p_is_Some.
    intros q x [Hq| ->]%InitDownloadFacts.prefixes_snoc.
    - by apply Hdir.
    - rewrite (Hsp "sprites"); [done|apply list_elem_of_here|apply is_prefix_refl]. }
  apply wp_bind. eapply wp_mono;
    [apply (download_sprites_no_listing assets_dir w3 m1 Hmk Hget)| |done].
  cbv beta. intros o w4 (-> & _ & Hl4). apply wp_ret. split; [done|].
  rewrite Hl4, Hl3, Hl2, Hl1, Hl0. cbn [w_log log flat_map failed_asset app].
  by rewrite <- !(assoc_L (++)).
Qed.

End Offline.

End WithEnv.
End AssetsMore.

(** ** generate-nginx-config.py: what a run writes and returns *)
Module NginxMore.
Import Sys NginxConfig SysFacts SysMore RunFacts RunMore NginxFacts.
Import DownloadAssetsFacts (wp_iterdir_m).
Import InitDownloadFacts (wp_act').

(** A loop whose rounds return and keep [Inv]. *)
Lemma wp_for_each_done {A B} (l : list A) (body : A → M (list B))
    (Inv : world → Prop) (w : world) :
  (∀ x w', x ∈ l → Inv w' →
           wp (body x) w' (fun o w'' => (∃ ys, o = Done ys) ∧ Inv w'') Inv) →
  Inv w →
  wp (for_each l body) w (fun o w' => (∃ ys, o = Done ys) ∧ Inv w') Inv.
Proof.
  revert w. induction l as [|x l IH]; intros w Hb Hw; cbn [for_each].
  - apply wp_ret. split; [by eexists|done].
  - apply wp_bind. eapply wp_mono; [apply Hb; [apply list_elem_of_here|done]| |done].
    intros o w' [[ys ->] Hw'].
    apply wp_bind. eapply wp_mono; [apply IH; [|done]| |done].
    + intros y w'' Hy. apply Hb. by apply list_elem_of_further.
    + intros o w'' [[zs ->] Hw'']. apply wp_ret. split; [by eexists|done].
Qed.

Section WithEnv.
Variable e : env.

(** What is asked of an invariant of [generate_tile_locations]: messages
    keep it, and so does writing a [tilejson.json] of a version directory
    that is a file. *)
Record keeps_updates (tiles_dir : path) (J : world → Prop) : Prop := {
  keeps_print : ∀ w m, J w → J (log w (EvPrint m));
  keeps_write : ∀ w area version c0 c,
    J w → w_fs w !! (tiles_dir ++ [area; version; "tilejson.json"]) = Some (File c0) →
    J (set_fs w (<[tiles_dir ++ [area; version; "tilejson.json"] := File c]> (w_fs w)));
}.

Lemma update_tilejson_keeps (tiles_dir : path) (J : world → Prop)
    (domain area version : string) (w : world) :
  keeps_updates tiles_dir J → J w →
  wp (update_tilejson e (tiles_dir ++ [area; version; "tilejson.json"])
        domain area version) w
     (fun o w' => o = Done tt ∧ J w') J.
Proof.
  intros [Hprint Hwrite] Hw. unfold update_tilejson, rewrite_tilejson.
  assert (∀ w', J w' →
            wp (print (MsgError "updating TileJSON")) w'
               (fun o w'' => o = Done tt ∧ J w'') J) as Hh.
  { intros w' Hw'. apply wp_print; [by apply Hprint|]. split; [done|by apply Hprint]. }
  apply wp_try_except, wp_bind, wp_read_file; [|intros _; by apply Hh].
  intros text Htext.
  destruct (Json.load (float_repr e) (max_str_digits e) (load_depth e) text)
    as [[| | | | | |d]|];
    try (apply wp_raise; by apply Hh).
  destruct (Json.dump _ _ _) as [written stopped].
  apply wp_bind, wp_write_file.
  - intros _ _. split_and!; [by eapply Hwrite|by eapply Hwrite|].
    destruct stopped as [ex|].
    + apply wp_raise, Hh. by eapply Hwrite.
    + apply wp_ret. split; [done|by eapply Hwrite].
  - intros _. split; [done|]. by apply Hh.
Qed.

Lemma tilejson_path_name (tiles_dir : path) (area version : string) :
  ((tiles_dir ++ [area]) ++ [version]) /: "tilejson.json"
  = tiles_dir ++ [area; version; "tilejson.json"].
Proof. rewrite pjoin_name by done. by rewrite <- !(assoc_L (++)). Qed.

(** One round of the inner loop of [generate_tile_locations]. *)
Lemma tile_location_keeps (tiles_dir : path) (J : world → Prop)
    (domain area version : string) (w : world) :
  keeps_updates tiles_dir J → J w →
  wp (let version_dir := (tiles_dir ++ [area]) ++ [version] in
      isd ← gets (fun w => is_dir (w_fs w) version_dir);
      if negb isd then mret []
      else
        let tiles_path := version_dir /: "tiles" in
        let metadata_path := version_dir /: "metadata.json" in
        let tilejson_path := version_dir /: "tilejson.json" in
        ready ← gets (fun w => exists_ (w_fs w) tiles_path
                               && exists_ (w_fs w) metadata_path);
        if negb ready then mret []
        else
          has_tilejson ← gets (fun w => exists_ (w_fs w) tilejson_path);
          (if has_tilejson : bool
           then update_tilejson e tilejson_path domain area version
           else mret tt);;
          mret [(area, version,
                 version_config area version tilejson_path tiles_path)]) w
     (fun o w' => (∃ l, o = Done l) ∧ J w') J.
Proof.
  intros HJ Hw. cbv zeta. rewrite tilejson_path_name.
  apply wp_bind, wp_gets. destruct (negb _); [apply wp_ret; split; [by eexists|done]|].
  apply wp_bind, wp_gets. destruct (negb _); [apply wp_ret; split; [by eexists|done]|].
  apply wp_bind, wp_gets. destruct (exists_ _ _).
  - apply wp_bind. eapply wp_mono; [by apply update_tilejson_keeps| |done].
    cbv beta. intros o w' [-> Hw']. apply wp_ret. split; [by eexists|done].
  - apply wp_bind, wp_ret. apply wp_ret. split; [by eexists|done].
Qed.

(** [generate_tile_locations] keeps such an invariant, and does not raise
    unless [tiles_dir] is there and is no directory. *)
Lemma generate_tile_locations_keeps (tiles_dir : path) (J : world → Prop)
    (domain : string) (w : world) :
  keeps_updates tiles_dir J → J w →
  wp (generate_tile_locations e tiles_dir domain) w
     (fun o w' => J w'
                  ∧ (is_dir (w_fs w) tiles_dir = true ∨ exists_ (w_fs w) tiles_dir = false
                     → ∃ l, o = Done l)) J.
Proof.
  intros HJ Hw. unfold generate_tile_locations.
  apply wp_bind, wp_gets. destruct (exists_ (w_fs w) tiles_dir) eqn:Hx; cbn [negb].
  2:{ apply wp_bind, wp_print; [by apply HJ|]. apply wp_ret.
      split; [by apply HJ|]. intros _. by eexists. }
  apply wp_bind, wp_iterdir_m.
  2:{ intros Hd. split; [done|]. intros [Hd'%is_dir_true|]; done. }
  intros Hd. eapply wp_mono; [apply wp_for_each_done; [|exact Hw]| |done].
  2:{ cbv beta. intros o w' [[l ->] Hw']. split; [done|]. intros _. by eexists. }
  intros area w1 _ Hw1. cbv zeta.
  apply wp_bind, wp_gets.
  destruct (is_dir (w_fs w1) (tiles_dir ++ [area])) eqn:Hd1; cbn [negb];
    [|apply wp_ret; split; [by eexists|done]].
  apply is_dir_true in Hd1. apply wp_bind, wp_iterdir_m; [|done].
  intros _. apply wp_for_each_done; [|done].
  intros version w2 _ Hw2. by apply tile_location_keeps.
Qed.

(** What is at a path: nothing, a directory or a file. *)
Definition kind (n : option node) : option bool :=
  match n with
  | None => None
  | Some Dir => Some true
  | Some (File _) => Some false
  end.

(** The same paths, of the same kinds. *)
Definition same_shape (w w' : world) : Prop :=
  ∀ q, kind (w_fs w' !! q) = kind (w_fs w !! q).

Lemma same_shape_is_dir w w' q :
  same_shape w w' → is_dir (w_fs w') q = is_dir (w_fs w) q.
Proof.
  intros H. specialize (H q). unfold is_dir.
  destruct (w_fs w' !! q) as [[|?]|], (w_fs w !! q) as [[|?]|]; done.
Qed.

Lemma same_shape_exists w w' q :
  same_shape w w' → exists_ (w_fs w') q = exists_ (w_fs w) q.
Proof.
  intros H. specialize (H q). unfold exists_.
  destruct (w_fs w' !! q) as [[|?]|], (w_fs w !! q) as [[|?]|]; try done.
  all: by rewrite !bool_decide_eq_true_2 by by eexists.
Qed.

Lemma same_shape_keeps tiles_dir w : keeps_updates tiles_dir (same_shape w).
Proof.
  split; [done|]. intros w' area version c0 c Hw' Hfile q.
  cbn [w_fs set_fs]. destruct (decide (q = tiles_dir ++ [area; version; "tilejson.json"]))
    as [->|Hq].
  - rewrite lookup_insert_eq.
    exact (eq_trans (eq_sym (f_equal kind Hfile)) (Hw' _)).
  - rewrite lookup_insert_ne by done. apply Hw'.
Qed.

(** The block of a version that is ready: a directory with [tiles] and
    [metadata.json]. *)
Definition ready_block (m : gmap path node) (tiles_dir : path) (area version : string)
  : list (string * string * string) :=
  let version_dir := (tiles_dir ++ [area]) ++ [version] in
  if is_dir m version_dir
     && (exists_ m (version_dir /: "tiles") && exists_ m (version_dir /: "metadata.json"))
  then [(area, version,
         version_config area version (version_dir /: "tilejson.json")
                        (version_dir /: "tiles"))]
  else [].

Lemma ready_block_eq (m : gmap path node) (tiles_dir : path) (area version : string) :
  ready_block m tiles_dir area version
  = if is_dir m (tiles_dir ++ [area; version])
       && (exists_ m (tiles_dir ++ [area; version; "tiles"])
           && exists_ m (tiles_dir ++ [area; version; "metadata.json"]))
    then [(area, version,
           version_config area version
             (tiles_dir ++ [area; version; "tilejson.json"])
             (tiles_dir ++ [area; version; "tiles"]))]
    else [].
Proof.
  unfold ready_block. cbv zeta. rewrite !pjoin_name by done.
  by rewrite <- !(assoc_L (++)).
Qed.

Lemma tile_location_run (tiles_dir : path) (domain area version : string)
    (w0 w : world) :
  same_shape w0 w →
  wp (let version_dir := (tiles_dir ++ [area]) ++ [version] in
      isd ← gets (fun w => is_dir (w_fs w) version_dir);
      if negb isd then mret []
      else
        let tiles_path := version_dir /: "tiles" in
        let metadata_path := version_dir /: "metadata.json" in
        let tilejson_path := version_dir /: "tilejson.json" in
        ready ← gets (fun w => exists_ (w_fs w) tiles_path
                               && exists_ (w_fs w) metadata_path);
        if negb ready then mret []
        else
          has_tilejson ← gets (fun w => exists_ (w_fs w) tilejson_path);
          (if has_tilejson : bool
           then update_tilejson e tilejson_path domain area version
           else mret tt);;
          mret [(area, version,
                 version_config area version tilejson_path tiles_path)]) w
     (fun o w' => o = Done (ready_block (w_fs w0) tiles_dir area version)
                  ∧ same_shape w0 w')
     (fun _ => True).
Proof.
  intros Hw. cbv zeta. unfold ready_block.
  apply wp_bind, wp_gets. rewrite (same_shape_is_dir _ _ _ Hw).
  destruct (is_dir (w_fs w0) _); cbn [negb andb]; [|by apply wp_ret].
  apply wp_bind, wp_gets. rewrite !(same_shape_exists _ _ _ Hw).
  destruct (_ && _); cbn [negb]; [|by apply wp_ret].
  apply wp_bind, wp_gets. rewrite tilejson_path_name. destruct (exists_ _ _).
  - apply wp_bind. eapply wp_mono;
      [apply (update_tilejson_keeps tiles_dir (same_shape w0));
       [apply same_shape_keeps|done]| |done].
    cbv beta. intros o w' [-> Hw']. by apply wp_ret.
  - apply wp_bind, wp_ret. by apply wp_ret.
Qed.

(** [generate_tile_locations] on a tiles directory: it returns, and the
    blocks it returns are those of the ready versions of the area
    directories. *)
Lemma generate_tile_locations_blocks (tiles_dir : path) (domain : string) (w : world) :
  is_dir (w_fs w) tiles_dir = true →
  wp (generate_tile_locations e tiles_dir domain) w
     (fun o w' =>
        ∃ l, o = Done l
             ∧ ∀ b, b ∈ l ↔
                    ∃ area version,
                      is_dir (w_fs w) (tiles_dir ++ [area]) = true
                      ∧ b ∈ ready_block (w_fs w) tiles_dir area version)
     (fun _ => True).
Proof.
  intros Hd. unfold generate_tile_locations.
  apply wp_bind, wp_gets.
  rewrite (proj2 (exists_true _ _)) by (apply is_dir_true in Hd; by eexists).
  cbn [negb]. apply wp_bind, wp_iterdir_m;
    [intros _|intros H; apply is_dir_true in Hd; congruence].
  set (P := fun (area : string) (b : string * string * string) =>
    is_dir (w_fs w) (tiles_dir ++ [area]) = true
    ∧ ∃ version, b ∈ ready_block (w_fs w) tiles_dir area version).
  eapply wp_mono;
    [apply (wp_for_each_rel _ _ (fun area ys => ∀ b, b ∈ ys ↔ P area b)
              (same_shape w)); [|done]| |done].
  - intros area w1 _ Hw1. cbv zeta. apply wp_bind, wp_gets.
    rewrite (same_shape_is_dir _ _ _ Hw1).
    destruct (is_dir (w_fs w) (tiles_dir ++ [area])) eqn:Hda; cbn [negb].
    2:{ apply wp_ret. split; [|done]. exists []. split; [done|].
        intros b. split; [by intros ?%elem_of_nil|]. intros [H _]. congruence. }
    apply wp_bind, wp_iterdir_m.
    2:{ intros H. rewrite <- (same_shape_is_dir _ _ _ Hw1) in Hda.
        by apply is_dir_true in Hda. }
    intros _. eapply wp_mono;
      [apply (wp_for_each _ _ (ready_block (w_fs w) tiles_dir area) (same_shape w));
       [|done]| |done].
    + intros version w2 _ Hw2. by apply tile_location_run.
    + cbv beta. intros o w2 [-> Hw2]. split; [|done]. eexists. split; [done|].
      intros b. unfold P. rewrite list_elem_of_In, in_flat_map. split.
      * intros (version & _ & Hb). split; [done|]. exists version.
        by apply list_elem_of_In.
      * intros [_ [version Hb]]. exists version.
        split; [|by apply list_elem_of_In].
        apply list_elem_of_In, elem_of_sorted, elem_of_iterdir.
        unfold ready_block in Hb. cbv zeta in Hb.
        destruct (is_dir (w_fs w) ((tiles_dir ++ [area]) ++ [version])) eqn:Hdv;
          [|by apply elem_of_nil in Hb].
        rewrite <- (same_shape_is_dir _ _ _ Hw1) in Hdv.
        apply is_dir_true in Hdv. by eexists.
  - cbv beta. intros o w1 [(yss & -> & Hyss) _]. eexists. split; [done|].
    intros b. rewrite (elem_of_concat_Forall2 P _ _ b Hyss). unfold P. split.
    + intros (area & _ & Hda & version & Hb). by exists area, version.
    + intros (area & version & Hda & Hb). exists area. split; [|split; [done|by exists version]].
      apply elem_of_sorted, elem_of_iterdir. apply is_dir_true in Hda. by eexists.
Qed.

Definition output_file (name : string) : path := output_dir ++ [name].

(** What [main] may write: [output_dir] and the directories above it, its
    two documents, and the [tilejson.json] of a version directory. *)
Definition may_write (tiles_dir q : path) : Prop :=
  q ∈ prefixes output_dir
  ∨ q = output_file "tiles-versions.conf" ∨ q = output_file "tiles-latest.conf"
  ∨ ∃ area version, q = tiles_dir ++ [area; version; "tilejson.json"].

(** [w'] differs from [w] only where [main] may write and by messages. *)
Definition wrote_only (tiles_dir : path) (w w' : world) : Prop :=
  (∀ q, ¬ may_write tiles_dir q → w_fs w' !! q = w_fs w !! q)
  ∧ w_loops w' = w_loops w ∧ w_mounts w' = w_mounts w
  ∧ ∃ l, w_log w' = w_log w ++ l ∧ Forall is_print l.

Lemma wrote_only_refl tiles_dir w : wrote_only tiles_dir w w.
Proof. split_and!; [done..|]. exists []. by rewrite app_nil_r. Qed.

Lemma wrote_only_print tiles_dir w w' m :
  wrote_only tiles_dir w w' → wrote_only tiles_dir w (log w' (EvPrint m)).
Proof.
  intros (H1 & H2 & H3 & l & H4 & H5). split_and!; [done..|].
  exists (l ++ [EvPrint m]). cbn [w_log log]. rewrite H4, (assoc_L (++)).
  split; [done|]. apply Forall_app. split; [done|].
  repeat constructor. apply is_print_print.
Qed.

Lemma wrote_only_insert tiles_dir w w' q n :
  may_write tiles_dir q →
  wrote_only tiles_dir w w' → wrote_only tiles_dir w (set_fs w' (<[q := n]> (w_fs w'))).
Proof.
  intros Hq (H1 & H2 & H3 & H4). split_and!; [|done..].
  intros q' Hq'. cbn [w_fs set_fs]. rewrite lookup_insert_ne; [by apply H1|].
  by intros <-.
Qed.

Lemma wrote_only_keeps tiles_dir w : keeps_updates tiles_dir (wrote_only tiles_dir w).
Proof.
  split.
  - intros w' m. apply wrote_only_print.
  - intros w' area version c0 c Hw' _. apply wrote_only_insert; [|done].
    right. right. right. by exists area, version.
Qed.

Lemma output_file_name (name : string) :
  is_name name = true → output_dir /: name = output_file name.
Proof. apply pjoin_name. Qed.

Lemma wp_write_output (tiles_dir : path) (name c : string) (w0 w : world) :
  name = "tiles-versions.conf" ∨ name = "tiles-latest.conf" →
  wrote_only tiles_dir w0 w →
  wp (write_file (output_file name) c) w
     (fun _ w' => wrote_only tiles_dir w0 w') (wrote_only tiles_dir w0).
Proof.
  intros Hname Hw.
  assert (may_write tiles_dir (output_file name)) as Hm.
  { destruct Hname as [-> | ->]; [right; by left|right; right; by left]. }
  apply wp_write_file.
  - intros _ _. split_and!; by apply wrote_only_insert.
  - done.
Qed.

Lemma wp_print_each {A} (l : list A) (m : A → msg) (J : world → Prop) (w : world) :
  (∀ w' x, J w' → J (log w' (EvPrint (m x)))) → J w →
  wp (for_each l (fun x => print (m x);; mret (@nil unit))) w
     (fun o w' => (∃ ys, o = Done ys) ∧ J w') J.
Proof.
  intros HJ Hw. apply wp_for_each_done; [|done].
  intros x w' _ Hw'. apply wp_bind, wp_print; [by apply HJ|]. apply wp_ret.
  split; [by eexists|by apply HJ].
Qed.

(** [main] after it has made [output_dir]. *)
Definition publish (tiles_dir : path) (domain : string) : M unit :=
  print (MsgInfo "Generating nginx configuration...");;
  print (MsgInfo ("  Tiles directory: " +:+ render tiles_dir));;
  print (MsgInfo ("  Domain: " +:+ domain));;
  version_configs ← generate_tile_locations e tiles_dir domain;
  (match version_configs with
   | [] => mret tt
   | _ =>
       let config_content := PyStr.join nl (List.map snd version_configs) in
       write_file (output_dir /: "tiles-versions.conf") config_content;;
       print (MsgGenerated "version configs" (length version_configs));;
       for_each version_configs (fun '(area, version, _) =>
         print (MsgInfo ("    - " +:+ area +:+ "/" +:+ version));; mret (@nil unit));;
       mret tt
   end);;
  latest_configs ← generate_latest_redirects tiles_dir;
  (match latest_configs with
  | [] => mret tt
  | _ =>
      let config_content := PyStr.join nl (List.map snd latest_configs) in
      write_file (output_dir /: "tiles-latest.conf") config_content;;
      print (MsgGenerated "latest configs" (length latest_configs));;
      for_each latest_configs (fun '(area, _) =>
        print (MsgInfo ("    - " +:+ area));; mret (@nil unit));;
      mret tt
  end);;
  print (MsgInfo "Configuration generation complete").

Lemma wp_main (w : world) (Q : outcome unit → world → Prop) (I : world → Prop) :
  wp (mkdir_parents output_dir ≫= λ _ : (),
        publish (Path (default "/data/tiles" (getenv e "TILES_DIR")))
                (default "localhost" (getenv e "NGINX_HOST"))) w Q I →
  wp (main e) w Q I.
Proof. intros H. exact H. Qed.

(** In the worlds of [J], [tiles_dir] and [output_dir] are directories and
    neither document is one. *)
Definition can_publish (tiles_dir : path) (J : world → Prop) : Prop :=
  ∀ w, J w →
       w_fs w !! tiles_dir = Some Dir ∧ w_fs w !! output_dir = Some Dir
       ∧ w_fs w !! output_file "tiles-versions.conf" ≠ Some Dir
       ∧ w_fs w !! output_file "tiles-latest.conf" ≠ Some Dir.

(** [publish], for an invariant that messages, the updates of
    [generate_tile_locations] and writing the two documents keep. *)
Lemma publish_keeps (tiles_dir : path) (domain : string) (J : world → Prop)
    (w : world) :
  keeps_updates tiles_dir J →
  (∀ w' name c,
     name = "tiles-versions.conf" ∨ name = "tiles-latest.conf" →
     J w' → J (set_fs w' (<[output_file name := File c]> (w_fs w')))) →
  J w →
  wp (publish tiles_dir domain) w
     (fun o w' => J w' ∧ (can_publish tiles_dir J → o = Done tt)) J.
Proof.
  intros HJ Hout Hw. pose proof HJ as [Hprint _].
  unfold publish. cbv zeta.
  rewrite !output_file_name by done.
  assert (parent (output_file "tiles-versions.conf") = output_dir) as Hp1
    by apply InitDownloadFacts.parent_snoc.
  assert (parent (output_file "tiles-latest.conf") = output_dir) as Hp2
    by apply InitDownloadFacts.parent_snoc.
  apply wp_bind, wp_print; [by apply Hprint|].
  apply wp_bind, wp_print; [by do 2 apply Hprint|].
  apply wp_bind, wp_print; [by do 3 apply Hprint|].
  apply wp_bind. eapply wp_mono;
    [apply (generate_tile_locations_keeps tiles_dir J); [done|by do 3 apply Hprint]
    | |done].
  cbv beta. cbn [w_fs log]. intros [vcs|ex] w2 [Hw2 Hret].
  2:{ split; [done|]. intros Hgood.
      destruct (Hgood w Hw) as (Ht%is_dir_true & _).
      by destruct Hret as [l Hl]; [left|]. }
  clear Hret.
  assert (∀ w3, J w3 →
    wp (generate_latest_redirects tiles_dir
        ≫= λ latest_configs : list (string * string),
             match latest_configs with
             | [] => mret ()
             | _ :: _ =>
                 write_file (output_file "tiles-latest.conf")
                   (PyStr.join nl (List.map snd latest_configs))
                 ≫= λ _ : (),
                      print (MsgGenerated "latest configs" (length latest_configs))
                      ≫= λ _ : (),
                           for_each latest_configs
                             (λ '(area, _),
                                print (MsgInfo ("    - " +:+ area))
                                ≫= λ _ : (), mret [])
                           ≫= λ _ : list (), mret ()
             end
             ≫= λ _ : (), print (MsgInfo "Configuration generation complete"))
       w3 (λ (o : outcome ()) (w' : world),
             J w' ∧ (can_publish tiles_dir J → o = Done tt)) J) as Hrest.
  { intros w3 Hw3. apply wp_bind. unfold generate_latest_redirects.
    apply wp_bind, wp_iterdir_m.
    2:{ intros Hd. split; [done|]. intros Hgood. by destruct (Hgood w3 Hw3) as (? & _). }
    intros _. apply wp_bind, wp_gets. apply wp_ret.
    destruct (flat_map _ _) as [|x lcs] eqn:E.
    - apply wp_bind, wp_ret. apply wp_print; [by apply Hprint|].
      split; [by apply Hprint|done].
    - apply wp_bind, wp_bind, wp_write_file.
      2:{ rewrite Hp2. intros Hbad. split; [done|]. split; [done|]. intros Hgood.
          destruct (Hgood w3 Hw3) as (_ & ? & _ & ?). by destruct Hbad. }
      intros _ _.
      split; [by apply Hout; [right|]|]. split; [by apply Hout; [right|]|].
      assert (J (set_fs w3 (<[output_file "tiles-latest.conf" :=
                 File (PyStr.join nl (List.map snd (x :: lcs)))]> (w_fs w3)))) as Hw4
        by (apply Hout; [by right|done]).
      apply wp_bind, wp_print; [by apply Hprint|].
      apply wp_bind. eapply wp_mono;
        [apply (wp_for_each_done _ _ J); [|by apply Hprint]| |done].
      + intros [area c] w5 _ Hw5. apply wp_bind, wp_print; [by apply Hprint|].
        apply wp_ret. split; [by eexists|by apply Hprint].
      + cbv beta. intros o w5 [[ys ->] Hw5]. apply wp_ret.
        apply wp_print; [by apply Hprint|]. split; [by apply Hprint|done]. }
  destruct vcs as [|x vcs].
  - apply wp_bind, wp_ret. by apply Hrest.
  - apply wp_bind, wp_bind, wp_write_file.
    2:{ rewrite Hp1. intros Hbad. split; [done|]. split; [done|]. intros Hgood.
        destruct (Hgood w2 Hw2) as (_ & ? & ? & _). by destruct Hbad. }
    intros _ _.
    split; [by apply Hout; [left|]|]. split; [by apply Hout; [left|]|].
    assert (J (set_fs w2 (<[output_file "tiles-versions.conf" :=
               File (PyStr.join nl (List.map snd (x :: vcs)))]> (w_fs w2)))) as Hw3
      by (apply Hout; [by left|done]).
    apply wp_bind, wp_print; [by apply Hprint|].
    apply wp_bind. eapply wp_mono;
      [apply (wp_for_each_done _ _ J); [|by apply Hprint]| |done].
    + intros [[area version] c] w5 _ Hw5. apply wp_bind, wp_print; [by apply Hprint|].
      apply wp_ret. split; [by eexists|by apply Hprint].
    + cbv beta. intros o w5 [[ys ->] Hw5]. apply wp_ret.
      by apply Hrest.
Qed.

Abbreviation env_tiles_dir := (Path (default "/data/tiles" (getenv e "TILES_DIR"))).

(** [main] writes where it may, and nowhere else, at every point. *)
Lemma main_wrote_only (w : world) :
  wp (main e) w (fun _ w' => wrote_only env_tiles_dir w w')
     (wrote_only env_tiles_dir w).
Proof.
  apply wp_main, wp_bind, wp_mkdir_parents.
  2:{ intros _. split; apply wrote_only_refl. }
  intros m1 Hm1.
  assert (wrote_only env_tiles_dir w (set_fs w m1)) as Hw1.
  { split_and!; [|done..|exists []; by rewrite app_nil_r].
    intros q Hq. cbn [w_fs set_fs]. apply (mkdir_p_other _ _ _ _ Hm1).
    intros Hp. apply Hq. by left. }
  split; [done|]. eapply wp_mono;
    [apply (publish_keeps env_tiles_dir _ (wrote_only env_tiles_dir w));
     [apply wrote_only_keeps| |done]| |done].
  - intros w' name c Hname Hw'. apply wrote_only_insert; [|done].
    destruct Hname as [-> | ->]; [right; by left|right; right; by left].
  - by intros o w' [H _].
Qed.

(** The directories of [m], and no others. *)
Definition same_dirs (m : gmap path node) (w : world) : Prop :=
  ∀ q, w_fs w !! q = Some Dir ↔ m !! q = Some Dir.

Lemma same_dirs_insert_file (m : gmap path node) (w : world) (p : path) (c : string) :
  w_fs w !! p ≠ Some Dir → same_dirs m w →
  same_dirs m (set_fs w (<[p := File c]> (w_fs w))).
Proof.
  intros Hp Hw q. cbn [w_fs set_fs]. destruct (decide (q = p)) as [->|Hq].
  - rewrite lookup_insert_eq. split; [done|]. intros Hm. by apply Hw in Hm.
  - rewrite lookup_insert_ne by done. apply Hw.
Qed.

(** With [tiles_dir] a directory, [output_dir] to be had and neither
    document a directory, [main] returns. *)
Lemma main_returns (w : world) (m1 : gmap path node) :
  mkdir_p (w_fs w) output_dir = Some m1 →
  w_fs w !! env_tiles_dir = Some Dir →
  w_fs w !! output_file "tiles-versions.conf" ≠ Some Dir →
  w_fs w !! output_file "tiles-latest.conf" ≠ Some Dir →
  out (main e w) = Done tt.
Proof.
  intros Hm1 Ht Hc1 Hc2.
  apply (wp_post (main e) w (fun o _ => o = Done tt)).
  apply wp_main, wp_bind, wp_act'. rewrite Hm1.
  intros o w1 [= <- <-]. split; [done|].
  assert (∀ name, m1 !! output_file name = w_fs w !! output_file name) as Hconf.
  { intros name. apply (mkdir_p_other _ _ _ _ Hm1).
    intros H%prefixes_length. unfold output_file in H.
    rewrite length_app in H. cbn in H. lia. }
  assert (∀ w' name c,
     name = "tiles-versions.conf" ∨ name = "tiles-latest.conf" →
     same_dirs m1 w' →
     same_dirs m1 (set_fs w' (<[output_file name := File c]> (w_fs w')))) as Hout.
  { intros w' name c Hname Hw'. apply same_dirs_insert_file; [|done].
    intros Hd%Hw'. rewrite Hconf in Hd. by destruct Hname as [-> | ->]. }
  eapply wp_mono;
    [apply (publish_keeps env_tiles_dir _ (same_dirs m1)); [|exact Hout|done]
    | |done].
  - split; [done|]. intros w' area version c0 c Hw' Hfile.
    apply same_dirs_insert_file; [|done].
    intros H. generalize (eq_trans (eq_sym Hfile) H). discriminate.
  - cbv beta. intros o w' [_ H]. apply H. intros w2 Hw2. split_and!.
    + apply Hw2. by eapply mkdir_p_keeps.
    + apply Hw2. by eapply mkdir_p_dir.
    + intros Hd%Hw2. by rewrite Hconf in Hd.
    + intros Hd%Hw2. by rewrite Hconf in Hd.
Qed.

(** Without the tiles directory [main] makes [output_dir], prints, and
    raises where it reads the directory for the latest versions. *)
Lemma main_without_tiles_dir (w : world) (m1 : gmap path node) :
  mkdir_p (w_fs w) output_dir = Some m1 →
  m1 !! env_tiles_dir = None →
  wp (main e) w
     (fun o w' => o = Raised (OSError env_tiles_dir) ∧ w_fs w' = m1
                  ∧ w_log w' = w_log w ++
                      [EvPrint (MsgInfo "Generating nginx configuration...");
                       EvPrint (MsgInfo ("  Tiles directory: "
                                         +:+ render env_tiles_dir));
                       EvPrint (MsgInfo ("  Domain: "
                                         +:+ default "localhost"
                                               (getenv e "NGINX_HOST")));
                       EvPrint (MsgNotFound env_tiles_dir)])
     (fun _ => True).
Proof.
  intros Hmk Ht. apply wp_main.
  apply wp_bind, wp_act'. rewrite Hmk. intros o w1 [= <- <-]. split; [done|].
  unfold publish. apply wp_bind, wp_print'. apply wp_bind, wp_print'.
  apply wp_bind, wp_print'. apply wp_bind. unfold generate_tile_locations.
  apply wp_bind, wp_gets. cbn [w_fs set_fs log].
  rewrite (proj2 (exists_false _ _) Ht). cbn [negb].
  apply wp_bind, wp_print'. apply wp_ret. apply wp_bind, wp_ret.
  apply wp_bind. unfold generate_latest_redirects.
  apply wp_bind, wp_iterdir_m; cbn [w_fs set_fs log]; [congruence|].
  intros _. split_and!; [done..|].
  cbn [w_log set_fs log]. by rewrite <- !(assoc_L (++)).
Qed.

End WithEnv.
End NginxMore.


(** * The claims of the specification *)

Module Claims.
Import Sys RunFacts.

(** ** Acquisition: [download_area] and [extract_tiles] *)




(** C2, as the code has it.  With an explicit version whose image is in
    place, [download_area] returns [True], and every world it passes
    through is the first one with at most the message that names the image
    added to the log: no request, no command, no change of the file
    system.  The same for [download_asset] and an asset whose [ofm]
    directory has entries.  With the version ["latest"], however, the
    listing is requested as soon as the output directory is made: before
    the image of any version is looked for. *)
Theorem present_pair_is_skipped :
  (∀ (e : env) (area version : string) (od : path) (w : world),
     is_name area = true → is_name version = true → version ≠ "latest" →
     fs_wf (w_fs w) = true →
     is_Some (w_fs w !! InitDownload.btrfs_file od area version) →
     let r := InitDownload.download_area e area version od w in
     let skipped :=
       log w (EvPrint (MsgAlreadyExists (InitDownload.btrfs_file od area version))) in
     out r = Done true ∧ fin r = skipped
     ∧ Forall (fun w' => w' = w ∨ w' = skipped) (hist r))
  ∧ (∀ (e : env) (asset_name : string) (assets_dir : path) (w : world),
       is_name asset_name = true → fs_wf (w_fs w) = true →
       w_fs w !! (assets_dir ++ [asset_name; "ofm"]) = Some Dir →
       iterdir (w_fs w) (assets_dir ++ [asset_name; "ofm"]) ≠ [] →
       let r := DownloadAssets.download_asset e asset_name assets_dir w in
       let skipped := log w (EvPrint (MsgSkipping asset_name)) in
       out r = Done true ∧ fin r = skipped
       ∧ Forall (fun w' => w' = w ∨ w' = skipped) (hist r))
  ∧ (∀ (e : env) (area : string) (od : path) (w : world) (m : gmap path node),
       mkdir_p (w_fs w) od = Some m →
       log (log (set_fs w m) (EvPrint (MsgFetchingVersions area)))
           (EvHttpGet (InitDownload.cdn_url e +:+ "/files.txt"))
       ∈ hist (InitDownload.download_area e area "latest" od w)).
Proof.
  split_and!.
  - intros e area version od w Ha Hv Hl%String.eqb_neq Hwf Hm r skipped.
    subst r skipped. rewrite InitDownloadFacts.btrfs_file_name in * by done.
    destruct (InitDownloadFacts.download_area_skip e area version od Ha Hv w Hl Hwf Hm)
      as [Hh [Ho Hf]].
    rewrite Hf. done.
  - intros e asset_name assets_dir w Hn Hwf Hofm Hne r skipped. subst r skipped.
    destruct (DownloadAssetsFacts.download_asset_skip e asset_name assets_dir w
                Hn Hwf Hofm Hne) as [Hh [Ho Hf]].
    rewrite Hf. done.
  - intros e area od w m Hm. by apply LatestFacts.download_area_latest_requests.
Qed.

(** C2, an instance: the image of the planet, version [v1], is in place. *)
Lemma present_pair_is_skipped_witness :
  let e := Examples.sample_env Examples.three_versions (5 * Examples.GB) 5242880 true in
  let w := Examples.downloaded_world in
  let r := InitDownload.download_area e "planet" "v1" Examples.btrfs_dir w in
  let skipped :=
    log w (EvPrint (MsgAlreadyExists
                      (InitDownload.btrfs_file Examples.btrfs_dir "planet" "v1"))) in
  out r = Done true ∧ fin r = skipped
  ∧ Forall (fun w' => w' = w ∨ w' = skipped) (hist r).
Proof.
  refine (proj1 present_pair_is_skipped _ "planet" "v1"
            Examples.btrfs_dir Examples.downloaded_world eq_refl eq_refl _ _ _).
  - done.
  - vm_compute; reflexivity.
  - exists (File "image"); vm_compute; reflexivity.
Defined.

(** C2, where the claim fails: the planet is downloaded as ["latest"] and
    asked for again as ["latest"].  The second call changes nothing on the
    file system and returns [True], but it has requested the listing. *)
Lemma latest_skipped_after_request :
  let e := Examples.sample_env Examples.three_versions (5 * Examples.GB) 5242880 true in
  let first := InitDownload.download_area e "planet" "latest"
                 Examples.btrfs_dir Examples.fresh_world in
  let second := InitDownload.download_area e "planet" "latest"
                  Examples.btrfs_dir (fin first) in
  let image := Examples.btrfs_dir ++ ["planet"; "20240102_000000"; "tiles.btrfs"] in
  out first = Done true
  ∧ w_fs (fin first) !! image = Some (File "image")
  ∧ out second = Done true
  ∧ w_fs (fin second) = w_fs (fin first)
  ∧ w_log (fin second) =
      w_log (fin first) ++
      [EvPrint (MsgFetchingVersions "planet");
       EvHttpGet "https://btrfs.openfreemap.com/files.txt";
       EvPrint (MsgLatestVersion "planet" "20240102_000000");
       EvPrint (MsgAlreadyExists image)].
Proof.
  cbv zeta. split_and!;
    [vm_compute; reflexivity | vm_compute; reflexivity | vm_compute; reflexivity
    | apply (bool_decide_unpack _); vm_compute; exact I | vm_compute; reflexivity].
Qed.

(** ** Version resolution: [get_latest_version] *)

(** C3, as the code has it.  When the listing is served, the result of
    [get_latest_version] is [latest_of] of the versions collected from its
    lines, and the file system is left alone.  [latest_of] is the greatest
    of the versions under the order of the strings, [None] when there is
    none.  A line is collected from when it contains [areas/<area>/] and
    [tiles.btrfs.gz] anywhere and has four components between slashes; what
    is collected is its third component.  Lines that are exactly
    [areas/<area>/<version>/tiles.btrfs.gz], of names without a slash, give
    their versions.  For the three versions of the example the result is
    [20240102_000000]. *)
Theorem get_latest_version_greatest_collected :
  (∀ (e : env) (area : string) (w : world) (status : Z) (text : string),
     http_get e (InitDownload.cdn_url e +:+ "/files.txt") = HttpReply status text →
     (status < 400 ∨ 600 ≤ status)%Z →
     let r := InitDownload.get_latest_version e area w in
     out r = Done (InitDownload.latest_of
                     (InitDownload.collect_versions area
                        (InitDownload.listing_lines text)))
     ∧ w_fs (fin r) = w_fs w)
  ∧ (∀ versions : list string,
       match InitDownload.latest_of versions with
       | Some v => v ∈ versions ∧ ∀ u, u ∈ versions → (u ≤ v)%string
       | None => versions = []
       end)
  ∧ (∀ (area : string) (lines : list string) (v : string),
       v ∈ InitDownload.collect_versions area lines ↔
       ∃ line, line ∈ lines
               ∧ PyStr.contains ("areas/" +:+ area +:+ "/") line = true
               ∧ PyStr.contains "tiles.btrfs.gz" line = true
               ∧ 4 ≤ length (PyStr.split PyStr.slash line)
               ∧ nth 2 (PyStr.split PyStr.slash line) "" = v)
  ∧ (∀ (area : string) (versions : list string),
       PyStrFacts.has_char PyStr.slash area = false →
       Forall (fun v => PyStrFacts.has_char PyStr.slash v = false) versions →
       InitDownload.collect_versions area
         (ResolveFacts.archive_line area <$> versions) = versions)
  ∧ (∀ w : world,
       out (InitDownload.get_latest_version
              (Examples.sample_env Examples.three_versions 0 0 true) "planet" w)
       = Done (Some "20240102_000000")).
Proof.
  split_and!.
  - intros e area w status text Hget Hst r. subst r.
    destruct (ResolveFacts.get_latest_version_wp e area w) as [_ [Ho Hf]].
    split; [|done]. rewrite Ho. unfold ResolveFacts.listed_latest. rewrite Hget.
    replace ((400 <=? status)%Z && (status <? 600)%Z) with false; [done|].
    symmetry. apply andb_false_iff. destruct Hst; [left|right]; lia.
  - apply ResolveFacts.latest_of_max.
  - intros area lines v. unfold InitDownload.collect_versions.
    rewrite list_elem_of_In, in_flat_map. split.
    + intros (line & Hin & Hv). exists line. apply list_elem_of_In in Hin.
      destruct (PyStr.contains ("areas/" +:+ area +:+ "/") line); [|done].
      destruct (PyStr.contains "tiles.btrfs.gz" line); [|done].
      cbn [andb] in Hv.
      destruct (Nat.leb_spec 4 (length (PyStr.split PyStr.slash line))) as [Hl|Hl];
        [|done].
      destruct Hv as [Hv|[]]. done.
    + intros (line & Hin & H1 & H2 & Hl & Hv). exists line.
      split; [by apply list_elem_of_In|]. rewrite H1, H2. cbn [andb].
      destruct (Nat.leb_spec 4 (length (PyStr.split PyStr.slash line))); [|lia].
      by left.
  - apply ResolveFacts.collect_versions_archive_lines.
  - intros w.
    destruct (ResolveFacts.get_latest_version_wp
                (Examples.sample_env Examples.three_versions 0 0 true) "planet" w)
      as [_ [Ho _]].
    rewrite Ho. vm_compute. reflexivity.
Qed.

(** C3, an instance: the listing of the example, served with status 200. *)
Lemma get_latest_version_greatest_collected_witness :
  let e := Examples.sample_env Examples.three_versions 0 0 true in
  let r := InitDownload.get_latest_version e "planet" Examples.fresh_world in
  out r = Done (InitDownload.latest_of
                  (InitDownload.collect_versions "planet"
                     (InitDownload.listing_lines Examples.three_versions)))
  ∧ w_fs (fin r) = w_fs Examples.fresh_world.
Proof.
  refine (proj1 get_latest_version_greatest_collected
            (Examples.sample_env Examples.three_versions 0 0 true) "planet"
            Examples.fresh_world 200%Z Examples.three_versions eq_refl _).
  left. lia.
Defined.

(** C3, where the claim fails: a line whose path has a directory before
    [areas] matches no [areas/<area>/<version>/tiles.btrfs.gz], yet a
    version is collected from it, and it is the name of the area. *)
Lemma get_latest_version_of_prefixed_line :
  out (InitDownload.get_latest_version
         (Examples.sample_env Examples.mirror_listing 0 0 true) "planet"
         Examples.fresh_world)
  = Done (Some "planet")
  ∧ Spec.resolve_latest_spec "planet"
      (InitDownload.listing_lines Examples.mirror_listing) = None.
Proof. vm_compute. split; reflexivity. Qed.

(** ** The disk space check of [download_area] *)

(** C4.  [get_remote_file_size] returns the length the server announces
    with status 200, and 0 when it is not known.  For an image that is not
    yet there, under an output directory that can be made: when the size is
    known and the free space is under three times the size, [download_area]
    returns [False] having printed both counts and run no command, the
    staging directory made and nothing else; when three times the size
    fits, the download is started; when the size is not known, the check is
    left out and the download is started after a warning.  The two counts
    are first divided into gigabytes for the messages, which the floats
    allow for counts below 2^1054 - 2^1000 in absolute value
    ([gigabytes_bound], a number of 318 digits): this is asked of both
    counts; for a count beyond, the division raises [OverflowError] before
    anything is printed or compared, and no command is run either.  With
    5 GB announced, 10 GB free are refused for the 15 GB needed, and 20 GB
    free are enough. *)
Theorem download_area_needs_three_times_the_size :
  (∀ (e : env) (area version : string) (od : path) (w : world)
     (m1 m2 : gmap path node),
     is_name area = true → is_name version = true → version ≠ "latest" →
     mkdir_p (w_fs w) od = Some m1 →
     m1 !! InitDownload.btrfs_file od area version = None →
     mkdir_p m1 (InitDownload.temp_dir od) = Some m2 →
     let url := InitDownload.archive_url e area version in
     let file_size := InitDownloadFacts.size_of_reply (http_head e url) in
     let stat := statvfs e (InitDownload.temp_dir od) in
     let free_space := (stat.1 * stat.2)%Z in
     let needed_space := (file_size * 3)%Z in
     let download :=
       EvRun (InitDownload.aria2c_cmd url (InitDownload.compressed_file od)) in
     let fits (count : Z) := (Z.abs count < InitDownload.gigabytes_bound)%Z in
     let r := InitDownload.download_area e area version od w in
     (∀ w0, out (InitDownload.get_remote_file_size e url w0) = Done file_size)
     ∧ (file_size ≠ 0%Z → fits free_space → fits needed_space →
        (free_space < needed_space)%Z →
        out r = Done false ∧ w_fs (fin r) = m2
        ∧ w_log (fin r) =
            w_log w ++
            [EvPrint (MsgDownloading (area +:+ " " +:+ version));
             EvPrint (MsgDownloading url); EvHttpHead url;
             EvPrint (MsgDiskCheck free_space needed_space);
             EvPrint (MsgNotEnoughSpace free_space needed_space)])
     ∧ (file_size ≠ 0%Z → fits free_space → fits needed_space →
        (needed_space ≤ free_space)%Z →
        ∃ l, w_log (fin r) = w_log w ++ l ∧ download ∈ l
             ∧ EvPrint (MsgDiskCheck free_space needed_space) ∈ l)
     ∧ (file_size = 0%Z →
        ∃ l, w_log (fin r) = w_log w ++ l ∧ download ∈ l
             ∧ EvPrint MsgWarnUnknownSize ∈ l)
     ∧ (file_size ≠ 0%Z → ¬ (fits free_space ∧ fits needed_space) →
        out r = Raised OverflowError ∧ w_fs (fin r) = m2
        ∧ w_log (fin r) =
            w_log w ++
            [EvPrint (MsgDownloading (area +:+ " " +:+ version));
             EvPrint (MsgDownloading url); EvHttpHead url]))
  ∧ (let e := Examples.sample_env Examples.three_versions
                (5 * Examples.GB) 2621440 true in
     let r := InitDownload.download_area e "planet" "20240102_000000"
                Examples.btrfs_dir Examples.fresh_world in
     out r = Done false
     ∧ last (w_log (fin r))
       = Some (EvPrint (MsgNotEnoughSpace (10 * Examples.GB) (15 * Examples.GB)))
     ∧ existsb (fun ev => match ev with EvRun _ => true | _ => false end)
               (w_log (fin r)) = false)
  ∧ (let e := Examples.sample_env Examples.three_versions
                (5 * Examples.GB) 5242880 true in
     let r := InitDownload.download_area e "planet" "20240102_000000"
                Examples.btrfs_dir Examples.fresh_world in
     out r = Done true
     ∧ EvPrint (MsgDiskCheck (20 * Examples.GB) (15 * Examples.GB)) ∈ w_log (fin r)
     ∧ w_fs (fin r) !! InitDownload.btrfs_file Examples.btrfs_dir
                         "planet" "20240102_000000" = Some (File "image")).
Proof.
  split_and!.
  - intros e area version od w m1 m2 Ha Hv Hl%String.eqb_neq Hm1 Hmk Hm2
      url file_size stat free_space needed_space download fits r.
    rewrite InitDownloadFacts.btrfs_file_name in Hmk by done.
    rewrite InitDownloadFacts.temp_dir_name in Hm2.
    destruct (InitDownloadFacts.download_area_preflight e area version od Ha Hv
                w m1 m2 Hl Hm1 Hmk Hm2) as [_ (H1 & H2 & H3 & H4)].
    subst download stat free_space.
    rewrite InitDownloadFacts.compressed_file_name, InitDownloadFacts.temp_dir_name.
    split_and!; [|exact H1|exact H2|exact H3|exact H4].
    intros w0.
    by destruct (InitDownloadFacts.wp_get_remote_file_size e url w0
                   (fun o _ => o = Done file_size) (fun _ => True)).
  - cbv zeta. split_and!; vm_compute; reflexivity.
  - cbv zeta. split_and!;
      [vm_compute; reflexivity
      | vm_compute; repeat first [apply list_elem_of_here | apply list_elem_of_further]
      | vm_compute; reflexivity].
Qed.

(** C4, an instance: 5 GB announced and 10 GB free. *)
Lemma download_area_needs_three_times_the_size_witness :
  let e := Examples.sample_env Examples.three_versions (5 * Examples.GB) 2621440 true in
  let r := InitDownload.download_area e "planet" "20240102_000000"
             Examples.btrfs_dir Examples.fresh_world in
  out r = Done false
  ∧ w_log (fin r) =
      [EvPrint (MsgDownloading "planet 20240102_000000");
       EvPrint (MsgDownloading (InitDownload.archive_url e "planet" "20240102_000000"));
       EvHttpHead (InitDownload.archive_url e "planet" "20240102_000000");
       EvPrint (MsgDiskCheck (10 * Examples.GB) (15 * Examples.GB));
       EvPrint (MsgNotEnoughSpace (10 * Examples.GB) (15 * Examples.GB))].
Proof.
  cbv zeta.
  pose (e := Examples.sample_env Examples.three_versions (5 * Examples.GB) 2621440 true).
  pose (m1 := <[["data"; "btrfs"] := Dir]> (<[["data"] := Dir]> (w_fs Examples.fresh_world))).
  destruct (proj1 download_area_needs_three_times_the_size e
              "planet" "20240102_000000" Examples.btrfs_dir Examples.fresh_world
              m1 (<[["data"; "btrfs"; "_tmp"] := Dir]> m1))
    as (_ & H & _ & _ & _); [reflexivity | reflexivity | done | ..].
  - apply (bool_decide_unpack _). vm_compute. exact I.
  - vm_compute. reflexivity.
  - apply (bool_decide_unpack _). vm_compute. exact I.
  - destruct H as (Ho & _ & Hlog);
      [vm_compute; discriminate | vm_compute; reflexivity | vm_compute; reflexivity
      | vm_compute; reflexivity|].
    split; [exact Ho | exact Hlog].
Defined.

(** ** The loop device of [extract_tiles] *)

(** C5, where the code fails.  The image is attached to [/dev/loop0] by
    [mount_btrfs], and the mount that follows fails: [mount_btrfs] raises
    before it returns the device, [loop_device] is still [None] in
    [extract_tiles], and the [finally] clause releases nothing.  The run
    returns [False] with the device attached, no [umount] and no
    [losetup -d] in its log.  A second path: the copy succeeds and
    [umount] fails; [losetup -d] is in the same [try] after it and is not
    run.  When it is the copy that fails, the device is released. *)
Lemma loop_device_left_attached :
  let image := Examples.btrfs_dir ++ ["planet"; "v1"; "tiles.btrfs"] in
  let extract (e : env) :=
    ExtractBtrfs.extract_tiles e image Examples.tiles_dir "planet" "v1"
      Examples.downloaded_world in
  let ran (cmd : string) (r : run bool) :=
    existsb (fun ev => match ev with
                       | EvRun (c :: _) => String.eqb c cmd
                       | _ => false
                       end) (w_log (fin r)) in
  let detached (r : run bool) :=
    existsb (fun ev => match ev with
                       | EvRun ("losetup" :: "-d" :: _) => true
                       | _ => false
                       end) (w_log (fin r)) in
  let unmountable := extract (Examples.sample_env "" 0 0 false) in
  let busy := extract (Examples.failing (Examples.sample_env "" 0 0 true) true false) in
  let uncopied := extract (Examples.failing (Examples.sample_env "" 0 0 true) false true) in
  (out unmountable = Done false
   ∧ w_loops (fin unmountable) = [("/dev/loop0", image)]
   ∧ ran "mount" unmountable = true
   ∧ ran "umount" unmountable = false
   ∧ detached unmountable = false)
  ∧ (w_loops (fin busy) = [("/dev/loop0", image)]
     ∧ ran "umount" busy = true
     ∧ detached busy = false)
  ∧ (out uncopied = Done false
     ∧ w_loops (fin uncopied) = []
     ∧ w_mounts (fin uncopied) = []
     ∧ ran "umount" uncopied = true
     ∧ detached uncopied = true).
Proof. vm_compute. split_and!; reflexivity. Qed.

(** ** Publication: generate-nginx-config.py *)

(** C6.  On the tree with the areas alpha, of versions v1 and v2, and beta,
    of version v1, each version with its tiles and both documents, with
    [NGINX_HOST] and [TILES_DIR] unset: [generate_tile_locations] gives
    three blocks, two of alpha and one of beta, in sorted order;
    [generate_latest_redirects] gives the alias blocks of alpha and of
    beta; [main] writes the blocks, joined by a line feed, as the whole
    text of the two configuration files, whatever these held before; and
    run again on what it left, [main] leaves the same file system.  The
    text of the two files is written out below, line by line: the alias
    block of alpha serves [/alpha] from the document of v2, and the paths
    [/alpha/<any version>] and [/alpha/<any version>/...] from the
    directory and the tiles of v2. *)
Theorem publish_alpha_beta (old_versions old_latest : string) :
  let e := Examples.sample_env "" 0 0 true in
  let w := Examples.publish_world old_versions old_latest in
  let includes := ["etc"; "nginx"; "includes"] in
  let nl := String "010"%char EmptyString in
  let dq := String "034"%char EmptyString in
  let tiles_versions_conf :=
    String.concat nl
      ["# Specific version: alpha/v1";
       "location = /alpha/v1 {";
       "    alias /data/tiles/alpha/v1/tilejson.json;";
       "    expires 1w;";
       "    default_type application/json;";
       "    add_header 'Access-Control-Allow-Origin' '*' always;";
       "    add_header Cache-Control public;";
       "    add_header X-Robots-Tag " +:+ dq +:+ "noindex, nofollow" +:+ dq +:+ " always;";
       "    add_header x-ofm-debug 'specific JSON alpha v1';";
       "}";
       "";
       "location ^~ /alpha/v1/ {";
       "    alias /data/tiles/alpha/v1/tiles/;";
       "    try_files $uri @empty_tile;";
       "    add_header Content-Encoding gzip;";
       "    expires 10y;";
       "    ";
       "    types {";
       "        application/vnd.mapbox-vector-tile pbf;";
       "    }";
       "    ";
       "    add_header 'Access-Control-Allow-Origin' '*' always;";
       "    add_header Cache-Control public;";
       "    add_header X-Robots-Tag " +:+ dq +:+ "noindex, nofollow" +:+ dq +:+ " always;";
       "    add_header x-ofm-debug 'specific PBF alpha v1';";
       "}";
       "";
       "# Specific version: alpha/v2";
       "location = /alpha/v2 {";
       "    alias /data/tiles/alpha/v2/tilejson.json;";
       "    expires 1w;";
       "    default_type application/json;";
       "    add_header 'Access-Control-Allow-Origin' '*' always;";
       "    add_header Cache-Control public;";
       "    add_header X-Robots-Tag " +:+ dq +:+ "noindex, nofollow" +:+ dq +:+ " always;";
       "    add_header x-ofm-debug 'specific JSON alpha v2';";
       "}";
       "";
       "location ^~ /alpha/v2/ {";
       "    alias /data/tiles/alpha/v2/tiles/;";
       "    try_files $uri @empty_tile;";
       "    add_header Content-Encoding gzip;";
       "    expires 10y;";
       "    ";
       "    types {";
       "        application/vnd.mapbox-vector-tile pbf;";
       "    }";
       "    ";
       "    add_header 'Access-Control-Allow-Origin' '*' always;";
       "    add_header Cache-Control public;";
       "    add_header X-Robots-Tag " +:+ dq +:+ "noindex, nofollow" +:+ dq +:+ " always;";
       "    add_header x-ofm-debug 'specific PBF alpha v2';";
       "}";
       "";
       "# Specific version: beta/v1";
       "location = /beta/v1 {";
       "    alias /data/tiles/beta/v1/tilejson.json;";
       "    expires 1w;";
       "    default_type application/json;";
       "    add_header 'Access-Control-Allow-Origin' '*' always;";
       "    add_header Cache-Control public;";
       "    add_header X-Robots-Tag " +:+ dq +:+ "noindex, nofollow" +:+ dq +:+ " always;";
       "    add_header x-ofm-debug 'specific JSON beta v1';";
       "}";
       "";
       "location ^~ /beta/v1/ {";
       "    alias /data/tiles/beta/v1/tiles/;";
       "    try_files $uri @empty_tile;";
       "    add_header Content-Encoding gzip;";
       "    expires 10y;";
       "    ";
       "    types {";
       "        application/vnd.mapbox-vector-tile pbf;";
       "    }";
       "    ";
       "    add_header 'Access-Control-Allow-Origin' '*' always;";
       "    add_header Cache-Control public;";
       "    add_header X-Robots-Tag " +:+ dq +:+ "noindex, nofollow" +:+ dq +:+ " always;";
       "    add_header x-ofm-debug 'specific PBF beta v1';";
       "}";
       ""] in
  let tiles_latest_conf :=
    String.concat nl
      ["# Latest version redirect: alpha -> v2";
       "location = /alpha {";
       "    alias /data/tiles/alpha/v2/tilejson.json;";
       "    expires 1d;";
       "    default_type application/json;";
       "    add_header 'Access-Control-Allow-Origin' '*' always;";
       "    add_header Cache-Control public;";
       "    add_header X-Robots-Tag " +:+ dq +:+ "noindex, nofollow" +:+ dq +:+ " always;";
       "    add_header x-ofm-debug 'latest JSON alpha';";
       "}";
       "";
       "# Wildcard version support for alpha";
       "location ~ ^/alpha/([^/]+)$ {";
       "    root /data/tiles/alpha/v2;";
       "    try_files /tilejson.json =404;";
       "    expires 1w;";
       "    default_type application/json;";
       "    add_header 'Access-Control-Allow-Origin' '*' always;";
       "    add_header Cache-Control public;";
       "    add_header X-Robots-Tag " +:+ dq +:+ "noindex, nofollow" +:+ dq +:+ " always;";
       "    add_header x-ofm-debug 'wildcard JSON alpha';";
       "}";
       "";
       "location ~ ^/alpha/([^/]+)/(.+)$ {";
       "    root /data/tiles/alpha/v2/tiles/;";
       "    try_files /$2 @empty_tile;";
       "    add_header Content-Encoding gzip;";
       "    expires 10y;";
       "    ";
       "    types {";
       "        application/vnd.mapbox-vector-tile pbf;";
       "    }";
       "    ";
       "    add_header 'Access-Control-Allow-Origin' '*' always;";
       "    add_header Cache-Control public;";
       "    add_header X-Robots-Tag " +:+ dq +:+ "noindex, nofollow" +:+ dq +:+ " always;";
       "    add_header x-ofm-debug 'wildcard PBF alpha';";
       "}";
       "";
       "# Latest version redirect: beta -> v1";
       "location = /beta {";
       "    alias /data/tiles/beta/v1/tilejson.json;";
       "    expires 1d;";
       "    default_type application/json;";
       "    add_header 'Access-Control-Allow-Origin' '*' always;";
       "    add_header Cache-Control public;";
       "    add_header X-Robots-Tag " +:+ dq +:+ "noindex, nofollow" +:+ dq +:+ " always;";
       "    add_header x-ofm-debug 'latest JSON beta';";
       "}";
       "";
       "# Wildcard version support for beta";
       "location ~ ^/beta/([^/]+)$ {";
       "    root /data/tiles/beta/v1;";
       "    try_files /tilejson.json =404;";
       "    expires 1w;";
       "    default_type application/json;";
       "    add_header 'Access-Control-Allow-Origin' '*' always;";
       "    add_header Cache-Control public;";
       "    add_header X-Robots-Tag " +:+ dq +:+ "noindex, nofollow" +:+ dq +:+ " always;";
       "    add_header x-ofm-debug 'wildcard JSON beta';";
       "}";
       "";
       "location ~ ^/beta/([^/]+)/(.+)$ {";
       "    root /data/tiles/beta/v1/tiles/;";
       "    try_files /$2 @empty_tile;";
       "    add_header Content-Encoding gzip;";
       "    expires 10y;";
       "    ";
       "    types {";
       "        application/vnd.mapbox-vector-tile pbf;";
       "    }";
       "    ";
       "    add_header 'Access-Control-Allow-Origin' '*' always;";
       "    add_header Cache-Control public;";
       "    add_header X-Robots-Tag " +:+ dq +:+ "noindex, nofollow" +:+ dq +:+ " always;";
       "    add_header x-ofm-debug 'wildcard PBF beta';";
       "}";
       ""] in
  let r := NginxConfig.main e w in
  (∃ blocks,
     out (NginxConfig.generate_tile_locations e Examples.tiles_dir "localhost" w)
     = Done blocks
     ∧ List.map fst blocks = [("alpha", "v1"); ("alpha", "v2"); ("beta", "v1")]
     ∧ String.concat nl (List.map snd blocks) = tiles_versions_conf)
  ∧ (∃ blocks,
       out (NginxConfig.generate_latest_redirects Examples.tiles_dir w) = Done blocks
       ∧ List.map fst blocks = ["alpha"; "beta"]
       ∧ String.concat nl (List.map snd blocks) = tiles_latest_conf)
  ∧ out r = Done tt
  ∧ w_fs (fin r) !! (includes ++ ["tiles-versions.conf"])
    = Some (File tiles_versions_conf)
  ∧ w_fs (fin r) !! (includes ++ ["tiles-latest.conf"])
    = Some (File tiles_latest_conf)
  ∧ w_fs (fin (NginxConfig.main e (fin r))) = w_fs (fin r).
Proof.
  cbv zeta. split_and!.
  - eexists. split; [vm_compute; reflexivity|]. split; vm_compute; reflexivity.
  - eexists. split; [vm_compute; reflexivity|]. split; vm_compute; reflexivity.
  - vm_compute; reflexivity.
  - vm_compute; reflexivity.
  - vm_compute; reflexivity.
  - apply (bool_decide_unpack _); vm_compute; exact I.
Qed.

(** C7.  A float of a JSON document is kept as the text [json.dump]
    writes for it; of Python's [repr] and [float] it is assumed that the
    text written for a float that was read is the text of a float and
    reads back as the same text ([float_repr_ok]).  Then, whatever the
    file holds and whatever the limits of the interpreter are, updating a
    TileJSON file twice for the same host, area and version leaves the
    file system that updating it once left: the bytes of the file, and of
    every other file, are those of the first update.  When the file holds
    an object, what the first update left in the file is what [json.dump]
    wrote of the object with its [tiles] replaced, which is the whole
    serialisation when [json.dump] came to its end. *)
Theorem update_tilejson_twice
    (e : env) (p : path) (domain area version : string) (w : world) :
  JsonFacts.float_repr_ok (float_repr e) →
  let once := fin (NginxConfig.update_tilejson e p domain area version w) in
  let twice := fin (NginxConfig.update_tilejson e p domain area version once) in
  w_fs twice = w_fs once
  ∧ w_fs twice !! p = w_fs once !! p
  ∧ (∀ (text : string) (d : list (list N * Json.value)),
       w_fs w !! p = Some (File text) → w_fs w !! parent p = Some Dir →
       Json.load (float_repr e) (max_str_digits e) (load_depth e) text
       = Some (Json.Obj d) →
       let address := Json.of_string (NginxConfig.tile_url domain area version) in
       let document :=
         Json.Obj (Json.dict_set (Json.of_string "tiles")
                     (Json.Arr [Json.Str address]) d) in
       let written := Json.dump (max_str_digits e) (dump_depth e) document in
       w_fs once !! p = Some (File written.1)
       ∧ (written.2 = None →
          written.1 = String.string_of_list_ascii (Json.dumps document))).
Proof.
  intros Hfr once twice. subst once twice.
  rewrite !NginxFacts.update_tilejson_fs, NginxFacts.updated_fs_idemp by done.
  split_and!; [done|done|].
  intros text d Hp Hd Hl address document written. split.
  - unfold NginxFacts.updated_fs. rewrite Hp, Hd, Hl. by rewrite lookup_insert_eq.
  - subst written. unfold Json.dump.
    destruct (Json.dumps_to (max_str_digits e) (dump_depth e) document)
      as [t stopped] eqn:E.
    cbn [fst snd]. intros ->. f_equal.
    by eapply JsonCutShort.dumps_to_whole.
Qed.

(** C7, an instance: the document of the examples, with its floats. *)
Lemma update_tilejson_twice_witness :
  let e := Examples.sample_env "" 0 0 true in
  let w := Examples.publish_world "" "" in
  let once := fin (NginxConfig.update_tilejson e Examples.alpha_v1_tilejson
                     "tiles.example.org" "alpha" "v1" w) in
  let twice := fin (NginxConfig.update_tilejson e Examples.alpha_v1_tilejson
                      "tiles.example.org" "alpha" "v1" once) in
  w_fs twice !! Examples.alpha_v1_tilejson = w_fs once !! Examples.alpha_v1_tilejson
  ∧ w_fs once !! Examples.alpha_v1_tilejson
    = Some (File (String.string_of_list_ascii
                    (Json.dumps
                       (Json.Obj
                          [(Json.of_string "tilejson", Json.Str (Json.of_string "3.0.0"));
                           (Json.of_string "tiles",
                            Json.Arr [Json.Str (Json.of_string
                              "https://tiles.example.org/alpha/v1/{z}/{x}/{y}.pbf")]);
                           (Json.of_string "bounds",
                            Json.Arr [Json.Int (-180); Json.Float "-85.05113";
                                      Json.Int 180; Json.Float "85.05113"]);
                           (Json.of_string "minzoom", Json.Int 0);
                           (Json.of_string "maxzoom", Json.Int 14)])))).
Proof.
  cbv zeta.
  destruct (update_tilejson_twice (Examples.sample_env "" 0 0 true)
              Examples.alpha_v1_tilejson "tiles.example.org" "alpha" "v1"
              (Examples.publish_world "" "") JsonFacts.sample_float_repr_ok)
    as (_ & H2 & H3).
  split; [exact H2|].
  destruct (H3 Examples.tilejson_text Examples.tilejson_members) as [H4 H5];
    [vm_compute; reflexivity | vm_compute; reflexivity | vm_compute; reflexivity |].
  rewrite H4, H5 by (vm_compute; reflexivity).
  vm_compute; reflexivity.
Defined.

(** C8.  Under the same assumption on floats, for a file that holds an
    object and can be written, and an interpreter whose limits the object
    is within: it asks of [json.dump] no more frames than [json.dump] can
    enter (one for each array and object around a value and one more
    around a float, [frames_of]), and [json.dump] and [json.load] can go
    the two levels that the list of [tiles] takes.  Then the updated file
    is the serialisation of an object and is read as that object; its
    [tiles] is the list of the one address made of the host, the area and
    the version; every other key has the value it had, the keys that were
    there are in the order they were in, and every other file is what it
    was.  The address starts with [https] for every host but [localhost],
    for which it starts with [http]. *)
Theorem update_tilejson_changes_tiles_only
    (e : env) (p : path) (domain area version : string) (w : world)
    (text : string) (d : list (list N * Json.value)) :
  JsonFacts.float_repr_ok (float_repr e) →
  w_fs w !! p = Some (File text) → w_fs w !! parent p = Some Dir →
  Json.load (float_repr e) (max_str_digits e) (load_depth e) text = Some (Json.Obj d) →
  let address := NginxConfig.tile_url domain area version in
  let tiles := Json.of_string "tiles" in
  JsonFrames.frames_of (Json.Obj d) ≤ dump_depth e →
  2 ≤ dump_depth e → 2 ≤ load_depth e →
  let w' := fin (NginxConfig.update_tilejson e p domain area version w) in
  (∃ (text' : string) (d' : list (list N * Json.value)),
     w_fs w' !! p = Some (File text')
     ∧ text' = String.string_of_list_ascii (Json.dumps (Json.Obj d'))
     ∧ Json.load (float_repr e) (max_str_digits e) (load_depth e) text'
       = Some (Json.Obj d')
     ∧ Json.dict_get tiles d' = Some (Json.Arr [Json.Str (Json.of_string address)])
     ∧ (∀ k, k ≠ tiles → Json.dict_get k d' = Json.dict_get k d)
     ∧ (∀ k, k ∈ d'.*1 ↔ k = tiles ∨ k ∈ d.*1)
     ∧ (tiles ∈ d.*1 → d'.*1 = d.*1))
  ∧ (∀ q, q ≠ p → w_fs w' !! q = w_fs w !! q)
  ∧ (domain ≠ "localhost" →
     address = "https://" +:+ domain +:+ "/" +:+ area +:+ "/" +:+ version
               +:+ "/{z}/{x}/{y}.pbf")
  ∧ (domain = "localhost" →
     address = "http://localhost/" +:+ area +:+ "/" +:+ version
               +:+ "/{z}/{x}/{y}.pbf").
Proof.
  intros Hfr Hp Hd Hl address tiles Hframes Hdump Hdepth w'. subst w'.
  rewrite NginxFacts.update_tilejson_fs. unfold NginxFacts.updated_fs.
  rewrite Hp, Hd, Hl.
  set (d' := Json.dict_set tiles (NginxFacts.tiles_value domain area version) d).
  change (NginxFacts.updated_document domain area version d) with (Json.Obj d').
  destruct (JsonReadBack.load_wf _ _ Hfr _ _ _ Hl) as [Hwf Hdd].
  assert (JsonFacts.wf (float_repr e) (max_str_digits e) (Json.Obj d')) as Hwf'
    by by apply NginxFacts.updated_document_wf.
  rewrite (JsonFrames.dump_written_out (float_repr e)) by
    (try done; rewrite JsonFrames.frames_obj in *;
     pose proof (JsonFrames.members_frames_set tiles
                   (NginxFacts.tiles_value domain area version) d) as Hm;
     change (JsonFrames.frames_of (NginxFacts.tiles_value domain area version))
       with 1 in Hm;
     fold d' in Hm; lia).
  cbn [fst].
  split_and!.
  - exists (String.string_of_list_ascii (Json.dumps (Json.Obj d'))), d'. split_and!.
    + by rewrite lookup_insert_eq.
    + done.
    + apply JsonReadBack.load_dumps; [done|].
      * rewrite JsonFacts.depth_obj in Hdd.
        change (JsonFacts.depth_of (Json.Obj d') ≤ load_depth e).
        rewrite JsonFacts.depth_obj.
        pose proof (JsonFacts.members_depth_set tiles
                      (NginxFacts.tiles_value domain area version) d) as Hm.
        change (JsonFacts.depth_of (NginxFacts.tiles_value domain area version))
          with 1 in Hm.
        fold d' in Hm. lia.
    + apply JsonFacts.dict_get_set_eq.
    + intros k Hk. by apply JsonFacts.dict_get_set_ne.
    + intros k. subst d'.
      destruct (decide (tiles ∈ d.*1)) as [Hin|Hin].
      * rewrite JsonFacts.dict_set_keys_in by done. split; [by right|].
        by intros [->|?].
      * rewrite JsonFacts.dict_set_keys_notin, fmap_app, elem_of_app by done.
        cbn [fmap list_fmap fst]. rewrite list_elem_of_singleton. tauto.
    + intros Hin. by apply JsonFacts.dict_set_keys_in.
  - intros q Hq. by rewrite lookup_insert_ne.
  - intros Hne%String.eqb_neq. subst address. unfold NginxConfig.tile_url.
    rewrite Hne. reflexivity.
  - intros ->. subst address. unfold NginxConfig.tile_url.
    reflexivity.
Qed.

(** C8, an instance: the document of the examples keeps its version, its
    bounds and its zoom levels. *)
Lemma update_tilejson_changes_tiles_only_witness :
  let e := Examples.sample_env "" 0 0 true in
  let w' := fin (NginxConfig.update_tilejson e Examples.alpha_v1_tilejson
                   "tiles.example.org" "alpha" "v1" (Examples.publish_world "" "")) in
  ∃ (text' : string) (d' : list (list N * Json.value)),
    w_fs w' !! Examples.alpha_v1_tilejson = Some (File text')
    ∧ Json.load (float_repr e) (max_str_digits e) (load_depth e) text'
      = Some (Json.Obj d')
    ∧ Json.dict_get (Json.of_string "tiles") d'
      = Some (Json.Arr [Json.Str (Json.of_string
                (NginxConfig.tile_url "tiles.example.org" "alpha" "v1"))])
    ∧ Json.dict_get (Json.of_string "tilejson") d'
      = Some (Json.Str (Json.of_string "3.0.0"))
    ∧ Json.dict_get (Json.of_string "bounds") d'
      = Some (Json.Arr [Json.Int (-180); Json.Float "-85.05113";
                        Json.Int 180; Json.Float "85.05113"])
    ∧ Json.dict_get (Json.of_string "minzoom") d' = Some (Json.Int 0)
    ∧ Json.dict_get (Json.of_string "maxzoom") d' = Some (Json.Int 14).
Proof.
  cbv zeta.
  destruct (update_tilejson_changes_tiles_only (Examples.sample_env "" 0 0 true)
              Examples.alpha_v1_tilejson
              "tiles.example.org" "alpha" "v1" (Examples.publish_world "" "")
              Examples.tilejson_text Examples.tilejson_members
              JsonFacts.sample_float_repr_ok)
    as [(text' & d' & H1 & _ & H2 & H3 & H4 & _) _];
    [vm_compute; reflexivity | vm_compute; reflexivity | vm_compute; reflexivity
    | vm_compute; lia | vm_compute; lia | vm_compute; lia |].
  exists text', d'. split_and!; [exact H1 | exact H2 | exact H3 | ..].
  - by rewrite H4.
  - by rewrite H4.
  - by rewrite H4.
  - by rewrite H4.
Defined.

(** ** Staging of [download_area] *)

(** C9, as the code has it.  The staging directory of [download_area] is
    [_tmp] under the output directory, and the archive is staged as
    [_tmp/tiles.btrfs.gz]: whatever the pair; [download_sprites] stages
    every sprite archive as [sprites/temp.tar.gz].  Distinct pairs of plain
    names have distinct images, in distinct final directories.  In every
    world a run passes through and in the one it ends in, a path that is
    neither under the staging directory nor the image of the pair or a
    directory above it holds what it held before. *)
Theorem download_area_staging_shared_finals_apart :
  (∀ (od : path) (area version area' version' : string),
     is_name area = true → is_name version = true →
     is_name area' = true → is_name version' = true →
     (area, version) ≠ (area', version') →
     InitDownload.area_version_dir od area version
       ≠ InitDownload.area_version_dir od area' version'
     ∧ InitDownload.btrfs_file od area version
         ≠ InitDownload.btrfs_file od area' version')
  ∧ (∀ od : path,
       InitDownload.temp_dir od = od ++ ["_tmp"]
       ∧ InitDownload.compressed_file od = od ++ ["_tmp"; "tiles.btrfs.gz"]
       ∧ InitDownload.decompressed_file od = od ++ ["_tmp"; "tiles.btrfs"])
  ∧ (∀ assets_dir : path,
       DownloadAssets.temp_archive assets_dir
       = assets_dir ++ ["sprites"; "temp.tar.gz"])
  ∧ (∀ (e : env) (area version : string) (od : path) (w : world),
       is_name area = true → is_name version = true → version ≠ "latest" →
       let r := InitDownload.download_area e area version od w in
       Forall (fun w' =>
                 ∀ q : path,
                   is_prefix (InitDownload.temp_dir od) q = false →
                   q ∉ prefixes (InitDownload.btrfs_file od area version) →
                   w_fs w' !! q = w_fs w !! q)
              (hist r ++ [fin r])).
Proof.
  split_and!.
  - intros od area version area' version' Ha Hv Ha' Hv' Hne.
    rewrite !InitDownloadFacts.btrfs_file_name,
      !InitDownloadFacts.area_version_dir_name by done.
    unfold InitDownloadFacts.marker.
    split; intros Heq; apply app_inv_head in Heq; apply Hne; congruence.
  - intros od.
    rewrite InitDownloadFacts.compressed_file_name,
      InitDownloadFacts.decompressed_file_name, InitDownloadFacts.temp_dir_name.
    unfold InitDownloadFacts.temp. by rewrite <- !(assoc_L (++)).
  - intros assets_dir. unfold DownloadAssets.temp_archive, DownloadAssets.sprites_dir.
    rewrite !SysFacts.pjoin_name by done. by rewrite <- (assoc_L (++)).
  - intros e area version od w Ha Hv Hl%String.eqb_neq r. subst r.
    rewrite InitDownloadFacts.btrfs_file_name, InitDownloadFacts.temp_dir_name by done.
    destruct (InitDownloadFacts.download_area_frame e area version od Ha Hv w Hl)
      as [Hh Hf].
    apply Forall_app. split; [exact Hh|]. by apply Forall_singleton.
Qed.

(** C9, an instance: downloading the planet leaves the image of another
    area as it was. *)
Lemma download_area_staging_shared_finals_apart_witness :
  let e := Examples.sample_env Examples.three_versions (5 * Examples.GB) 5242880 true in
  let other := Examples.btrfs_dir ++ ["planet"; "v1"; "tiles.btrfs"] in
  w_fs (fin (InitDownload.download_area e "monaco" "v2" Examples.btrfs_dir
               Examples.downloaded_world)) !! other
  = w_fs Examples.downloaded_world !! other.
Proof.
  cbv zeta.
  pose proof (proj2 (proj2 (proj2 download_area_staging_shared_finals_apart))
                (Examples.sample_env Examples.three_versions (5 * Examples.GB)
                   5242880 true)
                "monaco" "v2" Examples.btrfs_dir Examples.downloaded_world
                eq_refl eq_refl ltac:(done)) as H.
  cbv zeta in H. apply Forall_app in H as [_ H]. apply Forall_inv in H.
  apply H; [vm_compute; reflexivity|]. vm_compute.
  intros Hin. repeat (apply elem_of_cons in Hin as [Hin|Hin]; [discriminate Hin|]).
  by apply elem_of_nil in Hin.
Defined.

(** C9, where the claim fails: the downloads of two distinct pairs into one
    output directory stage the archive at the same path, and the one that
    ends removes the staging directory with what the other has staged: a
    download of the planet stopped with its archive staged, then a whole
    download of another area, and the archive of the planet is gone. *)
Lemma distinct_pairs_stage_at_one_path :
  let e := Examples.sample_env Examples.three_versions (5 * Examples.GB) 5242880 true in
  let staged := InitDownload.compressed_file Examples.btrfs_dir in
  let planet := InitDownload.download_area e "planet" "v1"
                  Examples.btrfs_dir Examples.fresh_world in
  let monaco := InitDownload.download_area e "monaco" "v2" Examples.btrfs_dir in
  existsb (fun w' => exists_ (w_fs w') staged) (hist planet) = true
  ∧ existsb (fun w' => exists_ (w_fs w') staged) (hist (monaco Examples.fresh_world))
    = true
  ∧ existsb (fun w' =>
               bool_decide (w_fs w' !! staged = Some (File "compressed image"))
               && match out (monaco w') with Done true => true | _ => false end
               && negb (exists_ (w_fs (fin (monaco w'))) staged))
            (hist planet) = true.
Proof. vm_compute. split_and!; reflexivity. Qed.

(** C10.  For an area directory, let [v] be the greatest name among its
    version directories, whatever they hold.  [generate_latest_redirects]
    appends for the area the one alias block of [v] when [v] has both
    [tiles] and [tilejson.json], and nothing at all when it lacks one of
    them: no other version is looked at.  The result of the function is
    what is appended, area after area in sorted order. *)
Theorem latest_alias_of_greatest_directory
    (m : gmap path node) (tiles_dir : path) (area v : string) :
  is_dir m (tiles_dir ++ [area]) = true → is_name v = true →
  v ∈ NginxFacts.version_dirs m (tiles_dir ++ [area]) →
  (∀ u, u ∈ NginxFacts.version_dirs m (tiles_dir ++ [area]) → (u ≤ v)%string) →
  let latest_path := tiles_dir ++ [area; v] in
  let block :=
    NginxConfig.latest_config area v latest_path
      (latest_path ++ ["tilejson.json"]) (latest_path ++ ["tiles"]) in
  (exists_ m (latest_path ++ ["tiles"]) = false
   ∨ exists_ m (latest_path ++ ["tilejson.json"]) = false →
   NginxConfig.latest_redirect m tiles_dir area = [])
  ∧ (exists_ m (latest_path ++ ["tiles"]) = true →
     exists_ m (latest_path ++ ["tilejson.json"]) = true →
     NginxConfig.latest_redirect m tiles_dir area = [(area, block)])
  ∧ (∀ w : world,
       w_fs w = m → is_dir m tiles_dir = true →
       out (NginxConfig.generate_latest_redirects tiles_dir w)
       = Done (flat_map (NginxConfig.latest_redirect m tiles_dir)
                        (PyStr.sorted (iterdir m tiles_dir)))).
Proof.
  intros Hd Hv Hin Hmax latest_path block. subst latest_path block.
  rewrite (NginxFacts.latest_redirect_greatest m tiles_dir area v Hd Hv)
    by (by split).
  rewrite <- !(assoc_L (++)). cbn [app]. split_and!.
  - intros [-> | ->]; [done|]. by rewrite andb_false_r.
  - by intros -> ->.
  - intros w <- Ht. by rewrite NginxFacts.generate_latest_redirects_run.
Qed.

(** C10, an instance: alpha has a complete v1 and an empty v2, and gets no
    alias. *)
Lemma latest_alias_of_greatest_directory_witness :
  let m := w_fs Examples.masked_world in
  exists_ m (Examples.tiles_dir ++ ["alpha"; "v1"; "tiles"]) = true
  ∧ exists_ m (Examples.tiles_dir ++ ["alpha"; "v1"; "tilejson.json"]) = true
  ∧ NginxConfig.latest_redirect m Examples.tiles_dir "alpha" = []
  ∧ out (NginxConfig.generate_latest_redirects Examples.tiles_dir Examples.masked_world)
    = Done [].
Proof.
  cbv zeta. split_and!; [vm_compute; reflexivity | vm_compute; reflexivity | ..].
  - refine (proj1 (latest_alias_of_greatest_directory (w_fs Examples.masked_world)
                     Examples.tiles_dir "alpha" "v2" _ eq_refl _ _) _).
    + vm_compute. reflexivity.
    + vm_compute. apply list_elem_of_here.
    + vm_compute. intros u Hu.
      repeat (apply elem_of_cons in Hu as [-> | Hu]; [exact I|]).
      by apply elem_of_nil in Hu.
    + left. vm_compute. reflexivity.
  - vm_compute. reflexivity.
Defined.

(** ** Further properties *)

(** [get_latest_version] never raises: whatever the request does, it
    returns a version or [None], and it leaves the file system alone. *)
Theorem get_latest_version_returns (e : env) (area : string) (w : world) :
  let r := InitDownload.get_latest_version e area w in
  (∃ v : option string, out r = Done v)
  ∧ w_fs (fin r) = w_fs w
  ∧ Forall (fun w' => w_fs w' = w_fs w) (hist r).
Proof.
  intros r. subst r.
  destruct (ResolveFacts.get_latest_version_wp e area w) as [Hh [Ho Hf]].
  split_and!; [by eexists | done | done].
Qed.

(** [generate_latest_redirects] reads a tiles directory and changes
    nothing; without the directory it raises, where
    [generate_tile_locations] prints a message and returns no block. *)
Theorem generate_latest_redirects_needs_tiles_dir (tiles_dir : path) (w : world) :
  (is_dir (w_fs w) tiles_dir = true →
   fin (NginxConfig.generate_latest_redirects tiles_dir w) = w
   ∧ hist (NginxConfig.generate_latest_redirects tiles_dir w) = [])
  ∧ (is_dir (w_fs w) tiles_dir = false →
     out (NginxConfig.generate_latest_redirects tiles_dir w)
     = Raised (OSError tiles_dir))
  ∧ (exists_ (w_fs w) tiles_dir = false →
     ∀ e : env,
       out (NginxConfig.generate_tile_locations e tiles_dir "localhost" w) = Done []
       ∧ fin (NginxConfig.generate_tile_locations e tiles_dir "localhost" w)
         = log w (EvPrint (MsgNotFound tiles_dir))).
Proof.
  split_and!.
  - intros Hd. by rewrite NginxFacts.generate_latest_redirects_run.
  - intros Hd.
    unfold NginxConfig.generate_latest_redirects, mbind, M_bind, bind, iterdir_m.
    by rewrite Hd.
  - intros Hx e.
    enough (wp (NginxConfig.generate_tile_locations e tiles_dir "localhost") w
               (fun o w' => o = Done [] ∧ w' = log w (EvPrint (MsgNotFound tiles_dir)))
               (fun _ => True)) as [_ H] by exact H.
    unfold NginxConfig.generate_tile_locations.
    apply wp_bind, wp_gets. rewrite Hx. cbn [negb].
    apply wp_bind, wp_print; [done|]. by apply wp_ret.
Qed.

(** An instance: the tree of the publication example, and no tree. *)
Lemma generate_latest_redirects_needs_tiles_dir_witness :
  fin (NginxConfig.generate_latest_redirects Examples.tiles_dir
         (Examples.publish_world "" ""))
  = Examples.publish_world "" ""
  ∧ out (NginxConfig.generate_latest_redirects Examples.tiles_dir Examples.fresh_world)
    = Raised (OSError Examples.tiles_dir).
Proof.
  assert (is_dir (w_fs (Examples.publish_world "" "")) Examples.tiles_dir = true)
    as H1 by (vm_compute; reflexivity).
  assert (is_dir (w_fs Examples.fresh_world) Examples.tiles_dir = false)
    as H2 by (vm_compute; reflexivity).
  exact (conj
           (proj1 (proj1 (generate_latest_redirects_needs_tiles_dir
                            Examples.tiles_dir (Examples.publish_world "" "")) H1))
           (proj1 (proj2 (generate_latest_redirects_needs_tiles_dir
                            Examples.tiles_dir Examples.fresh_world)) H2)).
Defined.

End Claims.

(** * Further behaviour of the scripts *)
Module Behaviour.
Import Sys.

(** ** init-download.py *)

(** [download_area] asked for ["latest"] when the listing gives no version
    of the area (the request fails, no line names the area, or the version
    it names is empty): the output directory is made, the listing is
    requested once, and [False] is returned with nothing staged and no
    command run.  The script run with [VERSION] unset or ["latest"] then
    exits with status 1. *)
Theorem download_area_latest_unresolved
    (e : env) (area : string) (od : path) (w : world) (m1 : gmap path node) :
  mkdir_p (w_fs w) od = Some m1 →
  ResolveFacts.listed_latest e area = None
  ∨ ResolveFacts.listed_latest e area = Some "" →
  let r := InitDownload.download_area e area "latest" od w in
  (out r = Done false ∧ w_fs (fin r) = m1
   ∧ ∃ m, w_log (fin r)
          = w_log w ++ [EvPrint (MsgFetchingVersions area);
                        EvHttpGet (InitDownload.cdn_url e +:+ "/files.txt");
                        EvPrint m; EvPrint (MsgFailedLatest area)])
  ∧ (default "latest" (getenv e "VERSION") = "latest" →
     default "planet" (getenv e "AREA") = area →
     Path (default "/data/btrfs" (getenv e "BTRFS_DIR")) = od →
     out (InitDownload.main e w) = Done 1%Z
     ∧ w_fs (fin (InitDownload.main e w)) = m1).
Proof.
  intros Hmk Hl.
  assert (∀ w0, w_fs w0 = w_fs w →
    let r := InitDownload.download_area e area "latest" od w0 in
    out r = Done false ∧ w_fs (fin r) = m1
    ∧ ∃ m, w_log (fin r)
           = w_log w0 ++ [EvPrint (MsgFetchingVersions area);
                          EvHttpGet (InitDownload.cdn_url e +:+ "/files.txt");
                          EvPrint m; EvPrint (MsgFailedLatest area)]) as Hrun.
  { intros w0 Hw0 r. subst r. rewrite <- Hw0 in Hmk.
    destruct (InitDownloadMore.resolve_run_none e area (set_fs w0 m1) Hl) as [Ho Hf].
    destruct (InitDownloadMore.download_area_latest_run e area od w0 m1 None _ Hmk Ho eq_refl)
      as [-> ->].
    destruct (InitDownloadMore.get_latest_version_run e area (set_fs w0 m1))
      as (_ & Hfs & m & Hlog).
    rewrite Hf. cbn [w_fs w_log log]. rewrite Hfs, Hlog.
    split_and!; [done..|]. exists m. by rewrite <- !(assoc_L (++)). }
  intros r. split; [by apply Hrun|].
  intros Hv Ha Hod. unfold InitDownload.main. rewrite Hv, Ha, Hod.
  destruct (Hrun (log w (EvPrint (MsgInfo
              ("Downloading area: " +:+ area +:+ ", version: " +:+ "latest")))) eq_refl)
    as (Ho & Hf & _).
  match goal with
  | |- context [out ((print ?m ≫= ?f) w)] =>
      destruct (RunMore.out_bind_done (print m) f w tt eq_refl) as [-> ->]
  end.
  match goal with
  | |- context [out ((?d ≫= ?f) ?w1)] =>
      destruct (RunMore.out_bind_done d f w1 false Ho) as [-> ->]
  end.
  split; [done|exact Hf].
Qed.

(** An instance: a listing without any line, on a machine without [/data]. *)
Lemma download_area_latest_unresolved_witness :
  let e := Examples.sample_env "" 0 0 true in
  out (InitDownload.download_area e "planet" "latest" Examples.btrfs_dir
         Examples.fresh_world) = Done false
  ∧ out (InitDownload.main e Examples.fresh_world) = Done 1%Z.
Proof.
  cbv zeta.
  pose (e := Examples.sample_env "" 0 0 true).
  pose (m1 := <[["data"; "btrfs"] := Dir]> (<[["data"] := Dir]> (w_fs Examples.fresh_world))).
  assert (mkdir_p (w_fs Examples.fresh_world) Examples.btrfs_dir = Some m1) as H1
    by (apply (bool_decide_unpack _); vm_compute; exact I).
  assert (ResolveFacts.listed_latest e "planet" = None
          ∨ ResolveFacts.listed_latest e "planet" = Some "") as H2
    by (left; vm_compute; reflexivity).
  pose proof (download_area_latest_unresolved e "planet" Examples.btrfs_dir
                Examples.fresh_world m1 H1 H2) as [[Ho _] Hmain].
  split; [exact Ho|].
  refine (proj1 (Hmain _ _ _)); vm_compute; reflexivity.
Defined.

(** [download_area] asked for ["latest"] when the listing gives a version:
    after the output directory is made and the listing read, the call goes
    on exactly as a call for that version from there; it returns what that
    call returns and leaves the world that call leaves. *)
Theorem download_area_latest_is_resolved_version
    (e : env) (area v : string) (od : path) (w : world) (m1 : gmap path node) :
  mkdir_p (w_fs w) od = Some m1 →
  ResolveFacts.listed_latest e area = Some v → v ≠ "" → v ≠ "latest" →
  let resolved := InitDownload.get_latest_version e area (set_fs w m1) in
  out resolved = Done (Some v)
  ∧ out (InitDownload.download_area e area "latest" od w)
    = out (InitDownload.download_area e area v od (fin resolved))
  ∧ fin (InitDownload.download_area e area "latest" od w)
    = fin (InitDownload.download_area e area v od (fin resolved)).
Proof.
  intros Hmk Hl Hv Hne resolved. subst resolved.
  destruct (InitDownloadMore.get_latest_version_run e area (set_fs w m1)) as (Ho & _).
  rewrite Hl in Ho. split; [exact Ho|].
  destruct (InitDownloadMore.resolve_run_some e area v (set_fs w m1) Hl Hv) as [Hr Hf].
  exact (InitDownloadMore.download_area_latest_run e area od w m1 (Some v) _
           Hmk Hr Hf Hne).
Qed.

(** An instance: the listing of three versions; the call for ["latest"]
    places the image of the greatest. *)
Lemma download_area_latest_is_resolved_version_witness :
  let e := Examples.sample_env Examples.three_versions 0 0 true in
  out (InitDownload.download_area e "planet" "latest" Examples.btrfs_dir
         Examples.fresh_world)
  = out (InitDownload.download_area e "planet" "20240102_000000" Examples.btrfs_dir
           (fin (InitDownload.get_latest_version e "planet"
                   (set_fs Examples.fresh_world
                      (<[["data"; "btrfs"] := Dir]>
                         (<[["data"] := Dir]> (w_fs Examples.fresh_world))))))).
Proof.
  cbv zeta.
  pose (e := Examples.sample_env Examples.three_versions 0 0 true).
  pose (m1 := <[["data"; "btrfs"] := Dir]> (<[["data"] := Dir]> (w_fs Examples.fresh_world))).
  assert (mkdir_p (w_fs Examples.fresh_world) Examples.btrfs_dir = Some m1) as H1
    by (apply (bool_decide_unpack _); vm_compute; exact I).
  assert (ResolveFacts.listed_latest e "planet" = Some "20240102_000000") as H2
    by (vm_compute; reflexivity).
  assert ("20240102_000000" ≠ "") as H3 by discriminate.
  assert ("20240102_000000" ≠ "latest") as H4 by discriminate.
  exact (proj1 (proj2 (download_area_latest_is_resolved_version e "planet"
                         "20240102_000000" Examples.btrfs_dir Examples.fresh_world
                         m1 H1 H2 H3 H4))).
Defined.

(** The whole of a successful download.  For plain names, a version given
    by name, an area other than [_tmp], the image absent, nothing at or
    under the staging directory, and enough room (or a size that is not
    known; a known size and the free space are counts the gigabyte figures
    can be computed for, below [gigabytes_bound] in absolute value): when
    aria2c fetches the archive and unpigz unpacks it,
    [download_area] returns [True] and leaves exactly the file system in
    which the final directory is made and holds the unpacked image;
    nothing of the staging is left. *)
Theorem download_area_places_the_image
    (e : env) (area version : string) (od : path) (w : world)
    (m4 : gmap path node) (c d : string) :
  is_name area = true → is_name version = true →
  version ≠ "latest" → area ≠ "_tmp" →
  w_fs w !! InitDownload.btrfs_file od area version = None →
  (∀ q, is_prefix (InitDownload.temp_dir od) q = true → w_fs w !! q = None) →
  mkdir_p (w_fs w) (InitDownload.area_version_dir od area version) = Some m4 →
  let url := InitDownload.archive_url e area version in
  let file_size := InitDownloadFacts.size_of_reply (http_head e url) in
  let stat := statvfs e (InitDownload.temp_dir od) in
  let fits (count : Z) := (Z.abs count < InitDownload.gigabytes_bound)%Z in
  (file_size = 0%Z
   ∨ fits (stat.1 * stat.2)%Z ∧ fits (file_size * 3)%Z
     ∧ (file_size * 3 ≤ stat.1 * stat.2)%Z) →
  fetch e url = Some c → gunzip e c = Some d →
  let r := InitDownload.download_area e area version od w in
  out r = Done true
  ∧ w_fs (fin r) = <[InitDownload.btrfs_file od area version := File d]> m4.
Proof.
  intros Ha Hv Hl%String.eqb_neq Hne Hm Hst Hmk url file_size stat fits Hsize Hc Hd r.
  subst r url file_size stat fits.
  rewrite (InitDownloadFacts.btrfs_file_name _ _ _ Ha Hv) in *.
  rewrite (InitDownloadFacts.area_version_dir_name _ _ _ Ha Hv) in Hmk.
  rewrite InitDownloadFacts.temp_dir_name in *.
  exact (RunMore.wp_post _ _ _
           (InitDownloadMore.download_area_places e area version od Ha Hv
              w m4 c d Hl Hne Hm Hst Hmk Hsize Hc Hd)).
Qed.

(** An instance: the first download on a machine without [/data]. *)
Lemma download_area_places_the_image_witness :
  let e := Examples.sample_env Examples.three_versions (5 * Examples.GB) 5242880 true in
  let r := InitDownload.download_area e "planet" "20240102_000000"
             Examples.btrfs_dir Examples.fresh_world in
  out r = Done true
  ∧ w_fs (fin r)
    = <[["data"; "btrfs"; "planet"; "20240102_000000"; "tiles.btrfs"] := File "image"]>
        (<[["data"; "btrfs"; "planet"; "20240102_000000"] := Dir]>
           (<[["data"; "btrfs"; "planet"] := Dir]>
              (<[["data"; "btrfs"] := Dir]>
                 (<[["data"] := Dir]> (w_fs Examples.fresh_world))))).
Proof.
  cbv zeta.
  pose (e := Examples.sample_env Examples.three_versions (5 * Examples.GB) 5242880 true).
  pose (m4 := <[["data"; "btrfs"; "planet"; "20240102_000000"] := Dir]>
                (<[["data"; "btrfs"; "planet"] := Dir]>
                   (<[["data"; "btrfs"] := Dir]>
                      (<[["data"] := Dir]> (w_fs Examples.fresh_world))))).
  assert (is_name "planet" = true) as H1 by reflexivity.
  assert (is_name "20240102_000000" = true) as H2 by reflexivity.
  assert ("20240102_000000" ≠ "latest") as H3 by discriminate.
  assert ("planet" ≠ "_tmp") as H4 by discriminate.
  assert (w_fs Examples.fresh_world
            !! InitDownload.btrfs_file Examples.btrfs_dir "planet" "20240102_000000"
          = None) as H5 by (vm_compute; reflexivity).
  assert (∀ q, is_prefix (InitDownload.temp_dir Examples.btrfs_dir) q = true →
               w_fs Examples.fresh_world !! q = None) as H6.
  { intros [|x q]; [vm_compute; discriminate|]. intros _.
    change (w_fs Examples.fresh_world) with (<[[] := Dir]> (∅ : gmap path node)).
    by rewrite lookup_insert_ne. }
  assert (mkdir_p (w_fs Examples.fresh_world)
            (InitDownload.area_version_dir Examples.btrfs_dir "planet" "20240102_000000")
          = Some m4) as H7
    by (apply (bool_decide_unpack _); vm_compute; exact I).
  assert (InitDownloadFacts.size_of_reply
            (http_head e (InitDownload.archive_url e "planet" "20240102_000000")) = 0
          ∨ Z.abs ((statvfs e (InitDownload.temp_dir Examples.btrfs_dir)).1
                   * (statvfs e (InitDownload.temp_dir Examples.btrfs_dir)).2)
            < InitDownload.gigabytes_bound
            ∧ Z.abs (InitDownloadFacts.size_of_reply
                       (http_head e (InitDownload.archive_url e "planet"
                                       "20240102_000000")) * 3)
              < InitDownload.gigabytes_bound
            ∧ InitDownloadFacts.size_of_reply
                (http_head e (InitDownload.archive_url e "planet" "20240102_000000")) * 3
              ≤ (statvfs e (InitDownload.temp_dir Examples.btrfs_dir)).1
                * (statvfs e (InitDownload.temp_dir Examples.btrfs_dir)).2)%Z as H8
    by (right; split_and!; [vm_compute; reflexivity..|vm_compute; discriminate]).
  exact (download_area_places_the_image e "planet" "20240102_000000"
           Examples.btrfs_dir Examples.fresh_world m4 "compressed image" "image"
           H1 H2 H3 H4 H5 H6 H7 H8 eq_refl eq_refl).
Defined.





(** ** extract-btrfs.py *)

(** Once the image is mounted, it is released.  For an image file that is
    not yet extracted, a free loop device, a working [losetup] and an
    image that mounts at a mount point that is new: with [umount] and
    [losetup -d] working, [extract_tiles] returns [True] or [False] and
    never raises, whatever the copying does, and it leaves the loop devices
    and the mounts as they were and the temporary mount point removed. *)
Theorem extract_tiles_releases_what_it_mounted
    (e : env) (btrfs_file output_dir : path) (area version : string)
    (w : world) (d c : string) (tree : list (path * node)) (m1 : gmap path node) :
  w_fs w !! btrfs_file = Some (File c) →
  exists_ (w_fs w) (output_dir /: area /: version)
  && exists_ (w_fs w) (output_dir /: area /: version /: "tiles") = false →
  w_fs w !! mkdtemp e = None → mkdir_p (w_fs w) (mkdtemp e) = Some m1 →
  mkdtemp e ∉ (w_mounts w).*1 →
  ExtractBtrfs.first_free_loop e w = Some d → PyStr.strip d = d → d ≠ "" →
  loop_attach_ok e = true → image e c = Some tree →
  umount_ok e = true → detach_ok e = true →
  let r := ExtractBtrfs.extract_tiles e btrfs_file output_dir area version w in
  (∃ b, out r = Done b)
  ∧ w_loops (fin r) = w_loops w ∧ w_mounts (fin r) = w_mounts w
  ∧ w_fs (fin r) !! mkdtemp e = None.
Proof.
  intros Hfile Hnew _ Hmk Hmp Hfree Hstrip Hd Hattach Himage Hu Hdet r. subst r.
  destruct (RunMore.wp_post _ _ _
              (ExtractMore.extract_tiles_releases e btrfs_file output_dir area version
                 w d c tree m1 Hfile Hnew Hmk Hfree Hstrip Hd Hattach Himage Hmp Hu Hdet))
    as (Hb & [HL HM] & Ht).
  by split_and!.
Qed.

(** An instance: the copy fails after the image is mounted. *)
Lemma extract_tiles_releases_what_it_mounted_witness :
  let e := Examples.failing (Examples.sample_env "" 0 0 true) false true in
  let r := ExtractBtrfs.extract_tiles e
             (Examples.btrfs_dir ++ ["planet"; "v1"; "tiles.btrfs"])
             Examples.tiles_dir "planet" "v1" Examples.downloaded_world in
  (∃ b, out r = Done b) ∧ w_loops (fin r) = [] ∧ w_mounts (fin r) = [].
Proof.
  cbv zeta.
  pose (e := Examples.failing (Examples.sample_env "" 0 0 true) false true).
  pose (m1 := <[["tmp"; "tmpofm"] := Dir]>
                (<[["tmp"] := Dir]> (w_fs Examples.downloaded_world))).
  assert (w_fs Examples.downloaded_world
            !! (Examples.btrfs_dir ++ ["planet"; "v1"; "tiles.btrfs"])
          = Some (File "image")) as H1 by (vm_compute; reflexivity).
  assert (exists_ (w_fs Examples.downloaded_world)
            (Examples.tiles_dir /: "planet" /: "v1")
          && exists_ (w_fs Examples.downloaded_world)
               (Examples.tiles_dir /: "planet" /: "v1" /: "tiles") = false) as H2
    by (vm_compute; reflexivity).
  assert (w_fs Examples.downloaded_world !! mkdtemp e = None) as H0
    by (vm_compute; reflexivity).
  assert (mkdir_p (w_fs Examples.downloaded_world) (mkdtemp e) = Some m1) as H3
    by (apply (bool_decide_unpack _); vm_compute; exact I).
  assert (mkdtemp e ∉ (w_mounts Examples.downloaded_world).*1) as H4
    by apply not_elem_of_nil.
  assert (ExtractBtrfs.first_free_loop e Examples.downloaded_world = Some "/dev/loop0")
    as H5 by (vm_compute; reflexivity).
  assert (PyStr.strip "/dev/loop0" = "/dev/loop0") as H6 by (vm_compute; reflexivity).
  assert ("/dev/loop0" ≠ "") as H7 by discriminate.
  pose proof (extract_tiles_releases_what_it_mounted e
                (Examples.btrfs_dir ++ ["planet"; "v1"; "tiles.btrfs"])
                Examples.tiles_dir "planet" "v1" Examples.downloaded_world
                "/dev/loop0" "image" _ m1 H1 H2 H0 H3 H4 H5 H6 H7
                eq_refl eq_refl eq_refl eq_refl) as (Hb & HL & HM & _).
  split_and!; [exact Hb|exact HL|exact HM].
Defined.

(** A whole extraction.  For plain names, an image file whose output
    directory [<output_dir>/<area>/<version>] can be made and has no
    [tiles] yet, a mount point that is new and lies neither above nor
    below the output directory, a free loop device, and tools that work:
    when the image mounts and holds [tiles] (and its [metadata.json], if
    any, is a file), [extract_tiles] returns [True]; the output directory
    and its [tiles] are there afterwards, so that the image counts as
    extracted from then on; and the loop devices and mounts are as before
    and the mount point is removed. *)
Theorem extract_tiles_extracts_and_releases
    (e : env) (btrfs_file output_dir : path) (area version : string)
    (w : world) (d c : string) (tree : list (path * node)) :
  is_name area = true → is_name version = true →
  let tiles_output := output_dir ++ [area; version] in
  is_prefix (mkdtemp e) tiles_output = false →
  is_prefix tiles_output (mkdtemp e) = false →
  w_fs w !! btrfs_file = Some (File c) →
  w_fs w !! (tiles_output ++ ["tiles"]) = None →
  is_Some (mkdir_p (w_fs w) tiles_output) →
  (∀ q, is_prefix (mkdtemp e) q = true → w_fs w !! q = None) →
  is_Some (mkdir_p (w_fs w) (mkdtemp e)) →
  mkdtemp e ∉ (w_mounts w).*1 →
  ExtractBtrfs.first_free_loop e w = Some d → PyStr.strip d = d → d ≠ "" →
  loop_attach_ok e = true → image e c = Some tree →
  (∃ n, (["tiles"], n) ∈ tree) →
  (∀ n, (["metadata.json"], n) ∈ tree → ∃ x, n = File x) →
  rsync_ok e = true → copy_ok e = true →
  umount_ok e = true → detach_ok e = true →
  let r := ExtractBtrfs.extract_tiles e btrfs_file output_dir area version w in
  out r = Done true
  ∧ exists_ (w_fs (fin r)) tiles_output
    && exists_ (w_fs (fin r)) (tiles_output ++ ["tiles"]) = true
  ∧ w_loops (fin r) = w_loops w ∧ w_mounts (fin r) = w_mounts w
  ∧ w_fs (fin r) !! mkdtemp e = None.
Proof.
  intros Ha Hv tiles_output HA HB Hfile Hdst Hmkto Hfresh [m1 Hmk] Hmp Hfree
    Hstrip Hd Hattach Himage Htiles Hmeta Hrsync Hcopy Hu Hdet r. subst r.
  assert (output_dir /: area /: version = tiles_output) as Hto.
  { rewrite !SysFacts.pjoin_name by done. by rewrite <- (assoc_L (++)). }
  destruct (RunMore.wp_post _ _ _
              (ExtractMore.extract_tiles_extracts e btrfs_file tiles_output HA HB
                 output_dir area version w d c tree m1 Hto Hfile Hdst
                 (proj1 (SysMore.mkdir_p_is_Some _ _) Hmkto) Hfresh Hmk Hmp Hfree
                 Hstrip Hd Hattach Himage Htiles Hmeta Hrsync Hcopy Hu Hdet))
    as (Ho & [HL HM] & H1 & H2 & H3).
  split_and!; [exact Ho| |exact HL|exact HM|exact H3].
  apply andb_true_iff. split; apply SysFacts.exists_true; [by eexists|exact H2].
Qed.

(** An instance: the image of the example, mounted at [/tmp/tmpofm]. *)
Lemma extract_tiles_extracts_and_releases_witness :
  let r := ExtractBtrfs.extract_tiles (Examples.sample_env "" 0 0 true)
             (Examples.btrfs_dir ++ ["planet"; "v1"; "tiles.btrfs"])
             Examples.tiles_dir "planet" "v1" Examples.downloaded_world in
  out r = Done true
  ∧ exists_ (w_fs (fin r)) (Examples.tiles_dir ++ ["planet"; "v1"; "tiles"]) = true
  ∧ w_loops (fin r) = [].
Proof.
  cbv zeta.
  set (e := Examples.sample_env "" 0 0 true).
  assert (∀ q, is_prefix (mkdtemp e) q = true →
               w_fs Examples.downloaded_world !! q = None) as Hfresh.
  { intros q [r ->]%InitDownloadFacts.is_prefix_true.
    apply not_elem_of_list_to_map_1. cbn.
    rewrite !not_elem_of_cons. split_and!; try discriminate. apply not_elem_of_nil. }
  assert (is_Some (mkdir_p (w_fs Examples.downloaded_world)
                     (Examples.tiles_dir ++ ["planet"; "v1"]))) as Hmkto.
  { exists (<[["data"; "tiles"; "planet"; "v1"] := Dir]>
              (<[["data"; "tiles"; "planet"] := Dir]>
                 (<[["data"; "tiles"] := Dir]> (w_fs Examples.downloaded_world)))).
    apply (bool_decide_unpack _). vm_compute. exact I. }
  assert (is_Some (mkdir_p (w_fs Examples.downloaded_world) (mkdtemp e))) as Hmk.
  { exists (<[["tmp"; "tmpofm"] := Dir]>
              (<[["tmp"] := Dir]> (w_fs Examples.downloaded_world))).
    apply (bool_decide_unpack _). vm_compute. exact I. }
  assert (∃ n, (["tiles"], n)
               ∈ [(["tiles"], Dir); (["tiles"; "0"], Dir);
                  (["tiles"; "0"; "0.pbf"], File "tile");
                  (["metadata.json"], File "{}")]) as Htiles
    by (exists Dir; apply list_elem_of_here).
  assert (∀ n, (["metadata.json"], n)
               ∈ [(["tiles"], Dir); (["tiles"; "0"], Dir);
                  (["tiles"; "0"; "0.pbf"], File "tile");
                  (["metadata.json"], File "{}")] → ∃ x, n = File x) as Hmeta.
  { intros n Hn.
    apply elem_of_cons in Hn as [[=]|Hn]. apply elem_of_cons in Hn as [[=]|Hn].
    apply elem_of_cons in Hn as [[=]|Hn]. apply elem_of_cons in Hn as [[= ->]|Hn].
    - by eexists.
    - exfalso. by apply elem_of_nil in Hn. }
  pose proof (extract_tiles_extracts_and_releases e
                (Examples.btrfs_dir ++ ["planet"; "v1"; "tiles.btrfs"])
                Examples.tiles_dir "planet" "v1" Examples.downloaded_world
                "/dev/loop0" "image" _ eq_refl eq_refl eq_refl eq_refl
                eq_refl eq_refl Hmkto Hfresh Hmk (not_elem_of_nil _)
                eq_refl eq_refl ltac:(discriminate) eq_refl eq_refl Htiles Hmeta
                eq_refl eq_refl eq_refl eq_refl) as (Ho & Hx & HL & _).
  split_and!; [exact Ho| |exact HL].
  by apply andb_true_iff in Hx as [_ Hx].
Defined.

(** Running the extraction again changes nothing.  Run by a user other
    than root, the script prints an error and exits with status 1 without
    looking at anything.  Run by root, when every image found under the
    source directory (in a version directory of an area directory whose
    name does not start with an underscore) has its output directory and
    the [tiles] directory in it, the script exits with status 0 having
    printed messages only: no command is run and the file system, the loop
    devices and the mounts are as before. *)
Theorem extract_rerun_changes_nothing (e : env) (euid : Z) (w : world) :
  let btrfs_dir := Path (default "/data/btrfs" (getenv e "BTRFS_DIR")) in
  let tiles_dir := Path (default "/data/tiles" (getenv e "TILES_DIR")) in
  let r := ExtractBtrfs.main e euid w in
  (euid ≠ 0%Z →
   out r = Done 1%Z
   ∧ fin r = log w (EvPrint (MsgError
                      "This script must be run as root (for loop mounting)")))
  ∧ (euid = 0%Z →
     is_dir (w_fs w) btrfs_dir = true →
     ExtractMore.all_extracted (w_fs w) btrfs_dir tiles_dir = true →
     out r = Done 0%Z
     ∧ w_fs (fin r) = w_fs w ∧ w_loops (fin r) = w_loops w
     ∧ w_mounts (fin r) = w_mounts w
     ∧ ∃ l, w_log (fin r) = w_log w ++ l ∧ Forall (fun ev => ∃ m, ev = EvPrint m) l).
Proof.
  intros btrfs_dir tiles_dir r. subst r. split.
  - intros Hne. unfold ExtractBtrfs.main.
    rewrite (proj2 (Z.eqb_neq _ _) Hne). by cbn.
  - intros -> Hd Hall.
    apply (RunMore.wp_post (ExtractBtrfs.main e 0) w
      (fun o w' => o = Done 0%Z ∧ RunMore.logged RunMore.is_print w w')).
    unfold ExtractBtrfs.main. cbn [Z.eqb negb]. cbv zeta.
    apply RunFacts.wp_bind, RunMore.wp_print'.
    apply RunFacts.wp_bind, RunMore.wp_print'.
    apply RunFacts.wp_bind, RunMore.wp_print'.
    apply RunFacts.wp_bind.
    eapply RunFacts.wp_mono;
      [apply (ExtractMore.extract_all_areas_extracted e btrfs_dir tiles_dir w);
       [exact Hd|exact Hall|]| |done].
    + do 3 apply ExtractMore.printed_log. apply ExtractMore.printed_refl.
    + cbv beta. intros o w' [-> Hw']. cbn [negb].
      apply RunFacts.wp_bind, RunMore.wp_print'. apply RunFacts.wp_ret.
      split; [done|]. by apply ExtractMore.printed_log.
Qed.

(** An instance: one image, extracted. *)
Lemma extract_rerun_changes_nothing_witness :
  out (ExtractBtrfs.main (Examples.sample_env "" 0 0 true) 0 Scenarios.extracted_world)
  = Done 0%Z
  ∧ w_fs (fin (ExtractBtrfs.main (Examples.sample_env "" 0 0 true) 0
                 Scenarios.extracted_world))
    = w_fs Scenarios.extracted_world.
Proof.
  pose (e := Examples.sample_env "" 0 0 true).
  assert (is_dir (w_fs Scenarios.extracted_world)
            (Path (default "/data/btrfs" (getenv e "BTRFS_DIR"))) = true) as H1
    by (vm_compute; reflexivity).
  assert (ExtractMore.all_extracted (w_fs Scenarios.extracted_world)
            (Path (default "/data/btrfs" (getenv e "BTRFS_DIR")))
            (Path (default "/data/tiles" (getenv e "TILES_DIR"))) = true) as H2
    by (vm_compute; reflexivity).
  pose proof (proj2 (extract_rerun_changes_nothing e 0 Scenarios.extracted_world)
                eq_refl H1 H2) as (Ho & Hf & _).
  split; [exact Ho|exact Hf].
Defined.


(** ** download-assets.py *)



(** [download_sprites] reports the listing only.  With the sprites
    directory to be had: when the listing cannot be had (the request
    fails or is answered with a status from 400 to 599) it returns [False]
    and downloads nothing; when the listing is had and no archive can be
    downloaded, it still returns [True], having changed nothing but the
    temporary archive.  (Asked of the listed sprite directories: none is a
    file, none is the temporary archive.) *)
Theorem download_sprites_reports_the_listing_only
    (e : env) (assets_dir : path) (w : world) (m1 : gmap path node) :
  mkdir_p (w_fs w) (DownloadAssets.sprites_dir assets_dir) = Some m1 →
  let r := DownloadAssets.download_sprites e assets_dir w in
  let url := DownloadAssets.cdn_url e +:+ "/files.txt" in
  match http_get e url with
  | HttpFailed => out r = Done false ∧ w_fs (fin r) = m1
  | HttpReply status text =>
      if ((400 <=? status) && (status <? 600))%Z
      then out r = Done false ∧ w_fs (fin r) = m1
      else
        (∀ u, fetch e u = None) →
        (∀ line, line ∈ AssetsMore.sprites_remote text →
           let p := DownloadAssets.sprites_dir assets_dir
                    /: DownloadAssets.sprite_name line in
           p ≠ DownloadAssets.temp_archive assets_dir
           ∧ ∀ c, m1 !! p ≠ Some (File c)) →
        out r = Done true
        ∧ ∀ q, q ≠ DownloadAssets.temp_archive assets_dir → w_fs (fin r) !! q = m1 !! q
  end.
Proof.
  intros Hmk r url. subst r url.
  destruct (http_get e _) as [|status text] eqn:Hget.
  - destruct (RunMore.wp_post _ _ _
                (AssetsMore.download_sprites_no_listing e assets_dir w m1 Hmk
                   ltac:(by rewrite Hget))) as (Ho & Hf & _).
    by split.
  - destruct ((400 <=? status)%Z && (status <? 600)%Z) eqn:Hs.
    + apply andb_true_iff in Hs as [H1%Z.leb_le H2%Z.ltb_lt].
      destruct (RunMore.wp_post _ _ _
                  (AssetsMore.download_sprites_no_listing e assets_dir w m1 Hmk
                     ltac:(rewrite Hget; lia))) as (Ho & Hf & _).
      by split.
    + intros Hfetch Hlines.
      assert (¬ (400 <= status < 600)%Z) as Hstatus.
      { intros [H1%Z.leb_le H2%Z.ltb_lt]. by rewrite H1, H2 in Hs. }
      exact (RunMore.wp_post _ _ _
               (AssetsMore.download_sprites_no_archive e assets_dir w m1 status text
                  Hmk Hget Hstatus Hfetch Hlines)).
Qed.

(** An instance: the listing names one sprite version, and the CDN serves
    no archive. *)
Lemma download_sprites_reports_the_listing_only_witness :
  out (DownloadAssets.download_sprites
         (Scenarios.without_archives
            (Examples.sample_env Scenarios.sprite_listing 0 0 true) None)
         Scenarios.assets_dir Examples.fresh_world) = Done true.
Proof.
  pose (e := Scenarios.without_archives
               (Examples.sample_env Scenarios.sprite_listing 0 0 true) None).
  pose (m1 := <[["data"; "assets"; "sprites"] := Dir]>
                (<[["data"; "assets"] := Dir]>
                   (<[["data"] := Dir]> (w_fs Examples.fresh_world)))).
  assert (mkdir_p (w_fs Examples.fresh_world)
            (DownloadAssets.sprites_dir Scenarios.assets_dir) = Some m1) as H1
    by (apply (bool_decide_unpack _); vm_compute; exact I).
  assert (∀ u, fetch e u = None) as H2 by done.
  assert (∀ line, line ∈ AssetsMore.sprites_remote Scenarios.sprite_listing →
            let p := DownloadAssets.sprites_dir Scenarios.assets_dir
                     /: DownloadAssets.sprite_name line in
            p ≠ DownloadAssets.temp_archive Scenarios.assets_dir
            ∧ ∀ c, m1 !! p ≠ Some (File c)) as H3.
  { assert (AssetsMore.sprites_remote Scenarios.sprite_listing
            = ["sprites/ofm_f384.tar.gz"]) as -> by (vm_compute; reflexivity).
    intros line ->%list_elem_of_singleton. cbv zeta. split.
    - vm_compute. discriminate.
    - assert (m1 !! (DownloadAssets.sprites_dir Scenarios.assets_dir
                     /: DownloadAssets.sprite_name "sprites/ofm_f384.tar.gz") = None)
        as -> by (vm_compute; reflexivity).
      discriminate. }
  exact (proj1 (download_sprites_reports_the_listing_only e Scenarios.assets_dir
                  Examples.fresh_world m1 H1 H2 H3)).
Defined.

(** A line [sprites/<name>.tar.gz] of the listing, for a name without a
    slash and without a dot, is kept by the filter of [download_sprites],
    the name taken from it is [<name>], and the address asked is the line
    under the CDN address. *)
Theorem sprite_line_round_trip (e : env) (n : string) :
  PyStr.contains "/" n = false → PyStr.contains "." n = false →
  let line := "sprites/" +:+ n +:+ ".tar.gz" in
  PyStr.startswith line "sprites/" && PyStr.endswith line ".tar.gz" = true
  ∧ DownloadAssets.sprite_name line = n
  ∧ DownloadAssets.cdn_url e +:+ "/sprites/"
      +:+ DownloadAssets.sprite_name line +:+ ".tar.gz"
    = DownloadAssets.cdn_url e +:+ "/" +:+ line.
Proof.
  intros Hslash Hdot line.
  destruct (AssetsMore.sprite_name_of_line n Hslash Hdot) as [H1 H2].
  fold line in H1, H2. split_and!; [exact H1|exact H2|]. by rewrite H2.
Qed.

(** An instance: the sprite version [ofm_f384]. *)
Lemma sprite_line_round_trip_witness :
  DownloadAssets.sprite_name "sprites/ofm_f384.tar.gz" = "ofm_f384".
Proof.
  exact (proj1 (proj2 (sprite_line_round_trip (Examples.sample_env "" 0 0 true)
                         "ofm_f384" eq_refl eq_refl))).
Defined.

(** Running the asset download again downloads nothing.  On a well-formed
    file system where the three assets have a non-empty [ofm] directory,
    the sprites directory is there and every sprite version of the
    listing has a non-empty directory: the script exits with status 0,
    runs no command and leaves the file system as it was; it still asks
    for the listing. *)
Theorem download_assets_rerun_downloads_nothing
    (e : env) (w : world) (status : Z) (text : string) :
  let assets_dir := Path (default "/data/assets" (getenv e "ASSETS_DIR")) in
  fs_wf (w_fs w) = true →
  (∀ a, a ∈ ["fonts"; "styles"; "natural_earth"] →
        AssetsMore.nonempty_dir (w_fs w) (assets_dir ++ [a; "ofm"]) = true) →
  w_fs w !! DownloadAssets.sprites_dir assets_dir = Some Dir →
  http_get e (DownloadAssets.cdn_url e +:+ "/files.txt") = HttpReply status text →
  ¬ (400 <= status < 600)%Z →
  (∀ line, line ∈ AssetsMore.sprites_remote text →
     AssetsMore.nonempty_dir (w_fs w)
       (DownloadAssets.sprites_dir assets_dir /: DownloadAssets.sprite_name line)
     = true) →
  let r := DownloadAssets.main e w in
  out r = Done 0%Z ∧ w_fs (fin r) = w_fs w
  ∧ (∃ l, w_log (fin r) = w_log w ++ l ∧ Forall (fun ev => ∀ cmd, ev ≠ EvRun cmd) l)
  ∧ EvHttpGet (DownloadAssets.cdn_url e +:+ "/files.txt") ∈ w_log (fin r).
Proof.
  intros assets_dir Hwf Hassets Hsd Hget Hstatus Hsprites r. subst r.
  apply (RunMore.wp_post (DownloadAssets.main e) w
    (fun o w' => o = Done 0%Z ∧ w_fs w' = w_fs w
       ∧ (∃ l, w_log w' = w_log w ++ l ∧ Forall (fun ev => ∀ cmd, ev ≠ EvRun cmd) l)
       ∧ EvHttpGet (DownloadAssets.cdn_url e +:+ "/files.txt") ∈ w_log w')).
  unfold DownloadAssets.main. cbv zeta. fold assets_dir.
  apply RunFacts.wp_bind, RunMore.wp_print'. apply RunFacts.wp_bind.
  eapply RunFacts.wp_mono;
    [apply (AssetsMore.download_all_assets_present e assets_dir w _ status text);
     try done| |done].
  - apply RunMore.logged_log; [done|apply RunMore.logged_refl].
  - cbv beta. intros o w' (-> & Hw' & Hin). cbn [negb].
    apply RunFacts.wp_bind, RunMore.wp_print'. apply RunFacts.wp_ret.
    assert (RunMore.logged AssetsMore.no_command w
              (log w' (EvPrint (MsgInfo "Successfully downloaded all assets"))))
      as (Hfs & _ & _ & Hl) by (by apply RunMore.logged_log).
    split_and!; [done|exact Hfs|exact Hl|].
    cbn [w_log log]. apply elem_of_app. by left.
Qed.

(** An instance: every asset and the one listed sprite version in place. *)
Lemma download_assets_rerun_downloads_nothing_witness :
  let e := Examples.sample_env Scenarios.sprite_listing 0 0 true in
  out (DownloadAssets.main e Scenarios.assets_world) = Done 0%Z
  ∧ w_fs (fin (DownloadAssets.main e Scenarios.assets_world))
    = w_fs Scenarios.assets_world.
Proof.
  cbv zeta.
  pose (e := Examples.sample_env Scenarios.sprite_listing 0 0 true).
  assert (fs_wf (w_fs Scenarios.assets_world) = true) as H1 by (vm_compute; reflexivity).
  assert (∀ a, a ∈ ["fonts"; "styles"; "natural_earth"] →
            AssetsMore.nonempty_dir (w_fs Scenarios.assets_world)
              (Path (default "/data/assets" (getenv e "ASSETS_DIR")) ++ [a; "ofm"])
            = true) as H2.
  { intros a Ha.
    apply elem_of_cons in Ha as [->|Ha]; [vm_compute; reflexivity|].
    apply elem_of_cons in Ha as [->|Ha]; [vm_compute; reflexivity|].
    apply elem_of_cons in Ha as [->|Ha]; [vm_compute; reflexivity|].
    exfalso. by apply elem_of_nil in Ha. }
  assert (w_fs Scenarios.assets_world
            !! DownloadAssets.sprites_dir
                 (Path (default "/data/assets" (getenv e "ASSETS_DIR"))) = Some Dir)
    as H3 by (vm_compute; reflexivity).
  assert (¬ (400 <= 200 < 600)%Z) as H4 by lia.
  assert (∀ line, line ∈ AssetsMore.sprites_remote Scenarios.sprite_listing →
            AssetsMore.nonempty_dir (w_fs Scenarios.assets_world)
              (DownloadAssets.sprites_dir
                 (Path (default "/data/assets" (getenv e "ASSETS_DIR")))
               /: DownloadAssets.sprite_name line) = true) as H5.
  { assert (AssetsMore.sprites_remote Scenarios.sprite_listing
            = ["sprites/ofm_f384.tar.gz"]) as -> by (vm_compute; reflexivity).
    intros line ->%list_elem_of_singleton. vm_compute. reflexivity. }
  pose proof (download_assets_rerun_downloads_nothing e Scenarios.assets_world
                200 Scenarios.sprite_listing H1 H2 H3 eq_refl H4 H5) as (Ho & Hf & _).
  split; [exact Ho|exact Hf].
Defined.

(** The asset download with nothing to be had from the network.  With no
    archive to be downloaded and the listing not to be had (the request
    fails or is answered with a status from 400 to 599), on an assets
    directory that can be made and has nothing in it: every one of the
    three assets is tried in turn, after them the listing is asked for,
    and the script exits with status 1.  A failed asset does not stop the
    ones after it. *)
Theorem download_assets_offline_tries_everything (e : env) (w : world) :
  let assets_dir := Path (default "/data/assets" (getenv e "ASSETS_DIR")) in
  let listing_url := DownloadAssets.cdn_url e +:+ "/files.txt" in
  let url a := "https://assets.openfreemap.com/" +:+ a +:+ "/ofm.tar.gz" in
  (∀ u, fetch e u = None) →
  match http_get e listing_url with
  | HttpFailed => True
  | HttpReply status _ => (400 <= status < 600)%Z
  end →
  (∀ q x, q ∈ prefixes assets_dir → w_fs w !! q ≠ Some (File x)) →
  (∀ q, is_prefix assets_dir q = true → q ≠ assets_dir → w_fs w !! q = None) →
  let trace :=
    [EvPrint (MsgInfo ("Assets directory: "
                       +:+ default "/data/assets" (getenv e "ASSETS_DIR")));
     EvPrint (MsgInfo "Downloading OpenFreeMap assets...")]
    ++ flat_map (fun a =>
         [EvPrint (MsgDownloading (url a));
          EvRun (DownloadAssets.aria2c_cmd (url a) (assets_dir ++ [a; "ofm.tar.gz"]));
          EvPrint (MsgError ("downloading " +:+ a))])
         ["fonts"; "styles"; "natural_earth"]
    ++ [EvPrint (MsgInfo "Fetching sprite versions...");
        EvHttpGet listing_url;
        EvPrint (MsgError "downloading sprites");
        EvPrint (MsgInfo "Failed to download all assets")] in
  let r := DownloadAssets.main e w in
  out r = Done 1%Z ∧ w_log (fin r) = w_log w ++ trace.
Proof.
  intros assets_dir listing_url url Hfetch Hget Hdir Hempty trace r. subst r.
  apply (RunMore.wp_post (DownloadAssets.main e) w
    (fun o w' => o = Done 1%Z ∧ w_log w' = w_log w ++ trace)).
  unfold DownloadAssets.main. cbv zeta. fold assets_dir.
  apply RunFacts.wp_bind, RunMore.wp_print'. apply RunFacts.wp_bind.
  eapply RunFacts.wp_mono;
    [apply (AssetsMore.download_all_assets_offline e assets_dir _ Hfetch Hget)| |done].
  - split; [exact Hdir|]. intros a q _ [r ->]%InitDownloadFacts.is_prefix_true.
    apply Hempty.
    + rewrite <- (assoc_L (++)). apply InitDownloadFacts.is_prefix_app.
    + intros H%(f_equal length). rewrite !length_app in H. cbn in H. lia.
  - cbv beta. intros o w' (-> & Hl). cbn [negb].
    apply RunFacts.wp_bind, RunMore.wp_print'. apply RunFacts.wp_ret.
    split; [done|]. cbn [w_log log]. rewrite Hl. cbn [w_log log].
    subst trace. rewrite <- !(assoc_L (++)). reflexivity.
Qed.

(** An instance: the first run, with no network. *)
Lemma download_assets_offline_tries_everything_witness :
  let e := Scenarios.offline (Examples.sample_env "" 0 0 true) in
  out (DownloadAssets.main e Examples.fresh_world) = Done 1%Z.
Proof.
  cbv zeta.
  pose (e := Scenarios.offline (Examples.sample_env "" 0 0 true)).
  assert (w_fs Examples.fresh_world = <[[] := Dir]> ∅) as Hfs by reflexivity.
  assert (∀ q x, q ∈ prefixes (Path (default "/data/assets" (getenv e "ASSETS_DIR"))) →
            w_fs Examples.fresh_world !! q ≠ Some (File x)) as H1.
  { intros q x _. rewrite Hfs.
    destruct q as [|c q]; [by rewrite lookup_insert_eq|].
    rewrite lookup_insert_ne by discriminate. by rewrite lookup_empty. }
  assert (∀ q, is_prefix (Path (default "/data/assets" (getenv e "ASSETS_DIR"))) q = true →
            q ≠ Path (default "/data/assets" (getenv e "ASSETS_DIR")) →
            w_fs Examples.fresh_world !! q = None) as H2.
  { intros q Hq _. rewrite Hfs.
    destruct q as [|c q]; [vm_compute in Hq; discriminate|].
    rewrite lookup_insert_ne by discriminate. apply lookup_empty. }
  exact (proj1 (download_assets_offline_tries_everything e Examples.fresh_world
                  (fun _ => eq_refl) I H1 H2)).
Defined.



(** ** generate-nginx-config.py *)

(** Where [main] writes.  At every point of a run of [main], and at its
    end, however it ends: the file system differs from the first one only
    at the output directory and the directories above it, at the two
    generated documents, and at the [tilejson.json] of a version directory
    of the tiles directory; loop devices and mounts are untouched; and
    nothing is logged but messages, so no command is run and no request
    made. *)
Theorem nginx_main_writes_only_its_files (e : env) (w : world) :
  let tiles_dir := Path (default "/data/tiles" (getenv e "TILES_DIR")) in
  let may_write (q : path) :=
    q ∈ prefixes NginxConfig.output_dir
    ∨ q = NginxConfig.output_dir /: "tiles-versions.conf"
    ∨ q = NginxConfig.output_dir /: "tiles-latest.conf"
    ∨ ∃ area version, q = tiles_dir ++ [area; version; "tilejson.json"] in
  let kept (w' : world) :=
    (∀ q, ¬ may_write q → w_fs w' !! q = w_fs w !! q)
    ∧ w_loops w' = w_loops w ∧ w_mounts w' = w_mounts w
    ∧ ∃ l, w_log w' = w_log w ++ l ∧ Forall (fun ev => ∃ m, ev = EvPrint m) l in
  let r := NginxConfig.main e w in
  Forall kept (hist r) ∧ kept (fin r).
Proof. exact (NginxMore.main_wrote_only e w). Qed.

(** A TileJSON document that cannot be read or updated does not stop the
    generation.  With the tiles directory a directory, the output
    directory to be had and neither generated document a directory,
    [main] returns, whatever the [tilejson.json] files hold. *)
Theorem nginx_main_returns (e : env) (w : world) (m1 : gmap path node) :
  let tiles_dir := Path (default "/data/tiles" (getenv e "TILES_DIR")) in
  mkdir_p (w_fs w) NginxConfig.output_dir = Some m1 →
  is_dir (w_fs w) tiles_dir = true →
  is_dir (w_fs w) (NginxConfig.output_dir /: "tiles-versions.conf") = false →
  is_dir (w_fs w) (NginxConfig.output_dir /: "tiles-latest.conf") = false →
  out (NginxConfig.main e w) = Done tt.
Proof.
  intros tiles_dir Hmk Ht%SysFacts.is_dir_true Hc1 Hc2.
  apply (NginxMore.main_returns e w m1 Hmk Ht).
  - intros H%SysFacts.is_dir_true. unfold NginxMore.output_file in H.
    rewrite SysFacts.pjoin_name in Hc1 by done. congruence.
  - intros H%SysFacts.is_dir_true. unfold NginxMore.output_file in H.
    rewrite SysFacts.pjoin_name in Hc2 by done. congruence.
Qed.

(** An instance: a version whose [tilejson.json] is not JSON; the
    configuration is generated all the same. *)
Lemma nginx_main_returns_witness :
  let r := NginxConfig.main (Examples.sample_env "" 0 0 true)
             Scenarios.broken_tilejson_world in
  out r = Done tt
  ∧ is_Some (w_fs (fin r) !! (NginxConfig.output_dir /: "tiles-versions.conf")).
Proof.
  cbv zeta.
  set (e := Examples.sample_env "" 0 0 true).
  pose (m1 := <[["etc"; "nginx"; "includes"] := Dir]>
                (<[["etc"; "nginx"] := Dir]>
                   (<[["etc"] := Dir]> (w_fs Scenarios.broken_tilejson_world)))).
  assert (mkdir_p (w_fs Scenarios.broken_tilejson_world) NginxConfig.output_dir
          = Some m1) as H1
    by (apply (bool_decide_unpack _); vm_compute; exact I).
  assert (is_dir (w_fs Scenarios.broken_tilejson_world)
            (Path (default "/data/tiles" (getenv e "TILES_DIR"))) = true) as H2
    by (vm_compute; reflexivity).
  assert (is_dir (w_fs Scenarios.broken_tilejson_world)
            (NginxConfig.output_dir /: "tiles-versions.conf") = false) as H3
    by (vm_compute; reflexivity).
  assert (is_dir (w_fs Scenarios.broken_tilejson_world)
            (NginxConfig.output_dir /: "tiles-latest.conf") = false) as H4
    by (vm_compute; reflexivity).
  split.
  - exact (nginx_main_returns e Scenarios.broken_tilejson_world m1 H1 H2 H3 H4).
  - apply (bool_decide_unpack _). vm_compute. exact I.
Defined.


(** Which versions get a block.  On a tiles directory,
    [generate_tile_locations] returns, and it returns a block for exactly
    the version directories of the area directories that hold [tiles]
    and [metadata.json]; the block is that of the area and the version.
    A [tilejson.json] is not asked for, and one that cannot be read or
    updated takes no block away. *)
Theorem tile_locations_are_the_ready_versions
    (e : env) (tiles_dir : path) (domain : string) (w : world) :
  is_dir (w_fs w) tiles_dir = true →
  ∃ l, out (NginxConfig.generate_tile_locations e tiles_dir domain w) = Done l
       ∧ ∀ area version config,
           (area, version, config) ∈ l ↔
           is_dir (w_fs w) (tiles_dir ++ [area]) = true
           ∧ is_dir (w_fs w) (tiles_dir ++ [area; version]) = true
           ∧ exists_ (w_fs w) (tiles_dir ++ [area; version; "tiles"]) = true
           ∧ exists_ (w_fs w) (tiles_dir ++ [area; version; "metadata.json"]) = true
           ∧ config = NginxConfig.version_config area version
                        (tiles_dir ++ [area; version; "tilejson.json"])
                        (tiles_dir ++ [area; version; "tiles"]).
Proof.
  intros Hd.
  destruct (RunMore.wp_post _ _ _
              (NginxMore.generate_tile_locations_blocks e tiles_dir domain w Hd))
    as (l & Ho & Hl).
  exists l. split; [exact Ho|]. intros area version config. rewrite Hl.
  split.
  - intros (area' & version' & Hda & Hb).
    rewrite NginxMore.ready_block_eq in Hb.
    destruct (is_dir (w_fs w) (tiles_dir ++ [area'; version'])) eqn:Hdv;
      [|by apply elem_of_nil in Hb].
    destruct (exists_ (w_fs w) (tiles_dir ++ [area'; version'; "tiles"])) eqn:Ht;
      [|by apply elem_of_nil in Hb].
    destruct (exists_ (w_fs w) (tiles_dir ++ [area'; version'; "metadata.json"]))
      eqn:Hm; [|by apply elem_of_nil in Hb].
    cbn [andb] in Hb. apply list_elem_of_singleton in Hb. by simplify_eq.
  - intros (Hda & Hdv & Ht & Hm & ->). exists area, version. split; [done|].
    rewrite NginxMore.ready_block_eq, Hdv, Ht, Hm. apply list_elem_of_here.
Qed.

(** An instance: the version whose [tilejson.json] is not JSON has its
    block. *)
Lemma tile_locations_are_the_ready_versions_witness :
  ∃ l, out (NginxConfig.generate_tile_locations (Examples.sample_env "" 0 0 true)
              Examples.tiles_dir "localhost" Scenarios.broken_tilejson_world) = Done l
       ∧ ("alpha", "v1",
          NginxConfig.version_config "alpha" "v1"
            (Examples.tiles_dir ++ ["alpha"; "v1"; "tilejson.json"])
            (Examples.tiles_dir ++ ["alpha"; "v1"; "tiles"])) ∈ l.
Proof.
  assert (is_dir (w_fs Scenarios.broken_tilejson_world) Examples.tiles_dir = true) as H1
    by (vm_compute; reflexivity).
  destruct (tile_locations_are_the_ready_versions (Examples.sample_env "" 0 0 true)
              Examples.tiles_dir "localhost" Scenarios.broken_tilejson_world H1)
    as (l & Ho & Hl).
  exists l. split; [exact Ho|]. apply Hl.
  split_and!; [vm_compute; reflexivity..|reflexivity].
Defined.

(** Without the tiles directory [main] does not end with an empty
    configuration.  When the tiles directory is not there (after the
    output directory is made): [main] prints that it was not found, writes
    no document, and raises the error of reading the directory, from
    [generate_latest_redirects]. *)
Theorem nginx_main_needs_the_tiles_directory
    (e : env) (w : world) (m1 : gmap path node) :
  let tiles_dir := Path (default "/data/tiles" (getenv e "TILES_DIR")) in
  mkdir_p (w_fs w) NginxConfig.output_dir = Some m1 →
  exists_ m1 tiles_dir = false →
  let r := NginxConfig.main e w in
  out r = Raised (OSError tiles_dir)
  ∧ w_fs (fin r) = m1
  ∧ last (w_log (fin r)) = Some (EvPrint (MsgNotFound tiles_dir)).
Proof.
  intros tiles_dir Hmk Ht%SysFacts.exists_false r. subst r.
  destruct (RunMore.wp_post _ _ _ (NginxMore.main_without_tiles_dir e w m1 Hmk Ht))
    as (Ho & Hf & Hl).
  split_and!; [exact Ho|exact Hf|]. rewrite Hl.
  by rewrite last_app.
Qed.

(** An instance: a machine without [/data]. *)
Lemma nginx_main_needs_the_tiles_directory_witness :
  out (NginxConfig.main (Examples.sample_env "" 0 0 true) Examples.fresh_world)
  = Raised (OSError Examples.tiles_dir).
Proof.
  pose (e := Examples.sample_env "" 0 0 true).
  pose (m1 := <[["etc"; "nginx"; "includes"] := Dir]>
                (<[["etc"; "nginx"] := Dir]>
                   (<[["etc"] := Dir]> (w_fs Examples.fresh_world)))).
  assert (mkdir_p (w_fs Examples.fresh_world) NginxConfig.output_dir = Some m1) as H1
    by (apply (bool_decide_unpack _); vm_compute; exact I).
  assert (exists_ m1 (Path (default "/data/tiles" (getenv e "TILES_DIR"))) = false)
    as H2 by (vm_compute; reflexivity).
  exact (proj1 (nginx_main_needs_the_tiles_directory e Examples.fresh_world m1 H1 H2)).
Defined.

End Behaviour.
